(** * A Restricted Boltzmann Machine: model of [shogun/neuralnets/RBM.cpp]

    The development embeds the member functions of [shogun::RBM] as
    state-passing programs over a small store of numeric buffers and proves
    properties of the training and sampling code.

    - [float64_t] is an abstract scalar ([Arith], [Libm]); it is instantiated
      with IEEE binary64 numbers ([PrimFloat]) to run the code on concrete
      inputs and with the real numbers for the algebraic statements.
    - [SGVector] and [SGMatrix] are handles (pointer, dimensions) into shared
      buffers; copies of a handle alias the same storage, as in the C++ code.
    - [require]/[error] raise a fatal error; an access outside a buffer, a
      non-conforming Eigen expression or an overflowing [int32_t] addition has
      no defined behaviour and yields [Undefined]. *)

From Stdlib Require Import ZArith List String Bool Lia Reals Lra.
From Stdlib Require Import Floats.PrimFloat Uint63.
From stdpp Require Import base tactics option list.

#[local] Open Scope Z_scope.

(** ** Scalars, random engine *)

(** Arithmetic of [float64_t]: conversion from [int32_t] (and, through it,
    every literal of the file), the four operations and the comparisons. *)
Class Arith (F : Type) : Type := {
  of_int : Z -> F;
  fadd : F -> F -> F;
  fsub : F -> F -> F;
  fmul : F -> F -> F;
  fdiv : F -> F -> F;
  fltb : F -> F -> bool;
  fleb : F -> F -> bool
}.

(** [std::exp], [std::log] and [Math::pow] with an integer exponent. *)
Class Libm (F : Type) : Type := {
  fexp : F -> F;
  flog : F -> F;
  fpow : F -> Z -> F
}.

(** The random engine [m_prng] with the three distributions the file draws
    from: [m_uniform_prob] (uniform reals on [0,1)),
    [UniformIntDistribution<int32_t>(a, b)] and
    [NormalDistribution<float64_t>(mu, sigma)]. *)
Class RandomEngine (G F : Type) : Type := {
  uniform_real : G -> F * G;
  uniform_int : Z -> Z -> G -> Z * G;
  normal_real : F -> F -> G -> F * G
}.

(** An integer draw stays between its bounds. *)
Class RandomEngineSpec (G F : Type) `{RandomEngine G F} : Prop := {
  uniform_int_range : forall a b g, a <= b -> a <= fst (uniform_int a b g) <= b
}.

(** ** Handles *)

Inductive ERBMVisibleUnitType : Type :=
  | RBMVUT_BINARY
  | RBMVUT_GAUSSIAN
  | RBMVUT_SOFTMAX.

Inductive ERBMMonitoringMethod : Type :=
  | RBMMM_RECONSTRUCTION_ERROR
  | RBMMM_PSEUDO_LIKELIHOOD.

Definition is_binary (t : ERBMVisibleUnitType) : bool :=
  match t with RBMVUT_BINARY => true | _ => false end.

Definition is_gaussian (t : ERBMVisibleUnitType) : bool :=
  match t with RBMVUT_GAUSSIAN => true | _ => false end.

Definition is_softmax (t : ERBMVisibleUnitType) : bool :=
  match t with RBMVUT_SOFTMAX => true | _ => false end.

(** A [float64_t*]: the null pointer, or block [b] of the store at offset [o]. *)
Inductive ptr : Type :=
  | Null
  | Ptr (b : nat) (o : Z).

Definition ptr_add (p : ptr) (d : Z) : ptr :=
  match p with
  | Null => Null
  | Ptr b o => Ptr b (o + d)
  end.

Record SGVector : Type := mkSGVector { vector : ptr; vlen : Z }.

Record SGMatrix : Type := mkSGMatrix { matrix : ptr; num_rows : Z; num_cols : Z }.

(** The default-constructed handles [SGVector<float64_t>()] and
    [SGMatrix<float64_t>()]. *)
Definition SGVector_empty : SGVector := mkSGVector Null 0.

Definition SGMatrix_empty : SGMatrix := mkSGMatrix Null 0 0.

(** [Eigen::Map<MatrixXd>(p, rows, cols)]; a mapped vector has one column. *)
Record EMap : Type := mkEMap { e_ptr : ptr; e_rows : Z; e_cols : Z }.

Definition EMatrix (p : ptr) (rows cols : Z) : EMap := mkEMap p rows cols.

Definition EVector (p : ptr) (n : Z) : EMap := mkEMap p n 1.

(** The argument of [train]: a null pointer, features of another class, or
    dense [float64_t] features with their feature matrix. *)
Inductive Features : Type :=
  | NullFeatures
  | OtherFeatures
  | DenseFeatures (feature_matrix : SGMatrix).

Definition int32_min : Z := - 2 ^ 31.

Definition int32_max : Z := 2 ^ 31 - 1.

Definition in_int32 (z : Z) : bool := (int32_min <=? z) && (z <=? int32_max).

Section Store.

Context {F : Type} {AF : Arith F} {G : Type} {RE : RandomEngine G F}.

Record RBM : Type := mkRBM {
  cd_num_steps : Z;
  cd_persistent : bool;
  cd_sample_visible : bool;
  l2_coefficient : F;
  l1_coefficient : F;
  monitoring_method : ERBMMonitoringMethod;
  monitoring_interval : Z;
  gd_mini_batch_size : Z;
  max_num_epochs : Z;
  gd_learning_rate : F;
  gd_learning_rate_decay : F;
  gd_momentum : F;
  m_num_hidden : Z;
  m_num_visible : Z;
  m_num_visible_groups : Z;
  m_visible_group_sizes : list Z;
  m_visible_group_types : list ERBMVisibleUnitType;
  m_visible_state_offsets : list Z;
  m_num_params : Z;
  m_batch_size : Z;
  m_params : SGVector;
  hidden_state : SGMatrix;
  visible_state : SGMatrix;
  m_prng : G
}.

Definition set_gd_mini_batch_size (x : Z) (r : RBM) : RBM :=
  mkRBM (r.(cd_num_steps)) (r.(cd_persistent)) (r.(cd_sample_visible))
    (r.(l2_coefficient)) (r.(l1_coefficient)) (r.(monitoring_method))
    (r.(monitoring_interval)) x (r.(max_num_epochs)) (r.(gd_learning_rate))
    (r.(gd_learning_rate_decay)) (r.(gd_momentum)) (r.(m_num_hidden))
    (r.(m_num_visible)) (r.(m_num_visible_groups)) (r.(m_visible_group_sizes))
    (r.(m_visible_group_types)) (r.(m_visible_state_offsets))
    (r.(m_num_params)) (r.(m_batch_size)) (r.(m_params)) (r.(hidden_state))
    (r.(visible_state)) (r.(m_prng)).

Definition set_m_num_hidden (x : Z) (r : RBM) : RBM :=
  mkRBM (r.(cd_num_steps)) (r.(cd_persistent)) (r.(cd_sample_visible))
    (r.(l2_coefficient)) (r.(l1_coefficient)) (r.(monitoring_method))
    (r.(monitoring_interval)) (r.(gd_mini_batch_size)) (r.(max_num_epochs))
    (r.(gd_learning_rate)) (r.(gd_learning_rate_decay)) (r.(gd_momentum)) x
    (r.(m_num_visible)) (r.(m_num_visible_groups)) (r.(m_visible_group_sizes))
    (r.(m_visible_group_types)) (r.(m_visible_state_offsets))
    (r.(m_num_params)) (r.(m_batch_size)) (r.(m_params)) (r.(hidden_state))
    (r.(visible_state)) (r.(m_prng)).

Definition set_m_num_visible (x : Z) (r : RBM) : RBM :=
  mkRBM (r.(cd_num_steps)) (r.(cd_persistent)) (r.(cd_sample_visible))
    (r.(l2_coefficient)) (r.(l1_coefficient)) (r.(monitoring_method))
    (r.(monitoring_interval)) (r.(gd_mini_batch_size)) (r.(max_num_epochs))
    (r.(gd_learning_rate)) (r.(gd_learning_rate_decay)) (r.(gd_momentum))
    (r.(m_num_hidden)) x (r.(m_num_visible_groups))
    (r.(m_visible_group_sizes)) (r.(m_visible_group_types))
    (r.(m_visible_state_offsets)) (r.(m_num_params)) (r.(m_batch_size))
    (r.(m_params)) (r.(hidden_state)) (r.(visible_state)) (r.(m_prng)).

Definition set_m_num_visible_groups (x : Z) (r : RBM) : RBM :=
  mkRBM (r.(cd_num_steps)) (r.(cd_persistent)) (r.(cd_sample_visible))
    (r.(l2_coefficient)) (r.(l1_coefficient)) (r.(monitoring_method))
    (r.(monitoring_interval)) (r.(gd_mini_batch_size)) (r.(max_num_epochs))
    (r.(gd_learning_rate)) (r.(gd_learning_rate_decay)) (r.(gd_momentum))
    (r.(m_num_hidden)) (r.(m_num_visible)) x (r.(m_visible_group_sizes))
    (r.(m_visible_group_types)) (r.(m_visible_state_offsets))
    (r.(m_num_params)) (r.(m_batch_size)) (r.(m_params)) (r.(hidden_state))
    (r.(visible_state)) (r.(m_prng)).

Definition set_m_visible_group_sizes (x : list Z) (r : RBM) : RBM :=
  mkRBM (r.(cd_num_steps)) (r.(cd_persistent)) (r.(cd_sample_visible))
    (r.(l2_coefficient)) (r.(l1_coefficient)) (r.(monitoring_method))
    (r.(monitoring_interval)) (r.(gd_mini_batch_size)) (r.(max_num_epochs))
    (r.(gd_learning_rate)) (r.(gd_learning_rate_decay)) (r.(gd_momentum))
    (r.(m_num_hidden)) (r.(m_num_visible)) (r.(m_num_visible_groups)) x
    (r.(m_visible_group_types)) (r.(m_visible_state_offsets))
    (r.(m_num_params)) (r.(m_batch_size)) (r.(m_params)) (r.(hidden_state))
    (r.(visible_state)) (r.(m_prng)).

Definition set_m_visible_group_types (x : list ERBMVisibleUnitType) (r : RBM) : RBM :=
  mkRBM (r.(cd_num_steps)) (r.(cd_persistent)) (r.(cd_sample_visible))
    (r.(l2_coefficient)) (r.(l1_coefficient)) (r.(monitoring_method))
    (r.(monitoring_interval)) (r.(gd_mini_batch_size)) (r.(max_num_epochs))
    (r.(gd_learning_rate)) (r.(gd_learning_rate_decay)) (r.(gd_momentum))
    (r.(m_num_hidden)) (r.(m_num_visible)) (r.(m_num_visible_groups))
    (r.(m_visible_group_sizes)) x (r.(m_visible_state_offsets))
    (r.(m_num_params)) (r.(m_batch_size)) (r.(m_params)) (r.(hidden_state))
    (r.(visible_state)) (r.(m_prng)).

Definition set_m_visible_state_offsets (x : list Z) (r : RBM) : RBM :=
  mkRBM (r.(cd_num_steps)) (r.(cd_persistent)) (r.(cd_sample_visible))
    (r.(l2_coefficient)) (r.(l1_coefficient)) (r.(monitoring_method))
    (r.(monitoring_interval)) (r.(gd_mini_batch_size)) (r.(max_num_epochs))
    (r.(gd_learning_rate)) (r.(gd_learning_rate_decay)) (r.(gd_momentum))
    (r.(m_num_hidden)) (r.(m_num_visible)) (r.(m_num_visible_groups))
    (r.(m_visible_group_sizes)) (r.(m_visible_group_types)) x
    (r.(m_num_params)) (r.(m_batch_size)) (r.(m_params)) (r.(hidden_state))
    (r.(visible_state)) (r.(m_prng)).

Definition set_m_num_params (x : Z) (r : RBM) : RBM :=
  mkRBM (r.(cd_num_steps)) (r.(cd_persistent)) (r.(cd_sample_visible))
    (r.(l2_coefficient)) (r.(l1_coefficient)) (r.(monitoring_method))
    (r.(monitoring_interval)) (r.(gd_mini_batch_size)) (r.(max_num_epochs))
    (r.(gd_learning_rate)) (r.(gd_learning_rate_decay)) (r.(gd_momentum))
    (r.(m_num_hidden)) (r.(m_num_visible)) (r.(m_num_visible_groups))
    (r.(m_visible_group_sizes)) (r.(m_visible_group_types))
    (r.(m_visible_state_offsets)) x (r.(m_batch_size)) (r.(m_params))
    (r.(hidden_state)) (r.(visible_state)) (r.(m_prng)).

Definition set_m_batch_size (x : Z) (r : RBM) : RBM :=
  mkRBM (r.(cd_num_steps)) (r.(cd_persistent)) (r.(cd_sample_visible))
    (r.(l2_coefficient)) (r.(l1_coefficient)) (r.(monitoring_method))
    (r.(monitoring_interval)) (r.(gd_mini_batch_size)) (r.(max_num_epochs))
    (r.(gd_learning_rate)) (r.(gd_learning_rate_decay)) (r.(gd_momentum))
    (r.(m_num_hidden)) (r.(m_num_visible)) (r.(m_num_visible_groups))
    (r.(m_visible_group_sizes)) (r.(m_visible_group_types))
    (r.(m_visible_state_offsets)) (r.(m_num_params)) x (r.(m_params))
    (r.(hidden_state)) (r.(visible_state)) (r.(m_prng)).

Definition set_m_params (x : SGVector) (r : RBM) : RBM :=
  mkRBM (r.(cd_num_steps)) (r.(cd_persistent)) (r.(cd_sample_visible))
    (r.(l2_coefficient)) (r.(l1_coefficient)) (r.(monitoring_method))
    (r.(monitoring_interval)) (r.(gd_mini_batch_size)) (r.(max_num_epochs))
    (r.(gd_learning_rate)) (r.(gd_learning_rate_decay)) (r.(gd_momentum))
    (r.(m_num_hidden)) (r.(m_num_visible)) (r.(m_num_visible_groups))
    (r.(m_visible_group_sizes)) (r.(m_visible_group_types))
    (r.(m_visible_state_offsets)) (r.(m_num_params)) (r.(m_batch_size)) x
    (r.(hidden_state)) (r.(visible_state)) (r.(m_prng)).

Definition set_hidden_state (x : SGMatrix) (r : RBM) : RBM :=
  mkRBM (r.(cd_num_steps)) (r.(cd_persistent)) (r.(cd_sample_visible))
    (r.(l2_coefficient)) (r.(l1_coefficient)) (r.(monitoring_method))
    (r.(monitoring_interval)) (r.(gd_mini_batch_size)) (r.(max_num_epochs))
    (r.(gd_learning_rate)) (r.(gd_learning_rate_decay)) (r.(gd_momentum))
    (r.(m_num_hidden)) (r.(m_num_visible)) (r.(m_num_visible_groups))
    (r.(m_visible_group_sizes)) (r.(m_visible_group_types))
    (r.(m_visible_state_offsets)) (r.(m_num_params)) (r.(m_batch_size))
    (r.(m_params)) x (r.(visible_state)) (r.(m_prng)).

Definition set_visible_state (x : SGMatrix) (r : RBM) : RBM :=
  mkRBM (r.(cd_num_steps)) (r.(cd_persistent)) (r.(cd_sample_visible))
    (r.(l2_coefficient)) (r.(l1_coefficient)) (r.(monitoring_method))
    (r.(monitoring_interval)) (r.(gd_mini_batch_size)) (r.(max_num_epochs))
    (r.(gd_learning_rate)) (r.(gd_learning_rate_decay)) (r.(gd_momentum))
    (r.(m_num_hidden)) (r.(m_num_visible)) (r.(m_num_visible_groups))
    (r.(m_visible_group_sizes)) (r.(m_visible_group_types))
    (r.(m_visible_state_offsets)) (r.(m_num_params)) (r.(m_batch_size))
    (r.(m_params)) (r.(hidden_state)) x (r.(m_prng)).

Definition set_m_prng (x : G) (r : RBM) : RBM :=
  mkRBM (r.(cd_num_steps)) (r.(cd_persistent)) (r.(cd_sample_visible))
    (r.(l2_coefficient)) (r.(l1_coefficient)) (r.(monitoring_method))
    (r.(monitoring_interval)) (r.(gd_mini_batch_size)) (r.(max_num_epochs))
    (r.(gd_learning_rate)) (r.(gd_learning_rate_decay)) (r.(gd_momentum))
    (r.(m_num_hidden)) (r.(m_num_visible)) (r.(m_num_visible_groups))
    (r.(m_visible_group_sizes)) (r.(m_visible_group_types))
    (r.(m_visible_state_offsets)) (r.(m_num_params)) (r.(m_batch_size))
    (r.(m_params)) (r.(hidden_state)) (r.(visible_state)) x.
(** The machine: the object's fields and the store its handles point into. *)
Record World : Type := mkWorld { rbm : RBM; heap : list (list F) }.

(** ** The monad of member functions *)

Inductive outcome (A : Type) : Type :=
  | Ok (a : A) (w : World)
  | Fatal (fmt : string) (args : list Z) (w : World)
  | Undefined.

#[global] Arguments Ok {A} a w.
#[global] Arguments Fatal {A} fmt args w.
#[global] Arguments Undefined {A}.

Definition M (A : Type) : Type := World -> outcome A.

Definition ret {A : Type} (a : A) : M A := fun w => Ok a w.

Definition bind {A B : Type} (c : M A) (k : A -> M B) : M B :=
  fun w =>
    match c w with
    | Ok a w' => k a w'
    | Fatal fmt args w' => Fatal fmt args w'
    | Undefined => Undefined
    end.

Definition undefined {A : Type} : M A := fun _ => Undefined.

Definition get_rbm : M RBM := fun w => Ok (rbm w) w.

Definition get_world : M World := fun w => Ok w w.

Definition modify_rbm (f : RBM -> RBM) : M unit :=
  fun w => Ok tt (mkWorld (f (rbm w)) (heap w)).

(** [require(cond, fmt, args...)] and [error(fmt)]. *)
Definition require (cond : bool) (fmt : string) (args : list Z) : M unit :=
  fun w => if cond then Ok tt w else Fatal fmt args w.

Definition error {A : Type} (fmt : string) : M A := fun w => Fatal fmt [] w.

(** A condition the C++ code relies on without checking it. *)
Definition assume (cond : bool) : M unit :=
  fun w => if cond then Ok tt w else Undefined.

End Store.

#[global] Arguments RBM : clear implicits.
#[global] Arguments World : clear implicits.
#[global] Arguments outcome : clear implicits.
#[global] Arguments M : clear implicits.

Declare Scope M_scope.
Delimit Scope M_scope with M.
Notation "x <- c ;; k" := (bind c (fun x => k))
  (at level 20, c at level 99, k at level 200, only parsing) : M_scope.
Notation "c ;; k" := (bind c (fun _ => k))
  (at level 100, k at level 200, only parsing, right associativity) : M_scope.


Section Model.

Context {F : Type} {AF : Arith F} {LF : Libm F} {G : Type} {RE : RandomEngine G F}.

#[local] Open Scope M_scope.

#[local] Abbreviation RBM := (RBM F G).
#[local] Abbreviation World := (World F G).
#[local] Abbreviation M := (M F G).

(** ** Store accesses *)

Definition lookupZ {A : Type} (l : list A) (i : Z) : option A :=
  if 0 <=? i then l !! Z.to_nat i else None.

(** [p[i]] read as a value of the store, when it lies inside its block. *)
Definition peek (w : World) (p : ptr) (i : Z) : option F :=
  match p with
  | Null => None
  | Ptr b o =>
      match heap w !! b with
      | Some buf => lookupZ buf (o + i)
      | None => None
      end
  end.

(** The store after [p[i] = v]. *)
Definition poke (w : World) (p : ptr) (i : Z) (v : F) : World :=
  match p with
  | Null => w
  | Ptr b o =>
      match heap w !! b with
      | Some buf => mkWorld (rbm w) (<[b := <[Z.to_nat (o + i) := v]> buf]> (heap w))
      | None => w
      end
  end.

Definition load (p : ptr) (i : Z) : M F :=
  fun w =>
    match peek w p i with
    | Some x => Ok x w
    | None => Undefined
    end.

Definition store (p : ptr) (i : Z) (v : F) : M unit :=
  fun w =>
    match peek w p i with
    | Some _ => Ok tt (poke w p i v)
    | None => Undefined
    end.

(** [v[i]] of a [std::vector]. *)
Definition at_ {A : Type} (v : list A) (i : Z) : M A :=
  fun w =>
    match lookupZ v i with
    | Some x => Ok x w
    | None => Undefined
    end.

(** Storage for [n] numbers. The constructors of [SGVector] and [SGMatrix]
    are declared outside this file; new storage is taken as zero-filled. *)
Definition new_block (n : Z) : M ptr :=
  fun w =>
    if 0 <=? n
    then Ok (Ptr (length (heap w)) 0)
            (mkWorld (rbm w) (heap w ++ [replicate (Z.to_nat n) (of_int 0)]))
    else Undefined.

Definition SGVector_new (len : Z) : M SGVector :=
  p <- new_block len ;; ret (mkSGVector p len).

Definition SGMatrix_new (nrows ncols : Z) : M SGMatrix :=
  assume ((0 <=? nrows) && (0 <=? ncols)) ;;
  p <- new_block (nrows * ncols) ;; ret (mkSGMatrix p nrows ncols).

(** [m(i,j)] (column-major), [m[i]] and [v[i]]. *)
Definition mat_get (m : SGMatrix) (i j : Z) : M F :=
  load (matrix m) (j * num_rows m + i).

Definition mat_set (m : SGMatrix) (i j : Z) (v : F) : M unit :=
  store (matrix m) (j * num_rows m + i) v.

Definition lin_get (m : SGMatrix) (i : Z) : M F := load (matrix m) i.

Definition lin_set (m : SGMatrix) (i : Z) (v : F) : M unit := store (matrix m) i v.

Definition vec_get (v : SGVector) (i : Z) : M F := load (vector v) i.

Definition vec_set (v : SGVector) (i : Z) (x : F) : M unit := store (vector v) i x.

(** ** Random draws *)

Definition draw_uniform : M F :=
  fun w =>
    let (x, g) := uniform_real (m_prng (rbm w)) in
    Ok x (mkWorld (set_m_prng g (rbm w)) (heap w)).

Definition draw_int (a b : Z) : M Z :=
  fun w =>
    let (x, g) := uniform_int a b (m_prng (rbm w)) in
    Ok x (mkWorld (set_m_prng g (rbm w)) (heap w)).

Definition draw_normal (mu sigma : F) : M F :=
  fun w =>
    let (x, g) := normal_real mu sigma (m_prng (rbm w)) in
    Ok x (mkWorld (set_m_prng g (rbm w)) (heap w)).

(** ** Loops *)

Fixpoint iter_for {A : Type} (n : nat) (i : Z) (body : Z -> A -> M A) (a : A) : M A :=
  match n with
  | O => ret a
  | S n' => a' <- body i a ;; iter_for n' (i + 1) body a'
  end.

(** [for (i = lo; i < hi; i++) a = body(i, a);] *)
Definition fold_for {A : Type} (lo hi : Z) (body : Z -> A -> M A) (a : A) : M A :=
  iter_for (Z.to_nat (hi - lo)) lo body a.

Definition for_ (lo hi : Z) (body : Z -> M unit) : M unit :=
  fold_for lo hi (fun i _ => body i) tt.

(** ** Literals and conversions *)

Definition f0 : F := of_int 0.

Definition f1 : F := of_int 1.

Definition fm1 : F := of_int (-1).

(** [0.5], [0.1] and [0.9]: the correctly rounded quotients. *)
Definition fhalf : F := fdiv (of_int 1) (of_int 2).

Definition ftenth : F := fdiv (of_int 1) (of_int 10).

Definition fninetenths : F := fdiv (of_int 9) (of_int 10).

(** [bool] to [float64_t]. *)
Definition b2f (b : bool) : F := if b then f1 else f0.

(** [1.0 / (1.0 + std::exp(-1.0 * x))] *)
Definition sigmoid (x : F) : F := fdiv f1 (fadd f1 (fexp (fmul fm1 x))).

(** ** Eigen expressions

    An assignment to a mapped matrix evaluates its right-hand side on the
    store as it is before the assignment and then writes every coefficient.
    Sums run over ascending indices. *)

Definition emap_ok (w : World) (m : EMap) : bool :=
  match e_ptr m with
  | Null => false
  | Ptr b o =>
      match heap w !! b with
      | Some buf =>
          (0 <=? e_rows m) && (0 <=? e_cols m) && (0 <=? o)
          && (o + e_rows m * e_cols m <=? Z.of_nat (length buf))
      | None => false
      end
  end.

(** Coefficient [(i,j)] of a mapped matrix. *)
Definition eget (w : World) (m : EMap) (i j : Z) : F :=
  default f0 (peek w (e_ptr m) (j * e_rows m + i)).

Fixpoint fsum_from (n : nat) (k : Z) (f : Z -> F) (acc : F) : F :=
  match n with
  | O => acc
  | S n' => fsum_from n' (k + 1) f (fadd acc (f k))
  end.

(** [f 0 + f 1 + ... + f (n-1)], accumulated from [0]. *)
Definition fsum (n : Z) (f : Z -> F) : F := fsum_from (Z.to_nat n) 0 f f0.

(** The block of [m] with every coefficient [(i,j)] replaced by [f i j]. *)
Definition fill_block (m : EMap) (o : Z) (f : Z -> Z -> F) (buf : list F) : list F :=
  imap (fun k x =>
          let d := Z.of_nat k - o in
          if (0 <=? d) && (d <? e_rows m * e_cols m)
          then f (d mod e_rows m) (d / e_rows m)
          else x) buf.

Definition write_map (w : World) (m : EMap) (f : Z -> Z -> F) : World :=
  match e_ptr m with
  | Null => w
  | Ptr b o =>
      match heap w !! b with
      | Some buf => mkWorld (rbm w) (<[b := fill_block m o f buf]> (heap w))
      | None => w
      end
  end.

(** [dst = rhs;] where [rhs] reads the maps [srcs] and [conform] holds the
    dimension requirements of the expression. *)
Definition eigen_assign (srcs : list EMap) (conform : bool) (dst : EMap)
    (rhs : World -> Z -> Z -> F) : M unit :=
  fun w =>
    if conform && forallb (emap_ok w) (dst :: srcs)
    then Ok tt (write_map w dst (rhs w))
    else Undefined.

(** A scalar read off mapped matrices, such as [v.sum()]. *)
Definition eigen_eval (srcs : list EMap) (rhs : World -> F) : M F :=
  fun w => if forallb (emap_ok w) srcs then Ok (rhs w) w else Undefined.

(** [(a * b)(i,j)], [(a.transpose() * b)(i,j)], [(a * b.transpose())(i,j)]
    and [a.rowwise().sum()(i)]. *)
Definition e_mul (w : World) (a b : EMap) (i j : Z) : F :=
  fsum (e_cols a) (fun k => fmul (eget w a i k) (eget w b k j)).

Definition e_tmul (w : World) (a b : EMap) (i j : Z) : F :=
  fsum (e_rows a) (fun k => fmul (eget w a k i) (eget w b k j)).

Definition e_mult (w : World) (a b : EMap) (i j : Z) : F :=
  fsum (e_cols a) (fun k => fmul (eget w a i k) (eget w b j k)).

Definition e_rowsum (w : World) (a : EMap) (i : Z) : F :=
  fsum (e_cols a) (fun j => eget w a i j).

(** ** Parameter views *)

Definition get_weights (r : RBM) (p : SGVector) : SGMatrix :=
  if vlen p =? 0
  then mkSGMatrix (ptr_add (vector (m_params r)) (m_num_visible r))
         (m_num_hidden r) (m_num_visible r)
  else mkSGMatrix (ptr_add (vector p) (m_num_visible r))
         (m_num_hidden r) (m_num_visible r).

Definition get_hidden_bias (r : RBM) (p : SGVector) : SGVector :=
  if vlen p =? 0
  then mkSGVector
         (ptr_add (vector (m_params r))
            (m_num_visible r + m_num_visible r * m_num_hidden r))
         (m_num_hidden r)
  else mkSGVector
         (ptr_add (vector p) (m_num_visible r + m_num_visible r * m_num_hidden r))
         (m_num_hidden r).

Definition get_visible_bias (r : RBM) (p : SGVector) : SGVector :=
  if vlen p =? 0
  then mkSGVector (vector (m_params r)) (m_num_visible r)
  else mkSGVector (vector p) (m_num_visible r).

(** ** Construction and the unit-group registry *)

(** [RBM::init], given the state of the random engine. *)
Definition init (g : G) : RBM :=
  {| cd_num_steps := 1;
     cd_persistent := true;
     cd_sample_visible := false;
     l2_coefficient := f0;
     l1_coefficient := f0;
     monitoring_method := RBMMM_RECONSTRUCTION_ERROR;
     monitoring_interval := 10;
     gd_mini_batch_size := 0;
     max_num_epochs := 1;
     gd_learning_rate := ftenth;
     gd_learning_rate_decay := f1;
     gd_momentum := fninetenths;
     m_num_hidden := 0;
     m_num_visible := 0;
     m_num_visible_groups := 0;
     m_visible_group_sizes := [];
     m_visible_group_types := [];
     m_visible_state_offsets := [];
     m_num_params := 0;
     m_batch_size := 0;
     m_params := SGVector_empty;
     hidden_state := SGMatrix_empty;
     visible_state := SGMatrix_empty;
     m_prng := g |}.

(** An [int32_t] sum; signed overflow has no defined behaviour. *)
Definition add32 (a b : Z) : M Z :=
  assume (in_int32 (a + b)) ;; ret (a + b).

Definition mul32 (a b : Z) : M Z :=
  assume (in_int32 (a * b)) ;; ret (a * b).

Definition add_visible_group (num_units : Z) (unit_type : ERBMVisibleUnitType) : M unit :=
  r <- get_rbm ;;
  groups <- add32 (m_num_visible_groups r) 1 ;;
  modify_rbm (set_m_num_visible_groups groups) ;;
  visible <- add32 (m_num_visible r) num_units ;;
  modify_rbm (set_m_num_visible visible) ;;
  modify_rbm (set_m_visible_group_sizes (m_visible_group_sizes r ++ [num_units])) ;;
  modify_rbm (set_m_visible_group_types (m_visible_group_types r ++ [unit_type])) ;;
  r <- get_rbm ;;
  let n := Z.of_nat (length (m_visible_state_offsets r)) in
  if n =? 0
  then modify_rbm (set_m_visible_state_offsets (m_visible_state_offsets r ++ [0]))
  else
    o <- at_ (m_visible_state_offsets r) (n - 1) ;;
    s <- at_ (m_visible_group_sizes r) (n - 1) ;;
    next <- add32 o s ;;
    modify_rbm (set_m_visible_state_offsets (m_visible_state_offsets r ++ [next])).

(** The constructors [RBM()], [RBM(num_hidden)] and
    [RBM(num_hidden, num_visible, visible_unit_type)], run on a store. *)
Definition RBM_default (g : G) (h : list (list F)) : World := mkWorld (init g) h.

Definition RBM_hidden (num_hidden : Z) (g : G) (h : list (list F)) : World :=
  mkWorld (set_m_num_hidden num_hidden (init g)) h.

Definition RBM_new (num_hidden num_visible : Z) (visible_unit_type : ERBMVisibleUnitType)
    (g : G) (h : list (list F)) : outcome F G unit :=
  add_visible_group num_visible visible_unit_type (RBM_hidden num_hidden g h).

Definition initialize_neural_network (sigma : F) : M unit :=
  r <- get_rbm ;;
  wsize <- mul32 (m_num_visible r) (m_num_hidden r) ;;
  biases <- add32 (m_num_visible r) (m_num_hidden r) ;;
  n <- add32 biases wsize ;;
  modify_rbm (set_m_num_params n) ;;
  p <- SGVector_new n ;;
  modify_rbm (set_m_params p) ;;
  for_ 0 n (fun i => x <- draw_normal f0 sigma ;; vec_set p i x).

(** ** Batch state *)

Definition reset_chain : M unit :=
  r <- get_rbm ;;
  for_ 0 (m_num_visible r) (fun i =>
    for_ 0 (m_batch_size r) (fun j =>
      u <- draw_uniform ;;
      mat_set (visible_state r) i j (b2f (fltb fhalf u)))).

Definition set_batch_size (batch_size : Z) : M unit :=
  r <- get_rbm ;;
  if m_batch_size r =? batch_size then ret tt
  else
    modify_rbm (set_m_batch_size batch_size) ;;
    h <- SGMatrix_new (m_num_hidden r) batch_size ;;
    modify_rbm (set_hidden_state h) ;;
    v <- SGMatrix_new (m_num_visible r) batch_size ;;
    modify_rbm (set_visible_state v) ;;
    reset_chain.

(** ** Inference *)

Definition mean_hidden (visible result : SGMatrix) : M unit :=
  r <- get_rbm ;;
  let V := EMatrix (matrix visible) (num_rows visible) (num_cols visible) in
  let H := EMatrix (matrix result) (num_rows result) (num_cols result) in
  let W := EMatrix (matrix (get_weights r SGVector_empty))
             (m_num_hidden r) (m_num_visible r) in
  let C := EVector (vector (get_hidden_bias r SGVector_empty)) (m_num_hidden r) in
  (* H.colwise() = C; *)
  eigen_assign [C] (e_rows H =? e_rows C) H (fun w i j => eget w C i 0) ;;
  (* H += W*V; *)
  eigen_assign [W; V]
    ((e_cols W =? e_rows V) && (e_rows H =? e_rows W) && (e_cols H =? e_cols V)) H
    (fun w i j => fadd (eget w H i j) (e_mul w W V i j)) ;;
  let len := num_rows result * num_cols result in
  for_ 0 len (fun i => x <- lin_get result i ;; lin_set result i (sigmoid x)).

(** The softmax branch of [mean_visible] for the group at [offset]. *)
Definition mean_visible_softmax (result : SGMatrix) (offset size batch : Z) : M unit :=
  max0 <- mat_get result offset 0 ;;
  max <- fold_for 0 size (fun i max =>
           fold_for 0 batch (fun j max =>
             x <- mat_get result (i + offset) j ;;
             ret (if fltb max x then x else max)) max) max0 ;;
  for_ 0 batch (fun j =>
    sum <- fold_for 0 size (fun i sum =>
             x <- mat_get result (i + offset) j ;;
             ret (fadd sum (fexp (fsub x max)))) f0 ;;
    let normalizer := flog sum in
    for_ 0 size (fun i =>
      x <- mat_get result (i + offset) j ;;
      mat_set result (i + offset) j (fexp (fsub (fsub x max) normalizer)))).

Definition mean_visible_group (result : SGMatrix) (k : Z) : M unit :=
  r <- get_rbm ;;
  offset <- at_ (m_visible_state_offsets r) k ;;
  t <- at_ (m_visible_group_types r) k ;;
  (if is_binary t
   then
     size <- at_ (m_visible_group_sizes r) k ;;
     for_ 0 size (fun i =>
       for_ 0 (m_batch_size r) (fun j =>
         x <- mat_get result (i + offset) j ;;
         mat_set result (i + offset) j (sigmoid x)))
   else ret tt) ;;
  if is_softmax t
  then
    size <- at_ (m_visible_group_sizes r) k ;;
    mean_visible_softmax result offset size (m_batch_size r)
  else ret tt.

Definition mean_visible (hidden result : SGMatrix) : M unit :=
  r <- get_rbm ;;
  let H := EMatrix (matrix hidden) (num_rows hidden) (num_cols hidden) in
  let V := EMatrix (matrix result) (num_rows result) (num_cols result) in
  let W := EMatrix (matrix (get_weights r SGVector_empty))
             (m_num_hidden r) (m_num_visible r) in
  let B := EVector (vector (get_visible_bias r SGVector_empty)) (m_num_visible r) in
  (* V.colwise() = B; *)
  eigen_assign [B] (e_rows V =? e_rows B) V (fun w i j => eget w B i 0) ;;
  (* V += W.transpose()*H; *)
  eigen_assign [W; H]
    ((e_rows W =? e_rows H) && (e_rows V =? e_cols W) && (e_cols V =? e_cols H)) V
    (fun w i j => fadd (eget w V i j) (e_tmul w W H i j)) ;;
  for_ 0 (m_num_visible_groups r) (fun k => mean_visible_group result k).

Definition sample_hidden (mean result : SGMatrix) : M unit :=
  let length := num_rows result * num_cols result in
  for_ 0 length (fun i =>
    u <- draw_uniform ;;
    m <- lin_get mean i ;;
    lin_set result i (b2f (fltb u m))).

(** The inner loop of the softmax branch of [sample_visible]: units
    [i, i+1, ...] of column [j], [n] of them left, with the running [sum]. *)
Fixpoint sample_visible_pick (mean result : SGMatrix) (offset j r : Z)
    (n : nat) (i : Z) (sum : F) : M unit :=
  match n with
  | O => ret tt
  | S n' =>
      m <- mat_get mean (i + offset) j ;;
      let sum := fadd sum m in
      if fleb (of_int r) sum
      then mat_set result (i + offset) j f1
      else sample_visible_pick mean result offset j r n' (i + 1) sum
  end.

(** [sample_visible(index, mean, result)] *)
Definition sample_visible_index (index : Z) (mean result : SGMatrix) : M unit :=
  r <- get_rbm ;;
  offset <- at_ (m_visible_state_offsets r) index ;;
  t <- at_ (m_visible_group_types r) index ;;
  (if is_binary t
   then
     size <- at_ (m_visible_group_sizes r) index ;;
     for_ 0 size (fun i =>
       for_ 0 (m_batch_size r) (fun j =>
         u <- draw_uniform ;;
         m <- mat_get mean (i + offset) j ;;
         mat_set result (i + offset) j (b2f (fltb u m))))
   else ret tt) ;;
  if is_softmax t
  then
    size <- at_ (m_visible_group_sizes r) index ;;
    for_ 0 size (fun i =>
      for_ 0 (m_batch_size r) (fun j => mat_set result (i + offset) j f0)) ;;
    (* UniformIntDistribution<int32_t> uniform_int_dist(0, 1); *)
    for_ 0 (m_batch_size r) (fun j =>
      rd <- draw_int 0 1 ;;
      sample_visible_pick mean result offset j rd (Z.to_nat size) 0 f0)
  else ret tt.

(** [sample_visible(mean, result)] *)
Definition sample_visible (mean result : SGMatrix) : M unit :=
  r <- get_rbm ;;
  for_ 0 (m_num_visible_groups r) (fun k => sample_visible_index k mean result).

(** ** Energy and gradients *)

Definition emap_get (m : EMap) (i j : Z) : M F := load (e_ptr m) (j * e_rows m + i).

Definition free_energy (visible buffer : SGMatrix) : M F :=
  set_batch_size (num_cols visible) ;;
  r <- get_rbm ;;
  buffer <- (if num_rows buffer =? 0
             then SGMatrix_new (m_num_hidden r) (m_batch_size r)
             else ret buffer) ;;
  let V := EMatrix (matrix visible) (num_rows visible) (num_cols visible) in
  let W := EMatrix (matrix (get_weights r SGVector_empty))
             (m_num_hidden r) (m_num_visible r) in
  let B := EVector (vector (get_visible_bias r SGVector_empty)) (m_num_visible r) in
  let C := EVector (vector (get_hidden_bias r SGVector_empty)) (m_num_hidden r) in
  let bv_buffer := EVector (matrix buffer) (m_batch_size r) in
  let wv_buffer := EMatrix (matrix buffer) (m_num_hidden r) (m_batch_size r) in
  (* bv_buffer = B.transpose()*V; *)
  eigen_assign [B; V] ((e_rows B =? e_rows V) && (e_rows bv_buffer =? e_cols V))
    bv_buffer (fun w j _ => e_tmul w B V 0 j) ;;
  bv_term <- eigen_eval [bv_buffer]
               (fun w => fsum (e_rows bv_buffer) (fun j => eget w bv_buffer j 0)) ;;
  (* wv_buffer.colwise() = C; *)
  eigen_assign [C] (e_rows wv_buffer =? e_rows C) wv_buffer
    (fun w i j => eget w C i 0) ;;
  (* wv_buffer += W*V; *)
  eigen_assign [W; V]
    ((e_cols W =? e_rows V) && (e_rows wv_buffer =? e_rows W)
     && (e_cols wv_buffer =? e_cols V)) wv_buffer
    (fun w i j => fadd (eget w wv_buffer i j) (e_mul w W V i j)) ;;
  wv_term <- fold_for 0 (m_num_hidden r) (fun i wv_term =>
               fold_for 0 (m_batch_size r) (fun j wv_term =>
                 x <- emap_get wv_buffer i j ;;
                 ret (fadd wv_term (flog (fadd f1 (fexp x))))) wv_term) f0 ;;
  let F0 := fdiv (fmul fm1 (fadd bv_term wv_term)) (of_int (m_batch_size r)) in
  fold_for 0 (m_num_visible_groups r) (fun k Fk =>
    t <- at_ (m_visible_group_types r) k ;;
    if is_gaussian t
    then
      offset <- at_ (m_visible_state_offsets r) k ;;
      size <- at_ (m_visible_group_sizes r) k ;;
      fold_for 0 size (fun i Fk =>
        fold_for 0 (m_batch_size r) (fun j Fk =>
          x <- mat_get visible (i + offset) j ;;
          ret (fadd Fk (fdiv (fmul fhalf (fpow x 2)) (of_int (m_batch_size r))))) Fk) Fk
    else ret Fk) F0.

Definition free_energy_gradients (visible : SGMatrix) (gradients : SGVector)
    (positive_phase : bool) (hidden_mean_given_visible : SGMatrix) : M unit :=
  set_batch_size (num_cols visible) ;;
  r <- get_rbm ;;
  hidden_mean_given_visible <-
    (if num_rows hidden_mean_given_visible =? 0
     then
       h <- SGMatrix_new (m_num_hidden r) (m_batch_size r) ;;
       mean_hidden visible h ;;
       ret h
     else ret hidden_mean_given_visible) ;;
  let bs := of_int (m_batch_size r) in
  let V := EMatrix (matrix visible) (num_rows visible) (num_cols visible) in
  let PH := EMatrix (matrix hidden_mean_given_visible)
              (m_num_hidden r) (m_batch_size r) in
  let WG := EMatrix (matrix (get_weights r gradients))
              (m_num_hidden r) (m_num_visible r) in
  let BG := EVector (vector (get_visible_bias r gradients)) (m_num_visible r) in
  let CG := EVector (vector (get_hidden_bias r gradients)) (m_num_hidden r) in
  if positive_phase
  then
    (* WG = -1*PH*V.transpose()/m_batch_size; *)
    eigen_assign [PH; V]
      ((e_cols PH =? e_cols V) && (e_rows WG =? e_rows PH) && (e_cols WG =? e_rows V))
      WG (fun w i k =>
            fdiv (fsum (e_cols PH)
                    (fun j => fmul (fmul fm1 (eget w PH i j)) (eget w V k j))) bs) ;;
    (* BG = -1*V.rowwise().sum()/m_batch_size; *)
    eigen_assign [V] (e_rows BG =? e_rows V) BG
      (fun w k _ => fdiv (fmul fm1 (e_rowsum w V k)) bs) ;;
    (* CG = -1*PH.rowwise().sum()/m_batch_size; *)
    eigen_assign [PH] (e_rows CG =? e_rows PH) CG
      (fun w i _ => fdiv (fmul fm1 (e_rowsum w PH i)) bs)
  else
    (* WG += PH*V.transpose()/m_batch_size; *)
    eigen_assign [PH; V]
      ((e_cols PH =? e_cols V) && (e_rows WG =? e_rows PH) && (e_cols WG =? e_rows V))
      WG (fun w i k => fadd (eget w WG i k) (fdiv (e_mult w PH V i k) bs)) ;;
    (* BG += V.rowwise().sum()/m_batch_size; *)
    eigen_assign [V] (e_rows BG =? e_rows V) BG
      (fun w k _ => fadd (eget w BG k 0) (fdiv (e_rowsum w V k) bs)) ;;
    (* CG += PH.rowwise().sum()/m_batch_size; *)
    eigen_assign [PH] (e_rows CG =? e_rows PH) CG
      (fun w i _ => fadd (eget w CG i 0) (fdiv (e_rowsum w PH i) bs)).

(** One of the two penalty loops of [contrastive_divergence]. *)
Definition penalty (coefficient : F) (gradients : SGVector) : M unit :=
  r <- get_rbm ;;
  if fltb f0 coefficient
  then
    let len := m_num_hidden r * m_num_visible r in
    for_ 0 len (fun i =>
      g <- vec_get gradients (i + m_num_visible r + m_num_hidden r) ;;
      p <- vec_get (m_params r) (i + m_num_visible r + m_num_hidden r) ;;
      vec_set gradients (i + m_num_visible r + m_num_hidden r)
        (fadd g (fmul coefficient p)))
  else ret tt.

(** The regularization step that ends [contrastive_divergence]. *)
Definition regularization (gradients : SGVector) : M unit :=
  r <- get_rbm ;;
  penalty (l2_coefficient r) gradients ;;
  penalty (l1_coefficient r) gradients.

Definition contrastive_divergence (visible_batch : SGMatrix) (gradients : SGVector) : M unit :=
  set_batch_size (num_cols visible_batch) ;;
  r <- get_rbm ;;
  (* positive phase *)
  mean_hidden visible_batch (hidden_state r) ;;
  free_energy_gradients visible_batch gradients true (hidden_state r) ;;
  (* sampling *)
  for_ 0 (cd_num_steps r) (fun i =>
    (if (0 <? i) || cd_persistent r
     then mean_hidden (visible_state r) (hidden_state r)
     else ret tt) ;;
    sample_hidden (hidden_state r) (hidden_state r) ;;
    mean_visible (hidden_state r) (visible_state r) ;;
    if cd_sample_visible r
    then sample_visible (visible_state r) (visible_state r)
    else ret tt) ;;
  (* negative phase *)
  mean_hidden (visible_state r) (hidden_state r) ;;
  free_energy_gradients (visible_state r) gradients false (hidden_state r) ;;
  regularization gradients.

Definition reconstruction_error (visible buffer : SGMatrix) : M F :=
  set_batch_size (num_cols visible) ;;
  r <- get_rbm ;;
  buffer <- (if num_rows buffer =? 0
             then SGMatrix_new (m_num_visible r) (m_batch_size r)
             else ret buffer) ;;
  mean_hidden visible (hidden_state r) ;;
  sample_hidden (hidden_state r) (hidden_state r) ;;
  mean_visible (hidden_state r) buffer ;;
  let len := m_num_visible r * m_batch_size r in
  error <- fold_for 0 len (fun i error =>
             b <- lin_get buffer i ;;
             v <- lin_get visible i ;;
             ret (fadd error (fpow (fsub b v) 2))) f0 ;;
  ret (fdiv error (of_int (m_batch_size r))).

(** [random::fill_array(indices, a, b, m_prng)] on a fresh vector of [n]
    integers. *)
Fixpoint fill_array_int (n : nat) (a b : Z) : M (list Z) :=
  match n with
  | O => ret []
  | S n' => x <- draw_int a b ;; l <- fill_array_int n' a b ;; ret (x :: l)
  end.

Definition flip_indices (visible : SGMatrix) (indices : list Z) (batch : Z) : M unit :=
  for_ 0 batch (fun j =>
    i <- at_ indices j ;;
    x <- mat_get visible i j ;;
    mat_set visible i j (fsub f1 x)).

Definition pseudo_likelihood (visible buffer : SGMatrix) : M F :=
  r <- get_rbm ;;
  for_ 0 (m_num_visible_groups r) (fun k =>
    t <- at_ (m_visible_group_types r) k ;;
    if is_binary t then ret tt
    else error "Pseudo-likelihood is only supported for binary visible units") ;;
  set_batch_size (num_cols visible) ;;
  r <- get_rbm ;;
  buffer <- (if num_rows buffer =? 0
             then SGMatrix_new (m_num_hidden r) (m_batch_size r)
             else ret buffer) ;;
  (* SGVector<int32_t> indices(m_batch_size); *)
  assume (0 <=? m_batch_size r) ;;
  indices <- fill_array_int (Z.to_nat (m_batch_size r)) 0 (m_num_visible r - 1) ;;
  e1 <- free_energy visible buffer ;;
  flip_indices visible indices (m_batch_size r) ;;
  e2 <- free_energy visible buffer ;;
  flip_indices visible indices (m_batch_size r) ;;
  ret (fmul (of_int (m_num_visible r))
         (flog (fdiv f1 (fadd f1 (fexp (fsub e1 e2)))))).

(** ** Sampling *)

Definition sample (num_gibbs_steps batch_size : Z) : M unit :=
  set_batch_size batch_size ;;
  r <- get_rbm ;;
  for_ 0 num_gibbs_steps (fun i =>
    mean_hidden (visible_state r) (hidden_state r) ;;
    sample_hidden (hidden_state r) (hidden_state r) ;;
    mean_visible (hidden_state r) (visible_state r) ;;
    if i <? num_gibbs_steps - 1
    then sample_visible (visible_state r) (visible_state r)
    else ret tt).

Definition out_of_bounds : string := "Visible group index ({}) out of bounds ({})".

(** The rows of group [V] of the visible state, copied into a new matrix. *)
Definition copy_group (V : Z) : M SGMatrix :=
  r <- get_rbm ;;
  size <- at_ (m_visible_group_sizes r) V ;;
  result <- SGMatrix_new size (m_batch_size r) ;;
  offset <- at_ (m_visible_state_offsets r) V ;;
  for_ 0 size (fun i =>
    for_ 0 (m_batch_size r) (fun j =>
      x <- mat_get (visible_state r) (i + offset) j ;;
      mat_set result i j x)) ;;
  ret result.

Definition sample_group (V num_gibbs_steps batch_size : Z) : M SGMatrix :=
  r <- get_rbm ;;
  require (V <? m_num_visible_groups r) out_of_bounds [V; m_num_visible r] ;;
  sample num_gibbs_steps batch_size ;;
  copy_group V.

(** The evidence rows written over group [E] of the visible state. *)
Definition clamp (evidence_matrix : SGMatrix) (offset size : Z) : M unit :=
  r <- get_rbm ;;
  for_ 0 size (fun i =>
    for_ 0 (m_batch_size r) (fun j =>
      x <- mat_get evidence_matrix i j ;;
      mat_set (visible_state r) (i + offset) j x)).

Definition sample_with_evidence (E : Z) (evidence : SGMatrix) (num_gibbs_steps : Z) : M unit :=
  r <- get_rbm ;;
  require (E <? m_num_visible_groups r) out_of_bounds [E; m_num_visible r] ;;
  (* evidence->get_num_vectors() *)
  set_batch_size (num_cols evidence) ;;
  r <- get_rbm ;;
  let evidence_matrix := evidence in
  offset <- at_ (m_visible_state_offsets r) E ;;
  size <- at_ (m_visible_group_sizes r) E ;;
  clamp evidence_matrix offset size ;;
  for_ 0 num_gibbs_steps (fun n =>
    mean_hidden (visible_state r) (hidden_state r) ;;
    sample_hidden (hidden_state r) (hidden_state r) ;;
    mean_visible (hidden_state r) (visible_state r) ;;
    (if n <? num_gibbs_steps - 1
     then
       for_ 0 (m_num_visible_groups r) (fun k =>
         if k =? E then ret tt
         else sample_visible_index k (visible_state r) (visible_state r))
     else ret tt) ;;
    clamp evidence_matrix offset size).

Definition sample_group_with_evidence (V E : Z) (evidence : SGMatrix)
    (num_gibbs_steps : Z) : M SGMatrix :=
  r <- get_rbm ;;
  require (V <? m_num_visible_groups r) out_of_bounds [V; m_num_visible r] ;;
  require (E <? m_num_visible_groups r) out_of_bounds [E; m_num_visible r] ;;
  sample_with_evidence E evidence num_gibbs_steps ;;
  copy_group V.

(** ** Training *)

(** The locals of [train] that change from one mini-batch to the next. *)
Record TrainState : Type := mkTrainState { alpha : F; counter : Z }.

(** The handles [train] sets up before its loops. *)
Record TrainFrame : Type := mkTrainFrame {
  inputs : SGMatrix;
  gradients : SGVector;
  param_updates : SGVector;
  buffer : SGMatrix
}.

(** The parameter update of one mini-batch: lines 146-165, for the loop
    variable [j]; returns [j] as the body leaves it. *)
Definition train_update (fr : TrainFrame) (j : Z) (st : TrainState) : M (Z * SGMatrix * F) :=
  r <- get_rbm ;;
  let training_set_size := num_cols (inputs fr) in
  let alpha := fmul (gd_learning_rate_decay r) (alpha st) in
  let j := if training_set_size <? j + gd_mini_batch_size r
           then training_set_size - gd_mini_batch_size r
           else j in
  let inputs_batch :=
    mkSGMatrix (ptr_add (matrix (inputs fr)) (j * num_rows (inputs fr)))
      (num_rows (inputs fr)) (gd_mini_batch_size r) in
  for_ 0 (m_num_params r) (fun k =>
    p <- vec_get (m_params r) k ;;
    u <- vec_get (param_updates fr) k ;;
    vec_set (m_params r) k (fadd p (fmul (gd_momentum r) u))) ;;
  contrastive_divergence inputs_batch (gradients fr) ;;
  for_ 0 (m_num_params r) (fun k =>
    u <- vec_get (param_updates fr) k ;;
    g <- vec_get (gradients fr) k ;;
    vec_set (param_updates fr) k (fsub (fmul (gd_momentum r) u) (fmul alpha g)) ;;
    p <- vec_get (m_params r) k ;;
    g <- vec_get (gradients fr) k ;;
    vec_set (m_params r) k (fsub p (fmul alpha g))) ;;
  ret (j, inputs_batch, alpha).

(** The monitoring of one mini-batch: lines 167-176. The values are only
    logged. *)
Definition train_monitor (fr : TrainFrame) (inputs_batch : SGMatrix) (count : Z) : M unit :=
  r <- get_rbm ;;
  (* counter%monitoring_interval *)
  assume (negb (monitoring_interval r =? 0)) ;;
  if Z.rem count (monitoring_interval r) =? 0
  then
    (match monitoring_method r with
     | RBMMM_RECONSTRUCTION_ERROR =>
         _ <- reconstruction_error inputs_batch (buffer fr) ;; ret tt
     | _ => ret tt
     end) ;;
    match monitoring_method r with
    | RBMMM_PSEUDO_LIKELIHOOD =>
        _ <- pseudo_likelihood inputs_batch (buffer fr) ;; ret tt
    | _ => ret tt
    end
  else ret tt.

(** The body of the mini-batch loop. *)
Definition train_batch (fr : TrainFrame) (j : Z) (st : TrainState) : M (Z * TrainState) :=
  u <- train_update fr j st ;;
  let '(j, inputs_batch, alpha) := u in
  train_monitor fr inputs_batch (counter st) ;;
  ret (j, mkTrainState alpha (counter st + 1)).

(** [for (j = 0; j < training_set_size; j += gd_mini_batch_size)]. With a
    positive mini-batch size the loop ends within [training_set_size] rounds;
    [fuel] counts them, and a loop that outlives it does not end. *)
Fixpoint train_epoch (fuel : nat) (fr : TrainFrame) (j : Z) (st : TrainState) : M TrainState :=
  if j <? num_cols (inputs fr)
  then
    match fuel with
    | O => undefined
    | S fuel' =>
        u <- train_batch fr j st ;;
        r <- get_rbm ;;
        train_epoch fuel' fr (fst u + gd_mini_batch_size r) (snd u)
    end
  else ret st.

Definition train (features : Features) : M unit :=
  require (match features with NullFeatures => false | _ => true end)
    "Invalid (NULL) feature pointer" [] ;;
  match features with
  | DenseFeatures inputs =>
      r <- get_rbm ;;
      require (num_rows inputs =? m_num_visible r)
        "Number of features ({}) must match the RBM's number of visible units ({})"
        [num_rows inputs; m_num_visible r] ;;
      let training_set_size := num_cols inputs in
      (if gd_mini_batch_size r =? 0
       then modify_rbm (set_gd_mini_batch_size training_set_size)
       else ret tt) ;;
      r <- get_rbm ;;
      set_batch_size (gd_mini_batch_size r) ;;
      r <- get_rbm ;;
      for_ 0 (m_num_visible r) (fun i =>
        for_ 0 (m_batch_size r) (fun j =>
          x <- mat_get inputs i j ;;
          mat_set (visible_state r) i j x)) ;;
      gradients <- SGVector_new (m_num_params r) ;;
      (* needed for momentum *)
      param_updates <- SGVector_new (m_num_params r) ;;
      for_ 0 (m_num_params r) (fun k => vec_set param_updates k f0) ;;
      buffer <- (match monitoring_method r with
                 | RBMMM_RECONSTRUCTION_ERROR =>
                     SGMatrix_new (m_num_visible r) (m_batch_size r)
                 | RBMMM_PSEUDO_LIKELIHOOD =>
                     SGMatrix_new (m_num_hidden r) (m_batch_size r)
                 end) ;;
      let fr := mkTrainFrame inputs gradients param_updates buffer in
      _ <- fold_for 0 (max_num_epochs r) (fun i st =>
             train_epoch (Z.to_nat training_set_size) fr 0 st)
             (mkTrainState (gd_learning_rate r) 0) ;;
      ret tt
  | _ => error "Input features must be of type DenseFeatures<float64_t>."
  end.

End Model.


(** ** Instances *)

(** IEEE binary64 numbers. *)
Definition float_of_int (z : Z) : float :=
  if z <? 0
  then PrimFloat.opp (PrimFloat.of_uint63 (Uint63.of_Z (- z)))
  else PrimFloat.of_uint63 (Uint63.of_Z z).

#[global] Instance float_Arith : Arith float := {|
  of_int := float_of_int;
  fadd := PrimFloat.add;
  fsub := PrimFloat.sub;
  fmul := PrimFloat.mul;
  fdiv := PrimFloat.div;
  fltb := PrimFloat.ltb;
  fleb := PrimFloat.leb
|}.

(** Exact real arithmetic. *)
Definition Rltb (a b : R) : bool := if Rlt_dec a b then true else false.

Definition Rleb (a b : R) : bool := if Rle_dec a b then true else false.

#[global] Instance R_Arith : Arith R := {|
  of_int := IZR;
  fadd := Rplus;
  fsub := Rminus;
  fmul := Rmult;
  fdiv := Rdiv;
  fltb := Rltb;
  fleb := Rleb
|}.

#[global] Instance R_Libm : Libm R := {|
  fexp := exp;
  flog := ln;
  fpow := powerRZ
|}.

(** A random engine that replays a recorded sequence of draws; an exhausted
    tape keeps returning zero. Integer draws are clamped to their range. *)
Record Tape (F : Type) : Type := mkTape { reals : list F; ints : list Z }.

#[global] Arguments mkTape {F} reals ints.
#[global] Arguments reals {F} t.
#[global] Arguments ints {F} t.

Definition tape_real {F : Type} `{Arith F} (t : Tape F) : F * Tape F :=
  match reals t with
  | [] => (of_int 0, t)
  | x :: xs => (x, mkTape xs (ints t))
  end.

Definition tape_int {F : Type} (a b : Z) (t : Tape F) : Z * Tape F :=
  match ints t with
  | [] => (Z.max a (Z.min b 0), t)
  | x :: xs => (Z.max a (Z.min b x), mkTape (reals t) xs)
  end.

#[global] Instance Tape_engine {F : Type} `{Arith F} : RandomEngine (Tape F) F := {|
  uniform_real := tape_real;
  uniform_int := tape_int;
  normal_real := fun _ _ => tape_real
|}.

(** * Vocabulary of the statements

    The predicates and functions the lemmas and theorems below are stated
    with. *)

Definition mat_map (m : SGMatrix) : EMap := EMatrix (matrix m) (num_rows m) (num_cols m).

Definition vec_map (v : SGVector) : EMap := EVector (vector v) (vlen v).

Fixpoint sumZ (l : list Z) : Z :=
  match l with
  | [] => 0
  | x :: rest => x + sumZ rest
  end.

(** The offsets [add_visible_group] computes for the sizes [sizes], counted
    from [start]. *)
Fixpoint running_sums (start : Z) (sizes : list Z) : list Z :=
  match sizes with
  | [] => []
  | s :: rest => start :: running_sums (start + s) rest
  end.

(** The logistic function [1 / (1 + exp(-x))]. *)
Definition logistic (x : R) : R := (1 / (1 + exp (- x)))%R.

(** Entry [(i, j)] is the one that [indices] selects in column [j]. *)
Definition flipped (indices : list Z) (i j : Z) : bool :=
  match lookupZ indices j with
  | Some i' => i =? i'
  | None => false
  end.

Section Vocabulary.

Context {F : Type} {AF : Arith F} {LF : Libm F} {G : Type} {RE : RandomEngine G F}.

#[local] Open Scope M_scope.

#[local] Abbreviation RBM := (RBM F G).
#[local] Abbreviation World := (World F G).
#[local] Abbreviation M := (M F G).

Implicit Types (w : World) (r : RBM) (fr : TrainFrame).

(** ** Changes of the machine

    [rbm_stable w w']: the fields of the machine are those of [w], the state
    of the random engine apart. *)
Definition rbm_stable (w w' : World) : Prop :=
  rbm w' = set_m_prng (m_prng (rbm w')) (rbm w).

(** [wp c Q w]: run on [w], [c] returns normally and [Q] holds of its result
    and final state. *)
Definition wp {A : Type} (c : M A) (Q : A -> World -> Prop) (w : World) : Prop :=
  match c w with
  | Ok a w' => Q a w'
  | _ => False
  end.

(** ** Frames

    A footprint [P b n] lists the cells (block [b], position [n]) a piece of
    code may write. [heap_le P w w']: every block of [w] is still there in
    [w'] with its length, and every cell outside [P] with its contents. *)
Definition footprint : Type := nat -> nat -> Prop.

Definition heap_le (P : footprint) (w w' : World) : Prop :=
  forall b buf, heap w !! b = Some buf ->
    exists buf', heap w' !! b = Some buf' /\ length buf' = length buf
                 /\ (forall n, ~ P b n -> buf' !! n = buf !! n).

Definition step (P : footprint) (w w' : World) : Prop :=
  rbm_stable w w' /\ heap_le P w w'.

(** The footprint made of whole blocks. *)
Definition blocks (S : list nat) : footprint := fun b _ => In b S.

Definition mat_ok w (m : SGMatrix) : Prop := emap_ok w (mat_map m) = true.

Definition vec_ok w (v : SGVector) : Prop := emap_ok w (vec_map v) = true.

(** The parameter vector as [initialize_neural_network] leaves it. *)
Definition params_ok w : Prop :=
  let r := rbm w in
  0 <= m_num_visible r /\ 0 <= m_num_hidden r
  /\ vlen (m_params r)
     = m_num_visible r + m_num_hidden r + m_num_visible r * m_num_hidden r
  /\ m_num_params r = vlen (m_params r)
  /\ vec_ok w (m_params r).

(** The batch state as [set_batch_size] leaves it. *)
Definition state_ok w : Prop :=
  let r := rbm w in
  0 <= m_batch_size r
  /\ mat_ok w (hidden_state r)
  /\ num_rows (hidden_state r) = m_num_hidden r
  /\ num_cols (hidden_state r) = m_batch_size r
  /\ mat_ok w (visible_state r)
  /\ num_rows (visible_state r) = m_num_visible r
  /\ num_cols (visible_state r) = m_batch_size r.

(** The registry as a sequence of [add_visible_group] calls with
    non-negative sizes leaves it. *)
Definition registry_ok r : Prop :=
  m_num_visible_groups r = Z.of_nat (length (m_visible_group_sizes r))
  /\ length (m_visible_group_types r) = length (m_visible_group_sizes r)
  /\ m_visible_state_offsets r = running_sums 0 (m_visible_group_sizes r)
  /\ Forall (fun s => 0 <= s) (m_visible_group_sizes r)
  /\ m_num_visible r = sumZ (m_visible_group_sizes r).

(** A softmax group has a unit, and the batch a column, to start the
    search for the maximum from. *)
Definition softmax_ok r : Prop :=
  forall k s, lookupZ (m_visible_group_types r) k = Some RBMVUT_SOFTMAX ->
    lookupZ (m_visible_group_sizes r) k = Some s ->
    0 < s /\ 0 < m_batch_size r.

(** The cells of rows [off, off + size) and columns [0, batch) of a matrix
    stored at offset [o] with [rows] rows. *)
Definition group_cells (P : footprint) (b : nat) (o rows off size batch : Z) : Prop :=
  forall i j, 0 <= i < size -> 0 <= j < batch ->
    P b (Z.to_nat (o + (j * rows + (i + off)))).

(** A vector with the layout of the parameter vector. *)
Definition layout_ok w (v : SGVector) : Prop :=
  vec_ok w v /\ vlen v = vlen (m_params (rbm w)).

(** The handles of a machine whose batch state is allocated, with the
    footprint that covers its two state matrices and a gradient vector. *)
Definition cd_footprint w (gradients : SGVector) (P : footprint) : Prop :=
  exists hb ho vb vo gb go,
    matrix (hidden_state (rbm w)) = Ptr hb ho
    /\ matrix (visible_state (rbm w)) = Ptr vb vo
    /\ vector gradients = Ptr gb go
    /\ (forall d, 0 <= d < m_num_hidden (rbm w) * m_batch_size (rbm w) ->
          P hb (Z.to_nat (ho + d)))
    /\ (forall d, 0 <= d < m_num_visible (rbm w) * m_batch_size (rbm w) ->
          P vb (Z.to_nat (vo + d)))
    /\ (forall d, 0 <= d < vlen gradients -> P gb (Z.to_nat (go + d))).

(** A sequence of [add_visible_group] calls. *)
Fixpoint add_visible_groups (calls : list (Z * ERBMVisibleUnitType)) : M unit :=
  match calls with
  | [] => ret tt
  | (num_units, unit_type) :: rest =>
      add_visible_group num_units unit_type ;; add_visible_groups rest
  end.

(** What the registry fields satisfy between calls. *)
Definition registry_inv r : Prop :=
  m_num_visible_groups r = Z.of_nat (length (m_visible_group_sizes r))
  /\ length (m_visible_group_types r) = length (m_visible_group_sizes r)
  /\ m_visible_state_offsets r = running_sums 0 (m_visible_group_sizes r)
  /\ m_num_visible r = sumZ (m_visible_group_sizes r).

(** The engine after [n] uniform draws, and the draw that follows them. *)
Fixpoint prng_after (n : nat) (g : G) : G :=
  match n with
  | O => g
  | S n' => prng_after n' (snd (uniform_real g))
  end.

Definition draw_at (n : nat) (g : G) : F := fst (uniform_real (prng_after n g)).

(** The fields after [set_batch_size batch_size] has allocated the two
    state matrices, ahead of [reset_chain]. *)
Definition fresh_rbm (batch_size : Z) w : RBM :=
  set_visible_state
    (mkSGMatrix (Ptr (S (length (heap w))) 0) (m_num_visible (rbm w)) batch_size)
    (set_hidden_state
       (mkSGMatrix (Ptr (length (heap w)) 0) (m_num_hidden (rbm w)) batch_size)
       (set_m_batch_size batch_size (rbm w))).

Definition no_cell : footprint := fun _ _ => False.

(** [c] raises no fatal error, whatever the state. *)
Definition no_fatal {A : Type} (c : M A) : Prop :=
  forall w fmt args w', c w <> Fatal fmt args w'.

(** The softmax requirement for a batch of [batch_size] columns. *)
Definition softmax_ok_at r (batch_size : Z) : Prop :=
  forall k s, lookupZ (m_visible_group_types r) k = Some RBMVUT_SOFTMAX ->
    lookupZ (m_visible_group_sizes r) k = Some s ->
    0 < s /\ 0 < batch_size.

(** Every visible group is Binary. *)
Definition all_binary r : Prop :=
  Forall (fun t => is_binary t = true) (m_visible_group_types r).

(** The optional buffer of a query: left empty, or of the shape the query
    would allocate. *)
Definition buffer_fits w (buffer : SGMatrix) (rows cols : Z) : Prop :=
  num_rows buffer = 0
  \/ (mat_ok w buffer /\ num_rows buffer = rows /\ num_cols buffer = cols).

(** The batch state of [w'] was allocated after [w] and its visible chain
    drawn from the engine of [w]. *)
Definition chain_redrawn w (batch_size : Z) w' : Prop :=
  m_batch_size (rbm w') = batch_size
  /\ hidden_state (rbm w')
     = mkSGMatrix (Ptr (length (heap w)) 0) (m_num_hidden (rbm w)) batch_size
  /\ visible_state (rbm w')
     = mkSGMatrix (Ptr (S (length (heap w))) 0) (m_num_visible (rbm w)) batch_size
  /\ heap w !! length (heap w) = None
  /\ heap w !! S (length (heap w)) = None
  /\ forall i j, 0 <= i < m_num_visible (rbm w) -> 0 <= j < batch_size ->
       peek w' (matrix (visible_state (rbm w'))) (j * m_num_visible (rbm w) + i)
       = Some (b2f (fltb fhalf
                      (draw_at (Z.to_nat (i * batch_size + j)) (m_prng (rbm w))))).

(** The state after the buffer of a query has been allocated. *)
Definition with_buffer w (rows cols : Z) : World :=
  mkWorld (rbm w) (heap w ++ [replicate (Z.to_nat (rows * cols)) (of_int 0)]).

Definition new_buffer w (rows cols : Z) : SGMatrix :=
  mkSGMatrix (Ptr (length (heap w)) 0) rows cols.

(** The block a handle points into. *)
Definition block (p : ptr) : nat :=
  match p with
  | Ptr b _ => b
  | Null => O
  end.








(** The engine after [n] draws from the normal distribution with mean [mu]
    and deviation [sigma], and the draw that follows them. *)
Fixpoint normal_prng_after (mu sigma : F) (n : nat) (g : G) : G :=
  match n with
  | O => g
  | S n' => normal_prng_after mu sigma n' (snd (normal_real mu sigma g))
  end.

Definition normal_draw_at (mu sigma : F) (n : nat) (g : G) : F :=
  fst (normal_real mu sigma (normal_prng_after mu sigma n g)).

(** The cells of the groups that are not Gaussian, in the first [batch]
    columns of a matrix of [rows] rows stored at offset [o] of block [b]. *)
Definition sampled_cells (r : RBM) (b : nat) (o rows batch : Z) : footprint :=
  fun b' n =>
    b' = b
    /\ exists k t off size i j,
         lookupZ (m_visible_group_types r) k = Some t /\ is_gaussian t = false
         /\ lookupZ (m_visible_state_offsets r) k = Some off
         /\ lookupZ (m_visible_group_sizes r) k = Some size
         /\ 0 <= i < size /\ 0 <= j < batch
         /\ n = Z.to_nat (o + (j * rows + (i + off))).

(** [c] leaves every field of the machine, the random engine included, as
    it found it. *)
Definition keeps_rbm {A : Type} (c : M A) : Prop :=
  forall w a w', c w = Ok a w' -> rbm w' = rbm w.


End Vocabulary.

(** [f 0 + f 1 + ... + f (n-1)]. *)
Fixpoint Rsum_nat (n : nat) (f : Z -> R) : R :=
  match n with
  | O => 0%R
  | S n' => (Rsum_nat n' f + f (Z.of_nat n'))%R
  end.

Definition Rsum (n : Z) (f : Z -> R) : R := Rsum_nat (Z.to_nat n) f.

Section RealVocabulary.

Context {G : Type} {RE : RandomEngine G R}.

#[local] Abbreviation RBM := (RBM R G).
#[local] Abbreviation World := (World R G).

Implicit Types (w : World) (r : RBM).

(** The coefficients of the three parameter views and of a matrix. *)
Definition weights_at w (i k : Z) : R :=
  eget w (mat_map (get_weights (rbm w) SGVector_empty)) i k.

Definition visible_bias_at w (i : Z) : R :=
  eget w (vec_map (get_visible_bias (rbm w) SGVector_empty)) i 0.

Definition hidden_bias_at w (i : Z) : R :=
  eget w (vec_map (get_hidden_bias (rbm w) SGVector_empty)) i 0.

Definition entry w (m : SGMatrix) (i j : Z) : R := eget w (mat_map m) i j.

(** The free energy as the specification states it. The term of visible
    group [k]: half the sum of the squares of the group's entries over the
    batch size for a Gaussian group, nothing for the other types. *)
Definition gaussian_term w (visible : SGMatrix) (k : Z) : R :=
  let r := rbm w in
  match lookupZ (m_visible_group_types r) k,
        lookupZ (m_visible_state_offsets r) k,
        lookupZ (m_visible_group_sizes r) k with
  | Some RBMVUT_GAUSSIAN, Some offset, Some size =>
      (1 / 2 * Rsum size (fun i =>
                 Rsum (m_batch_size r) (fun j => entry w visible (i + offset) j ^ 2))
       / IZR (m_batch_size r))%R
  | _, _, _ => 0%R
  end.

(** [-(visible_bias . visible_sum + sum over hidden i and column j of
    log(1 + exp((hidden_bias + weights*visible)(i,j)))) / batch_size], plus
    the terms of the Gaussian groups. *)
Definition free_energy_formula w (visible : SGMatrix) : R :=
  let r := rbm w in
  let visible_sum i := Rsum (m_batch_size r) (fun j => entry w visible i j) in
  let activation i j :=
    (hidden_bias_at w i
     + Rsum (m_num_visible r) (fun k => weights_at w i k * entry w visible k j))%R in
  (- ((Rsum (m_num_visible r) (fun i => visible_bias_at w i * visible_sum i)
       + Rsum (m_num_hidden r) (fun i =>
           Rsum (m_batch_size r) (fun j => ln (1 + exp (activation i j)))))
      / IZR (m_batch_size r))
   + Rsum (m_num_visible_groups r) (gaussian_term w visible))%R.

(** The cells of rows [off, off + size) in the first [batch] columns of a
    matrix of [rows] rows stored at offset [o] of block [b]. *)
Definition group_footprint (b : nat) (o rows off size batch : Z) : footprint :=
  fun b' n =>
    b' = b /\ exists i j, 0 <= i < size /\ 0 <= j < batch
                          /\ n = Z.to_nat (o + (j * rows + (i + off))).


(** The linear activation of visible unit [i] in column [j]:
    [(weights^T * hidden + visible_bias)(i, j)]. *)
Definition activation w (hidden : SGMatrix) (i j : Z) : R :=
  (visible_bias_at w i
   + Rsum (m_num_hidden (rbm w)) (fun h => weights_at w h i * entry w hidden h j))%R.


(** The coefficients of the three views of a vector [p] that has the
    layout of the parameters. *)
Definition weights_of w (p : SGVector) (i k : Z) : R :=
  eget w (mat_map (get_weights (rbm w) p)) i k.

Definition visible_bias_of w (p : SGVector) (i : Z) : R :=
  eget w (vec_map (get_visible_bias (rbm w) p)) i 0.

Definition hidden_bias_of w (p : SGVector) (i : Z) : R :=
  eget w (vec_map (get_hidden_bias (rbm w) p)) i 0.

(** The statistics of a batch: the averages over the batch columns of
    [hidden(i,j) * visible(k,j)], of [visible(k,j)] and of [hidden(i,j)]. *)
Definition pair_average w (hidden visible : SGMatrix) (i k : Z) : R :=
  (Rsum (m_batch_size (rbm w)) (fun j => entry w hidden i j * entry w visible k j)
   / IZR (m_batch_size (rbm w)))%R.

Definition row_average w (m : SGMatrix) (i : Z) : R :=
  (Rsum (m_batch_size (rbm w)) (fun j => entry w m i j) / IZR (m_batch_size (rbm w)))%R.



(** The value that [pseudo_likelihood] computes from the two energies. *)
Definition likelihood_of (num_visible : Z) (e1 e2 : R) : R :=
  (IZR num_visible * ln (1 / (1 + exp (e1 - e2))))%R.

End RealVocabulary.

(** ** Concrete machines *)

(** An engine with nothing recorded, and the registry of three groups of
    3, 2 and 4 units on a machine with 5 hidden units. *)
Definition blank_tape : Tape float := mkTape [] [].

Definition three_groups : World float (Tape float) :=
  mkWorld
    (mkRBM 1 true false (of_int 0) (of_int 0) RBMMM_RECONSTRUCTION_ERROR 10 0 1
       ftenth (of_int 1) fninetenths 5 9 3 [3; 2; 4]
       [RBMVUT_BINARY; RBMVUT_SOFTMAX; RBMVUT_GAUSSIAN] [0; 3; 5] 0 0
       SGVector_empty SGMatrix_empty SGMatrix_empty blank_tape)
    [].

(** One visible and one hidden unit. The parameter vector (block 0) holds
    the visible bias 0.5, the weight 2 and the hidden bias 3, as the views
    [get_visible_bias], [get_weights] and [get_hidden_bias] lay them out;
    the gradient vector (block 1) holds 10, 20 and 30; [l2_coefficient] is
    1 and [l1_coefficient] is 0. *)
Definition one_by_one : World float (Tape float) :=
  mkWorld
    (mkRBM 1 true false (of_int 1) (of_int 0) RBMMM_RECONSTRUCTION_ERROR 10 0 1
       ftenth (of_int 1) fninetenths 1 1 1 [1] [RBMVUT_BINARY] [0] 3 0
       (mkSGVector (Ptr 0 0) 3) SGMatrix_empty SGMatrix_empty blank_tape)
    [[fhalf; of_int 2; of_int 3]; [of_int 10; of_int 20; of_int 30]].

Definition one_by_one_gradients : SGVector := mkSGVector (Ptr 1 0) 3.

(** One softmax group of three units with means 0.25, 0.5 and 0.25 in a
    batch of one column; the means are in block 0 and the result goes to
    block 1. *)
Definition three_way (t : Tape float) : World float (Tape float) :=
  mkWorld
    (mkRBM 1 true false (of_int 0) (of_int 0) RBMMM_RECONSTRUCTION_ERROR 10 0 1
       ftenth (of_int 1) fninetenths 1 3 1 [3] [RBMVUT_SOFTMAX] [0] 7 1
       SGVector_empty SGMatrix_empty SGMatrix_empty t)
    [[fdiv (of_int 1) (of_int 4); fhalf; fdiv (of_int 1) (of_int 4)];
     [of_int 7; of_int 7; of_int 7]].

Definition three_way_mean : SGMatrix := mkSGMatrix (Ptr 0 0) 3 1.

Definition three_way_result : SGMatrix := mkSGMatrix (Ptr 1 0) 3 1.

(** C7 on a machine with one visible and one hidden unit and batch size 0,
    resized to a batch of two columns; the engine returns 0.75 and 0.25. *)
Definition two_draws : Tape float :=
  mkTape [fdiv (of_int 3) (of_int 4); fdiv (of_int 1) (of_int 4)] [].

Definition unsized : World float (Tape float) :=
  mkWorld
    (mkRBM 1 true false (of_int 0) (of_int 0) RBMMM_RECONSTRUCTION_ERROR 10 0 1
       ftenth (of_int 1) fninetenths 1 1 1 [1] [RBMVUT_BINARY] [0] 3 0
       (mkSGVector (Ptr 0 0) 3) SGMatrix_empty SGMatrix_empty two_draws)
    [[fhalf; of_int 2; of_int 3]].

(** One binary unit, one hidden unit, no batch state yet, over the reals. *)
Definition unsized_real : World R (Tape R) :=
  mkWorld
    (mkRBM 1 true false 0%R 0%R RBMMM_RECONSTRUCTION_ERROR 10 0 1
       ftenth 1%R fninetenths 1 1 1 [1] [RBMVUT_BINARY] [0] 3 0
       (mkSGVector (Ptr 0 0) 3) SGMatrix_empty SGMatrix_empty (mkTape [] []))
    [[0%R; 0%R; 0%R]].

(** One binary unit and one hidden unit over the reals, batch size 0, with
    a block holding the numbers 1 and 0 to take evidence from. *)
Definition with_evidence : World R (Tape R) :=
  mkWorld
    (mkRBM 1 true false 0%R 0%R RBMMM_RECONSTRUCTION_ERROR 10 0 1
       ftenth 1%R fninetenths 1 1 1 [1] [RBMVUT_BINARY] [0] 3 0
       (mkSGVector (Ptr 0 0) 3) SGMatrix_empty SGMatrix_empty (mkTape [] []))
    [[0%R; 0%R; 0%R]; [1%R; 0%R]].

(** The block read as one row of two columns, and as two rows of one
    column. *)
Definition flat_evidence : SGMatrix := mkSGMatrix (Ptr 1 0) 1 2.

Definition tall_evidence : SGMatrix := mkSGMatrix (Ptr 1 0) 2 1.

(** A machine over the reals with one hidden unit and one Softmax group of
    two units, batch size 0, and a block holding one column to query. *)
Definition softmax_machine : World R (Tape R) :=
  mkWorld
    (mkRBM 1 true false 0%R 0%R RBMMM_RECONSTRUCTION_ERROR 10 0 1
       ftenth 1%R fninetenths 1 2 1 [2] [RBMVUT_SOFTMAX] [0] 5 0
       (mkSGVector (Ptr 0 0) 5) SGMatrix_empty SGMatrix_empty (mkTape [] []))
    [[0%R; 0%R; 0%R; 0%R; 0%R]; [1%R; 0%R]].

Definition one_hot : SGMatrix := mkSGMatrix (Ptr 1 0) 2 1.

(** A machine over the reals in the middle of training: one Binary visible
    unit, one hidden unit and mini-batches of one column. Block 0 holds the
    parameters, blocks 1 and 2 the hidden and the visible state, block 3 two
    training columns, block 4 the gradients, block 5 the velocity and block
    6 the monitoring buffer. *)
Definition training : World R (Tape R) :=
  mkWorld
    (mkRBM 1 false false 0%R 0%R RBMMM_RECONSTRUCTION_ERROR 10 1 1
       ftenth fhalf fninetenths 1 1 1 [1] [RBMVUT_BINARY] [0] 3 1
       (mkSGVector (Ptr 0 0) 3) (mkSGMatrix (Ptr 1 0) 1 1) (mkSGMatrix (Ptr 2 0) 1 1)
       (mkTape [] []))
    [[0%R; 1%R; 0%R]; [0%R]; [1%R]; [1%R; 0%R]; [0%R; 0%R; 0%R]; [1%R; 1%R; 1%R]; [0%R]].


(** A machine over the reals with one Gaussian visible unit, one hidden
    unit and batch size 1: visible bias 0, weight 1, hidden bias 0. Block 3
    holds the input 2. *)
Definition gaussian_machine : World R (Tape R) :=
  mkWorld
    (mkRBM 1 false false 0%R 0%R RBMMM_RECONSTRUCTION_ERROR 10 1 1
       ftenth fhalf fninetenths 1 1 1 [1] [RBMVUT_GAUSSIAN] [0] 3 1
       (mkSGVector (Ptr 0 0) 3) (mkSGMatrix (Ptr 1 0) 1 1) (mkSGMatrix (Ptr 2 0) 1 1)
       (mkTape [] []))
    [[0%R; 1%R; 0%R]; [0%R]; [0%R]; [2%R]].

Definition gaussian_input : SGMatrix := mkSGMatrix (Ptr 3 0) 1 1.


(** Scalars kept as expressions: arithmetic builds the expression, and a
    comparison is decided when both sides are integer expressions. *)
Inductive sym : Type :=
  | SConst (z : Z)
  | SAdd (a b : sym)
  | SSub (a b : sym)
  | SMul (a b : sym)
  | SDiv (a b : sym)
  | SExp (a : sym)
  | SLog (a : sym)
  | SPow (a : sym) (n : Z).

Fixpoint sym_value (e : sym) : option Z :=
  match e with
  | SConst z => Some z
  | SAdd a b =>
      match sym_value a, sym_value b with Some x, Some y => Some (x + y) | _, _ => None end
  | SSub a b =>
      match sym_value a, sym_value b with Some x, Some y => Some (x - y) | _, _ => None end
  | SMul a b =>
      match sym_value a, sym_value b with Some x, Some y => Some (x * y) | _, _ => None end
  | _ => None
  end.

Definition sym_ltb (a b : sym) : bool :=
  match sym_value a, sym_value b with
  | Some x, Some y => x <? y
  | _, _ => false
  end.

Definition sym_leb (a b : sym) : bool :=
  match sym_value a, sym_value b with
  | Some x, Some y => x <=? y
  | _, _ => false
  end.

#[global] Instance sym_Arith : Arith sym := {|
  of_int := SConst;
  fadd := SAdd;
  fsub := SSub;
  fmul := SMul;
  fdiv := SDiv;
  fltb := sym_ltb;
  fleb := sym_leb
|}.

#[global] Instance sym_Libm : Libm sym := {|
  fexp := SExp;
  flog := SLog;
  fpow := SPow
|}.








(** A machine with two visible units and one hidden unit before its
    parameters are initialized; the engine returns 0.5, 0.25, 0.75, 0.5
    and 0.25. *)
Definition uninitialized : World float (Tape float) :=
  mkWorld
    (mkRBM 1 true false (of_int 0) (of_int 0) RBMMM_RECONSTRUCTION_ERROR 10 0 1
       ftenth (of_int 1) fninetenths 1 2 1 [2] [RBMVUT_BINARY] [0] 0 0
       SGVector_empty SGMatrix_empty SGMatrix_empty
       (mkTape [fhalf; fdiv (of_int 1) (of_int 4); fdiv (of_int 3) (of_int 4);
                fhalf; fdiv (of_int 1) (of_int 4)] []))
    [].

(** * Lemmas and theorems *)

(** * Reasoning about member functions *)

Section Stability.

Context {F G : Type}.

#[local] Abbreviation World := (World F G).

Implicit Types (w : World).

Lemma stable_fields w w' :
  rbm_stable w w' ->
  cd_num_steps (rbm w') = cd_num_steps (rbm w) /\
  cd_persistent (rbm w') = cd_persistent (rbm w) /\
  cd_sample_visible (rbm w') = cd_sample_visible (rbm w) /\
  l2_coefficient (rbm w') = l2_coefficient (rbm w) /\
  l1_coefficient (rbm w') = l1_coefficient (rbm w) /\
  monitoring_method (rbm w') = monitoring_method (rbm w) /\
  monitoring_interval (rbm w') = monitoring_interval (rbm w) /\
  gd_mini_batch_size (rbm w') = gd_mini_batch_size (rbm w) /\
  max_num_epochs (rbm w') = max_num_epochs (rbm w) /\
  gd_learning_rate (rbm w') = gd_learning_rate (rbm w) /\
  gd_learning_rate_decay (rbm w') = gd_learning_rate_decay (rbm w) /\
  gd_momentum (rbm w') = gd_momentum (rbm w) /\
  m_num_hidden (rbm w') = m_num_hidden (rbm w) /\
  m_num_visible (rbm w') = m_num_visible (rbm w) /\
  m_num_visible_groups (rbm w') = m_num_visible_groups (rbm w) /\
  m_visible_group_sizes (rbm w') = m_visible_group_sizes (rbm w) /\
  m_visible_group_types (rbm w') = m_visible_group_types (rbm w) /\
  m_visible_state_offsets (rbm w') = m_visible_state_offsets (rbm w) /\
  m_num_params (rbm w') = m_num_params (rbm w) /\
  m_batch_size (rbm w') = m_batch_size (rbm w) /\
  m_params (rbm w') = m_params (rbm w) /\
  hidden_state (rbm w') = hidden_state (rbm w) /\
  visible_state (rbm w') = visible_state (rbm w).
Proof. intros H. rewrite H. simpl. repeat split. Qed.

End Stability.

Ltac stable_rw H :=
  let E := fresh "E" in
  pose proof (stable_fields _ _ H) as E;
  destruct E as (S1 & S2 & S3 & S4 & S5 & S6 & S7 & S8 & S9 & S10 & S11 & S12 & S13 & S14 & S15 & S16 & S17 & S18 & S19 & S20 & S21 & S22 & S23);
  rewrite ?S1, ?S2, ?S3, ?S4, ?S5, ?S6, ?S7, ?S8, ?S9, ?S10, ?S11, ?S12, ?S13, ?S14, ?S15, ?S16, ?S17, ?S18, ?S19, ?S20, ?S21, ?S22, ?S23 in *;
  clear S1 S2 S3 S4 S5 S6 S7 S8 S9 S10 S11 S12 S13 S14 S15 S16 S17 S18 S19 S20 S21 S22 S23.

Section Reasoning.

Context {F : Type} {AF : Arith F} {G : Type} {RE : RandomEngine G F}.

#[local] Open Scope M_scope.

#[local] Abbreviation RBM := (RBM F G).
#[local] Abbreviation World := (World F G).
#[local] Abbreviation M := (M F G).

Implicit Types (w : World) (r : RBM) (m dst : EMap) (p : ptr).
Implicit Types (S : list nat).

Lemma wp_ok {A : Type} (c : M A) Q w :
  wp c Q w <-> exists a w', c w = Ok a w' /\ Q a w'.
Proof.
  unfold wp. destruct (c w) as [a w'| |]; split.
  - intros HQ. exists a, w'. auto.
  - intros (a' & w'' & Heq & HQ). inversion Heq; subst. exact HQ.
  - tauto.
  - intros (a' & w'' & Heq & _). discriminate.
  - tauto.
  - intros (a' & w'' & Heq & _). discriminate.
Qed.

Lemma wp_mono {A : Type} (c : M A) (Q Q' : A -> World -> Prop) w :
  wp c Q w -> (forall a w', Q a w' -> Q' a w') -> wp c Q' w.
Proof. unfold wp. destruct (c w); auto. Qed.

Lemma wp_ret {A : Type} (a : A) Q w : Q a w -> wp (ret a) Q w.
Proof. auto. Qed.

Lemma wp_bind {A B : Type} (c : M A) (k : A -> M B) Q w :
  wp c (fun a w' => wp (k a) Q w') w -> wp (bind c k) Q w.
Proof. unfold wp, bind. destruct (c w); auto. Qed.

Lemma wp_bind_inv {A B : Type} (c : M A) (k : A -> M B) Q w :
  wp (bind c k) Q w -> wp c (fun a w' => wp (k a) Q w') w.
Proof. unfold wp, bind. destruct (c w); auto. Qed.

Lemma wp_get_rbm Q w : Q (rbm w) w -> wp get_rbm Q w.
Proof. auto. Qed.

Lemma wp_modify_rbm f Q w : Q tt (mkWorld (f (rbm w)) (heap w)) -> wp (modify_rbm f) Q w.
Proof. auto. Qed.

Lemma wp_require (cond : bool) fmt args Q w :
  cond = true -> Q tt w -> wp (require cond fmt args) Q w.
Proof. intros ->. auto. Qed.

Lemma wp_assume (cond : bool) Q w : cond = true -> Q tt w -> wp (assume cond) Q w.
Proof. intros ->. auto. Qed.

Lemma wp_load p i x Q w : peek w p i = Some x -> Q x w -> wp (load p i) Q w.
Proof. unfold wp, load. intros ->. auto. Qed.

Lemma wp_store p i v x Q w :
  peek w p i = Some x -> Q tt (poke w p i v) -> wp (store p i v) Q w.
Proof. unfold wp, store. intros ->. auto. Qed.

Lemma wp_at {A : Type} (l : list A) i x Q w :
  lookupZ l i = Some x -> Q x w -> wp (at_ l i) Q w.
Proof. unfold wp, at_. intros ->. auto. Qed.

Lemma wp_iter_for {A : Type} (I : Z -> A -> World -> Prop) body n :
  forall i a w,
  I i a w ->
  (forall k a w, i <= k < i + Z.of_nat n -> I k a w ->
     wp (body k a) (fun a' w' => I (k + 1) a' w') w) ->
  wp (iter_for n i body a) (fun a' w' => I (i + Z.of_nat n) a' w') w.
Proof.
  induction n as [|n IH]; intros i a w HI Hbody; simpl.
  - apply wp_ret. replace (i + Z.of_nat 0) with i by lia. exact HI.
  - apply wp_bind. eapply wp_mono.
    + apply Hbody; [lia | exact HI].
    + intros a' w' HI'. simpl in HI'.
      replace (i + Z.of_nat (S n)) with ((i + 1) + Z.of_nat n) by lia.
      apply IH; [exact HI' |].
      intros k a'' w'' Hk. apply Hbody. lia.
Qed.

(** The loop rule: [I i a w] holds before round [i] with accumulator [a]. *)
Lemma wp_fold_for {A : Type} (I : Z -> A -> World -> Prop) lo hi body (a : A) Q w :
  lo <= hi ->
  I lo a w ->
  (forall k a w, lo <= k < hi -> I k a w ->
     wp (body k a) (fun a' w' => I (k + 1) a' w') w) ->
  (forall a' w', I hi a' w' -> Q a' w') ->
  wp (fold_for lo hi body a) Q w.
Proof.
  intros Hle HI Hbody HQ. unfold fold_for.
  eapply wp_mono.
  - apply (wp_iter_for I); [exact HI |].
    intros k a' w' Hk. apply Hbody. lia.
  - intros a' w' HI'. simpl in HI'. apply HQ.
    replace hi with (lo + Z.of_nat (Z.to_nat (hi - lo))) by lia. exact HI'.
Qed.

Lemma fold_for_empty {A : Type} lo hi (body : Z -> A -> M A) (a : A) (w : World) :
  hi <= lo -> fold_for lo hi body a w = Ok a w.
Proof.
  intros Hle. unfold fold_for. replace (Z.to_nat (hi - lo)) with O by lia.
  reflexivity.
Qed.

Lemma wp_for (I : Z -> World -> Prop) lo hi body Q w :
  lo <= hi ->
  I lo w ->
  (forall k w, lo <= k < hi -> I k w -> wp (body k) (fun _ w' => I (k + 1) w') w) ->
  (forall w', I hi w' -> Q tt w') ->
  wp (for_ lo hi body) Q w.
Proof.
  intros Hle HI Hbody HQ. unfold for_.
  apply (wp_fold_for (fun i _ w => I i w)); auto.
  intros a' w' HI'. destruct a'. auto.
Qed.

(** A loop whose rounds all keep [I]. *)
Lemma wp_for_inv (I : World -> Prop) lo hi body w :
  I w ->
  (forall k w, lo <= k < hi -> I w -> wp (body k) (fun _ w' => I w') w) ->
  wp (for_ lo hi body) (fun _ w' => I w') w.
Proof.
  intros HI Hbody. destruct (Z_le_gt_dec lo hi) as [Hle | Hgt].
  - apply (wp_for (fun _ w => I w)); auto.
  - unfold for_, wp. rewrite fold_for_empty by lia. exact HI.
Qed.

Lemma wp_fold_inv {A : Type} (I : World -> Prop) lo hi (body : Z -> A -> M A) (a : A) w :
  I w ->
  (forall k a w, lo <= k < hi -> I w -> wp (body k a) (fun _ w' => I w') w) ->
  wp (fold_for lo hi body a) (fun _ w' => I w') w.
Proof.
  intros HI Hbody. destruct (Z_le_gt_dec lo hi) as [Hle | Hgt].
  - apply (wp_fold_for (fun _ _ w => I w)); auto.
  - unfold wp. rewrite fold_for_empty by lia. exact HI.
Qed.

Lemma rbm_stable_refl w : rbm_stable w w.
Proof. unfold rbm_stable. destruct (rbm w). reflexivity. Qed.

Lemma rbm_stable_trans w1 w2 w3 :
  rbm_stable w1 w2 -> rbm_stable w2 w3 -> rbm_stable w1 w3.
Proof.
  unfold rbm_stable. intros H12 H23. rewrite H23 at 1. rewrite H12 at 1.
  destruct (rbm w1). reflexivity.
Qed.

Lemma rbm_stable_heap w h : rbm_stable w (mkWorld (rbm w) h).
Proof. unfold rbm_stable. simpl. destruct (rbm w). reflexivity. Qed.

Lemma rbm_stable_prng w g h : rbm_stable w (mkWorld (set_m_prng g (rbm w)) h).
Proof. unfold rbm_stable. simpl. destruct (rbm w). reflexivity. Qed.

Lemma heap_le_refl P w : heap_le P w w.
Proof. intros b buf Hb. exists buf. auto. Qed.

Lemma heap_le_trans P w1 w2 w3 :
  heap_le P w1 w2 -> heap_le P w2 w3 -> heap_le P w1 w3.
Proof.
  intros H12 H23 b buf Hb.
  destruct (H12 b buf Hb) as (buf2 & Hb2 & Hl2 & Hc2).
  destruct (H23 b buf2 Hb2) as (buf3 & Hb3 & Hl3 & Hc3).
  exists buf3. repeat split; [exact Hb3 | congruence |].
  intros n Hn. rewrite Hc3, Hc2; auto.
Qed.

Lemma heap_le_weaken P P' w w' :
  (forall b n, P b n -> P' b n) -> heap_le P w w' -> heap_le P' w w'.
Proof.
  intros Hsub H b buf Hb. destruct (H b buf Hb) as (buf' & Hb' & Hl & Hc).
  exists buf'. repeat split; auto.
Qed.

Lemma heap_le_same_heap P w w' : heap w' = heap w -> heap_le P w w'.
Proof. intros Heq b buf Hb. exists buf. rewrite Heq. auto. Qed.

Lemma heap_le_insert P w r b buf buf' :
  heap w !! b = Some buf -> length buf' = length buf ->
  (forall n, ~ P b n -> buf' !! n = buf !! n) ->
  heap_le P w (mkWorld r (<[b := buf']> (heap w))).
Proof.
  intros Hb Hlen Hin c cbuf Hc. simpl.
  destruct (decide (b = c)) as [-> | Hne].
  - exists buf'. rewrite list_lookup_insert_eq by (eapply lookup_lt_Some; eauto).
    assert (cbuf = buf) as -> by congruence. auto.
  - exists cbuf. rewrite list_lookup_insert_ne by exact Hne. auto.
Qed.

Lemma heap_le_alloc P w r buf : heap_le P w (mkWorld r (heap w ++ [buf])).
Proof.
  intros b cbuf Hb. exists cbuf. simpl.
  rewrite lookup_app_l by (eapply lookup_lt_Some; eauto). auto.
Qed.

Lemma step_refl P w : step P w w.
Proof. split; [apply rbm_stable_refl | apply heap_le_refl]. Qed.

Lemma step_trans P w1 w2 w3 : step P w1 w2 -> step P w2 w3 -> step P w1 w3.
Proof.
  intros [Hr12 Hh12] [Hr23 Hh23].
  split; [eapply rbm_stable_trans | eapply heap_le_trans]; eauto.
Qed.

Lemma step_weaken P P' w w' :
  (forall b n, P b n -> P' b n) -> step P w w' -> step P' w w'.
Proof. intros Hsub [Hr Hh]. split; [exact Hr | eapply heap_le_weaken; eauto]. Qed.

(** ** Accesses inside a mapped region *)

Lemma lookupZ_Some {A : Type} (l : list A) (i : Z) :
  0 <= i < Z.of_nat (length l) -> is_Some (lookupZ l i).
Proof.
  intros Hi. unfold lookupZ. destruct (Z.leb_spec 0 i); [| lia].
  apply lookup_lt_is_Some. lia.
Qed.

Lemma lookupZ_bound {A : Type} (l : list A) (i : Z) (x : A) :
  lookupZ l i = Some x -> 0 <= i < Z.of_nat (length l).
Proof.
  unfold lookupZ. destruct (Z.leb_spec 0 i); [| discriminate].
  intros Hl. apply lookup_lt_Some in Hl. lia.
Qed.

Lemma emap_ok_inv w m :
  emap_ok w m = true ->
  exists b o buf, e_ptr m = Ptr b o /\ heap w !! b = Some buf /\ 0 <= e_rows m
    /\ 0 <= e_cols m /\ 0 <= o /\ o + e_rows m * e_cols m <= Z.of_nat (length buf).
Proof.
  unfold emap_ok. destruct (e_ptr m) as [| b o]; [discriminate |].
  destruct (heap w !! b) as [buf |] eqn:Hb; [| discriminate].
  intros H. exists b, o, buf.
  apply andb_true_iff in H as [H H4]. apply andb_true_iff in H as [H H3].
  apply andb_true_iff in H as [H1 H2].
  apply Z.leb_le in H1, H2, H3, H4. auto 10.
Qed.

Lemma emap_ok_intro w m b o buf :
  e_ptr m = Ptr b o -> heap w !! b = Some buf -> 0 <= e_rows m -> 0 <= e_cols m ->
  0 <= o -> o + e_rows m * e_cols m <= Z.of_nat (length buf) ->
  emap_ok w m = true.
Proof.
  intros Hp Hb ? ? ? ?. unfold emap_ok. rewrite Hp, Hb.
  repeat rewrite andb_true_iff. repeat rewrite Z.leb_le. auto.
Qed.

Lemma emap_ok_mono P w w' m : heap_le P w w' -> emap_ok w m = true -> emap_ok w' m = true.
Proof.
  intros Hle Hok. destruct (emap_ok_inv _ _ Hok) as (b & o & buf & Hp & Hb & ? & ? & ? & ?).
  destruct (Hle b buf Hb) as (buf' & Hb' & Hlen & _).
  eapply emap_ok_intro; eauto. lia.
Qed.

(** A sub-range of a mapped vector, mapped as a matrix. *)
Lemma emap_ok_sub w p n d rows cols :
  emap_ok w (EVector p n) = true ->
  0 <= d -> 0 <= rows -> 0 <= cols -> d + rows * cols <= n ->
  emap_ok w (EMatrix (ptr_add p d) rows cols) = true.
Proof.
  intros Hok ? ? ? ?.
  destruct (emap_ok_inv _ _ Hok) as (b & o & buf & Hp & Hb & ? & ? & ? & Hl).
  simpl in *. subst p. simpl.
  eapply emap_ok_intro; simpl; eauto; lia.
Qed.

Lemma peek_in_map w m k :
  emap_ok w m = true -> 0 <= k < e_rows m * e_cols m -> is_Some (peek w (e_ptr m) k).
Proof.
  intros Hok Hk. destruct (emap_ok_inv _ _ Hok) as (b & o & buf & Hp & Hb & ? & ? & ? & ?).
  unfold peek. rewrite Hp, Hb. apply lookupZ_Some. lia.
Qed.

Lemma rbm_poke w p i v : rbm (poke w p i v) = rbm w.
Proof.
  unfold poke. destruct p as [| b o]; [reflexivity |].
  destruct (heap w !! b); reflexivity.
Qed.

Lemma heap_le_poke P w b o i v :
  P b (Z.to_nat (o + i)) -> heap_le P w (poke w (Ptr b o) i v).
Proof.
  intros Hin. unfold poke. destruct (heap w !! b) as [buf |] eqn:Hb.
  - eapply heap_le_insert; eauto; [apply length_insert |].
    intros n Hn. apply list_lookup_insert_ne. intros Heq. apply Hn.
    rewrite <- Heq. exact Hin.
  - apply heap_le_refl.
Qed.

Lemma step_poke P w b o i v :
  P b (Z.to_nat (o + i)) -> step P w (poke w (Ptr b o) i v).
Proof.
  intros Hin. split; [| apply heap_le_poke; exact Hin].
  unfold rbm_stable. rewrite rbm_poke. apply rbm_stable_refl.
Qed.

Lemma rbm_write_map w m f : rbm (write_map w m f) = rbm w.
Proof.
  unfold write_map. destruct (e_ptr m) as [| b o]; [reflexivity |].
  destruct (heap w !! b); reflexivity.
Qed.

Lemma fill_block_outside m o f (buf : list F) n :
  ~ (0 <= Z.of_nat n - o < e_rows m * e_cols m) ->
  fill_block m o f buf !! n = buf !! n.
Proof.
  intros Hout. unfold fill_block. rewrite list_lookup_imap.
  destruct (buf !! n) as [x |]; [| reflexivity]. simpl.
  destruct (Z.leb_spec 0 (Z.of_nat n - o)); simpl; [| reflexivity].
  destruct (Z.ltb_spec (Z.of_nat n - o) (e_rows m * e_cols m)); [lia | reflexivity].
Qed.

Lemma step_write_map P w m f b o :
  e_ptr m = Ptr b o ->
  (forall d, 0 <= d < e_rows m * e_cols m -> P b (Z.to_nat (o + d))) ->
  0 <= o ->
  step P w (write_map w m f).
Proof.
  intros Hp Hin Ho. split.
  - unfold rbm_stable. rewrite rbm_write_map. apply rbm_stable_refl.
  - unfold write_map. rewrite Hp. destruct (heap w !! b) as [buf |] eqn:Hb.
    + eapply heap_le_insert; eauto; [unfold fill_block; apply length_imap |].
      intros n Hn. apply fill_block_outside. intros Hd. apply Hn.
      replace n with (Z.to_nat (o + (Z.of_nat n - o))) by lia. apply Hin. exact Hd.
    + apply heap_le_refl.
Qed.

(** Cells outside the footprint read the same. *)
Lemma peek_frame P w w' b o i :
  heap_le P w w' -> is_Some (peek w (Ptr b o) i) -> ~ P b (Z.to_nat (o + i)) ->
  peek w' (Ptr b o) i = peek w (Ptr b o) i.
Proof.
  intros Hle [x Hx] Hn. unfold peek in *.
  destruct (heap w !! b) as [buf |] eqn:Hb; [| discriminate].
  destruct (Hle b buf Hb) as (buf' & Hb' & _ & Hc). rewrite Hb'.
  unfold lookupZ in *. destruct (0 <=? o + i); [| discriminate]. auto.
Qed.

Lemma peek_poke_eq w b o i v x :
  peek w (Ptr b o) i = Some x -> peek (poke w (Ptr b o) i v) (Ptr b o) i = Some v.
Proof.
  unfold peek, poke. destruct (heap w !! b) as [buf |] eqn:Hb; [| discriminate].
  intros Hx. simpl. rewrite list_lookup_insert_eq by (eapply lookup_lt_Some; eauto).
  unfold lookupZ in *. destruct (0 <=? o + i); [| discriminate].
  apply list_lookup_insert_eq. eapply lookup_lt_Some; eauto.
Qed.

Lemma peek_poke_ne w b o i v b' o' i' :
  0 <= o + i -> b <> b' \/ o + i <> o' + i' ->
  peek (poke w (Ptr b o) i v) (Ptr b' o') i' = peek w (Ptr b' o') i'.
Proof.
  intros Hpos Hne. unfold peek, poke.
  destruct (heap w !! b) as [buf |] eqn:Hb; [| reflexivity]. simpl.
  destruct (decide (b = b')) as [<- | Hb'].
  - rewrite list_lookup_insert_eq by (eapply lookup_lt_Some; eauto). rewrite Hb.
    unfold lookupZ. destruct (Z.leb_spec 0 (o' + i')); [| reflexivity].
    apply list_lookup_insert_ne. lia.
  - rewrite list_lookup_insert_ne by exact Hb'. reflexivity.
Qed.

(** ** Rules relative to a base state

    In the rules below [w0] is the state a function starts from and [w] the
    current one, with [step P w0 w]; handles are checked against [w0]. *)

Lemma wp_load_step P w0 w m p k Q :
  step P w0 w -> emap_ok w0 m = true -> p = e_ptr m ->
  0 <= k < e_rows m * e_cols m ->
  (forall x, peek w p k = Some x -> Q x w) ->
  wp (load p k) Q w.
Proof.
  intros [_ Hle] Hok -> Hk HQ.
  destruct (peek_in_map w m k) as [x Hx]; [eapply emap_ok_mono; eauto | exact Hk |].
  eapply wp_load; eauto.
Qed.

Lemma wp_store_step P w0 w m p b o k v Q :
  step P w0 w -> emap_ok w0 m = true -> e_ptr m = p -> p = Ptr b o ->
  0 <= k < e_rows m * e_cols m ->
  P b (Z.to_nat (o + k)) ->
  (step P w0 (poke w p k v) -> Q tt (poke w p k v)) ->
  wp (store p k v) Q w.
Proof.
  intros Hst Hok Hp Hpb Hk Hin HQ. rewrite Hpb in *.
  destruct (peek_in_map w m k) as [x Hx];
    [eapply emap_ok_mono; [apply Hst | exact Hok] | exact Hk |].
  rewrite Hp in Hx. eapply wp_store; [exact Hx |].
  apply HQ. eapply step_trans; [exact Hst |]. apply step_poke; exact Hin.
Qed.

Lemma wp_draw_uniform_step P w0 w Q :
  step P w0 w ->
  (forall x w', step P w0 w' -> heap w' = heap w -> Q x w') ->
  wp draw_uniform Q w.
Proof.
  intros Hst HQ. unfold wp, draw_uniform.
  destruct (uniform_real (m_prng (rbm w))) as [x g]. apply HQ; [| reflexivity].
  eapply step_trans; [exact Hst |].
  split; [apply rbm_stable_prng | apply heap_le_same_heap; reflexivity].
Qed.

Lemma wp_draw_int_step P w0 w a b Q :
  step P w0 w ->
  (forall w', step P w0 w' -> heap w' = heap w ->
     Q (fst (uniform_int a b (m_prng (rbm w)))) w') ->
  wp (draw_int a b) Q w.
Proof.
  intros Hst HQ. unfold wp, draw_int.
  destruct (uniform_int a b (m_prng (rbm w))) as [x g]. apply HQ; [| reflexivity].
  eapply step_trans; [exact Hst |].
  split; [apply rbm_stable_prng | apply heap_le_same_heap; reflexivity].
Qed.

Lemma forallb_emap_ok_mono P w w' ms :
  heap_le P w w' -> Forall (fun m => emap_ok w m = true) ms ->
  forallb (emap_ok w') ms = true.
Proof.
  intros Hle Hall. apply forallb_forall. intros m Hin.
  rewrite Forall_forall in Hall. eapply emap_ok_mono; [exact Hle |].
  apply Hall. apply list_elem_of_In. exact Hin.
Qed.

Lemma wp_eigen_assign_step P w0 w srcs (conform : bool) dst rhs b o Q :
  step P w0 w -> conform = true ->
  Forall (fun m => emap_ok w0 m = true) (dst :: srcs) ->
  e_ptr dst = Ptr b o ->
  (forall d, 0 <= d < e_rows dst * e_cols dst -> P b (Z.to_nat (o + d))) ->
  (step P w0 (write_map w dst (rhs w)) -> Q tt (write_map w dst (rhs w))) ->
  wp (eigen_assign srcs conform dst rhs) Q w.
Proof.
  intros Hst -> Hall Hp Hin HQ. unfold wp, eigen_assign.
  rewrite (forallb_emap_ok_mono P w0 w) by (apply Hst || exact Hall).
  simpl. apply HQ. eapply step_trans; [exact Hst |].
  apply Forall_cons in Hall as [Hdst _].
  destruct (emap_ok_inv _ _ Hdst) as (b' & o' & buf & Hp' & _ & _ & _ & Ho & _).
  rewrite Hp in Hp'. inversion Hp'; subst b' o'.
  eapply step_write_map; eauto.
Qed.

Lemma wp_eigen_eval_step P w0 w srcs rhs Q :
  step P w0 w -> Forall (fun m => emap_ok w0 m = true) srcs ->
  Q (rhs w) w -> wp (eigen_eval srcs rhs) Q w.
Proof.
  intros Hst Hall HQ. unfold wp, eigen_eval.
  rewrite (forallb_emap_ok_mono P w0 w) by (apply Hst || exact Hall). exact HQ.
Qed.

End Reasoning.

(** * Well-formed machines *)

Lemma length_running_sums start sizes : length (running_sums start sizes) = length sizes.
Proof. revert start. induction sizes as [| s rest IH]; intros start; simpl; auto. Qed.

Lemma running_sums_app start l s :
  running_sums start (l ++ [s]) = running_sums start l ++ [start + sumZ l].
Proof.
  revert start. induction l as [| x l IH]; intros start; simpl.
  - rewrite Z.add_0_r. reflexivity.
  - rewrite IH. rewrite Z.add_assoc. reflexivity.
Qed.

Lemma sumZ_app l1 l2 : sumZ (l1 ++ l2) = sumZ l1 + sumZ l2.
Proof. induction l1 as [| x l1 IH]; simpl; lia. Qed.

Lemma sumZ_nonneg l : Forall (fun s => 0 <= s) l -> 0 <= sumZ l.
Proof. induction 1; simpl; lia. Qed.

Lemma running_sums_bounds sizes :
  Forall (fun s => 0 <= s) sizes ->
  forall start k o s,
  running_sums start sizes !! k = Some o -> sizes !! k = Some s ->
  start <= o /\ 0 <= s /\ o + s <= start + sumZ sizes.
Proof.
  induction 1 as [| x rest Hx Hrest IH]; intros start k o s Ho Hs.
  - destruct k; discriminate.
  - pose proof (sumZ_nonneg rest Hrest) as Hsum.
    destruct k as [| k]; simpl in *.
    + inversion Ho; inversion Hs; subst. lia.
    + destruct (IH _ _ _ _ Ho Hs) as (? & ? & ?). lia.
Qed.

Lemma running_sums_disjoint sizes :
  Forall (fun s => 0 <= s) sizes ->
  forall start k k' o s o',
  (k < k')%nat ->
  running_sums start sizes !! k = Some o -> sizes !! k = Some s ->
  running_sums start sizes !! k' = Some o' ->
  o + s <= o'.
Proof.
  induction 1 as [| x rest Hx Hrest IH]; intros start k k' o s o' Hlt Ho Hs Ho'.
  - destruct k; discriminate.
  - destruct k' as [| k']; [lia |]. destruct k as [| k]; simpl in *.
    + inversion Ho; inversion Hs; subst.
      destruct (rest !! k') as [s' |] eqn:Hs'.
      * destruct (running_sums_bounds rest Hrest _ _ _ _ Ho' Hs'). lia.
      * apply lookup_lt_Some in Ho'. rewrite length_running_sums in Ho'.
        apply lookup_ge_None in Hs'. lia.
    + apply (IH (start + x) k k' o s o'); [lia | exact Ho | exact Hs | exact Ho'].
Qed.

Section Specs.

Context {F : Type} {AF : Arith F} {LF : Libm F} {G : Type} {RE : RandomEngine G F}.

#[local] Open Scope M_scope.

#[local] Abbreviation RBM := (RBM F G).
#[local] Abbreviation World := (World F G).
#[local] Abbreviation M := (M F G).

Implicit Types (w : World) (r : RBM) (P : footprint).

Lemma registry_group r k :
  registry_ok r -> 0 <= k < m_num_visible_groups r ->
  exists o s t,
    lookupZ (m_visible_state_offsets r) k = Some o
    /\ lookupZ (m_visible_group_sizes r) k = Some s
    /\ lookupZ (m_visible_group_types r) k = Some t
    /\ 0 <= o /\ 0 <= s /\ o + s <= m_num_visible r.
Proof.
  intros (Hn & Ht & Ho & Hpos & Hsum) Hk.
  destruct (lookupZ_Some (m_visible_group_sizes r) k) as [s Hs]; [lia |].
  destruct (lookupZ_Some (m_visible_group_types r) k) as [t Htk]; [lia |].
  destruct (lookupZ_Some (m_visible_state_offsets r) k) as [o Hok].
  { rewrite Ho, length_running_sums. lia. }
  exists o, s, t. repeat split; auto.
  all: unfold lookupZ in *; destruct (0 <=? k); try discriminate.
  all: rewrite Ho in Hok;
    destruct (running_sums_bounds _ Hpos _ _ _ _ Hok Hs) as (? & ? & ?); lia.
Qed.

Lemma weights_ok w :
  params_ok w ->
  emap_ok w (EMatrix (ptr_add (vector (m_params (rbm w))) (m_num_visible (rbm w)))
               (m_num_hidden (rbm w)) (m_num_visible (rbm w))) = true.
Proof.
  intros (Hv & Hh & Hlen & _ & Hok).
  eapply emap_ok_sub; [exact Hok | lia ..| rewrite Hlen; lia].
Qed.

Lemma hidden_bias_ok w :
  params_ok w ->
  emap_ok w (EVector (ptr_add (vector (m_params (rbm w)))
                        (m_num_visible (rbm w)
                         + m_num_visible (rbm w) * m_num_hidden (rbm w)))
               (m_num_hidden (rbm w))) = true.
Proof.
  intros (Hv & Hh & Hlen & _ & Hok).
  eapply emap_ok_sub; [exact Hok | nia | lia | lia | rewrite Hlen; lia].
Qed.

Lemma visible_bias_ok w :
  params_ok w ->
  emap_ok w (EVector (vector (m_params (rbm w))) (m_num_visible (rbm w))) = true.
Proof.
  intros (Hv & Hh & Hlen & _ & Hok).
  destruct (emap_ok_inv _ _ Hok) as (b & o & buf & Hp & Hb & ? & ? & ? & Hl).
  simpl in *. eapply emap_ok_intro; simpl; eauto; nia.
Qed.

(** ** The inference functions return and keep to their footprint *)

Lemma mat_cell_range rows cols i j :
  0 <= i < rows -> 0 <= j < cols -> 0 <= j * rows + i < rows * cols.
Proof. intros Hi Hj. nia. Qed.

Lemma mean_hidden_step P w0 w (visible result : SGMatrix) b o (Q : unit -> World -> Prop) :
  step P w0 w -> params_ok w0 ->
  mat_ok w0 visible -> num_rows visible = m_num_visible (rbm w0) ->
  mat_ok w0 result -> num_rows result = m_num_hidden (rbm w0) ->
  num_cols result = num_cols visible ->
  matrix result = Ptr b o ->
  (forall d, 0 <= d < num_rows result * num_cols result -> P b (Z.to_nat (o + d))) ->
  (forall w', step P w0 w' -> Q tt w') ->
  wp (mean_hidden visible result) Q w.
Proof.
  intros Hst Hpar Hvis Hvrows Hres Hrrows Hcols Hptr Hfoot HQ.
  unfold mean_hidden. apply wp_bind, wp_get_rbm.
  unfold get_weights, get_hidden_bias. simpl. stable_rw (proj1 Hst).
  apply wp_bind.
  eapply (wp_eigen_assign_step P w0); [exact Hst | | | exact Hptr | exact Hfoot |].
  { simpl. apply Z.eqb_eq. exact Hrrows. }
  { repeat constructor; [exact Hres | apply hidden_bias_ok; exact Hpar]. }
  intros Hst1. apply wp_bind.
  eapply (wp_eigen_assign_step P w0); [exact Hst1 | | | exact Hptr | exact Hfoot |].
  { simpl. rewrite Hvrows, Hrrows, Hcols, !Z.eqb_refl. reflexivity. }
  { repeat constructor; [exact Hres | apply weights_ok; exact Hpar | exact Hvis]. }
  intros Hst2.
  eapply wp_mono; [apply (wp_for_inv (fun w => step P w0 w)); [exact Hst2 |] |].
  - intros k w1 Hk Hst3. apply wp_bind. unfold lin_get, lin_set.
    eapply (wp_load_step P w0 w1 (mat_map result)); [exact Hst3 | exact Hres | reflexivity | exact Hk |].
    intros x _.
    eapply (wp_store_step P w0 w1 (mat_map result));
      [exact Hst3 | exact Hres | reflexivity | exact Hptr | exact Hk | apply Hfoot; exact Hk |].
    auto.
  - intros [] w' Hst'. apply HQ. exact Hst'.
Qed.

Lemma sample_hidden_step P w0 w (mean result : SGMatrix) b o (Q : unit -> World -> Prop) :
  step P w0 w ->
  mat_ok w0 mean -> mat_ok w0 result ->
  num_rows result * num_cols result <= num_rows mean * num_cols mean ->
  matrix result = Ptr b o ->
  (forall d, 0 <= d < num_rows result * num_cols result -> P b (Z.to_nat (o + d))) ->
  (forall w', step P w0 w' -> Q tt w') ->
  wp (sample_hidden mean result) Q w.
Proof.
  intros Hst Hmean Hres Hsize Hptr Hfoot HQ. unfold sample_hidden.
  eapply wp_mono; [apply (wp_for_inv (fun w => step P w0 w)); [exact Hst |] |].
  - intros k w1 Hk Hst1. apply wp_bind.
    apply (wp_draw_uniform_step P w0); [exact Hst1 |]. intros u w2 Hst2 _.
    apply wp_bind. unfold lin_get, lin_set.
    eapply (wp_load_step P w0 w2 (mat_map mean)); [exact Hst2 | exact Hmean | reflexivity | simpl; lia |].
    intros x _.
    eapply (wp_store_step P w0 w2 (mat_map result));
      [exact Hst2 | exact Hres | reflexivity | exact Hptr | exact Hk | apply Hfoot; exact Hk |].
    auto.
  - intros [] w' Hst'. apply HQ. exact Hst'.
Qed.

Lemma group_cells_of_matrix P b o rows cols off size batch :
  (forall d, 0 <= d < rows * cols -> P b (Z.to_nat (o + d))) ->
  0 <= off -> off + size <= rows -> batch <= cols ->
  group_cells P b o rows off size batch.
Proof. intros Hfoot Hoff Hsize Hb i j Hi Hj. apply Hfoot. nia. Qed.

Lemma mean_visible_softmax_step P w0 w (result : SGMatrix) b o off size batch
    (Q : unit -> World -> Prop) :
  step P w0 w -> mat_ok w0 result ->
  0 <= off -> 0 < size -> off + size <= num_rows result ->
  0 < batch -> batch <= num_cols result ->
  matrix result = Ptr b o ->
  group_cells P b o (num_rows result) off size batch ->
  (forall w', step P w0 w' -> Q tt w') ->
  wp (mean_visible_softmax result off size batch) Q w.
Proof.
  intros Hst Hres Hoff Hsize Hrows Hbatch Hcols Hptr Hfoot HQ.
  unfold mean_visible_softmax, mat_get, mat_set. apply wp_bind.
  eapply (wp_load_step P w0 w (mat_map result)); [exact Hst | exact Hres | reflexivity | simpl; nia |].
  intros max0 _. apply wp_bind.
  eapply wp_mono; [apply (wp_fold_inv (fun w => step P w0 w)); [exact Hst |] |].
  { intros i mx w1 Hi Hst1.
    apply (wp_fold_inv (fun w => step P w0 w)); [exact Hst1 |].
    intros j mx' w2 Hj Hst2. apply wp_bind.
    eapply (wp_load_step P w0 w2 (mat_map result)); [exact Hst2 | exact Hres | reflexivity | simpl; nia |].
    intros x _. apply wp_ret. exact Hst2. }
  intros mx w1 Hst1. simpl in Hst1.
  eapply wp_mono; [apply (wp_for_inv (fun w => step P w0 w)); [exact Hst1 |] |].
  { intros j w2 Hj Hst2. apply wp_bind.
    eapply wp_mono; [apply (wp_fold_inv (fun w => step P w0 w)); [exact Hst2 |] |].
    { intros i sm w3 Hi Hst3. apply wp_bind.
      eapply (wp_load_step P w0 w3 (mat_map result)); [exact Hst3 | exact Hres | reflexivity | simpl; nia |].
      intros x _. apply wp_ret. exact Hst3. }
    intros sm w3 Hst3. simpl in Hst3.
    apply (wp_for_inv (fun w => step P w0 w)); [exact Hst3 |].
    intros i w4 Hi Hst4. apply wp_bind.
    eapply (wp_load_step P w0 w4 (mat_map result)); [exact Hst4 | exact Hres | reflexivity | simpl; nia |].
    intros x _.
    eapply (wp_store_step P w0 w4 (mat_map result));
      [exact Hst4 | exact Hres | reflexivity | exact Hptr | simpl; nia | apply Hfoot; lia |].
    auto. }
  intros [] w' Hst'. apply HQ. exact Hst'.
Qed.

Lemma mean_visible_group_step P w0 w (result : SGMatrix) k b o (Q : unit -> World -> Prop) :
  step P w0 w -> registry_ok (rbm w0) -> softmax_ok (rbm w0) ->
  0 <= k < m_num_visible_groups (rbm w0) ->
  mat_ok w0 result -> num_rows result = m_num_visible (rbm w0) ->
  m_batch_size (rbm w0) <= num_cols result ->
  matrix result = Ptr b o ->
  (forall off size,
     lookupZ (m_visible_state_offsets (rbm w0)) k = Some off ->
     lookupZ (m_visible_group_sizes (rbm w0)) k = Some size ->
     group_cells P b o (num_rows result) off size (m_batch_size (rbm w0))) ->
  (forall w', step P w0 w' -> Q tt w') ->
  wp (mean_visible_group result k) Q w.
Proof.
  intros Hst Hreg Hsoft Hk Hres Hrows Hcols Hptr Hfoot HQ.
  unfold mean_visible_group. apply wp_bind, wp_get_rbm. stable_rw (proj1 Hst).
  destruct (registry_group _ k Hreg Hk) as (off & size & t & Hoff & Hsz & Ht & ? & ? & ?).
  specialize (Hfoot off size Hoff Hsz).
  apply wp_bind. eapply wp_at; [exact Hoff |].
  apply wp_bind. eapply wp_at; [exact Ht |].
  apply wp_bind.
  assert (wp (if is_binary t
              then bind (at_ (m_visible_group_sizes (rbm w0)) k) (fun size =>
                     for_ 0 size (fun i =>
                       for_ 0 (m_batch_size (rbm w0)) (fun j =>
                         bind (mat_get result (i + off) j) (fun x =>
                           mat_set result (i + off) j (sigmoid x)))))
              else ret tt) (fun _ w' => step P w0 w') w) as Hbin.
  { destruct (is_binary t); [| apply wp_ret; exact Hst].
    apply wp_bind. eapply wp_at; [exact Hsz |].
    apply (wp_for_inv (fun w => step P w0 w)); [exact Hst |].
    intros i w1 Hi Hst1.
    apply (wp_for_inv (fun w => step P w0 w)); [exact Hst1 |].
    intros j w2 Hj Hst2. apply wp_bind. unfold mat_get, mat_set.
    eapply (wp_load_step P w0 w2 (mat_map result)); [exact Hst2 | exact Hres | reflexivity | simpl; nia |].
    intros x _.
    eapply (wp_store_step P w0 w2 (mat_map result));
      [exact Hst2 | exact Hres | reflexivity | exact Hptr | simpl; nia | apply Hfoot; lia |].
    auto. }
  eapply wp_mono; [exact Hbin |]. intros [] w1 Hst1. simpl in Hst1.
  destruct t; simpl; try (apply wp_ret, HQ; exact Hst1).
  apply wp_bind. eapply wp_at; [exact Hsz |].
  destruct (Hsoft k size Ht Hsz) as [Hpos Hbs].
  eapply mean_visible_softmax_step; eauto; lia.
Qed.

Lemma mean_visible_step P w0 w (hidden result : SGMatrix) b o (Q : unit -> World -> Prop) :
  step P w0 w -> params_ok w0 -> registry_ok (rbm w0) -> softmax_ok (rbm w0) ->
  mat_ok w0 hidden -> num_rows hidden = m_num_hidden (rbm w0) ->
  mat_ok w0 result -> num_rows result = m_num_visible (rbm w0) ->
  num_cols result = num_cols hidden ->
  m_batch_size (rbm w0) <= num_cols result ->
  matrix result = Ptr b o ->
  (forall d, 0 <= d < num_rows result * num_cols result -> P b (Z.to_nat (o + d))) ->
  (forall w', step P w0 w' -> Q tt w') ->
  wp (mean_visible hidden result) Q w.
Proof.
  intros Hst Hpar Hreg Hsoft Hhid Hhrows Hres Hrrows Hcols Hbs Hptr Hfoot HQ.
  unfold mean_visible. apply wp_bind, wp_get_rbm.
  unfold get_weights, get_visible_bias. simpl. stable_rw (proj1 Hst).
  apply wp_bind.
  eapply (wp_eigen_assign_step P w0); [exact Hst | | | exact Hptr | exact Hfoot |].
  { simpl. apply Z.eqb_eq. exact Hrrows. }
  { repeat constructor; [exact Hres | apply visible_bias_ok; exact Hpar]. }
  intros Hst1. apply wp_bind.
  eapply (wp_eigen_assign_step P w0); [exact Hst1 | | | exact Hptr | exact Hfoot |].
  { simpl. rewrite Hhrows, Hrrows, Hcols, !Z.eqb_refl. reflexivity. }
  { repeat constructor; [exact Hres | apply weights_ok; exact Hpar | exact Hhid]. }
  intros Hst2.
  eapply wp_mono; [apply (wp_for_inv (fun w => step P w0 w)); [exact Hst2 |] |].
  - intros k w1 Hk Hst3.
    eapply mean_visible_group_step; eauto.
    intros off size Hoff Hsz.
    destruct (registry_group _ k Hreg Hk) as (off' & size' & t & Hoff' & Hsz' & _ & ? & ? & ?).
    assert (off' = off) as -> by congruence. assert (size' = size) as -> by congruence.
    eapply group_cells_of_matrix; eauto; lia.
  - intros [] w' Hst'. apply HQ. exact Hst'.
Qed.

Lemma sample_visible_pick_step P w0 (mean result : SGMatrix) b o off size batch j rd
    (Q : unit -> World -> Prop) :
  mat_ok w0 mean -> mat_ok w0 result ->
  num_rows mean = num_rows result ->
  0 <= off -> off + size <= num_rows result ->
  0 <= j < batch -> batch <= num_cols result -> batch <= num_cols mean ->
  matrix result = Ptr b o ->
  group_cells P b o (num_rows result) off size batch ->
  (forall w', step P w0 w' -> Q tt w') ->
  forall n i sum w,
  step P w0 w -> 0 <= i -> i + Z.of_nat n <= size ->
  wp (sample_visible_pick mean result off j rd n i sum) Q w.
Proof.
  intros Hmean Hres Hrows Hoff Hsize Hj Hcols Hmcols Hptr Hfoot HQ.
  induction n as [| n IH]; intros i sum w Hst Hi Hn; simpl.
  - apply wp_ret, HQ. exact Hst.
  - apply wp_bind. unfold mat_get, mat_set.
    eapply (wp_load_step P w0 w (mat_map mean)); [exact Hst | exact Hmean | reflexivity | simpl; nia |].
    intros x _. destruct (fleb (of_int rd) (fadd sum x)).
    + eapply (wp_store_step P w0 w (mat_map result));
        [exact Hst | exact Hres | reflexivity | exact Hptr | simpl; nia | apply Hfoot; lia |].
      intros Hst'. apply HQ. exact Hst'.
    + apply IH; [exact Hst | lia | lia].
Qed.

Lemma sample_visible_index_step P w0 w (mean result : SGMatrix) k b o
    (Q : unit -> World -> Prop) :
  step P w0 w -> registry_ok (rbm w0) ->
  0 <= k < m_num_visible_groups (rbm w0) ->
  mat_ok w0 mean -> mat_ok w0 result ->
  num_rows mean = num_rows result ->
  num_rows result = m_num_visible (rbm w0) ->
  m_batch_size (rbm w0) <= num_cols result ->
  m_batch_size (rbm w0) <= num_cols mean ->
  matrix result = Ptr b o ->
  (forall off size,
     lookupZ (m_visible_state_offsets (rbm w0)) k = Some off ->
     lookupZ (m_visible_group_sizes (rbm w0)) k = Some size ->
     group_cells P b o (num_rows result) off size (m_batch_size (rbm w0))) ->
  (forall w', step P w0 w' -> Q tt w') ->
  wp (sample_visible_index k mean result) Q w.
Proof.
  intros Hst Hreg Hk Hmean Hres Hmrows Hrows Hcols Hmcols Hptr Hfoot HQ.
  unfold sample_visible_index. apply wp_bind, wp_get_rbm. stable_rw (proj1 Hst).
  destruct (registry_group _ k Hreg Hk) as (off & size & t & Hoff & Hsz & Ht & ? & ? & ?).
  specialize (Hfoot off size Hoff Hsz).
  apply wp_bind. eapply wp_at; [exact Hoff |].
  apply wp_bind. eapply wp_at; [exact Ht |].
  apply wp_bind.
  assert (wp (if is_binary t
              then bind (at_ (m_visible_group_sizes (rbm w0)) k) (fun size =>
                     for_ 0 size (fun i =>
                       for_ 0 (m_batch_size (rbm w0)) (fun j =>
                         bind draw_uniform (fun u =>
                           bind (mat_get mean (i + off) j) (fun m =>
                             mat_set result (i + off) j (b2f (fltb u m)))))))
              else ret tt) (fun _ w' => step P w0 w') w) as Hbin.
  { destruct (is_binary t); [| apply wp_ret; exact Hst].
    apply wp_bind. eapply wp_at; [exact Hsz |].
    apply (wp_for_inv (fun w => step P w0 w)); [exact Hst |].
    intros i w1 Hi Hst1.
    apply (wp_for_inv (fun w => step P w0 w)); [exact Hst1 |].
    intros j w2 Hj Hst2. apply wp_bind.
    apply (wp_draw_uniform_step P w0); [exact Hst2 |]. intros u w3 Hst3 _.
    apply wp_bind. unfold mat_get, mat_set.
    eapply (wp_load_step P w0 w3 (mat_map mean)); [exact Hst3 | exact Hmean | reflexivity | simpl; nia |].
    intros x _.
    eapply (wp_store_step P w0 w3 (mat_map result));
      [exact Hst3 | exact Hres | reflexivity | exact Hptr | simpl; nia | apply Hfoot; lia |].
    auto. }
  eapply wp_mono; [exact Hbin |]. intros [] w1 Hst1. simpl in Hst1.
  destruct t; simpl; try (apply wp_ret, HQ; exact Hst1).
  apply wp_bind. eapply wp_at; [exact Hsz |].
  apply wp_bind.
  eapply wp_mono; [apply (wp_for_inv (fun w => step P w0 w)); [exact Hst1 |] |].
  { intros i w2 Hi Hst2.
    apply (wp_for_inv (fun w => step P w0 w)); [exact Hst2 |].
    intros j w3 Hj Hst3. unfold mat_set.
    eapply (wp_store_step P w0 w3 (mat_map result));
      [exact Hst3 | exact Hres | reflexivity | exact Hptr | simpl; nia | apply Hfoot; lia |].
    auto. }
  intros [] w2 Hst2. simpl in Hst2.
  eapply wp_mono; [apply (wp_for_inv (fun w => step P w0 w)); [exact Hst2 |] |].
  { intros j w3 Hj Hst3. apply wp_bind.
    apply (wp_draw_int_step P w0); [exact Hst3 |]. intros w4 Hst4 _.
    eapply (sample_visible_pick_step P w0 mean result b o off size (m_batch_size (rbm w0)));
      eauto; lia. }
  intros [] w' Hst'. apply HQ. exact Hst'.
Qed.

Lemma sample_visible_step P w0 w (mean result : SGMatrix) b o (Q : unit -> World -> Prop) :
  step P w0 w -> registry_ok (rbm w0) ->
  mat_ok w0 mean -> mat_ok w0 result ->
  num_rows mean = num_rows result ->
  num_rows result = m_num_visible (rbm w0) ->
  m_batch_size (rbm w0) <= num_cols result ->
  m_batch_size (rbm w0) <= num_cols mean ->
  matrix result = Ptr b o ->
  (forall d, 0 <= d < num_rows result * num_cols result -> P b (Z.to_nat (o + d))) ->
  (forall w', step P w0 w' -> Q tt w') ->
  wp (sample_visible mean result) Q w.
Proof.
  intros Hst Hreg Hmean Hres Hmrows Hrows Hcols Hmcols Hptr Hfoot HQ.
  unfold sample_visible. apply wp_bind, wp_get_rbm. stable_rw (proj1 Hst).
  eapply wp_mono; [apply (wp_for_inv (fun w => step P w0 w)); [exact Hst |] |].
  - intros k w1 Hk Hst1.
    eapply sample_visible_index_step; eauto.
    intros off size Hoff Hsz.
    destruct (registry_group _ k Hreg Hk) as (off' & size' & t & Hoff' & Hsz' & _ & ? & ? & ?).
    assert (off' = off) as -> by congruence. assert (size' = size) as -> by congruence.
    eapply group_cells_of_matrix; eauto; lia.
  - intros [] w' Hst'. apply HQ. exact Hst'.
Qed.

(** ** Gradients *)

Lemma set_batch_size_same w batch_size :
  m_batch_size (rbm w) = batch_size -> set_batch_size batch_size w = Ok tt w.
Proof.
  intros Heq. unfold set_batch_size, bind, get_rbm. rewrite Heq, Z.eqb_refl.
  reflexivity.
Qed.

Lemma wp_set_batch_size_same w batch_size (Q : unit -> World -> Prop) :
  m_batch_size (rbm w) = batch_size -> Q tt w -> wp (set_batch_size batch_size) Q w.
Proof. intros Heq HQ. unfold wp. rewrite set_batch_size_same by exact Heq. exact HQ. Qed.

Lemma free_energy_gradients_step P w0 w (visible : SGMatrix) (gradients : SGVector)
    (positive_phase : bool) (hidden_mean : SGMatrix) b o (Q : unit -> World -> Prop) :
  step P w0 w -> params_ok w0 -> 0 < m_num_hidden (rbm w0) ->
  mat_ok w0 visible -> num_rows visible = m_num_visible (rbm w0) ->
  num_cols visible = m_batch_size (rbm w0) ->
  mat_ok w0 hidden_mean -> num_rows hidden_mean = m_num_hidden (rbm w0) ->
  num_cols hidden_mean = m_batch_size (rbm w0) ->
  layout_ok w0 gradients -> vector gradients = Ptr b o ->
  (forall d, 0 <= d < vlen gradients -> P b (Z.to_nat (o + d))) ->
  (forall w', step P w0 w' -> Q tt w') ->
  wp (free_energy_gradients visible gradients positive_phase hidden_mean) Q w.
Proof.
  intros Hst Hpar Hnh Hvis Hvrows Hvcols Hhm Hhrows Hhcols [Hgok Hglen] Hptr Hfoot HQ.
  pose proof Hpar as (Hnv & _ & Hlen & _ & _).
  unfold free_energy_gradients. apply wp_bind.
  apply wp_set_batch_size_same; [stable_rw (proj1 Hst); auto |].
  apply wp_bind, wp_get_rbm. apply wp_bind.
  destruct (Z.eqb_spec (num_rows hidden_mean) 0) as [Hz | _]; [lia |].
  apply wp_ret.
  unfold get_weights, get_visible_bias, get_hidden_bias.
  destruct (Z.eqb_spec (vlen gradients) 0) as [Hz | _]; [rewrite Hglen in Hz; nia |].
  simpl. stable_rw (proj1 Hst). rewrite Hptr. simpl.
  set (nv := m_num_visible (rbm w0)) in *. set (nh := m_num_hidden (rbm w0)) in *.
  set (bs := m_batch_size (rbm w0)) in *.
  assert (emap_ok w0 (EMatrix (Ptr b (o + nv)) nh nv) = true) as HWG.
  { apply (emap_ok_sub w0 (vector gradients) (vlen gradients) nv nh nv) in Hgok;
      [rewrite Hptr in Hgok; exact Hgok | lia | lia | lia | rewrite Hglen, Hlen; lia]. }
  assert (emap_ok w0 (EVector (Ptr b o) nv) = true) as HBG.
  { apply (emap_ok_sub w0 (vector gradients) (vlen gradients) 0 nv 1) in Hgok;
      [rewrite Hptr in Hgok; simpl in Hgok; rewrite Z.add_0_r in Hgok; exact Hgok
      | lia | lia | lia | rewrite Hglen, Hlen; nia]. }
  assert (emap_ok w0 (EVector (Ptr b (o + (nv + nv * nh))) nh) = true) as HCG.
  { apply (emap_ok_sub w0 (vector gradients) (vlen gradients) (nv + nv * nh) nh 1) in Hgok;
      [rewrite Hptr in Hgok; exact Hgok | nia | lia | lia | rewrite Hglen, Hlen; lia]. }
  assert (emap_ok w0 (EMatrix (matrix hidden_mean) nh bs) = true) as HPH.
  { unfold mat_ok, mat_map in Hhm. rewrite Hhrows, Hhcols in Hhm. exact Hhm. }
  assert (forall d, 0 <= d < nh * nv -> P b (Z.to_nat (o + nv + d))) as HfW.
  { intros d Hd. replace (o + nv + d) with (o + (nv + d)) by lia. apply Hfoot.
    rewrite Hglen, Hlen. lia. }
  assert (forall d, 0 <= d < nv * 1 -> P b (Z.to_nat (o + d))) as HfB.
  { intros d Hd. apply Hfoot. rewrite Hglen, Hlen. nia. }
  assert (forall d, 0 <= d < nh * 1 -> P b (Z.to_nat (o + (nv + nv * nh) + d))) as HfC.
  { intros d Hd. replace (o + (nv + nv * nh) + d) with (o + (nv + nv * nh + d)) by lia.
    apply Hfoot. rewrite Hglen, Hlen. lia. }
  assert (((bs =? num_cols visible) && (nh =? nh) && (nv =? num_rows visible)) = true) as Hc1.
  { rewrite Hvrows, Hvcols, !Z.eqb_refl. reflexivity. }
  assert ((nv =? num_rows visible) = true) as Hc2 by (apply Z.eqb_eq; auto).
  destruct positive_phase.
  - apply wp_bind.
    eapply (wp_eigen_assign_step P w0); [exact Hst | exact Hc1 | | reflexivity | exact HfW |].
    { repeat constructor; [exact HWG | exact HPH | exact Hvis]. }
    intros Hst1. apply wp_bind.
    eapply (wp_eigen_assign_step P w0); [exact Hst1 | exact Hc2 | | reflexivity | exact HfB |].
    { repeat constructor; [exact HBG | exact Hvis]. }
    intros Hst2.
    eapply (wp_eigen_assign_step P w0); [exact Hst2 | apply Z.eqb_refl | | reflexivity | exact HfC |].
    { repeat constructor; [exact HCG | exact HPH]. }
    intros Hst3. apply HQ. exact Hst3.
  - apply wp_bind.
    eapply (wp_eigen_assign_step P w0); [exact Hst | exact Hc1 | | reflexivity | exact HfW |].
    { repeat constructor; [exact HWG | exact HPH | exact Hvis]. }
    intros Hst1. apply wp_bind.
    eapply (wp_eigen_assign_step P w0); [exact Hst1 | exact Hc2 | | reflexivity | exact HfB |].
    { repeat constructor; [exact HBG | exact Hvis]. }
    intros Hst2.
    eapply (wp_eigen_assign_step P w0); [exact Hst2 | apply Z.eqb_refl | | reflexivity | exact HfC |].
    { repeat constructor; [exact HCG | exact HPH]. }
    intros Hst3. apply HQ. exact Hst3.
Qed.

Lemma penalty_step P w0 w coefficient (gradients : SGVector) b o (Q : unit -> World -> Prop) :
  step P w0 w -> params_ok w0 ->
  layout_ok w0 gradients -> vector gradients = Ptr b o ->
  (forall d, 0 <= d < vlen gradients -> P b (Z.to_nat (o + d))) ->
  (forall w', step P w0 w' -> Q tt w') ->
  wp (penalty coefficient gradients) Q w.
Proof.
  intros Hst Hpar [Hgok Hglen] Hptr Hfoot HQ.
  pose proof Hpar as (Hnv & Hnh & Hlen & _ & Hpok).
  unfold penalty. apply wp_bind, wp_get_rbm. stable_rw (proj1 Hst).
  destruct (fltb f0 coefficient); [| apply wp_ret, HQ; exact Hst].
  eapply wp_mono; [apply (wp_for_inv (fun w => step P w0 w)); [exact Hst |] |].
  - intros i w1 Hi Hst1. apply wp_bind. unfold vec_get, vec_set.
    eapply (wp_load_step P w0 w1 (vec_map gradients));
      [exact Hst1 | exact Hgok | reflexivity | simpl; rewrite Hglen, Hlen; nia |].
    intros g _. apply wp_bind.
    eapply (wp_load_step P w0 w1 (vec_map (m_params (rbm w0))));
      [exact Hst1 | exact Hpok | reflexivity | simpl; rewrite Hlen; nia |].
    intros x _.
    eapply (wp_store_step P w0 w1 (vec_map gradients));
      [exact Hst1 | exact Hgok | reflexivity | exact Hptr | simpl; rewrite Hglen, Hlen; nia
      | apply Hfoot; rewrite Hglen, Hlen; nia |].
    auto.
  - intros [] w' Hst'. apply HQ. exact Hst'.
Qed.

Lemma regularization_step P w0 w (gradients : SGVector) b o (Q : unit -> World -> Prop) :
  step P w0 w -> params_ok w0 ->
  layout_ok w0 gradients -> vector gradients = Ptr b o ->
  (forall d, 0 <= d < vlen gradients -> P b (Z.to_nat (o + d))) ->
  (forall w', step P w0 w' -> Q tt w') ->
  wp (regularization gradients) Q w.
Proof.
  intros Hst Hpar Hlay Hptr Hfoot HQ.
  unfold regularization. apply wp_bind, wp_get_rbm. apply wp_bind.
  eapply penalty_step; eauto. intros w1 Hst1.
  eapply penalty_step; eauto.
Qed.

Lemma contrastive_divergence_step P w0 w (visible_batch : SGMatrix) (gradients : SGVector)
    (Q : unit -> World -> Prop) :
  step P w0 w -> params_ok w0 -> state_ok w0 -> registry_ok (rbm w0) ->
  softmax_ok (rbm w0) -> 0 < m_num_hidden (rbm w0) ->
  mat_ok w0 visible_batch -> num_rows visible_batch = m_num_visible (rbm w0) ->
  num_cols visible_batch = m_batch_size (rbm w0) ->
  layout_ok w0 gradients -> cd_footprint w0 gradients P ->
  (forall w', step P w0 w' -> Q tt w') ->
  wp (contrastive_divergence visible_batch gradients) Q w.
Proof.
  intros Hst Hpar Hstate Hreg Hsoft Hnh Hvb Hvbrows Hvbcols Hlay Hfp HQ.
  destruct Hstate as (Hbs & Hhok & Hhrows & Hhcols & Hvok & Hvrows & Hvcols).
  destruct Hfp as (hb & ho & vb & vo & gb & go & Hhp & Hvp & Hgp & Hfh & Hfv & Hfg).
  assert (forall d, 0 <= d < num_rows (hidden_state (rbm w0)) * num_cols (hidden_state (rbm w0)) ->
            P hb (Z.to_nat (ho + d))) as Hfh' by (rewrite Hhrows, Hhcols; exact Hfh).
  assert (forall d, 0 <= d < num_rows (visible_state (rbm w0)) * num_cols (visible_state (rbm w0)) ->
            P vb (Z.to_nat (vo + d))) as Hfv' by (rewrite Hvrows, Hvcols; exact Hfv).
  unfold contrastive_divergence. apply wp_bind.
  apply wp_set_batch_size_same; [stable_rw (proj1 Hst); auto |].
  apply wp_bind, wp_get_rbm. stable_rw (proj1 Hst).
  apply wp_bind. eapply mean_hidden_step; eauto; try congruence. intros w1 Hst1.
  apply wp_bind. eapply free_energy_gradients_step; eauto. intros w2 Hst2.
  apply wp_bind.
  eapply wp_mono; [apply (wp_for_inv (fun w => step P w0 w)); [exact Hst2 |] |].
  { intros i w3 Hi Hst3. apply wp_bind.
    assert (wp (if (0 <? i) || cd_persistent (rbm w0)
                then mean_hidden (visible_state (rbm w0)) (hidden_state (rbm w0))
                else ret tt) (fun _ w' => step P w0 w') w3) as Hmh.
    { destruct ((0 <? i) || cd_persistent (rbm w0)); [| apply wp_ret; exact Hst3].
      eapply mean_hidden_step; eauto; congruence. }
    eapply wp_mono; [exact Hmh |]. intros [] w4 Hst4. simpl in Hst4.
    apply wp_bind. eapply sample_hidden_step; eauto; try lia. intros w5 Hst5.
    apply wp_bind. eapply mean_visible_step; eauto; try congruence; try lia.
    intros w6 Hst6.
    destruct (cd_sample_visible (rbm w0)); [| apply wp_ret; exact Hst6].
    eapply sample_visible_step; eauto; try congruence; try lia. }
  intros [] w3 Hst3. simpl in Hst3.
  apply wp_bind. eapply mean_hidden_step; eauto; try congruence. intros w4 Hst4.
  apply wp_bind. eapply free_energy_gradients_step; eauto. intros w5 Hst5.
  eapply regularization_step; eauto.
Qed.

End Specs.

(** * The unit-group registry (C6) *)

Section Registry.

Context {F : Type} {AF : Arith F} {G : Type} {RE : RandomEngine G F}.

#[local] Open Scope M_scope.

#[local] Abbreviation RBM := (RBM F G).
#[local] Abbreviation World := (World F G).
#[local] Abbreviation M := (M F G).

Implicit Types (w : World) (r : RBM).

Lemma registry_inv_init num_hidden (g : G) : registry_inv (set_m_num_hidden num_hidden (init g)).
Proof. repeat split. Qed.

Lemma add_visible_group_inv num_units unit_type w w' :
  registry_inv (rbm w) ->
  add_visible_group num_units unit_type w = Ok tt w' ->
  registry_inv (rbm w')
  /\ m_visible_group_sizes (rbm w') = m_visible_group_sizes (rbm w) ++ [num_units].
Proof.
  intros (Hn & Ht & Ho & Hv) Hrun.
  unfold add_visible_group, add32, bind, assume, get_rbm, modify_rbm, ret in Hrun.
  simpl in Hrun.
  destruct (in_int32 (m_num_visible_groups (rbm w) + 1)); [| discriminate].
  simpl in Hrun.
  destruct (in_int32 (m_num_visible (rbm w) + num_units)); [| discriminate].
  simpl in Hrun.
  assert (forall offs, registry_inv
            (set_m_visible_state_offsets (m_visible_state_offsets (rbm w) ++ [offs])
               (set_m_visible_group_types (m_visible_group_types (rbm w) ++ [unit_type])
                  (set_m_visible_group_sizes (m_visible_group_sizes (rbm w) ++ [num_units])
                     (set_m_num_visible (m_num_visible (rbm w) + num_units)
                        (set_m_num_visible_groups (m_num_visible_groups (rbm w) + 1)
                           (rbm w))))))
          <-> offs = sumZ (m_visible_group_sizes (rbm w))) as Hinv.
  { intros offs. unfold registry_inv. simpl.
    rewrite !length_app, running_sums_app, sumZ_app, Ho. simpl. split.
    - intros (_ & _ & Heq & _). apply app_inj_tail in Heq as [_ Heq]. lia.
    - intros ->. repeat split; try lia. }
  destruct (Z.eqb_spec (Z.of_nat (length (m_visible_state_offsets (rbm w)))) 0) as [Hz | Hnz].
  - inversion Hrun; subst w'. simpl. split; [| reflexivity].
    apply Hinv. rewrite Ho, length_running_sums in Hz.
    destruct (m_visible_group_sizes (rbm w)); [reflexivity | simpl in Hz; lia].
  - unfold at_ in Hrun.
    destruct (lookupZ (m_visible_state_offsets (rbm w)) _) as [o |] eqn:Hlo; [| discriminate].
    simpl in Hrun.
    destruct (lookupZ (m_visible_group_sizes (rbm w) ++ [num_units]) _) as [s |] eqn:Hls;
      [| discriminate].
    simpl in Hrun. destruct (in_int32 (o + s)); [| discriminate].
    inversion Hrun; subst w'. simpl. split; [| reflexivity].
    apply Hinv. clear Hrun Hinv.
    rewrite Ho, length_running_sums in Hlo, Hnz, Hls.
    unfold lookupZ in Hlo, Hls.
    destruct (0 <=? _) in Hlo, Hls; try discriminate.
    revert Hnz Hlo Hls.
    generalize (m_visible_group_sizes (rbm w)). intros l.
    destruct l as [| x l] using rev_ind; [simpl; lia |]. intros _.
    rewrite length_app, running_sums_app, sumZ_app. simpl.
    replace (Z.to_nat (Z.of_nat (length l + 1) - 1)) with (length l) by lia.
    rewrite <- (length_running_sums 0 l) at 1.
    rewrite list_lookup_middle by reflexivity.
    rewrite <- app_assoc. simpl. rewrite list_lookup_middle by reflexivity.
    intros [= <-] [= <-]. lia.
Qed.

Lemma add_visible_groups_inv calls :
  forall w w',
  registry_inv (rbm w) ->
  add_visible_groups calls w = Ok tt w' ->
  registry_inv (rbm w')
  /\ m_visible_group_sizes (rbm w') = m_visible_group_sizes (rbm w) ++ map fst calls.
Proof.
  induction calls as [| [n t] rest IH]; intros w w' Hinv Hrun; simpl in Hrun.
  - inversion Hrun; subst. rewrite app_nil_r. auto.
  - unfold bind in Hrun.
    destruct (add_visible_group n t w) as [[] w1 | |] eqn:Hstep; try discriminate.
    destruct (add_visible_group_inv _ _ _ _ Hinv Hstep) as [Hinv1 Hsz1].
    destruct (IH _ _ Hinv1 Hrun) as [Hinv' Hsz'].
    split; [exact Hinv' |]. rewrite Hsz', Hsz1, <- app_assoc. reflexivity.
Qed.

Lemma running_sums_succ sizes :
  forall start k o s o',
  running_sums start sizes !! k = Some o -> sizes !! k = Some s ->
  running_sums start sizes !! S k = Some o' -> o' = o + s.
Proof.
  induction sizes as [| x rest IH]; intros start k o s o' Ho Hs Ho'.
  - discriminate.
  - destruct k as [| k]; simpl in *.
    + destruct rest; simpl in *; [discriminate |]. congruence.
    + eapply IH; eauto.
Qed.

(** C6. After any sequence of [add_visible_group] calls on a freshly
    constructed machine, the registered sizes (those of the calls, in order)
    add up to [m_num_visible], the first group starts at offset 0, and every
    later group starts where the group before it ends. *)
Theorem add_visible_group_registry (calls : list (Z * ERBMVisibleUnitType))
    (num_hidden : Z) (g : G) (h : list (list F)) (w' : World) :
  add_visible_groups calls (RBM_hidden num_hidden g h) = Ok tt w' ->
  m_visible_group_sizes (rbm w') = map fst calls
  /\ sumZ (m_visible_group_sizes (rbm w')) = m_num_visible (rbm w')
  /\ (forall o, m_visible_state_offsets (rbm w') !! 0%nat = Some o -> o = 0)
  /\ (forall k o s o',
        m_visible_state_offsets (rbm w') !! k = Some o ->
        m_visible_group_sizes (rbm w') !! k = Some s ->
        m_visible_state_offsets (rbm w') !! S k = Some o' ->
        o' = o + s)
  /\ length (m_visible_state_offsets (rbm w')) = length calls.
Proof.
  intros Hrun.
  destruct (add_visible_groups_inv calls (RBM_hidden num_hidden g h) w'
              (registry_inv_init num_hidden g) Hrun) as [(Hn & Ht & Ho & Hv) Hsz].
  simpl in Hsz. repeat split.
  - exact Hsz.
  - symmetry. exact Hv.
  - rewrite Ho. destruct (m_visible_group_sizes (rbm w')); simpl; congruence.
  - rewrite Ho. apply running_sums_succ.
  - rewrite Ho, length_running_sums, Hsz, length_map. reflexivity.
Qed.

End Registry.

Lemma three_groups_run :
  add_visible_groups [(3, RBMVUT_BINARY); (2, RBMVUT_SOFTMAX); (4, RBMVUT_GAUSSIAN)]
    (RBM_hidden 5 blank_tape []) = Ok tt three_groups.
Proof. vm_compute. reflexivity. Qed.

(** C6 on three groups of 3, 2 and 4 units. *)
Lemma add_visible_group_registry_witness :
  add_visible_groups [(3, RBMVUT_BINARY); (2, RBMVUT_SOFTMAX); (4, RBMVUT_GAUSSIAN)]
    (RBM_hidden 5 blank_tape []) = Ok tt three_groups
  /\ sumZ (m_visible_group_sizes (rbm three_groups)) = m_num_visible (rbm three_groups).
Proof.
  split; [exact three_groups_run |].
  exact (proj1 (proj2 (add_visible_group_registry _ _ _ _ _ three_groups_run))).
Defined.

(** * The regularization step (C1) *)

(** C1 fails on the code: the weight view of the gradient vector is the
    cell at position 1 and the hidden-bias view the cell at position 2, and
    the regularization step adds the penalty 1 * 3 to the hidden-bias
    gradient (30 becomes 33) and leaves the weight gradient at 20. *)
Theorem regularization_misses_weight_block :
  matrix (get_weights (rbm one_by_one) one_by_one_gradients) = Ptr 1 1
  /\ vector (get_hidden_bias (rbm one_by_one) one_by_one_gradients) = Ptr 1 2
  /\ exists w',
       regularization one_by_one_gradients one_by_one = Ok tt w'
       /\ heap w' !! 0%nat = heap one_by_one !! 0%nat
       /\ heap w' !! 1%nat = Some [of_int 10; of_int 20; of_int 33].
Proof.
  split; [reflexivity |]. split; [reflexivity |].
  eexists. split; [vm_compute; reflexivity |]. split; reflexivity.
Qed.

(** * Sampling a softmax group (C2) *)

(** C2 fails on the code: whatever the random engine returns, the draw is
    the integer 0 or 1, so the sample is the first unit (draw 0) or the last
    one (draw 1, reached when the running sum is 1); the middle unit, of
    probability 0.5, is never drawn. *)
Theorem sample_visible_softmax_never_middle (t : Tape float) :
  exists w',
    sample_visible_index 0 three_way_mean three_way_result (three_way t) = Ok tt w'
    /\ (heap w' !! 1%nat = Some [of_int 1; of_int 0; of_int 0]
        \/ heap w' !! 1%nat = Some [of_int 0; of_int 0; of_int 1]).
Proof.
  destruct t as [rs [| x zs]].
  - eexists. split; [vm_compute; reflexivity |]. left. reflexivity.
  - destruct x as [| [p | p |] | p].
    + eexists. split; [vm_compute; reflexivity |]. left. reflexivity.
    + eexists. split; [vm_compute; reflexivity |]. right. reflexivity.
    + eexists. split; [vm_compute; reflexivity |]. right. reflexivity.
    + eexists. split; [vm_compute; reflexivity |]. right. reflexivity.
    + eexists. split; [vm_compute; reflexivity |]. left. reflexivity.
Qed.

(** * The batch state (C7) *)

Section BatchState.

Context {F : Type} {AF : Arith F} {G : Type} {RE : RandomEngine G F}.

#[local] Open Scope M_scope.

#[local] Abbreviation RBM := (RBM F G).
#[local] Abbreviation World := (World F G).
#[local] Abbreviation M := (M F G).

Implicit Types (w : World) (r : RBM) (P : footprint).

Lemma prng_after_S n g : prng_after (S n) g = snd (uniform_real (prng_after n g)).
Proof. revert g. induction n as [| n IH]; intros g; [reflexivity |]. simpl. apply IH. Qed.

Lemma peek_same_heap w w' p i : heap w' = heap w -> peek w' p i = peek w p i.
Proof. intros Heq. unfold peek. rewrite Heq. reflexivity. Qed.

Lemma wp_draw_uniform w (Q : F -> World -> Prop) :
  Q (fst (uniform_real (m_prng (rbm w))))
    (mkWorld (set_m_prng (snd (uniform_real (m_prng (rbm w)))) (rbm w)) (heap w)) ->
  wp draw_uniform Q w.
Proof.
  unfold wp, draw_uniform. destruct (uniform_real (m_prng (rbm w))). auto.
Qed.

Lemma cell_index_inj rows i j i' j' :
  0 <= i < rows -> 0 <= i' < rows -> j * rows + i = j' * rows + i' -> i = i' /\ j = j'.
Proof. intros Hi Hi' Heq. assert (j = j') by nia. subst. lia. Qed.

(** [reset_chain] draws one number per cell, row by row, and stores whether
    it exceeds 0.5. *)
Lemma reset_chain_spec P w b o :
  mat_ok w (visible_state (rbm w)) ->
  num_rows (visible_state (rbm w)) = m_num_visible (rbm w) ->
  num_cols (visible_state (rbm w)) = m_batch_size (rbm w) ->
  matrix (visible_state (rbm w)) = Ptr b o ->
  0 <= m_num_visible (rbm w) -> 0 <= m_batch_size (rbm w) ->
  (forall d, 0 <= d < m_num_visible (rbm w) * m_batch_size (rbm w) ->
     P b (Z.to_nat (o + d))) ->
  wp reset_chain
    (fun _ w' =>
       step P w w'
       /\ m_prng (rbm w')
          = prng_after (Z.to_nat (m_num_visible (rbm w) * m_batch_size (rbm w)))
              (m_prng (rbm w))
       /\ forall i j, 0 <= i < m_num_visible (rbm w) -> 0 <= j < m_batch_size (rbm w) ->
            peek w' (Ptr b o) (j * m_num_visible (rbm w) + i)
            = Some (b2f (fltb fhalf
                           (draw_at (Z.to_nat (i * m_batch_size (rbm w) + j))
                              (m_prng (rbm w)))))) w.
Proof.
  intros Hok Hrows Hcols Hptr Hnv Hbs Hfoot.
  unfold reset_chain. apply wp_bind, wp_get_rbm.
  set (nv := m_num_visible (rbm w)) in *. set (bs := m_batch_size (rbm w)) in *.
  set (g0 := m_prng (rbm w)).
  set (cell := fun i j => Some (b2f (fltb fhalf (draw_at (Z.to_nat (i * bs + j)) g0)))).
  apply (wp_for (fun i w1 =>
           step P w w1 /\ m_prng (rbm w1) = prng_after (Z.to_nat (i * bs)) g0
           /\ forall i' j', 0 <= i' < i -> 0 <= j' < bs ->
                peek w1 (Ptr b o) (j' * nv + i') = cell i' j')); [exact Hnv | | |].
  - split; [apply step_refl |]. split; [reflexivity |]. intros; lia.
  - intros i w1 Hi (Hst1 & Hg1 & Hc1).
    apply (wp_for (fun j w2 =>
             step P w w2 /\ m_prng (rbm w2) = prng_after (Z.to_nat (i * bs + j)) g0
             /\ forall i' j', 0 <= i' < nv -> 0 <= j' < bs ->
                  i' < i \/ (i' = i /\ j' < j) ->
                  peek w2 (Ptr b o) (j' * nv + i') = cell i' j')); [exact Hbs | | |].
    + split; [exact Hst1 |]. split; [rewrite Z.add_0_r; exact Hg1 |].
      intros i' j' Hi' Hj' [Hlt | [_ Hlt]]; [apply Hc1; lia | lia].
    + intros j w2 Hj (Hst2 & Hg2 & Hc2).
      apply wp_bind, wp_draw_uniform. unfold mat_set. rewrite Hptr, Hrows.
      set (w3 := mkWorld _ (heap w2)).
      assert (step P w w3) as Hst3.
      { eapply step_trans; [exact Hst2 |].
        split; [apply rbm_stable_prng | apply heap_le_same_heap; reflexivity]. }
      eapply (wp_store_step P w w3 (mat_map (visible_state (rbm w))));
        [exact Hst3 | exact Hok | exact Hptr | reflexivity
        | simpl; rewrite Hrows, Hcols; nia | apply Hfoot; nia |].
      intros Hst4. split; [exact Hst4 |]. split.
      * rewrite rbm_poke. simpl. destruct (rbm w2); simpl in *. rewrite Hg2.
        replace (Z.to_nat (i * bs + (j + 1))) with (S (Z.to_nat (i * bs + j))) by nia.
        rewrite prng_after_S. reflexivity.
      * intros i' j' Hi' Hj' Hdone.
        destruct (peek_in_map w3 (mat_map (visible_state (rbm w))) (j * nv + i))
          as [x0 Hx0].
        { eapply emap_ok_mono; [apply Hst3 | exact Hok]. }
        { simpl. rewrite Hrows, Hcols. nia. }
        simpl in Hx0. rewrite Hptr in Hx0.
        destruct (decide (i' = i /\ j' = j)) as [[-> ->] | Hne].
        -- rewrite (peek_poke_eq _ _ _ _ _ _ Hx0). unfold cell, draw_at. rewrite <- Hg2.
           reflexivity.
        -- rewrite peek_poke_ne.
           ++ rewrite (peek_same_heap w2 w3) by reflexivity. apply Hc2; [lia | lia | lia].
           ++ destruct (emap_ok_inv _ _ Hok) as (b' & o' & buf & Hp' & _ & _ & _ & Ho' & _).
              simpl in Hp'. rewrite Hptr in Hp'. inversion Hp'; subst. nia.
           ++ right. intros Heq. apply Hne.
              apply (cell_index_inj nv i' j' i j); [lia | lia | lia].
    + intros w2 (Hst2 & Hg2 & Hc2). split; [exact Hst2 |]. split.
      * rewrite Hg2. f_equal. lia.
      * intros i' j' Hi' Hj'. apply Hc2; lia.
  - intros w1 (Hst1 & Hg1 & Hc1). split; [exact Hst1 |]. split; [exact Hg1 |].
    intros i j Hi Hj. apply Hc1; lia.
Qed.

Lemma wp_SGMatrix_new nrows ncols (Q : SGMatrix -> World -> Prop) w :
  0 <= nrows -> 0 <= ncols ->
  Q (mkSGMatrix (Ptr (length (heap w)) 0) nrows ncols)
    (mkWorld (rbm w) (heap w ++ [replicate (Z.to_nat (nrows * ncols)) (of_int 0)])) ->
  wp (SGMatrix_new nrows ncols) Q w.
Proof.
  intros Hr Hc HQ. unfold SGMatrix_new. apply wp_bind, wp_assume.
  { apply andb_true_iff. split; apply Z.leb_le; assumption. }
  apply wp_bind. unfold wp at 1, new_block.
  destruct (Z.leb_spec 0 (nrows * ncols)); [| nia]. apply wp_ret. exact HQ.
Qed.

Lemma set_batch_size_fresh w batch_size :
  m_batch_size (rbm w) <> batch_size -> 0 <= batch_size ->
  0 <= m_num_hidden (rbm w) -> 0 <= m_num_visible (rbm w) ->
  wp (set_batch_size batch_size)
    (fun _ w' =>
       rbm w'
       = set_m_prng
           (prng_after (Z.to_nat (m_num_visible (rbm w) * batch_size)) (m_prng (rbm w)))
           (fresh_rbm batch_size w)
       /\ heap_le no_cell w w'
       /\ mat_ok w' (hidden_state (rbm w'))
       /\ mat_ok w' (visible_state (rbm w'))
       /\ forall i j, 0 <= i < m_num_visible (rbm w) -> 0 <= j < batch_size ->
            peek w' (Ptr (S (length (heap w))) 0) (j * m_num_visible (rbm w) + i)
            = Some (b2f (fltb fhalf
                           (draw_at (Z.to_nat (i * batch_size + j)) (m_prng (rbm w)))))) w.
Proof.
  intros Hne Hb Hnh Hnv.
  set (hbuf := replicate (Z.to_nat (m_num_hidden (rbm w) * batch_size)) (of_int 0 : F)).
  set (vbuf := replicate (Z.to_nat (m_num_visible (rbm w) * batch_size)) (of_int 0 : F)).
  set (wa := mkWorld (fresh_rbm batch_size w) ((heap w ++ [hbuf]) ++ [vbuf])).
  assert (forall Q : unit -> World -> Prop,
            wp reset_chain Q wa -> wp (set_batch_size batch_size) Q w) as Hrun.
  { intros Q HQ. unfold set_batch_size. apply wp_bind, wp_get_rbm.
    destruct (Z.eqb_spec (m_batch_size (rbm w)) batch_size) as [Heq | _]; [tauto |].
    apply wp_bind, wp_modify_rbm. apply wp_bind, wp_SGMatrix_new; [lia | lia |].
    apply wp_bind, wp_modify_rbm. apply wp_bind, wp_SGMatrix_new; [lia | lia |].
    apply wp_bind, wp_modify_rbm. simpl.
    rewrite length_app. simpl. rewrite Nat.add_1_r. exact HQ. }
  assert (heap wa !! length (heap w) = Some hbuf) as Hhb.
  { simpl. rewrite lookup_app_l by (rewrite length_app; simpl; lia).
    apply list_lookup_middle. reflexivity. }
  assert (heap wa !! S (length (heap w)) = Some vbuf) as Hvb.
  { simpl. apply list_lookup_middle. rewrite length_app. simpl. lia. }
  assert (heap_le no_cell w wa) as Hle.
  { eapply heap_le_trans; [apply (heap_le_alloc _ w (rbm w) hbuf) |].
    apply (heap_le_alloc _ (mkWorld (rbm w) (heap w ++ [hbuf]))). }
  assert (mat_ok wa (hidden_state (rbm wa))) as Hhok.
  { eapply emap_ok_intro; simpl; eauto; try lia.
    unfold hbuf. rewrite length_replicate. lia. }
  assert (mat_ok wa (visible_state (rbm wa))) as Hvok.
  { eapply emap_ok_intro; simpl; eauto; try lia.
    unfold vbuf. rewrite length_replicate. lia. }
  apply Hrun. eapply wp_mono.
  - apply (reset_chain_spec (fun b _ => b = S (length (heap w))) wa
             (S (length (heap w))) 0); simpl; auto.
  - simpl. intros [] w' (Hst & Hg & Hc). split; [| split; [| split; [| split]]].
    + destruct Hst as [Hr _]. unfold rbm_stable in Hr. rewrite Hr, Hg. reflexivity.
    + intros b buf Hbuf.
      destruct (Hle b buf Hbuf) as (buf1 & Hbuf1 & Hlen1 & Hsame1).
      destruct (proj2 Hst b buf1 Hbuf1) as (buf' & Hbuf' & Hlen & Hsame).
      exists buf'. split; [exact Hbuf' |]. split; [congruence |].
      intros n _. rewrite Hsame, Hsame1; [reflexivity | tauto |].
      intros ->. apply lookup_lt_Some in Hbuf. lia.
    + stable_rw (proj1 Hst). eapply emap_ok_mono; [apply Hst | exact Hhok].
    + stable_rw (proj1 Hst). eapply emap_ok_mono; [apply Hst | exact Hvok].
    + exact Hc.
Qed.

(** C7. [set_batch_size] with the current batch size returns the state it
    was given: both state matrices, their contents and the random engine are
    as before, so [reset_chain] has drawn nothing. With another size (and
    non-negative dimensions) it returns with both state matrices on storage
    that did not exist before, the old storage untouched, and every entry
    [(i,j)] of the visible state set from a draw of its own: 1 when draw
    number [i * batch_size + j] exceeds 0.5 and 0 otherwise. *)
Theorem set_batch_size_effect w batch_size :
  (m_batch_size (rbm w) = batch_size -> set_batch_size batch_size w = Ok tt w)
  /\ (m_batch_size (rbm w) <> batch_size -> 0 <= batch_size ->
      0 <= m_num_hidden (rbm w) -> 0 <= m_num_visible (rbm w) ->
      exists w',
        set_batch_size batch_size w = Ok tt w'
        /\ m_batch_size (rbm w') = batch_size
        /\ hidden_state (rbm w')
           = mkSGMatrix (Ptr (length (heap w)) 0) (m_num_hidden (rbm w)) batch_size
        /\ visible_state (rbm w')
           = mkSGMatrix (Ptr (S (length (heap w))) 0) (m_num_visible (rbm w)) batch_size
        /\ heap w !! length (heap w) = None
        /\ heap w !! S (length (heap w)) = None
        /\ mat_ok w' (hidden_state (rbm w'))
        /\ mat_ok w' (visible_state (rbm w'))
        /\ heap_le no_cell w w'
        /\ m_prng (rbm w')
           = prng_after (Z.to_nat (m_num_visible (rbm w) * batch_size)) (m_prng (rbm w))
        /\ forall i j, 0 <= i < m_num_visible (rbm w) -> 0 <= j < batch_size ->
             peek w' (matrix (visible_state (rbm w'))) (j * m_num_visible (rbm w) + i)
             = Some (b2f (fltb fhalf
                            (draw_at (Z.to_nat (i * batch_size + j)) (m_prng (rbm w)))))).
Proof.
  split; [apply set_batch_size_same |].
  intros Hne Hb Hnh Hnv.
  pose proof (set_batch_size_fresh w batch_size Hne Hb Hnh Hnv) as Hwp.
  apply wp_ok in Hwp as ([] & w' & Hrun & Hr & Hle & Hhok & Hvok & Hc).
  exists w'. split; [exact Hrun |]. rewrite Hr in *. simpl in *.
  repeat split; auto.
  - apply lookup_ge_None. lia.
  - apply lookup_ge_None. lia.
Qed.

End BatchState.

(** C7 on [unsized]: asking for the batch size 0 it has changes nothing;
    asking for 2 puts the visible state in the new block 2, with 1 for the
    draw 0.75 and 0 for the draw 0.25. *)
Lemma set_batch_size_effect_witness :
  set_batch_size 0 unsized = Ok tt unsized
  /\ exists w',
       set_batch_size 2 unsized = Ok tt w'
       /\ visible_state (rbm w') = mkSGMatrix (Ptr 2 0) 1 2
       /\ heap w' !! 0%nat = Some [fhalf; of_int 2; of_int 3]
       /\ heap w' !! 2%nat = Some [of_int 1; of_int 0].
Proof.
  split.
  - apply (proj1 (set_batch_size_effect unsized 0)). reflexivity.
  - destruct (proj2 (set_batch_size_effect unsized 2)) as (w' & Hrun & _);
      [discriminate | lia | simpl; lia | simpl; lia |].
    exists w'. split; [exact Hrun |].
    vm_compute in Hrun. inversion Hrun. repeat split; reflexivity.
Defined.

(** * Group indices out of range (C8) *)

Section NoFatal.

Context {F : Type} {AF : Arith F} {LF : Libm F} {G : Type} {RE : RandomEngine G F}.

#[local] Open Scope M_scope.

#[local] Abbreviation RBM := (RBM F G).
#[local] Abbreviation World := (World F G).
#[local] Abbreviation M := (M F G).

Implicit Types (w : World) (r : RBM).

Lemma nf_ret {A : Type} (a : A) : no_fatal (ret a : M A).
Proof. intros w fmt args w'. discriminate. Qed.

Lemma nf_bind {A B : Type} (c : M A) (k : A -> M B) :
  no_fatal c -> (forall a, no_fatal (k a)) -> no_fatal (bind c k).
Proof.
  intros Hc Hk w fmt args w'. unfold bind.
  destruct (c w) as [a w1 | fmt1 args1 w1 |] eqn:Hcw.
  - apply Hk.
  - exfalso. exact (Hc _ _ _ _ Hcw).
  - discriminate.
Qed.

Lemma nf_undefined {A : Type} : no_fatal (undefined : M A).
Proof. intros w fmt args w'. discriminate. Qed.

Lemma nf_get_rbm : no_fatal (get_rbm : M RBM).
Proof. intros w fmt args w'. discriminate. Qed.

Lemma nf_modify_rbm f : no_fatal (modify_rbm f : M unit).
Proof. intros w fmt args w'. discriminate. Qed.

Lemma nf_assume cond : no_fatal (assume cond : M unit).
Proof. intros w fmt args w'. unfold assume. destruct cond; discriminate. Qed.

Lemma nf_load p i : no_fatal (load p i : M F).
Proof. intros w fmt args w'. unfold load. destruct (peek w p i); discriminate. Qed.

Lemma nf_store p i v : no_fatal (store p i v : M unit).
Proof. intros w fmt args w'. unfold store. destruct (peek w p i); discriminate. Qed.

Lemma nf_at {A : Type} (l : list A) i : no_fatal (at_ l i : M A).
Proof. intros w fmt args w'. unfold at_. destruct (lookupZ l i); discriminate. Qed.

Lemma nf_draw_uniform : no_fatal (draw_uniform : M F).
Proof.
  intros w fmt args w'. unfold draw_uniform.
  destruct (uniform_real (m_prng (rbm w))). discriminate.
Qed.

Lemma nf_draw_int a b : no_fatal (draw_int a b : M Z).
Proof.
  intros w fmt args w'. unfold draw_int.
  destruct (uniform_int a b (m_prng (rbm w))). discriminate.
Qed.

Lemma nf_eigen_assign srcs conform dst rhs :
  no_fatal (eigen_assign srcs conform dst rhs : M unit).
Proof.
  intros w fmt args w'. unfold eigen_assign.
  destruct (conform && forallb (emap_ok w) (dst :: srcs)); discriminate.
Qed.

Lemma nf_SGMatrix_new nrows ncols : no_fatal (SGMatrix_new nrows ncols : M SGMatrix).
Proof.
  unfold SGMatrix_new. apply nf_bind; [apply nf_assume |]. intros _.
  apply nf_bind; [| intros p; apply nf_ret].
  intros w fmt args w'. unfold new_block. destruct (0 <=? nrows * ncols); discriminate.
Qed.

Lemma nf_iter_for {A : Type} (body : Z -> A -> M A) n :
  (forall i a, no_fatal (body i a)) -> forall i a, no_fatal (iter_for n i body a).
Proof.
  intros Hbody. induction n as [| n IH]; intros i a; simpl.
  - apply nf_ret.
  - apply nf_bind; [apply Hbody | intros a'; apply IH].
Qed.

Lemma nf_fold_for {A : Type} lo hi (body : Z -> A -> M A) a :
  (forall i a, no_fatal (body i a)) -> no_fatal (fold_for lo hi body a).
Proof. intros Hbody. unfold fold_for. apply nf_iter_for. exact Hbody. Qed.

Lemma nf_for lo hi (body : Z -> M unit) :
  (forall i, no_fatal (body i)) -> no_fatal (for_ lo hi body).
Proof. intros Hbody. unfold for_. apply nf_fold_for. intros i _. apply Hbody. Qed.

Lemma nf_if {A : Type} (cond : bool) (c1 c2 : M A) :
  no_fatal c1 -> no_fatal c2 -> no_fatal (if cond then c1 else c2).
Proof. destruct cond; auto. Qed.

(** Decomposes a goal [no_fatal c] along the structure of [c]. *)
Ltac nf_step :=
  first
    [ apply nf_ret | apply nf_get_rbm | apply nf_modify_rbm | apply nf_assume
    | apply nf_load | apply nf_store | apply nf_at | apply nf_draw_uniform
    | apply nf_draw_int | apply nf_eigen_assign | apply nf_SGMatrix_new
    | apply nf_undefined
    | apply nf_bind; [| intro]
    | apply nf_for; intro
    | apply nf_fold_for; intros ? ?
    | apply nf_if ].

Ltac nf_auto := repeat nf_step.

Lemma nf_reset_chain : no_fatal (reset_chain : M unit).
Proof. unfold reset_chain, mat_set. nf_auto. Qed.

Lemma nf_set_batch_size batch_size : no_fatal (set_batch_size batch_size : M unit).
Proof. unfold set_batch_size. nf_auto. Qed.

Lemma nf_mean_hidden visible result : no_fatal (mean_hidden visible result : M unit).
Proof. unfold mean_hidden, lin_get, lin_set. nf_auto. Qed.

Lemma nf_sample_hidden mean result : no_fatal (sample_hidden mean result : M unit).
Proof. unfold sample_hidden, lin_get, lin_set. nf_auto. Qed.

Lemma nf_mean_visible hidden result : no_fatal (mean_visible hidden result : M unit).
Proof.
  unfold mean_visible, mean_visible_group, mean_visible_softmax, mat_get, mat_set.
  nf_auto.
Qed.

Lemma nf_sample_visible_pick mean result offset j rd n :
  forall i sum, no_fatal (sample_visible_pick mean result offset j rd n i sum : M unit).
Proof.
  induction n as [| n IH]; intros i sum; simpl; [apply nf_ret |].
  unfold mat_get, mat_set. nf_auto. apply IH.
Qed.

Lemma nf_sample_visible_index index mean result :
  no_fatal (sample_visible_index index mean result : M unit).
Proof.
  unfold sample_visible_index, mat_get, mat_set. nf_auto.
  all: apply nf_sample_visible_pick.
Qed.

Lemma nf_sample_visible mean result : no_fatal (sample_visible mean result : M unit).
Proof. unfold sample_visible. nf_auto. all: apply nf_sample_visible_pick. Qed.

Lemma nf_sample num_gibbs_steps batch_size :
  no_fatal (sample num_gibbs_steps batch_size : M unit).
Proof.
  unfold sample. nf_auto. all: apply nf_sample_visible_pick.
Qed.

Lemma nf_copy_group V : no_fatal (copy_group V : M SGMatrix).
Proof. unfold copy_group, mat_get, mat_set. nf_auto. Qed.

Lemma nf_clamp evidence_matrix offset size :
  no_fatal (clamp evidence_matrix offset size : M unit).
Proof. unfold clamp, mat_get, mat_set. nf_auto. Qed.

Lemma copy_group_negative V w : V < 0 -> copy_group V w = Undefined.
Proof.
  intros HV. unfold copy_group, bind, get_rbm, at_, lookupZ.
  destruct (Z.leb_spec 0 V); [lia | reflexivity].
Qed.

(** The guard lets every index below the number of groups through. *)
Lemma sample_group_guard V num_gibbs_steps batch_size w :
  V < m_num_visible_groups (rbm w) ->
  sample_group V num_gibbs_steps batch_size w
  = bind (sample num_gibbs_steps batch_size) (fun _ => copy_group V) w.
Proof.
  intros HV. unfold sample_group. unfold bind at 1, get_rbm. unfold bind at 1, require.
  destruct (Z.ltb_spec V (m_num_visible_groups (rbm w))); [reflexivity | lia].
Qed.

Lemma sample_with_evidence_not_fatal E evidence num_gibbs_steps w :
  E < m_num_visible_groups (rbm w) ->
  forall fmt args w', sample_with_evidence E evidence num_gibbs_steps w <> Fatal fmt args w'.
Proof.
  intros HE. unfold sample_with_evidence. unfold bind at 1, get_rbm. unfold bind at 1, require.
  destruct (Z.ltb_spec E (m_num_visible_groups (rbm w))); [| lia].
  match goal with
  | |- forall fmt args w', ?c w <> _ => assert (no_fatal c) as Hnf
  end.
  { nf_auto. all: apply nf_sample_visible_pick. }
  exact (Hnf w).
Qed.

(** C8 fails on the code for negative indices: the guard
    [require(V<m_num_visible_groups, ...)] has no lower bound. With a negative
    group index none of the three functions raises a fatal error:
    [sample_group] runs [sample] (which resizes and re-randomizes the batch
    state and runs the Gibbs steps) and only then reads
    [m_visible_group_sizes[V]], which has no defined behaviour. *)
Theorem negative_group_index_not_fatal w V E evidence num_gibbs_steps batch_size :
  V < 0 -> E < 0 -> 0 <= m_num_visible_groups (rbm w) ->
  sample_group V num_gibbs_steps batch_size w
  = bind (sample num_gibbs_steps batch_size) (fun _ => undefined) w
  /\ (forall fmt args w',
        sample_group V num_gibbs_steps batch_size w <> Fatal fmt args w')
  /\ (forall fmt args w',
        sample_with_evidence E evidence num_gibbs_steps w <> Fatal fmt args w')
  /\ (forall fmt args w',
        sample_group_with_evidence V E evidence num_gibbs_steps w <> Fatal fmt args w').
Proof.
  intros HV HE Hn. split; [| split; [| split]].
  - rewrite sample_group_guard by lia. unfold bind.
    destruct (sample num_gibbs_steps batch_size w); try reflexivity.
    apply copy_group_negative. exact HV.
  - rewrite sample_group_guard by lia.
    apply nf_bind; [apply nf_sample | intros _; apply nf_copy_group].
  - apply sample_with_evidence_not_fatal. lia.
  - unfold sample_group_with_evidence. unfold bind at 1, get_rbm.
    unfold bind at 1, require.
    destruct (Z.ltb_spec V (m_num_visible_groups (rbm w))); [| lia].
    unfold bind at 1, require.
    destruct (Z.ltb_spec E (m_num_visible_groups (rbm w))); [| lia].
    intros fmt args w'. unfold bind.
    pose proof (sample_with_evidence_not_fatal E evidence num_gibbs_steps w ltac:(lia)) as Hnf.
    destruct (sample_with_evidence E evidence num_gibbs_steps w) as [[] w1 | |] eqn:Hs.
    + apply nf_copy_group.
    + exfalso. exact (Hnf _ _ _ eq_refl).
    + discriminate.
Qed.

(** For an index at or above the number of groups the guard does raise the
    error, in the state the call was made in. *)
Lemma group_index_too_large w V E evidence num_gibbs_steps batch_size :
  m_num_visible_groups (rbm w) <= V ->
  sample_group V num_gibbs_steps batch_size w
  = Fatal out_of_bounds [V; m_num_visible (rbm w)] w
  /\ sample_with_evidence V evidence num_gibbs_steps w
     = Fatal out_of_bounds [V; m_num_visible (rbm w)] w
  /\ sample_group_with_evidence V E evidence num_gibbs_steps w
     = Fatal out_of_bounds [V; m_num_visible (rbm w)] w
  /\ (E < m_num_visible_groups (rbm w) ->
      sample_group_with_evidence E V evidence num_gibbs_steps w
      = Fatal out_of_bounds [V; m_num_visible (rbm w)] w).
Proof.
  intros HV.
  unfold sample_group, sample_with_evidence, sample_group_with_evidence, bind, get_rbm,
    require.
  destruct (Z.ltb_spec V (m_num_visible_groups (rbm w))); [lia |].
  repeat split. intros HE.
  destruct (Z.ltb_spec E (m_num_visible_groups (rbm w))); [reflexivity | lia].
Qed.

End NoFatal.

(** C8 on [unsized_real]: [sample_group(-1, 1, 1)] raises no fatal
    error. *)
Lemma negative_group_index_not_fatal_witness :
  (-1 < 0)
  /\ forall fmt args w', sample_group (-1) 1 1 unsized_real <> Fatal fmt args w'.
Proof.
  split; [lia |].
  apply (negative_group_index_not_fatal unsized_real (-1) (-1) SGMatrix_empty 1 1);
    simpl; lia.
Defined.

(** * Sampling with evidence (C9) *)

Section Evidence.

Context {F : Type} {AF : Arith F} {LF : Libm F} {G : Type} {RE : RandomEngine G F}.

#[local] Open Scope M_scope.

#[local] Abbreviation RBM := (RBM F G).
#[local] Abbreviation World := (World F G).
#[local] Abbreviation M := (M F G).

Implicit Types (w : World) (r : RBM) (P : footprint).

Lemma ptr_nonneg w m b o :
  emap_ok w m = true -> e_ptr m = Ptr b o -> 0 <= o.
Proof.
  intros Hok Hp. destruct (emap_ok_inv _ _ Hok) as (b' & o' & buf & Hp' & _ & _ & _ & Ho & _).
  congruence.
Qed.

Lemma peek_same_heap_prefix w w' p i :
  (exists extra, heap w' = heap w ++ extra) -> is_Some (peek w p i) ->
  peek w' p i = peek w p i.
Proof.
  intros [extra Heq] [x Hx]. unfold peek in *. destruct p as [| b o]; [discriminate |].
  destruct (heap w !! b) as [buf |] eqn:Hb; [| discriminate].
  rewrite Heq, (lookup_app_l_Some _ _ _ _ Hb). reflexivity.
Qed.

(** Rows [f 0, f 1, ...] of [src] copied over rows [g 0, g 1, ...] of
    [dst], column by column: the loop of [clamp] and of [copy_group]. *)
Lemma copy_rows_spec P w0 w (src dst : SGMatrix) (f g : Z -> Z) size bs sb so db do :
  step P w0 w ->
  mat_ok w0 src -> matrix src = Ptr sb so ->
  mat_ok w0 dst -> matrix dst = Ptr db do ->
  (forall i, 0 <= i < size -> 0 <= f i < num_rows src) ->
  (forall i, 0 <= i < size -> 0 <= g i < num_rows dst) ->
  (forall i i', g i = g i' -> i = i') ->
  bs <= num_cols src -> bs <= num_cols dst ->
  (forall i j, 0 <= i < size -> 0 <= j < bs ->
     P db (Z.to_nat (do + (j * num_rows dst + g i)))) ->
  (forall n, ~ P sb n) ->
  wp (for_ 0 size (fun i =>
        for_ 0 bs (fun j =>
          bind (mat_get src (f i) j) (fun x => mat_set dst (g i) j x))))
    (fun _ w' =>
       step P w0 w'
       /\ forall i j, 0 <= i < size -> 0 <= j < bs ->
            peek w' (Ptr db do) (j * num_rows dst + g i)
            = peek w0 (Ptr sb so) (j * num_rows src + f i)) w.
Proof.
  intros Hst Hsok Hsp Hdok Hdp Hf Hg Hinj Hscols Hdcols Hfoot Hsrc.
  pose proof (ptr_nonneg _ _ _ _ Hdok Hdp) as Hdo.
  assert (forall w1 i j, step P w0 w1 -> 0 <= i < size -> 0 <= j < bs ->
            peek w1 (Ptr sb so) (j * num_rows src + f i)
            = peek w0 (Ptr sb so) (j * num_rows src + f i)) as Hread.
  { intros w1 i j Hst1 Hi Hj. specialize (Hf i Hi).
    eapply peek_frame; [apply Hst1 | | apply Hsrc].
    rewrite <- Hsp. apply (peek_in_map w0 (mat_map src)); [exact Hsok | simpl; nia]. }
  destruct (Z_le_gt_dec 0 size) as [Hsz | Hsz].
  2: { unfold for_, wp. rewrite fold_for_empty by lia.
       split; [exact Hst | intros; lia]. }
  destruct (Z_le_gt_dec 0 bs) as [Hbs | Hbs].
  2: { eapply wp_mono; [apply (wp_for_inv (fun w => step P w0 w)); [exact Hst |] |].
       - intros i w1 Hi Hst1. unfold for_, wp. rewrite fold_for_empty by lia. exact Hst1.
       - intros [] w' Hst'. split; [exact Hst' | intros; lia]. }
  apply (wp_for (fun i w1 =>
           step P w0 w1
           /\ forall i' j', 0 <= i' < i -> 0 <= j' < bs ->
                peek w1 (Ptr db do) (j' * num_rows dst + g i')
                = peek w0 (Ptr sb so) (j' * num_rows src + f i'))); [exact Hsz | | |].
  - split; [exact Hst | intros; lia].
  - intros i w1 Hi (Hst1 & Hc1).
    apply (wp_for (fun j w2 =>
             step P w0 w2
             /\ forall i' j', 0 <= i' < size -> 0 <= j' < bs ->
                  i' < i \/ (i' = i /\ j' < j) ->
                  peek w2 (Ptr db do) (j' * num_rows dst + g i')
                  = peek w0 (Ptr sb so) (j' * num_rows src + f i'))); [exact Hbs | | |].
    + split; [exact Hst1 |].
      intros i' j' Hi' Hj' [Hlt | [_ Hlt]]; [apply Hc1; lia | lia].
    + intros j w2 Hj (Hst2 & Hc2). apply wp_bind. unfold mat_get, mat_set.
      pose proof (Hf i Hi) as Hfi. pose proof (Hg i Hi) as Hgi.
      eapply (wp_load_step P w0 w2 (mat_map src));
        [exact Hst2 | exact Hsok | reflexivity | simpl; nia |].
      intros x Hx. rewrite Hsp in Hx. rewrite Hdp.
      eapply (wp_store_step P w0 w2 (mat_map dst));
        [exact Hst2 | exact Hdok | exact Hdp | reflexivity | simpl; nia | apply Hfoot; lia |].
      intros Hst3. split; [exact Hst3 |].
      intros i' j' Hi' Hj' Hdone.
      destruct (peek_in_map w2 (mat_map dst) (j * num_rows dst + g i)) as [x0 Hx0].
      { eapply emap_ok_mono; [apply Hst2 | exact Hdok]. }
      { simpl. nia. }
      simpl in Hx0. rewrite Hdp in Hx0.
      destruct (decide (i' = i /\ j' = j)) as [[-> ->] | Hne].
      * rewrite (peek_poke_eq _ _ _ _ _ _ Hx0).
        rewrite <- (Hread w2 i j Hst2 Hi Hj). symmetry. exact Hx.
      * rewrite peek_poke_ne; [apply Hc2; lia | nia |].
        right. intros Heq. apply Hne. pose proof (Hg i' Hi') as Hgi'.
        destruct (cell_index_inj (num_rows dst) (g i') j' (g i) j); [lia | lia | lia |].
        split; [apply Hinj; assumption | assumption].
    + intros w2 (Hst2 & Hc2). split; [exact Hst2 |].
      intros i' j' Hi' Hj'. apply Hc2; lia.
  - intros w1 (Hst1 & Hc1). split; [exact Hst1 |].
    intros i j Hi Hj. apply Hc1; lia.
Qed.

(** [clamp] copies the first [size] rows of the evidence over rows
    [offset, offset + size) of the visible state. *)
Lemma clamp_spec P w0 w (ev : SGMatrix) off size vb vo eb eo :
  step P w0 w ->
  mat_ok w0 (visible_state (rbm w0)) ->
  num_rows (visible_state (rbm w0)) = m_num_visible (rbm w0) ->
  num_cols (visible_state (rbm w0)) = m_batch_size (rbm w0) ->
  matrix (visible_state (rbm w0)) = Ptr vb vo ->
  mat_ok w0 ev -> matrix ev = Ptr eb eo ->
  size <= num_rows ev -> m_batch_size (rbm w0) <= num_cols ev ->
  0 <= off -> off + size <= m_num_visible (rbm w0) ->
  group_cells P vb vo (m_num_visible (rbm w0)) off size (m_batch_size (rbm w0)) ->
  (forall n, ~ P eb n) ->
  wp (clamp ev off size)
    (fun _ w' =>
       step P w0 w'
       /\ forall i j, 0 <= i < size -> 0 <= j < m_batch_size (rbm w0) ->
            peek w' (Ptr vb vo) (j * m_num_visible (rbm w0) + (i + off))
            = peek w0 (Ptr eb eo) (j * num_rows ev + i)) w.
Proof.
  intros Hst Hvok Hvrows Hvcols Hvp Heok Hep Hsize Hcols Hoff Hfit Hfoot Hev.
  unfold clamp. apply wp_bind, wp_get_rbm. stable_rw (proj1 Hst).
  rewrite <- Hvrows.
  apply (copy_rows_spec P w0 w ev (visible_state (rbm w0)) (fun i => i)
           (fun i => i + off) size (m_batch_size (rbm w0)) eb eo vb vo); auto.
  - intros; lia.
  - intros; lia.
  - intros; lia.
  - lia.
  - intros i j Hi Hj. rewrite Hvrows. apply Hfoot; assumption.
Qed.

(** [copy_group] returns a new matrix holding rows
    [offset, offset + size) of the visible state. *)
Lemma copy_group_spec w V off size vb vo :
  mat_ok w (visible_state (rbm w)) ->
  num_rows (visible_state (rbm w)) = m_num_visible (rbm w) ->
  num_cols (visible_state (rbm w)) = m_batch_size (rbm w) ->
  matrix (visible_state (rbm w)) = Ptr vb vo ->
  lookupZ (m_visible_group_sizes (rbm w)) V = Some size ->
  lookupZ (m_visible_state_offsets (rbm w)) V = Some off ->
  0 <= off -> 0 <= size -> off + size <= m_num_visible (rbm w) ->
  0 <= m_batch_size (rbm w) ->
  wp (copy_group V)
    (fun result w' =>
       result = mkSGMatrix (Ptr (length (heap w)) 0) size (m_batch_size (rbm w))
       /\ rbm_stable w w' /\ heap_le no_cell w w'
       /\ forall i j, 0 <= i < size -> 0 <= j < m_batch_size (rbm w) ->
            peek w' (Ptr (length (heap w)) 0) (j * size + i)
            = peek w (Ptr vb vo) (j * m_num_visible (rbm w) + (i + off))) w.
Proof.
  intros Hvok Hvrows Hvcols Hvp Hsz Hoff Hoff0 Hsize0 Hfit Hbs.
  unfold copy_group. apply wp_bind, wp_get_rbm.
  apply wp_bind. eapply wp_at; [exact Hsz |].
  apply wp_bind, wp_SGMatrix_new; [lia | lia |].
  apply wp_bind. eapply wp_at; [exact Hoff |].
  set (n := length (heap w)).
  set (res := mkSGMatrix (Ptr n 0) size (m_batch_size (rbm w))).
  set (wa := mkWorld (rbm w) (heap w ++ [_])).
  assert (heap_le no_cell w wa) as Hle by apply heap_le_alloc.
  assert (mat_ok wa res) as Hrok.
  { eapply emap_ok_intro; simpl; [reflexivity | apply list_lookup_middle; reflexivity
                                 | lia | lia | lia |].
    rewrite length_replicate. lia. }
  assert (mat_ok wa (visible_state (rbm w))) as Hvok' by (eapply emap_ok_mono; eauto).
  assert (vb <> n) as Hvb.
  { destruct (emap_ok_inv _ _ Hvok) as (b' & o' & buf & Hp' & Hb' & _).
    simpl in Hp'. rewrite Hvp in Hp'. inversion Hp'; subst b' o'.
    apply lookup_lt_Some in Hb'. unfold n. lia. }
  apply wp_bind. eapply wp_mono.
  - apply (copy_rows_spec (fun b _ => b = n) wa wa (visible_state (rbm w)) res
             (fun i => i + off) (fun i => i) size (m_batch_size (rbm w)) vb vo n 0);
      simpl; auto; try (intros; lia).
    apply step_refl.
  - cbv beta. intros [] w' (Hst & Hc). apply wp_ret.
    split; [reflexivity |]. split; [apply Hst |]. split.
    + intros b buf Hbuf.
      destruct (Hle b buf Hbuf) as (buf1 & Hbuf1 & Hlen1 & Hsame1).
      destruct (proj2 Hst b buf1 Hbuf1) as (buf' & Hbuf' & Hlen & Hsame).
      exists buf'. split; [exact Hbuf' |]. split; [congruence |].
      intros k _. rewrite Hsame, Hsame1; [reflexivity | tauto |].
      intros ->. apply lookup_lt_Some in Hbuf. unfold n in *. lia.
    + intros i j Hi Hj. specialize (Hc i j Hi Hj). unfold res in Hc.
      cbn [num_rows] in Hc. rewrite Hc, Hvrows.
      apply (peek_same_heap_prefix w wa); [eexists; reflexivity |].
      rewrite <- Hvp. eapply (peek_in_map w (mat_map (visible_state (rbm w))));
        [exact Hvok | simpl; rewrite Hvrows, Hvcols; nia].
Qed.

(** [sample_with_evidence] on a machine whose batch state already has the
    columns of the evidence: it returns, writes nothing but the two state
    matrices, and leaves the evidence in the rows of group [E]. *)
Lemma sample_with_evidence_same w E (ev : SGMatrix) num_gibbs_steps
    hb ho vb vo eb eo off size :
  params_ok w -> state_ok w -> registry_ok (rbm w) -> softmax_ok (rbm w) ->
  0 <= E < m_num_visible_groups (rbm w) ->
  m_batch_size (rbm w) = num_cols ev ->
  mat_ok w ev -> matrix ev = Ptr eb eo ->
  lookupZ (m_visible_state_offsets (rbm w)) E = Some off ->
  lookupZ (m_visible_group_sizes (rbm w)) E = Some size ->
  size <= num_rows ev ->
  matrix (hidden_state (rbm w)) = Ptr hb ho ->
  matrix (visible_state (rbm w)) = Ptr vb vo ->
  eb <> hb -> eb <> vb ->
  wp (sample_with_evidence E ev num_gibbs_steps)
    (fun _ w' =>
       step (blocks [hb; vb]) w w'
       /\ forall i j, 0 <= i < size -> 0 <= j < m_batch_size (rbm w) ->
            peek w' (Ptr vb vo) (j * m_num_visible (rbm w) + (i + off))
            = peek w (Ptr eb eo) (j * num_rows ev + i)) w.
Proof.
  intros Hpar Hstate Hreg Hsoft HE Hbatch Heok Hep Hoff Hsz Hsize Hhp Hvp Hneh Hnev.
  pose proof Hstate as (Hbs & Hhok & Hhrows & Hhcols & Hvok & Hvrows & Hvcols).
  destruct (registry_group _ E Hreg HE) as (off' & size' & t & Hoff' & Hsz' & _ & ? & ? & ?).
  assert (off' = off) as -> by congruence. assert (size' = size) as -> by congruence.
  set (P := blocks [hb; vb]).
  assert (forall d, P hb d) as HPh by (intros d; left; reflexivity).
  assert (forall d, P vb d) as HPv by (intros d; right; left; reflexivity).
  assert (forall d, ~ P eb d) as HPe.
  { intros d Hd. unfold P, blocks in Hd. simpl in Hd. intuition congruence. }
  unfold sample_with_evidence. apply wp_bind, wp_get_rbm.
  apply wp_bind, wp_require; [apply Z.ltb_lt; lia |].
  apply wp_bind, wp_set_batch_size_same; [auto |].
  apply wp_bind, wp_get_rbm.
  apply wp_bind. eapply wp_at; [exact Hoff |].
  apply wp_bind. eapply wp_at; [exact Hsz |].
  assert (forall w1, step P w w1 ->
            wp (clamp ev off size)
              (fun _ w' =>
                 step P w w'
                 /\ forall i j, 0 <= i < size -> 0 <= j < m_batch_size (rbm w) ->
                      peek w' (Ptr vb vo) (j * m_num_visible (rbm w) + (i + off))
                      = peek w (Ptr eb eo) (j * num_rows ev + i)) w1) as Hclamp.
  { intros w1 Hst1. eapply clamp_spec; eauto; try lia.
    intros i j _ _. apply HPv. }
  apply wp_bind. eapply wp_mono; [apply Hclamp, step_refl |].
  cbv beta. intros [] w1 HI.
  eapply wp_mono; [apply (wp_for_inv (fun w' =>
     step P w w'
     /\ forall i j, 0 <= i < size -> 0 <= j < m_batch_size (rbm w) ->
          peek w' (Ptr vb vo) (j * m_num_visible (rbm w) + (i + off))
          = peek w (Ptr eb eo) (j * num_rows ev + i))); [exact HI |] |].
  - intros n w2 Hn [Hst2 _].
    apply wp_bind. eapply mean_hidden_step; eauto; try congruence. intros w3 Hst3.
    apply wp_bind. eapply sample_hidden_step; eauto; try lia. intros w4 Hst4.
    apply wp_bind. eapply mean_visible_step; eauto; try congruence; try lia.
    intros w5 Hst5. apply wp_bind.
    assert (wp (if n <? num_gibbs_steps - 1
                then for_ 0 (m_num_visible_groups (rbm w)) (fun k =>
                       if k =? E then ret tt
                       else sample_visible_index k (visible_state (rbm w))
                              (visible_state (rbm w)))
                else ret tt) (fun _ w' => step P w w') w5) as Hsv.
    { destruct (n <? num_gibbs_steps - 1); [| apply wp_ret; exact Hst5].
      apply (wp_for_inv (fun w' => step P w w')); [exact Hst5 |].
      intros k w6 Hk Hst6. destruct (k =? E); [apply wp_ret; exact Hst6 |].
      eapply sample_visible_index_step; eauto; try lia.
      intros o1 s1 _ _ i j _ _. apply HPv. }
    eapply wp_mono; [exact Hsv |]. cbv beta. intros [] w6 Hst6.
    apply Hclamp. exact Hst6.
  - cbv beta. intros [] w' HI'. exact HI'.
Qed.

Lemma bind_get_rbm {A : Type} (k : RBM -> M A) w : bind get_rbm k w = k (rbm w) w.
Proof. reflexivity. Qed.

Lemma bind_require_true {A : Type} fmt args (k : unit -> M A) w :
  bind (require true fmt args) k w = k tt w.
Proof. reflexivity. Qed.

(** A function that starts by resizing the batch runs the same from the
    resized state. *)
Lemma bind_set_batch_size_resized {A : Type} batch_size (k : unit -> M A) w w1 :
  set_batch_size batch_size w = Ok tt w1 -> m_batch_size (rbm w1) = batch_size ->
  bind (set_batch_size batch_size) k w = bind (set_batch_size batch_size) k w1.
Proof.
  intros Hrun Hbs. unfold bind. rewrite Hrun, (set_batch_size_same w1) by exact Hbs.
  reflexivity.
Qed.

Lemma sample_with_evidence_resized w w1 E (ev : SGMatrix) num_gibbs_steps :
  set_batch_size (num_cols ev) w = Ok tt w1 ->
  m_batch_size (rbm w1) = num_cols ev ->
  m_num_visible_groups (rbm w1) = m_num_visible_groups (rbm w) ->
  E < m_num_visible_groups (rbm w) ->
  sample_with_evidence E ev num_gibbs_steps w
  = sample_with_evidence E ev num_gibbs_steps w1.
Proof.
  intros Hrun Hbs Hgroups HE. unfold sample_with_evidence.
  rewrite !bind_get_rbm. cbv beta. rewrite Hgroups.
  destruct (Z.ltb_spec E (m_num_visible_groups (rbm w))); [| lia].
  rewrite !bind_require_true.
  apply bind_set_batch_size_resized; assumption.
Qed.

Lemma sample_group_with_evidence_resized w w1 V E (ev : SGMatrix) num_gibbs_steps :
  set_batch_size (num_cols ev) w = Ok tt w1 ->
  m_batch_size (rbm w1) = num_cols ev ->
  m_num_visible_groups (rbm w1) = m_num_visible_groups (rbm w) ->
  V < m_num_visible_groups (rbm w) -> E < m_num_visible_groups (rbm w) ->
  sample_group_with_evidence V E ev num_gibbs_steps w
  = sample_group_with_evidence V E ev num_gibbs_steps w1.
Proof.
  intros Hrun Hbs Hgroups HV HE. unfold sample_group_with_evidence.
  rewrite !bind_get_rbm. cbv beta. rewrite Hgroups.
  destruct (Z.ltb_spec V (m_num_visible_groups (rbm w))); [| lia].
  destruct (Z.ltb_spec E (m_num_visible_groups (rbm w))); [| lia].
  rewrite !bind_require_true.
  unfold bind. rewrite (sample_with_evidence_resized w w1) by assumption.
  reflexivity.
Qed.

Lemma sample_group_with_evidence_same w E (ev : SGMatrix) num_gibbs_steps
    hb ho vb vo eb eo size :
  params_ok w -> state_ok w -> registry_ok (rbm w) -> softmax_ok (rbm w) ->
  0 <= E < m_num_visible_groups (rbm w) ->
  m_batch_size (rbm w) = num_cols ev ->
  mat_ok w ev -> matrix ev = Ptr eb eo ->
  lookupZ (m_visible_group_sizes (rbm w)) E = Some size ->
  size <= num_rows ev ->
  matrix (hidden_state (rbm w)) = Ptr hb ho ->
  matrix (visible_state (rbm w)) = Ptr vb vo ->
  eb <> hb -> eb <> vb ->
  wp (sample_group_with_evidence E E ev num_gibbs_steps)
    (fun result w' =>
       num_rows result = size /\ num_cols result = num_cols ev
       /\ forall i j, 0 <= i < size -> 0 <= j < num_cols ev ->
            peek w' (matrix result) (j * size + i)
            = peek w (matrix ev) (j * num_rows ev + i)) w.
Proof.
  intros Hpar Hstate Hreg Hsoft HE Hbatch Heok Hep Hsz Hsize Hhp Hvp Hneh Hnev.
  pose proof Hstate as (Hbs & Hhok & Hhrows & Hhcols & Hvok & Hvrows & Hvcols).
  destruct (registry_group _ E Hreg HE) as (off & size' & t & Hoff & Hsz' & _ & ? & ? & ?).
  assert (size' = size) as -> by congruence.
  unfold sample_group_with_evidence. apply wp_bind, wp_get_rbm.
  apply wp_bind, wp_require; [apply Z.ltb_lt; lia |].
  apply wp_bind, wp_require; [apply Z.ltb_lt; lia |].
  apply wp_bind. eapply wp_mono.
  - eapply (sample_with_evidence_same w E ev num_gibbs_steps); eauto.
  - cbv beta. intros [] w1 (Hst & Hc).
    eapply wp_mono.
    + apply (copy_group_spec w1 E off size vb vo); stable_rw (proj1 Hst); auto.
      eapply emap_ok_mono; [apply Hst | exact Hvok].
    + cbv beta. intros result w' (-> & Hr & Hle & Hcopy).
      stable_rw (proj1 Hst). cbn [matrix num_rows num_cols].
      split; [reflexivity |]. split; [congruence |].
      intros i j Hi Hj. rewrite Hep, Hcopy, Hc by lia. reflexivity.
Qed.

End Evidence.

(** * Resizing the batch state *)

Section Resized.

Context {F : Type} {AF : Arith F} {G : Type} {RE : RandomEngine G F}.

#[local] Abbreviation World := (World F G).

Implicit Types (w : World).

(** The fields after a [set_batch_size] that allocated. *)
Lemma fresh_fields w w' batch_size g :
  rbm w' = set_m_prng g (fresh_rbm batch_size w) ->
  cd_num_steps (rbm w') = cd_num_steps (rbm w) /\
  cd_persistent (rbm w') = cd_persistent (rbm w) /\
  cd_sample_visible (rbm w') = cd_sample_visible (rbm w) /\
  l2_coefficient (rbm w') = l2_coefficient (rbm w) /\
  l1_coefficient (rbm w') = l1_coefficient (rbm w) /\
  monitoring_method (rbm w') = monitoring_method (rbm w) /\
  monitoring_interval (rbm w') = monitoring_interval (rbm w) /\
  gd_mini_batch_size (rbm w') = gd_mini_batch_size (rbm w) /\
  max_num_epochs (rbm w') = max_num_epochs (rbm w) /\
  gd_learning_rate (rbm w') = gd_learning_rate (rbm w) /\
  gd_learning_rate_decay (rbm w') = gd_learning_rate_decay (rbm w) /\
  gd_momentum (rbm w') = gd_momentum (rbm w) /\
  m_num_hidden (rbm w') = m_num_hidden (rbm w) /\
  m_num_visible (rbm w') = m_num_visible (rbm w) /\
  m_num_visible_groups (rbm w') = m_num_visible_groups (rbm w) /\
  m_visible_group_sizes (rbm w') = m_visible_group_sizes (rbm w) /\
  m_visible_group_types (rbm w') = m_visible_group_types (rbm w) /\
  m_visible_state_offsets (rbm w') = m_visible_state_offsets (rbm w) /\
  m_num_params (rbm w') = m_num_params (rbm w) /\
  m_params (rbm w') = m_params (rbm w) /\
  m_batch_size (rbm w') = batch_size /\
  hidden_state (rbm w')
  = mkSGMatrix (Ptr (length (heap w)) 0) (m_num_hidden (rbm w)) batch_size /\
  visible_state (rbm w')
  = mkSGMatrix (Ptr (S (length (heap w))) 0) (m_num_visible (rbm w)) batch_size.
Proof. intros H. rewrite H. simpl. repeat split. Qed.

End Resized.

Ltac fresh_rw H :=
  let E := fresh "E" in
  pose proof (fresh_fields _ _ _ _ H) as E;
  destruct E as (S1 & S2 & S3 & S4 & S5 & S6 & S7 & S8 & S9 & S10 & S11 & S12 & S13 & S14 & S15 & S16 & S17 & S18 & S19 & S20 & S21 & S22 & S23);
  rewrite ?S1, ?S2, ?S3, ?S4, ?S5, ?S6, ?S7, ?S8, ?S9, ?S10, ?S11, ?S12, ?S13, ?S14, ?S15, ?S16, ?S17, ?S18, ?S19, ?S20, ?S21, ?S22, ?S23 in *;
  clear S1 S2 S3 S4 S5 S6 S7 S8 S9 S10 S11 S12 S13 S14 S15 S16 S17 S18 S19 S20 S21 S22 S23.

Section Clamped.

Context {F : Type} {AF : Arith F} {LF : Libm F} {G : Type} {RE : RandomEngine G F}.

#[local] Open Scope M_scope.

#[local] Abbreviation RBM := (RBM F G).
#[local] Abbreviation World := (World F G).
#[local] Abbreviation M := (M F G).

Implicit Types (w : World) (r : RBM) (P : footprint).

(** [set_batch_size] with a new size leaves a machine that is ready for
    every function that starts by asking for that size. *)
Lemma set_batch_size_ready w batch_size :
  params_ok w -> registry_ok (rbm w) ->
  m_batch_size (rbm w) <> batch_size -> 0 <= batch_size ->
  exists w1 g,
    set_batch_size batch_size w = Ok tt w1
    /\ rbm w1 = set_m_prng g (fresh_rbm batch_size w)
    /\ params_ok w1 /\ state_ok w1 /\ registry_ok (rbm w1)
    /\ heap_le no_cell w w1
    /\ forall i j, 0 <= i < m_num_visible (rbm w) -> 0 <= j < batch_size ->
         peek w1 (Ptr (S (length (heap w))) 0) (j * m_num_visible (rbm w) + i)
         = Some (b2f (fltb fhalf
                        (draw_at (Z.to_nat (i * batch_size + j)) (m_prng (rbm w))))).
Proof.
  intros Hpar Hreg Hne Hb. pose proof Hpar as (Hnv & Hnh & Hlen & Hnp & Hpok).
  pose proof (set_batch_size_fresh w batch_size Hne Hb Hnh Hnv) as Hwp.
  apply wp_ok in Hwp as ([] & w1 & Hrun & Hr & Hle & Hhok & Hvok & Hc).
  exists w1, (prng_after (Z.to_nat (m_num_visible (rbm w) * batch_size)) (m_prng (rbm w))).
  split; [exact Hrun |]. split; [exact Hr |].
  assert (params_ok w1) as Hpar1.
  { unfold params_ok. fresh_rw Hr. repeat split; auto.
    eapply emap_ok_mono; [exact Hle | exact Hpok]. }
  assert (state_ok w1) as Hstate1.
  { unfold state_ok. fresh_rw Hr. simpl. repeat split; auto. }
  assert (registry_ok (rbm w1)) as Hreg1.
  { unfold registry_ok. fresh_rw Hr. exact Hreg. }
  split; [exact Hpar1 |]. split; [exact Hstate1 |]. split; [exact Hreg1 |].
  split; [exact Hle | exact Hc].
Qed.

(** [sample_group_with_evidence(E, E, ...)] returns the first rows of the
    evidence, as many as group [E] has units. *)
Lemma sample_group_with_evidence_rows w E (ev : SGMatrix) num_gibbs_steps eb eo size :
  params_ok w -> registry_ok (rbm w) ->
  softmax_ok_at (rbm w) (num_cols ev) ->
  0 <= E < m_num_visible_groups (rbm w) ->
  mat_ok w ev -> matrix ev = Ptr eb eo ->
  lookupZ (m_visible_group_sizes (rbm w)) E = Some size ->
  size <= num_rows ev ->
  (m_batch_size (rbm w) = num_cols ev ->
   state_ok w
   /\ (forall b o, matrix (hidden_state (rbm w)) = Ptr b o -> eb <> b)
   /\ (forall b o, matrix (visible_state (rbm w)) = Ptr b o -> eb <> b)) ->
  exists result w',
    sample_group_with_evidence E E ev num_gibbs_steps w = Ok result w'
    /\ num_rows result = size /\ num_cols result = num_cols ev
    /\ forall i j, 0 <= i < size -> 0 <= j < num_cols ev ->
         peek w' (matrix result) (j * num_rows result + i)
         = peek w (matrix ev) (j * num_rows ev + i).
Proof.
  intros Hpar Hreg Hsoft HE Heok Hep Hsz Hsize Hsame.
  destruct (registry_group _ E Hreg HE) as (off & size' & t & _ & Hsz' & _ & _ & Hsize0 & _).
  assert (size' = size) as -> by congruence.
  assert (forall i j, 0 <= i < size -> 0 <= j < num_cols ev ->
            is_Some (peek w (matrix ev) (j * num_rows ev + i))) as Hsome.
  { intros i j Hi Hj. apply (peek_in_map w (mat_map ev)); [exact Heok | simpl; nia]. }
  destruct (emap_ok_inv _ _ Heok) as (eb' & eo' & ebuf & Hep' & Hebuf & _ & Hcols & _).
  simpl in Hep', Hcols. rewrite Hep in Hep'. inversion Hep'; subst eb' eo'. clear Hep'.
  destruct (Z.eq_dec (m_batch_size (rbm w)) (num_cols ev)) as [Heq | Hne].
  - destruct (Hsame Heq) as (Hstate & Hdh & Hdv).
    pose proof Hstate as (_ & Hhok & _ & _ & Hvok & _ & _).
    destruct (emap_ok_inv _ _ Hhok) as (hb & ho & ? & Hhp & _).
    destruct (emap_ok_inv _ _ Hvok) as (vb & vo & ? & Hvp & _).
    simpl in Hhp, Hvp.
    pose proof (sample_group_with_evidence_same w E ev num_gibbs_steps
                  hb ho vb vo eb eo size) as Hwp.
    apply wp_ok in Hwp as (result & w' & Hrun & Hrows & Hrcols & Hc); eauto; try lia.
    + exists result, w'. repeat split; auto. rewrite Hrows. apply Hc; assumption.
    + unfold softmax_ok. rewrite Heq. exact Hsoft.
  - destruct (set_batch_size_ready w (num_cols ev) Hpar Hreg Hne Hcols)
      as (w1 & g & Hrun1 & Hr & Hpar1 & Hstate1 & Hreg1 & Hle & _).
    assert (m_batch_size (rbm w1) = num_cols ev) as Hbs1 by (fresh_rw Hr; reflexivity).
    assert (m_num_visible_groups (rbm w1) = m_num_visible_groups (rbm w)) as Hg1
      by (fresh_rw Hr; reflexivity).
    rewrite (sample_group_with_evidence_resized w w1) by (assumption || lia).
    assert (eb < length (heap w))%nat as Heb by (eapply lookup_lt_Some; eauto).
    pose proof (sample_group_with_evidence_same w1 E ev num_gibbs_steps
                  (length (heap w)) 0 (S (length (heap w))) 0 eb eo size) as Hwp.
    apply wp_ok in Hwp as (result & w' & Hrun & Hrows & Hrcols & Hc); auto; try lia.
    + exists result, w'. repeat split; auto. intros i j Hi Hj.
      rewrite Hrows, Hc by assumption.
      rewrite Hep. eapply peek_frame; [exact Hle | rewrite <- Hep; auto | tauto].
    + unfold softmax_ok. fresh_rw Hr. exact Hsoft.
    + eapply emap_ok_mono; [exact Hle | exact Heok].
    + fresh_rw Hr. exact Hsz.
    + fresh_rw Hr. reflexivity.
    + fresh_rw Hr. reflexivity.
Qed.

(** C9, as the code has it. Let [E] be a valid group index and the
    evidence a matrix with as many rows as group [E] has units, stored apart
    from the state matrices. Then, for every number of Gibbs steps,
    [sample_group_with_evidence(E, E, evidence, num_gibbs_steps)] returns a
    matrix with the shape of the evidence that equals it entry for entry. *)
Theorem sample_group_with_evidence_clamped w E (ev : SGMatrix) num_gibbs_steps eb eo :
  params_ok w -> registry_ok (rbm w) ->
  softmax_ok_at (rbm w) (num_cols ev) ->
  0 <= E < m_num_visible_groups (rbm w) ->
  mat_ok w ev -> matrix ev = Ptr eb eo ->
  lookupZ (m_visible_group_sizes (rbm w)) E = Some (num_rows ev) ->
  (m_batch_size (rbm w) = num_cols ev ->
   state_ok w
   /\ (forall b o, matrix (hidden_state (rbm w)) = Ptr b o -> eb <> b)
   /\ (forall b o, matrix (visible_state (rbm w)) = Ptr b o -> eb <> b)) ->
  exists result w',
    sample_group_with_evidence E E ev num_gibbs_steps w = Ok result w'
    /\ num_rows result = num_rows ev /\ num_cols result = num_cols ev
    /\ forall i j, 0 <= i < num_rows ev -> 0 <= j < num_cols ev ->
         is_Some (peek w (matrix ev) (j * num_rows ev + i))
         /\ peek w' (matrix result) (j * num_rows result + i)
            = peek w (matrix ev) (j * num_rows ev + i).
Proof.
  intros Hpar Hreg Hsoft HE Heok Hep Hsz Hsame.
  destruct (sample_group_with_evidence_rows w E ev num_gibbs_steps eb eo (num_rows ev))
    as (result & w' & Hrun & Hrows & Hcols & Hc); auto; try lia.
  exists result, w'. repeat split; auto.
  apply (peek_in_map w (mat_map ev)); [exact Heok | simpl; nia].
Qed.

End Clamped.

Lemma with_evidence_params : params_ok with_evidence.
Proof. unfold params_ok. simpl. repeat split; try lia. Qed.

Lemma with_evidence_registry : registry_ok (rbm with_evidence).
Proof.
  unfold registry_ok. simpl. repeat split; auto.
  repeat constructor. lia.
Qed.

Lemma with_evidence_softmax batch_size : softmax_ok_at (rbm with_evidence) batch_size.
Proof.
  intros k s Ht _. unfold lookupZ in Ht. simpl in Ht.
  destruct (0 <=? k); [| discriminate].
  destruct (Z.to_nat k) as [| [| n]]; discriminate.
Qed.

(** C9 on [with_evidence]: after three Gibbs steps the result is the
    evidence, [1 0]. *)
Lemma sample_group_with_evidence_clamped_witness :
  exists result w',
    sample_group_with_evidence 0 0 flat_evidence 3 with_evidence = Ok result w'
    /\ num_rows result = 1 /\ num_cols result = 2
    /\ peek w' (matrix result) 0 = Some 1%R
    /\ peek w' (matrix result) 1 = Some 0%R.
Proof.
  destruct (sample_group_with_evidence_clamped with_evidence 0 flat_evidence 3 1 0)
    as (result & w' & Hrun & Hrows & Hcols & Hc).
  - exact with_evidence_params.
  - exact with_evidence_registry.
  - apply with_evidence_softmax.
  - simpl. lia.
  - reflexivity.
  - reflexivity.
  - reflexivity.
  - simpl. discriminate.
  - exists result, w'. split; [exact Hrun |]. split; [exact Hrows |].
    split; [exact Hcols |]. rewrite Hrows in Hc. simpl in Hc. split.
    + destruct (Hc 0 0) as [_ Heq]; [lia | lia |]. exact Heq.
    + destruct (Hc 0 1) as [_ Heq]; [lia | lia |]. exact Heq.
Defined.

(** C9 fails as stated: an evidence matrix with more rows than the group
    has units comes back cut to the size of the group, and a group index
    past the last group raises the fatal error instead of returning. *)
Lemma sample_group_with_evidence_counterexample :
  (exists result w',
     sample_group_with_evidence 0 0 tall_evidence 0 with_evidence = Ok result w'
     /\ num_rows result = 1 /\ num_rows tall_evidence = 2)
  /\ sample_group_with_evidence 5 5 flat_evidence 0 with_evidence
     = Fatal out_of_bounds [5; 1] with_evidence.
Proof.
  split.
  - destruct (sample_group_with_evidence_rows with_evidence 0 tall_evidence 0 1 0 1)
      as (result & w' & Hrun & Hrows & _).
    + exact with_evidence_params.
    + exact with_evidence_registry.
    + apply with_evidence_softmax.
    + simpl. lia.
    + reflexivity.
    + reflexivity.
    + reflexivity.
    + simpl. lia.
    + simpl. discriminate.
    + exists result, w'. repeat split; assumption.
  - reflexivity.
Qed.

(** * The scalar queries *)

Section Queries.

Context {F : Type} {AF : Arith F} {LF : Libm F} {G : Type} {RE : RandomEngine G F}.

#[local] Open Scope M_scope.

#[local] Abbreviation RBM := (RBM F G).
#[local] Abbreviation World := (World F G).
#[local] Abbreviation M := (M F G).

Implicit Types (w : World) (r : RBM) (P : footprint).

(** A buffer seen through a map that fits in it. *)
Lemma buffer_view_ok w (buffer : SGMatrix) rows cols :
  mat_ok w buffer -> 0 <= rows -> 0 <= cols ->
  rows * cols <= num_rows buffer * num_cols buffer ->
  emap_ok w (EMatrix (matrix buffer) rows cols) = true.
Proof.
  intros Hok Hr Hc Hfit.
  destruct (emap_ok_inv _ _ Hok) as (b & o & buf & Hp & Hb & _ & _ & Ho & Hl).
  simpl in *. eapply emap_ok_intro; simpl; eauto. lia.
Qed.

(** [free_energy] with the batch size of its input writes to its buffer
    only. *)
Lemma free_energy_step P w0 w (visible buffer : SGMatrix) b o (Q : F -> World -> Prop) :
  step P w0 w -> params_ok w0 -> registry_ok (rbm w0) -> 0 < m_num_hidden (rbm w0) ->
  mat_ok w0 visible -> num_rows visible = m_num_visible (rbm w0) ->
  num_cols visible = m_batch_size (rbm w0) ->
  mat_ok w0 buffer -> num_rows buffer = m_num_hidden (rbm w0) ->
  num_cols buffer = m_batch_size (rbm w0) ->
  matrix buffer = Ptr b o ->
  (forall d, 0 <= d < m_num_hidden (rbm w0) * m_batch_size (rbm w0) ->
     P b (Z.to_nat (o + d))) ->
  (forall x w', step P w0 w' -> Q x w') ->
  wp (free_energy visible buffer) Q w.
Proof.
  intros Hst Hpar Hreg Hnh Hvis Hvrows Hvcols Hbuf Hbrows Hbcols Hptr Hfoot HQ.
  pose proof Hpar as (Hnv & _ & Hlen & _ & _).
  destruct (emap_ok_inv _ _ Hvis) as (vb & vo & vbuf & Hvp & Hvb & _ & Hbs & _).
  simpl in Hbs. rewrite Hvcols in Hbs.
  unfold free_energy. apply wp_bind.
  apply wp_set_batch_size_same; [stable_rw (proj1 Hst); auto |].
  apply wp_bind, wp_get_rbm. apply wp_bind.
  destruct (Z.eqb_spec (num_rows buffer) 0) as [Hz | _]; [lia |].
  apply wp_ret.
  unfold get_weights, get_visible_bias, get_hidden_bias. simpl. stable_rw (proj1 Hst).
  set (nv := m_num_visible (rbm w0)) in *. set (nh := m_num_hidden (rbm w0)) in *.
  set (bs := m_batch_size (rbm w0)) in *.
  assert (emap_ok w0 (EVector (matrix buffer) bs) = true) as HBV.
  { apply buffer_view_ok; [exact Hbuf | lia | lia | rewrite Hbrows, Hbcols; nia]. }
  assert (emap_ok w0 (EMatrix (matrix buffer) nh bs) = true) as HWV.
  { apply buffer_view_ok; [exact Hbuf | lia | lia | rewrite Hbrows, Hbcols; lia]. }
  assert (forall d, 0 <= d < bs * 1 -> P b (Z.to_nat (o + d))) as HfB.
  { intros d Hd. apply Hfoot. nia. }
  apply wp_bind.
  eapply (wp_eigen_assign_step P w0); [exact Hst | | | exact Hptr | exact HfB |].
  { simpl. rewrite Hvrows, Hvcols, !Z.eqb_refl. reflexivity. }
  { repeat constructor; [exact HBV | apply visible_bias_ok; exact Hpar | exact Hvis]. }
  intros Hst1. apply wp_bind.
  eapply (wp_eigen_eval_step P w0); [exact Hst1 | repeat constructor; exact HBV |].
  apply wp_bind.
  eapply (wp_eigen_assign_step P w0); [exact Hst1 | | | exact Hptr | exact Hfoot |].
  { simpl. apply Z.eqb_refl. }
  { repeat constructor; [exact HWV | apply hidden_bias_ok; exact Hpar]. }
  intros Hst2. apply wp_bind.
  eapply (wp_eigen_assign_step P w0); [exact Hst2 | | | exact Hptr | exact Hfoot |].
  { simpl. rewrite Hvrows, Hvcols, !Z.eqb_refl. reflexivity. }
  { repeat constructor; [exact HWV | apply weights_ok; exact Hpar | exact Hvis]. }
  intros Hst3. apply wp_bind.
  eapply wp_mono; [apply (wp_fold_inv (fun w => step P w0 w)); [exact Hst3 |] |].
  { intros i a w1 Hi Hst4.
    apply (wp_fold_inv (fun w => step P w0 w)); [exact Hst4 |].
    intros j a' w2 Hj Hst5. apply wp_bind. unfold emap_get.
    eapply (wp_load_step P w0 w2 (EMatrix (matrix buffer) nh bs));
      [exact Hst5 | exact HWV | reflexivity | simpl; nia |].
    intros x _. apply wp_ret. exact Hst5. }
  intros wv_term w4 Hst4. cbv beta in Hst4.
  eapply wp_mono; [apply (wp_fold_inv (fun w => step P w0 w)); [exact Hst4 |] |].
  { intros k a w5 Hk Hst5.
    destruct (registry_group _ k Hreg Hk) as (off & size & t & Hoff & Hsz & Ht & ? & ? & ?).
    apply wp_bind. eapply wp_at; [exact Ht |].
    destruct (is_gaussian t); [| apply wp_ret; exact Hst5].
    apply wp_bind. eapply wp_at; [exact Hoff |].
    apply wp_bind. eapply wp_at; [exact Hsz |].
    apply (wp_fold_inv (fun w => step P w0 w)); [exact Hst5 |].
    intros i a1 w6 Hi Hst6.
    apply (wp_fold_inv (fun w => step P w0 w)); [exact Hst6 |].
    intros j a2 w7 Hj Hst7. apply wp_bind. unfold mat_get.
    eapply (wp_load_step P w0 w7 (mat_map visible));
      [exact Hst7 | exact Hvis | reflexivity | simpl; rewrite Hvrows, Hvcols; fold nv bs; nia |].
    intros x _. apply wp_ret. exact Hst7. }
  intros x w5 Hst5. apply HQ. exact Hst5.
Qed.

(** [reconstruction_error] with the batch size of its input writes to the
    hidden state and to its buffer. *)
Lemma reconstruction_error_step P w0 w (visible buffer : SGMatrix) hb ho b o
    (Q : F -> World -> Prop) :
  step P w0 w -> params_ok w0 -> state_ok w0 -> registry_ok (rbm w0) ->
  softmax_ok (rbm w0) ->
  mat_ok w0 visible -> num_rows visible = m_num_visible (rbm w0) ->
  num_cols visible = m_batch_size (rbm w0) ->
  mat_ok w0 buffer -> num_rows buffer = m_num_visible (rbm w0) ->
  num_cols buffer = m_batch_size (rbm w0) -> num_rows buffer <> 0 ->
  matrix buffer = Ptr b o ->
  matrix (hidden_state (rbm w0)) = Ptr hb ho ->
  (forall d, 0 <= d < m_num_visible (rbm w0) * m_batch_size (rbm w0) ->
     P b (Z.to_nat (o + d))) ->
  (forall d, 0 <= d < m_num_hidden (rbm w0) * m_batch_size (rbm w0) ->
     P hb (Z.to_nat (ho + d))) ->
  (forall x w', step P w0 w' -> Q x w') ->
  wp (reconstruction_error visible buffer) Q w.
Proof.
  intros Hst Hpar Hstate Hreg Hsoft Hvis Hvrows Hvcols Hbuf Hbrows Hbcols Hnz Hptr Hhp
    Hfoot Hfh HQ.
  destruct Hstate as (Hbs & Hhok & Hhrows & Hhcols & _).
  unfold reconstruction_error. apply wp_bind.
  apply wp_set_batch_size_same; [stable_rw (proj1 Hst); auto |].
  apply wp_bind, wp_get_rbm. apply wp_bind.
  destruct (Z.eqb_spec (num_rows buffer) 0) as [Hz | _]; [lia |].
  apply wp_ret. stable_rw (proj1 Hst).
  assert (forall d, 0 <= d < num_rows (hidden_state (rbm w0))
                               * num_cols (hidden_state (rbm w0)) ->
            P hb (Z.to_nat (ho + d))) as Hfh' by (rewrite Hhrows, Hhcols; exact Hfh).
  assert (forall d, 0 <= d < num_rows buffer * num_cols buffer ->
            P b (Z.to_nat (o + d))) as Hfoot' by (rewrite Hbrows, Hbcols; exact Hfoot).
  apply wp_bind.
  eapply (mean_hidden_step P w0); [exact Hst | exact Hpar | exact Hvis | exact Hvrows
    | exact Hhok | exact Hhrows | congruence | exact Hhp | exact Hfh' |].
  intros w1 Hst1. apply wp_bind.
  eapply (sample_hidden_step P w0); [exact Hst1 | exact Hhok | exact Hhok | lia
    | exact Hhp | exact Hfh' |].
  intros w2 Hst2. apply wp_bind.
  eapply (mean_visible_step P w0); [exact Hst2 | exact Hpar | exact Hreg | exact Hsoft
    | exact Hhok | exact Hhrows | exact Hbuf | exact Hbrows | congruence | lia
    | exact Hptr | exact Hfoot' |].
  intros w3 Hst3. apply wp_bind.
  eapply wp_mono; [apply (wp_fold_inv (fun w => step P w0 w)); [exact Hst3 |] |].
  { intros i a w4 Hi Hst4. apply wp_bind. unfold lin_get.
    eapply (wp_load_step P w0 w4 (mat_map buffer));
      [exact Hst4 | exact Hbuf | reflexivity | simpl; rewrite Hbrows, Hbcols; lia |].
    intros x _. apply wp_bind.
    eapply (wp_load_step P w0 w4 (mat_map visible));
      [exact Hst4 | exact Hvis | reflexivity | simpl; rewrite Hvrows, Hvcols; lia |].
    intros y _. apply wp_ret. exact Hst4. }
  intros x w4 Hst4. apply wp_ret. apply HQ. exact Hst4.
Qed.

Lemma fill_array_int_step `{!RandomEngineSpec G F} P w0 n a b :
  a <= b ->
  forall w (Q : list Z -> World -> Prop),
  step P w0 w ->
  (forall l w', step P w0 w' -> length l = n -> Forall (fun x => a <= x <= b) l -> Q l w') ->
  wp (fill_array_int n a b) Q w.
Proof.
  intros Hab. induction n as [| n IH]; intros w Q Hst HQ; simpl.
  - apply wp_ret. apply HQ; [exact Hst | reflexivity | constructor].
  - apply wp_bind. apply (wp_draw_int_step P w0); [exact Hst |].
    intros w1 Hst1 _. apply wp_bind. apply IH; [exact Hst1 |].
    intros l w2 Hst2 Hlen Hall. apply wp_ret. apply HQ; [exact Hst2 | simpl; lia |].
    constructor; [apply uniform_int_range; exact Hab | exact Hall].
Qed.

(** One pass of the loop that replaces entry [indices[j]] of column [j] by
    one minus itself. *)
Lemma flip_indices_step P w0 w (visible : SGMatrix) indices batch b o
    (Q : unit -> World -> Prop) :
  step P w0 w -> mat_ok w0 visible -> batch <= num_cols visible ->
  Z.of_nat (length indices) = batch ->
  Forall (fun x => 0 <= x <= num_rows visible - 1) indices ->
  matrix visible = Ptr b o ->
  (forall d, 0 <= d < num_rows visible * num_cols visible -> P b (Z.to_nat (o + d))) ->
  (forall w', step P w0 w' -> Q tt w') ->
  wp (flip_indices visible indices batch) Q w.
Proof.
  intros Hst Hvis Hbatch Hlen Hall Hptr Hfoot HQ. unfold flip_indices.
  eapply wp_mono; [apply (wp_for_inv (fun w => step P w0 w)); [exact Hst |] |].
  - intros j w1 Hj Hst1.
    destruct (lookupZ_Some indices j) as [i Hi]; [lia |].
    assert (0 <= i <= num_rows visible - 1) as Hrange.
    { unfold lookupZ in Hi. destruct (0 <=? j); [| discriminate].
      rewrite Forall_lookup in Hall. exact (Hall _ _ Hi). }
    apply wp_bind. eapply wp_at; [exact Hi |].
    apply wp_bind. unfold mat_get, mat_set.
    eapply (wp_load_step P w0 w1 (mat_map visible));
      [exact Hst1 | exact Hvis | reflexivity | simpl; nia |].
    intros x _.
    eapply (wp_store_step P w0 w1 (mat_map visible));
      [exact Hst1 | exact Hvis | reflexivity | exact Hptr | simpl; nia
      | apply Hfoot; nia |].
    auto.
  - intros [] w' Hst'. apply HQ. exact Hst'.
Qed.

(** [pseudo_likelihood] on a machine of Binary groups, with the batch size
    of its input, writes to its input and to its buffer. *)
Lemma pseudo_likelihood_step `{!RandomEngineSpec G F} P w0 w (visible buffer : SGMatrix)
    vb vo b o (Q : F -> World -> Prop) :
  step P w0 w -> params_ok w0 -> registry_ok (rbm w0) -> all_binary (rbm w0) ->
  0 < m_num_hidden (rbm w0) -> 0 < m_num_visible (rbm w0) ->
  mat_ok w0 visible -> num_rows visible = m_num_visible (rbm w0) ->
  num_cols visible = m_batch_size (rbm w0) ->
  mat_ok w0 buffer -> num_rows buffer = m_num_hidden (rbm w0) ->
  num_cols buffer = m_batch_size (rbm w0) ->
  matrix buffer = Ptr b o -> matrix visible = Ptr vb vo ->
  (forall d, 0 <= d < m_num_hidden (rbm w0) * m_batch_size (rbm w0) ->
     P b (Z.to_nat (o + d))) ->
  (forall d, 0 <= d < m_num_visible (rbm w0) * m_batch_size (rbm w0) ->
     P vb (Z.to_nat (vo + d))) ->
  (forall x w', step P w0 w' -> Q x w') ->
  wp (pseudo_likelihood visible buffer) Q w.
Proof.
  intros Hst Hpar Hreg Hbin Hnh Hnv Hvis Hvrows Hvcols Hbuf Hbrows Hbcols Hptr Hvp
    Hfoot Hfv HQ.
  destruct (emap_ok_inv _ _ Hvis) as (vb' & vo' & vbuf & _ & _ & _ & Hbs & _).
  simpl in Hbs. rewrite Hvcols in Hbs.
  unfold pseudo_likelihood. apply wp_bind, wp_get_rbm. stable_rw (proj1 Hst).
  apply wp_bind.
  eapply wp_mono; [apply (wp_for_inv (fun w => step P w0 w)); [exact Hst |] |].
  { intros k w1 Hk Hst1.
    destruct (registry_group _ k Hreg Hk) as (off & size & t & _ & _ & Ht & _).
    apply wp_bind. eapply wp_at; [exact Ht |].
    assert (is_binary t = true) as ->.
    { unfold lookupZ in Ht. destruct (0 <=? k); [| discriminate].
      unfold all_binary in Hbin. rewrite Forall_lookup in Hbin. exact (Hbin _ _ Ht). }
    apply wp_ret. exact Hst1. }
  intros [] w1 Hst1. cbv beta in Hst1. apply wp_bind.
  apply wp_set_batch_size_same; [stable_rw (proj1 Hst1); auto |].
  apply wp_bind, wp_get_rbm. stable_rw (proj1 Hst1). apply wp_bind.
  destruct (Z.eqb_spec (num_rows buffer) 0) as [Hz | _]; [lia |].
  apply wp_ret. apply wp_bind, wp_assume; [apply Z.leb_le; exact Hbs |].
  apply wp_bind. apply (fill_array_int_step P w0); [lia | exact Hst1 |].
  intros indices w2 Hst2 Hlen Hall.
  assert (forall d, 0 <= d < num_rows visible * num_cols visible ->
            P vb (Z.to_nat (vo + d))) as Hfv' by (rewrite Hvrows, Hvcols; exact Hfv).
  assert (Forall (fun x => 0 <= x <= num_rows visible - 1) indices) as Hall'.
  { rewrite Hvrows. exact Hall. }
  apply wp_bind.
  eapply (free_energy_step P w0); [exact Hst2 | exact Hpar | exact Hreg | exact Hnh
    | exact Hvis | exact Hvrows | exact Hvcols | exact Hbuf | exact Hbrows | exact Hbcols
    | exact Hptr | exact Hfoot |].
  intros e1 w3 Hst3. apply wp_bind.
  eapply (flip_indices_step P w0); [exact Hst3 | exact Hvis | lia | lia | exact Hall'
    | exact Hvp | exact Hfv' |].
  intros w4 Hst4. apply wp_bind.
  eapply (free_energy_step P w0); [exact Hst4 | exact Hpar | exact Hreg | exact Hnh
    | exact Hvis | exact Hvrows | exact Hvcols | exact Hbuf | exact Hbrows | exact Hbcols
    | exact Hptr | exact Hfoot |].
  intros e2 w5 Hst5. apply wp_bind.
  eapply (flip_indices_step P w0); [exact Hst5 | exact Hvis | lia | lia | exact Hall'
    | exact Hvp | exact Hfv' |].
  intros w6 Hst6. apply wp_ret. apply HQ. exact Hst6.
Qed.

End Queries.

(** * Queries that resize the batch (C10) *)

Section ChainReset.

Context {F : Type} {AF : Arith F} {LF : Libm F} {G : Type} {RE : RandomEngine G F}.
Context {RES : RandomEngineSpec G F}.

#[local] Open Scope M_scope.

#[local] Abbreviation RBM := (RBM F G).
#[local] Abbreviation World := (World F G).
#[local] Abbreviation M := (M F G).

Implicit Types (w : World) (r : RBM) (P : footprint).

Lemma bind_ok {A B : Type} (c : M A) (k : A -> M B) w a w' :
  c w = Ok a w' -> bind c k w = k a w'.
Proof. intros H. unfold bind. rewrite H. reflexivity. Qed.

Lemma SGMatrix_new_ok nrows ncols w :
  0 <= nrows -> 0 <= ncols ->
  SGMatrix_new nrows ncols w
  = Ok (mkSGMatrix (Ptr (length (heap w)) 0) nrows ncols)
      (mkWorld (rbm w) (heap w ++ [replicate (Z.to_nat (nrows * ncols)) (of_int 0)])).
Proof.
  intros Hr Hc.
  pose proof (wp_SGMatrix_new nrows ncols
                (fun m w' => m = mkSGMatrix (Ptr (length (heap w)) 0) nrows ncols
                             /\ w' = mkWorld (rbm w)
                                       (heap w ++ [replicate (Z.to_nat (nrows * ncols))
                                                     (of_int 0)])) w Hr Hc) as Hwp.
  apply wp_ok in Hwp as (m & w' & Hrun & -> & ->); [exact Hrun | split; reflexivity].
Qed.

Lemma new_buffer_ok w rows cols :
  0 <= rows -> 0 <= cols -> mat_ok (with_buffer w rows cols) (new_buffer w rows cols).
Proof.
  intros Hr Hc. eapply emap_ok_intro; simpl; eauto; try lia.
  - apply list_lookup_middle. reflexivity.
  - rewrite length_replicate. lia.
Qed.

Lemma with_buffer_le w rows cols : heap_le no_cell w (with_buffer w rows cols).
Proof. apply heap_le_alloc. Qed.

(** A query called without a buffer runs as if called with the buffer it
    allocates. *)
Lemma free_energy_alloc w (visible buffer : SGMatrix) :
  m_batch_size (rbm w) = num_cols visible -> num_rows buffer = 0 ->
  0 < m_num_hidden (rbm w) -> 0 <= m_batch_size (rbm w) ->
  free_energy visible buffer w
  = free_energy visible (new_buffer w (m_num_hidden (rbm w)) (m_batch_size (rbm w)))
      (with_buffer w (m_num_hidden (rbm w)) (m_batch_size (rbm w))).
Proof.
  intros Hbs Hz Hnh Hb. unfold free_energy.
  rewrite (bind_ok _ _ w tt w) by (apply set_batch_size_same; auto).
  rewrite (bind_ok _ _ (with_buffer _ _ _) tt (with_buffer w (m_num_hidden (rbm w))
                                               (m_batch_size (rbm w))))
    by (apply set_batch_size_same; auto).
  rewrite !bind_get_rbm. cbv beta. rewrite Hz. simpl (0 =? 0).
  cbn [new_buffer num_rows with_buffer rbm].
  destruct (Z.eqb_spec (m_num_hidden (rbm w)) 0) as [Hz' | _]; [lia |].
  rewrite (bind_ok _ _ w _ _
             (SGMatrix_new_ok (m_num_hidden (rbm w)) (m_batch_size (rbm w)) w ltac:(lia) Hb)).
  reflexivity.
Qed.

Lemma reconstruction_error_alloc w (visible buffer : SGMatrix) :
  m_batch_size (rbm w) = num_cols visible -> num_rows buffer = 0 ->
  0 < m_num_visible (rbm w) -> 0 <= m_batch_size (rbm w) ->
  reconstruction_error visible buffer w
  = reconstruction_error visible
      (new_buffer w (m_num_visible (rbm w)) (m_batch_size (rbm w)))
      (with_buffer w (m_num_visible (rbm w)) (m_batch_size (rbm w))).
Proof.
  intros Hbs Hz Hnv Hb. unfold reconstruction_error.
  rewrite (bind_ok _ _ w tt w) by (apply set_batch_size_same; auto).
  rewrite (bind_ok _ _ (with_buffer _ _ _) tt (with_buffer w (m_num_visible (rbm w))
                                               (m_batch_size (rbm w))))
    by (apply set_batch_size_same; auto).
  rewrite !bind_get_rbm. cbv beta. rewrite Hz. simpl (0 =? 0).
  cbn [new_buffer num_rows with_buffer rbm].
  destruct (Z.eqb_spec (m_num_visible (rbm w)) 0) as [Hz' | _]; [lia |].
  rewrite (bind_ok _ _ w _ _
             (SGMatrix_new_ok (m_num_visible (rbm w)) (m_batch_size (rbm w)) w ltac:(lia) Hb)).
  reflexivity.
Qed.

(** The check that opens [pseudo_likelihood] passes on Binary groups and
    changes nothing. *)
Lemma binary_check_passes w :
  registry_ok (rbm w) -> all_binary (rbm w) ->
  for_ 0 (m_num_visible_groups (rbm w)) (fun k =>
    t <- at_ (m_visible_group_types (rbm w)) k ;;
    if is_binary t then ret tt
    else error "Pseudo-likelihood is only supported for binary visible units") w
  = Ok tt w.
Proof.
  intros Hreg Hbin.
  match goal with |- ?c w = _ =>
    assert (wp c (fun _ w' => w' = w) w) as Hwp end.
  { apply (wp_for_inv (fun w' => w' = w)); [reflexivity |].
    intros k w1 Hk ->.
    destruct (registry_group _ k Hreg Hk) as (off & size & t & _ & _ & Ht & _).
    apply wp_bind. eapply wp_at; [exact Ht |].
    assert (is_binary t = true) as ->.
    { unfold lookupZ in Ht. destruct (0 <=? k); [| discriminate].
      unfold all_binary in Hbin. rewrite Forall_lookup in Hbin. exact (Hbin _ _ Ht). }
    apply wp_ret. reflexivity. }
  apply wp_ok in Hwp as ([] & w' & Hrun & ->). exact Hrun.
Qed.

Lemma pseudo_likelihood_alloc w (visible buffer : SGMatrix) :
  registry_ok (rbm w) -> all_binary (rbm w) ->
  m_batch_size (rbm w) = num_cols visible -> num_rows buffer = 0 ->
  0 < m_num_hidden (rbm w) -> 0 <= m_batch_size (rbm w) ->
  pseudo_likelihood visible buffer w
  = pseudo_likelihood visible
      (new_buffer w (m_num_hidden (rbm w)) (m_batch_size (rbm w)))
      (with_buffer w (m_num_hidden (rbm w)) (m_batch_size (rbm w))).
Proof.
  intros Hreg Hbin Hbs Hz Hnh Hb.
  set (w2 := with_buffer w (m_num_hidden (rbm w)) (m_batch_size (rbm w))).
  assert (rbm w2 = rbm w) as Hr by reflexivity.
  unfold pseudo_likelihood. rewrite (bind_get_rbm _ w), (bind_get_rbm _ w2), Hr.
  rewrite (bind_ok _ _ w tt w) by (apply binary_check_passes; assumption).
  rewrite (bind_ok _ _ w2 tt w2)
    by exact (binary_check_passes w2 Hreg Hbin).
  rewrite (bind_ok _ _ w tt w) by (apply set_batch_size_same; auto).
  rewrite (bind_ok _ _ w2 tt w2) by (apply set_batch_size_same; auto).
  rewrite (bind_get_rbm _ w), (bind_get_rbm _ w2), Hr. rewrite Hz. simpl (0 =? 0).
  cbn [new_buffer num_rows].
  destruct (Z.eqb_spec (m_num_hidden (rbm w)) 0) as [Hz' | _]; [lia |].
  rewrite (bind_ok _ _ w _ _
             (SGMatrix_new_ok (m_num_hidden (rbm w)) (m_batch_size (rbm w)) w ltac:(lia) Hb)).
  reflexivity.
Qed.

(** A query that starts by resizing the batch runs the same from the
    resized state. *)
Lemma free_energy_resized w w1 (visible buffer : SGMatrix) :
  set_batch_size (num_cols visible) w = Ok tt w1 ->
  m_batch_size (rbm w1) = num_cols visible ->
  free_energy visible buffer w = free_energy visible buffer w1.
Proof. intros Hrun Hbs. apply bind_set_batch_size_resized; assumption. Qed.

Lemma reconstruction_error_resized w w1 (visible buffer : SGMatrix) :
  set_batch_size (num_cols visible) w = Ok tt w1 ->
  m_batch_size (rbm w1) = num_cols visible ->
  reconstruction_error visible buffer w = reconstruction_error visible buffer w1.
Proof. intros Hrun Hbs. apply bind_set_batch_size_resized; assumption. Qed.

Lemma pseudo_likelihood_resized w w1 g (visible buffer : SGMatrix) :
  registry_ok (rbm w) -> all_binary (rbm w) ->
  set_batch_size (num_cols visible) w = Ok tt w1 ->
  rbm w1 = set_m_prng g (fresh_rbm (num_cols visible) w) ->
  pseudo_likelihood visible buffer w = pseudo_likelihood visible buffer w1.
Proof.
  intros Hreg Hbin Hrun Hr.
  assert (registry_ok (rbm w1)) as Hreg1 by (unfold registry_ok; fresh_rw Hr; exact Hreg).
  assert (all_binary (rbm w1)) as Hbin1 by (unfold all_binary; fresh_rw Hr; exact Hbin).
  unfold pseudo_likelihood. rewrite !bind_get_rbm. cbv beta.
  rewrite (bind_ok _ _ w tt w) by (apply binary_check_passes; assumption).
  rewrite (bind_ok _ _ w1 tt w1) by (apply binary_check_passes; assumption).
  apply bind_set_batch_size_resized; [exact Hrun |]. fresh_rw Hr. reflexivity.
Qed.

(** What [set_batch_size] drew is still there after steps that stay off
    the block of the visible state. *)
Lemma chain_redrawn_kept P w w1 w' g batch_size :
  rbm w1 = set_m_prng g (fresh_rbm batch_size w) ->
  (forall i j, 0 <= i < m_num_visible (rbm w) -> 0 <= j < batch_size ->
     peek w1 (Ptr (S (length (heap w))) 0) (j * m_num_visible (rbm w) + i)
     = Some (b2f (fltb fhalf
                    (draw_at (Z.to_nat (i * batch_size + j)) (m_prng (rbm w)))))) ->
  step P w1 w' ->
  (forall n, ~ P (S (length (heap w))) n) ->
  chain_redrawn w batch_size w'.
Proof.
  intros Hr Hc [Hst Hle] Hout. unfold chain_redrawn. stable_rw Hst. fresh_rw Hr.
  repeat split.
  - apply lookup_ge_None. lia.
  - apply lookup_ge_None. lia.
  - intros i j Hi Hj. simpl. rewrite <- (Hc i j Hi Hj).
    apply (peek_frame P); [exact Hle | rewrite (Hc i j Hi Hj); eexists; reflexivity
                          | apply Hout].
Qed.

Lemma fresh_basic w w1 g batch_size :
  rbm w1 = set_m_prng g (fresh_rbm batch_size w) ->
  m_batch_size (rbm w1) = batch_size
  /\ m_num_hidden (rbm w1) = m_num_hidden (rbm w)
  /\ m_num_visible (rbm w1) = m_num_visible (rbm w)
  /\ hidden_state (rbm w1)
     = mkSGMatrix (Ptr (length (heap w)) 0) (m_num_hidden (rbm w)) batch_size
  /\ visible_state (rbm w1)
     = mkSGMatrix (Ptr (S (length (heap w))) 0) (m_num_visible (rbm w)) batch_size.
Proof. intros Hr. rewrite Hr. simpl. repeat split. Qed.

Lemma block_of_ok w (m : SGMatrix) :
  mat_ok w m -> exists b o, matrix m = Ptr b o /\ (b < length (heap w))%nat.
Proof.
  intros Hok. destruct (emap_ok_inv _ _ Hok) as (b & o & buf & Hp & Hb & _).
  exists b, o. split; [exact Hp |]. eapply lookup_lt_Some. exact Hb.
Qed.

Lemma params_ok_with_buffer w rows cols :
  params_ok w -> params_ok (with_buffer w rows cols).
Proof.
  intros (? & ? & ? & ? & Hpok). repeat split; auto.
  eapply emap_ok_mono; [apply with_buffer_le | exact Hpok].
Qed.

Lemma state_ok_with_buffer w rows cols :
  state_ok w -> state_ok (with_buffer w rows cols).
Proof.
  intros (? & Hh & ? & ? & Hv & ? & ?). repeat split; auto.
  - eapply emap_ok_mono; [apply with_buffer_le | exact Hh].
  - eapply emap_ok_mono; [apply with_buffer_le | exact Hv].
Qed.

Lemma step_with_buffer P w rows cols : step P w (with_buffer w rows cols).
Proof.
  split; [apply rbm_stable_heap |].
  eapply heap_le_weaken; [| apply with_buffer_le]. intros ? ? [].
Qed.

Lemma free_energy_redraws w (visible buffer : SGMatrix) :
  params_ok w -> registry_ok (rbm w) -> 0 < m_num_hidden (rbm w) ->
  mat_ok w visible -> num_rows visible = m_num_visible (rbm w) ->
  num_cols visible <> m_batch_size (rbm w) ->
  buffer_fits w buffer (m_num_hidden (rbm w)) (num_cols visible) ->
  exists x w',
    free_energy visible buffer w = Ok x w' /\ chain_redrawn w (num_cols visible) w'.
Proof.
  intros Hpar Hreg Hnh Hvis Hvrows Hne Hfit.
  destruct (emap_ok_inv _ _ Hvis) as (vb & vo & vbuf & _ & _ & _ & Hbs & _).
  simpl in Hbs.
  destruct (set_batch_size_ready w (num_cols visible) Hpar Hreg ltac:(congruence) Hbs)
    as (w1 & g & Hrun & Hr & Hpar1 & Hstate1 & Hreg1 & Hle & Hc).
  destruct (fresh_basic _ _ _ _ Hr) as (Hbs1 & Hnh1 & Hnv1 & Hhs & Hvs).
  assert (mat_ok w1 visible) as Hvis1 by (eapply emap_ok_mono; [exact Hle | exact Hvis]).
  destruct (block_of_ok _ _ (proj1 (proj2 (proj2 (proj2 (proj2 Hstate1))))))
    as (sb & so & Hsp & Hsb).
  rewrite Hvs in Hsp. simpl in Hsp. inversion Hsp; subst sb so. clear Hsp.
  rewrite (free_energy_resized w w1) by assumption.
  destruct Hfit as [Hz | (Hbuf & Hbrows & Hbcols)].
  - rewrite free_energy_alloc by (try assumption; lia).
    rewrite Hnh1, Hbs1.
    set (w2 := with_buffer w1 (m_num_hidden (rbm w)) (num_cols visible)).
    set (buffer' := new_buffer w1 (m_num_hidden (rbm w)) (num_cols visible)).
    set (P := blocks [length (heap w1)]).
    assert (step P w1 w2) as Hst12.
    { split; [apply rbm_stable_heap |].
      eapply heap_le_weaken; [| apply with_buffer_le]. intros ? ? []. }
    apply wp_ok.
    eapply (free_energy_step P w2 w2 visible buffer' (length (heap w1)) 0);
      [apply step_refl | | exact Hreg1 | simpl; lia
      | eapply emap_ok_mono; [apply Hst12 | exact Hvis1] | simpl; lia | simpl; lia
      | apply new_buffer_ok; lia | simpl; lia | simpl; lia | reflexivity
      | intros; left; reflexivity |].
    + destruct Hpar1 as (? & ? & ? & ? & Hpok). repeat split; auto.
      eapply emap_ok_mono; [apply Hst12 | exact Hpok].
    + intros x w' Hst. eapply (chain_redrawn_kept P w w1); [exact Hr | exact Hc | |].
      * eapply step_trans; [exact Hst12 | exact Hst].
      * intros n Hin. unfold P, blocks in Hin. simpl in Hin. lia.
  - destruct (block_of_ok _ _ Hbuf) as (bb & bo & Hbp & Hbb).
    set (P := blocks [bb]).
    apply wp_ok.
    eapply (free_energy_step P w1 w1 visible buffer bb bo);
      [apply step_refl | exact Hpar1 | exact Hreg1 | lia | exact Hvis1 | lia | lia
      | eapply emap_ok_mono; [exact Hle | exact Hbuf] | lia | lia | exact Hbp
      | intros; left; reflexivity |].
    intros x w' Hst. eapply (chain_redrawn_kept P w w1); [exact Hr | exact Hc | exact Hst |].
    intros n Hin. unfold P, blocks in Hin. simpl in Hin. lia.
Qed.

Lemma reconstruction_error_redraws w (visible buffer : SGMatrix) :
  params_ok w -> registry_ok (rbm w) -> softmax_ok_at (rbm w) (num_cols visible) ->
  0 < m_num_visible (rbm w) ->
  mat_ok w visible -> num_rows visible = m_num_visible (rbm w) ->
  num_cols visible <> m_batch_size (rbm w) ->
  buffer_fits w buffer (m_num_visible (rbm w)) (num_cols visible) ->
  exists x w',
    reconstruction_error visible buffer w = Ok x w'
    /\ chain_redrawn w (num_cols visible) w'.
Proof.
  intros Hpar Hreg Hsoft Hnv Hvis Hvrows Hne Hfit.
  destruct (emap_ok_inv _ _ Hvis) as (vb & vo & vbuf & _ & _ & _ & Hbs & _).
  simpl in Hbs.
  destruct (set_batch_size_ready w (num_cols visible) Hpar Hreg ltac:(congruence) Hbs)
    as (w1 & g & Hrun & Hr & Hpar1 & Hstate1 & Hreg1 & Hle & Hc).
  destruct (fresh_basic _ _ _ _ Hr) as (Hbs1 & Hnh1 & Hnv1 & Hhs & Hvs).
  assert (mat_ok w1 visible) as Hvis1 by (eapply emap_ok_mono; [exact Hle | exact Hvis]).
  assert (softmax_ok (rbm w1)) as Hsoft1.
  { intros k s Ht Hs. rewrite Hr in Ht, Hs. simpl in Ht, Hs. rewrite Hbs1.
    exact (Hsoft k s Ht Hs). }
  destruct (block_of_ok _ _ (proj1 (proj2 (proj2 (proj2 (proj2 Hstate1))))))
    as (sb & so & Hsp & Hsb).
  rewrite Hvs in Hsp. simpl in Hsp. inversion Hsp; subst sb so. clear Hsp.
  assert (matrix (hidden_state (rbm w1)) = Ptr (length (heap w)) 0) as Hhp
    by (rewrite Hhs; reflexivity).
  rewrite (reconstruction_error_resized w w1) by assumption.
  destruct Hfit as [Hz | (Hbuf & Hbrows & Hbcols)].
  - rewrite reconstruction_error_alloc by (try assumption; lia).
    rewrite Hnv1, Hbs1.
    set (w2 := with_buffer w1 (m_num_visible (rbm w)) (num_cols visible)).
    set (buffer' := new_buffer w1 (m_num_visible (rbm w)) (num_cols visible)).
    set (P := blocks [length (heap w1); length (heap w)]).
    apply wp_ok.
    eapply (reconstruction_error_step P w2 w2 visible buffer' (length (heap w)) 0
              (length (heap w1)) 0);
      [apply step_refl | apply params_ok_with_buffer; exact Hpar1
      | apply state_ok_with_buffer; exact Hstate1 | exact Hreg1 | exact Hsoft1
      | eapply emap_ok_mono; [apply with_buffer_le | exact Hvis1] | simpl; lia
      | simpl; lia | apply new_buffer_ok; lia | simpl; lia | simpl; lia | simpl; lia
      | reflexivity | exact Hhp | intros; left; reflexivity
      | intros; right; left; reflexivity |].
    intros x w' Hst. eapply (chain_redrawn_kept P w w1); [exact Hr | exact Hc | |].
    + eapply step_trans; [apply step_with_buffer | exact Hst].
    + intros n Hin. unfold P, blocks in Hin. simpl in Hin. lia.
  - destruct (block_of_ok _ _ Hbuf) as (bb & bo & Hbp & Hbb).
    set (P := blocks [bb; length (heap w)]).
    apply wp_ok.
    eapply (reconstruction_error_step P w1 w1 visible buffer (length (heap w)) 0 bb bo);
      [apply step_refl | exact Hpar1 | exact Hstate1 | exact Hreg1 | exact Hsoft1
      | exact Hvis1 | lia | lia | eapply emap_ok_mono; [exact Hle | exact Hbuf]
      | lia | lia | lia | exact Hbp | exact Hhp | intros; left; reflexivity
      | intros; right; left; reflexivity |].
    intros x w' Hst. eapply (chain_redrawn_kept P w w1); [exact Hr | exact Hc | exact Hst |].
    intros n Hin. unfold P, blocks in Hin. simpl in Hin. lia.
Qed.

Lemma pseudo_likelihood_redraws w (visible buffer : SGMatrix) :
  params_ok w -> registry_ok (rbm w) -> all_binary (rbm w) ->
  0 < m_num_hidden (rbm w) -> 0 < m_num_visible (rbm w) ->
  mat_ok w visible -> num_rows visible = m_num_visible (rbm w) ->
  num_cols visible <> m_batch_size (rbm w) ->
  buffer_fits w buffer (m_num_hidden (rbm w)) (num_cols visible) ->
  exists x w',
    pseudo_likelihood visible buffer w = Ok x w'
    /\ chain_redrawn w (num_cols visible) w'.
Proof.
  intros Hpar Hreg Hbin Hnh Hnv Hvis Hvrows Hne Hfit.
  destruct (emap_ok_inv _ _ Hvis) as (vb' & vo' & vbuf & _ & _ & _ & Hbs & _).
  simpl in Hbs.
  destruct (set_batch_size_ready w (num_cols visible) Hpar Hreg ltac:(congruence) Hbs)
    as (w1 & g & Hrun & Hr & Hpar1 & Hstate1 & Hreg1 & Hle & Hc).
  destruct (fresh_basic _ _ _ _ Hr) as (Hbs1 & Hnh1 & Hnv1 & Hhs & Hvs).
  assert (mat_ok w1 visible) as Hvis1 by (eapply emap_ok_mono; [exact Hle | exact Hvis]).
  assert (all_binary (rbm w1)) as Hbin1.
  { unfold all_binary. rewrite Hr. simpl. exact Hbin. }
  destruct (block_of_ok _ _ (proj1 (proj2 (proj2 (proj2 (proj2 Hstate1))))))
    as (sb & so & Hsp & Hsb).
  rewrite Hvs in Hsp. simpl in Hsp. inversion Hsp; subst sb so. clear Hsp.
  destruct (block_of_ok _ _ Hvis) as (vb & vo & Hvp & Hvb).
  rewrite (pseudo_likelihood_resized w w1 g) by assumption.
  destruct Hfit as [Hz | (Hbuf & Hbrows & Hbcols)].
  - rewrite pseudo_likelihood_alloc by (try assumption; lia).
    rewrite Hnh1, Hbs1.
    set (w2 := with_buffer w1 (m_num_hidden (rbm w)) (num_cols visible)).
    set (buffer' := new_buffer w1 (m_num_hidden (rbm w)) (num_cols visible)).
    set (P := blocks [length (heap w1); vb]).
    apply wp_ok.
    eapply (pseudo_likelihood_step P w2 w2 visible buffer' vb vo (length (heap w1)) 0);
      [apply step_refl | apply params_ok_with_buffer; exact Hpar1 | exact Hreg1
      | exact Hbin1 | simpl; lia | simpl; lia
      | eapply emap_ok_mono; [apply with_buffer_le | exact Hvis1] | simpl; lia
      | simpl; lia | apply new_buffer_ok; lia | simpl; lia | simpl; lia
      | reflexivity | exact Hvp | intros; left; reflexivity
      | intros; right; left; reflexivity |].
    intros x w' Hst. eapply (chain_redrawn_kept P w w1); [exact Hr | exact Hc | |].
    + eapply step_trans; [apply step_with_buffer | exact Hst].
    + intros n Hin. unfold P, blocks in Hin. simpl in Hin. lia.
  - destruct (block_of_ok _ _ Hbuf) as (bb & bo & Hbp & Hbb).
    set (P := blocks [bb; vb]).
    apply wp_ok.
    eapply (pseudo_likelihood_step P w1 w1 visible buffer vb vo bb bo);
      [apply step_refl | exact Hpar1 | exact Hreg1 | exact Hbin1 | lia | lia
      | exact Hvis1 | lia | lia | eapply emap_ok_mono; [exact Hle | exact Hbuf]
      | lia | lia | exact Hbp | exact Hvp | intros; left; reflexivity
      | intros; right; left; reflexivity |].
    intros x w' Hst. eapply (chain_redrawn_kept P w w1); [exact Hr | exact Hc | exact Hst |].
    intros n Hin. unfold P, blocks in Hin. simpl in Hin. lia.
Qed.

End ChainReset.

Section QueriesRedraw.

Context {F : Type} {AF : Arith F} {LF : Libm F} {G : Type} {RE : RandomEngine G F}.
Context {RES : RandomEngineSpec G F}.

#[local] Abbreviation World := (World F G).

Implicit Types (w : World).

(** C10, amended. On a machine with at least one hidden and one visible
    unit, called with an input of [num_visible] rows whose column count
    differs from the current batch size: [free_energy] and
    [reconstruction_error] return with [m_batch_size] set to that column
    count, the hidden and the visible state on storage that did not exist
    before the call, and every entry of the visible chain set from a fresh
    uniform draw; [pseudo_likelihood] does the same provided every visible
    group is Binary, which it checks before it resizes. *)
Theorem queries_redraw_chain w (visible buffer : SGMatrix) :
  params_ok w -> registry_ok (rbm w) ->
  0 < m_num_hidden (rbm w) -> 0 < m_num_visible (rbm w) ->
  mat_ok w visible -> num_rows visible = m_num_visible (rbm w) ->
  num_cols visible <> m_batch_size (rbm w) ->
  (buffer_fits w buffer (m_num_hidden (rbm w)) (num_cols visible) ->
   exists x w',
     free_energy visible buffer w = Ok x w' /\ chain_redrawn w (num_cols visible) w')
  /\ (softmax_ok_at (rbm w) (num_cols visible) ->
      buffer_fits w buffer (m_num_visible (rbm w)) (num_cols visible) ->
      exists x w',
        reconstruction_error visible buffer w = Ok x w'
        /\ chain_redrawn w (num_cols visible) w')
  /\ (all_binary (rbm w) ->
      buffer_fits w buffer (m_num_hidden (rbm w)) (num_cols visible) ->
      exists x w',
        pseudo_likelihood visible buffer w = Ok x w'
        /\ chain_redrawn w (num_cols visible) w').
Proof.
  intros Hpar Hreg Hnh Hnv Hvis Hvrows Hne. split; [| split].
  - intros Hfit. apply free_energy_redraws; assumption.
  - intros Hsoft Hfit. apply reconstruction_error_redraws; assumption.
  - intros Hbin Hfit. apply pseudo_likelihood_redraws; assumption.
Qed.

End QueriesRedraw.

#[global] Instance Tape_engine_spec {F : Type} `{Arith F} : RandomEngineSpec (Tape F) F.
Proof.
  constructor. intros a b g Hab. simpl. unfold tape_int.
  destruct (ints g); simpl; lia.
Qed.

(** C10 on the machine [with_evidence], whose batch size is 0, queried with
    an input of two columns and no buffer: each query leaves the visible
    state in the new block 3, one row by two columns. *)
Lemma queries_redraw_chain_witness :
  (exists x w',
     free_energy flat_evidence SGMatrix_empty with_evidence = Ok x w'
     /\ visible_state (rbm w') = mkSGMatrix (Ptr 3 0) 1 2)
  /\ (exists x w',
        reconstruction_error flat_evidence SGMatrix_empty with_evidence = Ok x w'
        /\ visible_state (rbm w') = mkSGMatrix (Ptr 3 0) 1 2)
  /\ (exists x w',
        pseudo_likelihood flat_evidence SGMatrix_empty with_evidence = Ok x w'
        /\ visible_state (rbm w') = mkSGMatrix (Ptr 3 0) 1 2).
Proof.
  destruct (queries_redraw_chain with_evidence flat_evidence SGMatrix_empty)
    as (Hfe & Hre & Hpl).
  - exact with_evidence_params.
  - exact with_evidence_registry.
  - simpl. lia.
  - simpl. lia.
  - reflexivity.
  - reflexivity.
  - simpl. discriminate.
  - split; [| split].
    + destruct Hfe as (x & w' & Hrun & _ & _ & Hv & _); [left; reflexivity |].
      exists x, w'. split; [exact Hrun | exact Hv].
    + destruct Hre as (x & w' & Hrun & _ & _ & Hv & _);
        [apply with_evidence_softmax | left; reflexivity |].
      exists x, w'. split; [exact Hrun | exact Hv].
    + destruct Hpl as (x & w' & Hrun & _ & _ & Hv & _);
        [repeat constructor | left; reflexivity |].
      exists x, w'. split; [exact Hrun | exact Hv].
Defined.

(** C10 fails as stated for [pseudo_likelihood]: on a well-formed machine
    with a Softmax group, an input whose column count differs from the
    batch size raises the fatal error of the group check, which comes before
    [set_batch_size]; the machine is left as it was, batch state included. *)
Lemma pseudo_likelihood_counterexample :
  params_ok softmax_machine /\ registry_ok (rbm softmax_machine)
  /\ mat_ok softmax_machine one_hot
  /\ num_rows one_hot = m_num_visible (rbm softmax_machine)
  /\ num_cols one_hot <> m_batch_size (rbm softmax_machine)
  /\ pseudo_likelihood one_hot SGMatrix_empty softmax_machine
     = Fatal "Pseudo-likelihood is only supported for binary visible units" []
         softmax_machine.
Proof.
  split; [unfold params_ok; simpl; repeat split; lia |].
  split; [unfold registry_ok; simpl; repeat split; auto; repeat constructor; lia |].
  split; [reflexivity |]. split; [reflexivity |]. split; [simpl; discriminate |].
  reflexivity.
Qed.

(** * The parameter update of a mini-batch (C3) *)

Section Momentum.

Context {F : Type} {AF : Arith F} {LF : Libm F} {G : Type} {RE : RandomEngine G F}.
Context {RES : RandomEngineSpec G F}.

#[local] Open Scope M_scope.

#[local] Abbreviation RBM := (RBM F G).
#[local] Abbreviation World := (World F G).
#[local] Abbreviation M := (M F G).

Implicit Types (w : World) (r : RBM) (P : footprint) (fr : TrainFrame).

(** Well-formedness survives steps: they keep every field but the random
    engine, and the length of every block. *)
Lemma params_ok_step P w w' : step P w w' -> params_ok w -> params_ok w'.
Proof.
  intros [Hr Hle] (? & ? & ? & ? & Hpok). unfold params_ok. stable_rw Hr.
  repeat split; auto. eapply emap_ok_mono; [exact Hle | exact Hpok].
Qed.


Lemma registry_ok_step P w w' :
  step P w w' -> registry_ok (rbm w) -> registry_ok (rbm w').
Proof. intros [Hr _] H. unfold registry_ok. stable_rw Hr. exact H. Qed.

Lemma softmax_ok_step P w w' : step P w w' -> softmax_ok (rbm w) -> softmax_ok (rbm w').
Proof. intros [Hr _] H. unfold softmax_ok. stable_rw Hr. exact H. Qed.








(** The storage of a well-formed vector or matrix. *)
Lemma vec_block w (v : SGVector) :
  vec_ok w v -> exists o, vector v = Ptr (block (vector v)) o.
Proof.
  intros Hok. destruct (emap_ok_inv _ _ Hok) as (b & o & buf & Hp & _).
  simpl in Hp. rewrite Hp. exists o. reflexivity.
Qed.

Lemma mat_block w (m : SGMatrix) :
  mat_ok w m -> exists o, matrix m = Ptr (block (matrix m)) o.
Proof.
  intros Hok. destruct (emap_ok_inv _ _ Hok) as (b & o & buf & Hp & _).
  simpl in Hp. rewrite Hp. exists o. reflexivity.
Qed.





End Momentum.


(** * Values of mapped matrices *)

Section Content.

Context {F : Type} {AF : Arith F} {G : Type} {RE : RandomEngine G F}.

#[local] Open Scope M_scope.

#[local] Abbreviation RBM := (RBM F G).
#[local] Abbreviation World := (World F G).
#[local] Abbreviation M := (M F G).

Implicit Types (w : World) (r : RBM) (P : footprint) (m dst : EMap).

Lemma fsum_from_snoc n : forall k (f : Z -> F) acc,
  fsum_from (S n) k f acc = fadd (fsum_from n k f acc) (f (k + Z.of_nat n)).
Proof.
  induction n as [| n IH]; intros k f acc.
  - simpl. rewrite Z.add_0_r. reflexivity.
  - change (fsum_from (S (S n)) k f acc) with (fsum_from (S n) (k + 1) f (fadd acc (f k))).
    rewrite IH. simpl. f_equal. f_equal. lia.
Qed.

Lemma fsum_succ n (f : Z -> F) : 0 <= n -> fsum (n + 1) f = fadd (fsum n f) (f n).
Proof.
  intros Hn. unfold fsum. replace (Z.to_nat (n + 1)) with (S (Z.to_nat n)) by lia.
  rewrite fsum_from_snoc. f_equal. f_equal. lia.
Qed.

Lemma fsum_from_ext n : forall k (f g : Z -> F) acc,
  (forall i, k <= i < k + Z.of_nat n -> f i = g i) ->
  fsum_from n k f acc = fsum_from n k g acc.
Proof.
  induction n as [| n IH]; intros k f g acc Heq; [reflexivity |].
  simpl. rewrite (Heq k) by lia. apply IH. intros i Hi. apply Heq. lia.
Qed.

Lemma fsum_ext n (f g : Z -> F) :
  (forall i, 0 <= i < n -> f i = g i) -> fsum n f = fsum n g.
Proof. intros Heq. unfold fsum. apply fsum_from_ext. intros i Hi. apply Heq. lia. Qed.

(** A coefficient of a map that was just assigned. *)
Lemma eget_write_map w dst (f : Z -> Z -> F) i j :
  emap_ok w dst = true -> 0 <= i < e_rows dst -> 0 <= j < e_cols dst ->
  eget (write_map w dst f) dst i j = f i j.
Proof.
  intros Hok Hi Hj.
  destruct (emap_ok_inv _ _ Hok) as (b & o & buf & Hp & Hb & Hr & Hc & Ho & Hl).
  unfold eget, write_map, peek. rewrite Hp, Hb. simpl.
  rewrite list_lookup_insert_eq by (eapply lookup_lt_Some; eauto).
  unfold lookupZ. destruct (Z.leb_spec 0 (o + (j * e_rows dst + i))); [| nia].
  unfold fill_block. rewrite list_lookup_imap.
  destruct (lookup_lt_is_Some_2 buf (Z.to_nat (o + (j * e_rows dst + i)))) as [x ->];
    [nia |].
  simpl. replace (Z.of_nat (Z.to_nat (o + (j * e_rows dst + i))) - o)
    with (j * e_rows dst + i) by lia.
  destruct (Z.leb_spec 0 (j * e_rows dst + i)); [| nia].
  destruct (Z.ltb_spec (j * e_rows dst + i) (e_rows dst * e_cols dst)); [| nia].
  simpl. f_equal.
  - rewrite Z.add_comm, Z_mod_plus_full. apply Z.mod_small. lia.
  - rewrite Z.add_comm, Z.div_add by lia. rewrite Z.div_small by lia. reflexivity.
Qed.

(** A coefficient of a map that a step left alone. *)
Lemma eget_frame P w w' m i j b o :
  heap_le P w w' -> emap_ok w m = true -> e_ptr m = Ptr b o ->
  0 <= i < e_rows m -> 0 <= j < e_cols m ->
  (forall n, ~ P b n) ->
  eget w' m i j = eget w m i j.
Proof.
  intros Hle Hok Hp Hi Hj Hout. unfold eget. rewrite Hp. f_equal.
  apply (peek_frame P); [exact Hle | | apply Hout].
  rewrite <- Hp. apply peek_in_map; [exact Hok | nia].
Qed.

(** What a load returns, in terms of [eget]. *)
Lemma peek_eget w m k x :
  peek w (e_ptr m) k = Some x -> default f0 (peek w (e_ptr m) k) = x.
Proof. intros ->. reflexivity. Qed.

End Content.

(** * Sums of reals *)

Lemma Rsum_succ n f : 0 <= n -> Rsum (n + 1) f = (Rsum n f + f n)%R.
Proof.
  intros Hn. unfold Rsum. replace (Z.to_nat (n + 1)) with (S (Z.to_nat n)) by lia.
  simpl. rewrite Z2Nat.id by exact Hn. reflexivity.
Qed.

Lemma Rsum_empty n f : n <= 0 -> Rsum n f = 0%R.
Proof. intros Hn. unfold Rsum. replace (Z.to_nat n) with O by lia. reflexivity. Qed.

Lemma Rsum_nat_ext n f g :
  (forall i, 0 <= i < Z.of_nat n -> f i = g i) -> Rsum_nat n f = Rsum_nat n g.
Proof.
  induction n as [| n IH]; intros Heq; [reflexivity |].
  simpl. rewrite IH by (intros i Hi; apply Heq; lia). rewrite Heq by lia. reflexivity.
Qed.

Lemma Rsum_ext n f g : (forall i, 0 <= i < n -> f i = g i) -> Rsum n f = Rsum n g.
Proof. intros Heq. apply Rsum_nat_ext. intros i Hi. apply Heq. lia. Qed.

Lemma Rsum_plus n f g : Rsum n (fun i => (f i + g i)%R) = (Rsum n f + Rsum n g)%R.
Proof.
  unfold Rsum. induction (Z.to_nat n) as [| k IH]; simpl; [ring |]. rewrite IH. ring.
Qed.

Lemma Rsum_scal n c f : Rsum n (fun i => (c * f i)%R) = (c * Rsum n f)%R.
Proof.
  unfold Rsum. induction (Z.to_nat n) as [| k IH]; simpl; [ring |]. rewrite IH. ring.
Qed.

Lemma Rsum_div n c f : Rsum n (fun i => (f i / c)%R) = (Rsum n f / c)%R.
Proof.
  unfold Rsum, Rdiv. induction (Z.to_nat n) as [| k IH]; simpl; [ring |]. rewrite IH. ring.
Qed.

Lemma Rsum_zero n : Rsum n (fun _ => 0%R) = 0%R.
Proof. unfold Rsum. induction (Z.to_nat n) as [| k IH]; simpl; [ring |]. rewrite IH. ring. Qed.

Lemma Rsum_exchange n m (f : Z -> Z -> R) :
  Rsum n (fun i => Rsum m (fun j => f i j)) = Rsum m (fun j => Rsum n (fun i => f i j)).
Proof.
  unfold Rsum. induction (Z.to_nat n) as [| k IH]; simpl.
  - symmetry. apply (Rsum_zero m).
  - rewrite IH. symmetry. apply (Rsum_plus m).
Qed.



(** The sums of the model are these sums when the scalars are reals. *)
Lemma fsum_Rsum n (f : Z -> R) : fsum n f = Rsum n f.
Proof.
  destruct (Z_le_gt_dec 0 n) as [Hn | Hn].
  - pattern n. apply natlike_ind; [reflexivity | | exact Hn].
    intros k Hk IH. change (Z.succ k) with (k + 1).
    rewrite fsum_succ, Rsum_succ, IH by exact Hk. reflexivity.
  - rewrite Rsum_empty by lia. unfold fsum. replace (Z.to_nat n) with O by lia.
    reflexivity.
Qed.

Section RealLoops.

Context {G : Type} {RE : RandomEngine G R}.

#[local] Open Scope M_scope.

#[local] Abbreviation World := (World R G).
#[local] Abbreviation M := (M R G).

Implicit Types (w : World).

(** A loop that adds [g k] to its accumulator in round [k] and leaves the
    state alone. *)
Lemma wp_sum_loop w n (body : Z -> R -> M R) (g : Z -> R) (a : R) :
  (forall k a, 0 <= k < n ->
     wp (body k a) (fun a' w' => w' = w /\ a' = (a + g k)%R) w) ->
  wp (fold_for 0 n body a) (fun a' w' => w' = w /\ a' = (a + Rsum n g)%R) w.
Proof.
  intros Hbody. destruct (Z_le_gt_dec 0 n) as [Hn | Hn].
  - apply (wp_fold_for (fun k a' w' => w' = w /\ a' = (a + Rsum k g)%R));
      [exact Hn | | | auto].
    + split; [reflexivity |]. rewrite Rsum_empty by lia. ring.
    + intros k a' w' Hk [-> ->]. eapply wp_mono; [apply Hbody; exact Hk |].
      intros a'' w'' [-> ->]. split; [reflexivity |].
      rewrite Rsum_succ by lia. ring.
  - unfold wp. rewrite fold_for_empty by lia. split; [reflexivity |].
    rewrite Rsum_empty by lia. ring.
Qed.

End RealLoops.

(** * The free energy (C4) *)

Section FreeEnergy.

Context {G : Type} {RE : RandomEngine G R}.

#[local] Open Scope M_scope.

#[local] Abbreviation RBM := (RBM R G).
#[local] Abbreviation World := (World R G).
#[local] Abbreviation M := (M R G).

Implicit Types (w : World) (r : RBM) (P : footprint).

Lemma powerRZ_2 (x : R) : powerRZ x 2 = (x ^ 2)%R.
Proof. reflexivity. Qed.

(** [free_energy] with a buffer of its own returns the formula. *)
Lemma free_energy_value_buffer w (visible buffer : SGMatrix) pb po vb vo bb bo :
  params_ok w -> registry_ok (rbm w) -> 0 < m_num_hidden (rbm w) ->
  mat_ok w visible -> num_rows visible = m_num_visible (rbm w) ->
  num_cols visible = m_batch_size (rbm w) ->
  mat_ok w buffer -> num_rows buffer = m_num_hidden (rbm w) ->
  num_cols buffer = m_batch_size (rbm w) ->
  vector (m_params (rbm w)) = Ptr pb po -> matrix visible = Ptr vb vo ->
  matrix buffer = Ptr bb bo -> bb <> pb -> bb <> vb ->
  wp (free_energy visible buffer)
    (fun x w' => x = free_energy_formula w visible /\ step (blocks [bb]) w w') w.
Proof.
  intros Hpar Hreg Hnh Hvis Hvrows Hvcols Hbuf Hbrows Hbcols Hpp Hvp Hbp Hbpn Hbvn.
  pose proof Hpar as (Hnv & _ & Hlen & _ & Hpok).
  destruct (emap_ok_inv _ _ Hvis) as (vb' & vo' & vbuf & _ & _ & _ & Hbs & _).
  simpl in Hbs. rewrite Hvcols in Hbs.
  set (P := blocks [bb]).
  assert (forall n, ~ P pb n) as Hoffp.
  { intros n Hin. unfold P, blocks in Hin. simpl in Hin. intuition congruence. }
  assert (forall n, ~ P vb n) as Hoffv.
  { intros n Hin. unfold P, blocks in Hin. simpl in Hin. intuition congruence. }
  unfold free_energy_formula, gaussian_term, weights_at, visible_bias_at, hidden_bias_at,
    entry.
  unfold free_energy. apply wp_bind.
  apply wp_set_batch_size_same; [auto |].
  apply wp_bind, wp_get_rbm. apply wp_bind.
  destruct (Z.eqb_spec (num_rows buffer) 0) as [Hz | _]; [lia |].
  apply wp_ret.
  unfold get_weights, get_visible_bias, get_hidden_bias, mat_map, vec_map.
  cbn [vlen SGVector_empty Z.eqb vector matrix num_rows num_cols].
  rewrite Hpp, Hvp, Hbp. cbn [ptr_add].
  set (nv := m_num_visible (rbm w)) in *. set (nh := m_num_hidden (rbm w)) in *.
  set (bs := m_batch_size (rbm w)) in *.
  rewrite Hvrows, Hvcols.
  set (V := EMatrix (Ptr vb vo) nv bs).
  set (W := EMatrix (Ptr pb (po + nv)) nh nv).
  set (B := EVector (Ptr pb po) nv).
  set (C := EVector (Ptr pb (po + (nv + nv * nh))) nh).
  set (BV := EVector (Ptr bb bo) bs).
  set (WV := EMatrix (Ptr bb bo) nh bs).
  assert (emap_ok w V = true) as HV.
  { unfold mat_ok, mat_map in Hvis. rewrite Hvp, Hvrows, Hvcols in Hvis. exact Hvis. }
  assert (emap_ok w W = true) as HW.
  { pose proof (weights_ok w Hpar) as H. rewrite Hpp in H. exact H. }
  assert (emap_ok w B = true) as HB.
  { pose proof (visible_bias_ok w Hpar) as H. rewrite Hpp in H. exact H. }
  assert (emap_ok w C = true) as HC.
  { pose proof (hidden_bias_ok w Hpar) as H. rewrite Hpp in H. exact H. }
  assert (emap_ok w BV = true) as HBV.
  { pose proof (buffer_view_ok w buffer bs 1 Hbuf) as H. rewrite Hbp in H. apply H;
      [lia | lia | rewrite Hbrows, Hbcols; fold nh bs; nia]. }
  assert (emap_ok w WV = true) as HWV.
  { pose proof (buffer_view_ok w buffer nh bs Hbuf) as H. rewrite Hbp in H. apply H;
      [lia | lia | rewrite Hbrows, Hbcols; fold nh bs; lia]. }
  assert (forall d, 0 <= d < nh * bs -> P bb (Z.to_nat (bo + d))) as Hfoot
    by (intros; left; reflexivity).
  assert (forall d, 0 <= d < bs * 1 -> P bb (Z.to_nat (bo + d))) as HfB
    by (intros; left; reflexivity).
  (* bv_buffer = B.transpose()*V *)
  apply wp_bind.
  eapply (wp_eigen_assign_step P w w); [apply step_refl | | | reflexivity | exact HfB |].
  { simpl. rewrite !Z.eqb_refl. reflexivity. }
  { repeat constructor; assumption. }
  set (w1 := write_map w BV _). intros Hst1. apply wp_bind.
  eapply (wp_eigen_eval_step P w); [exact Hst1 | repeat constructor; exact HBV |].
  set (bv_term := fsum (e_rows BV) _).
  (* wv_buffer.colwise() = C *)
  apply wp_bind.
  eapply (wp_eigen_assign_step P w); [exact Hst1 | | | reflexivity | exact Hfoot |].
  { simpl. apply Z.eqb_refl. }
  { repeat constructor; assumption. }
  set (w2 := write_map w1 WV _). intros Hst2. apply wp_bind.
  (* wv_buffer += W*V *)
  eapply (wp_eigen_assign_step P w); [exact Hst2 | | | reflexivity | exact Hfoot |].
  { simpl. rewrite !Z.eqb_refl. reflexivity. }
  { repeat constructor; assumption. }
  set (w3 := write_map w2 WV _). intros Hst3.
  (* what the buffer holds *)
  assert (bv_term
          = Rsum nv (fun i => eget w B i 0 * Rsum bs (fun j => eget w V i j))%R) as Hbv.
  { unfold bv_term. cbn [e_rows BV EVector]. rewrite fsum_Rsum.
    rewrite (Rsum_ext bs _ (fun j => Rsum nv (fun k => eget w B k 0 * eget w V k j)%R)).
    - rewrite Rsum_exchange. apply Rsum_ext. intros i Hi. apply Rsum_scal.
    - intros j Hj. unfold w1. rewrite eget_write_map by (try exact HBV; simpl; lia).
      unfold e_tmul. rewrite fsum_Rsum. reflexivity. }
  assert (forall i j, 0 <= i < nh -> 0 <= j < bs ->
            eget w3 WV i j
            = (eget w C i 0 + Rsum nv (fun k => eget w W i k * eget w V k j))%R) as Hwv.
  { intros i j Hi Hj. unfold w3.
    rewrite eget_write_map
      by (try (eapply emap_ok_mono; [apply Hst2 | exact HWV]); simpl; lia).
    unfold w2 at 1.
    rewrite eget_write_map
      by (try (eapply emap_ok_mono; [apply Hst1 | exact HWV]); simpl; lia).
    rewrite (eget_frame P w w1 C i 0 pb (po + (nv + nv * nh)))
      by (try apply Hst1; try exact HC; try reflexivity; try exact Hoffp; simpl; lia).
    simpl. f_equal. unfold e_mul. rewrite fsum_Rsum. apply Rsum_ext. intros k Hk.
    simpl in Hk.
    rewrite (eget_frame P w w2 W i k pb (po + nv))
      by (try apply Hst2; try exact HW; try reflexivity; try exact Hoffp; simpl; lia).
    rewrite (eget_frame P w w2 V k j vb vo)
      by (try apply Hst2; try exact HV; try reflexivity; try exact Hoffv; simpl; lia).
    reflexivity. }
  clearbody w1 w2 w3 bv_term.
  (* the sum of the softplus terms *)
  apply wp_bind. eapply wp_mono.
  { apply (wp_sum_loop w3 nh _
             (fun i => Rsum bs (fun j =>
                ln (1 + exp (eget w C i 0
                             + Rsum nv (fun k => eget w W i k * eget w V k j))))%R)).
    intros i a Hi.
    apply (wp_sum_loop w3 bs _
             (fun j => ln (1 + exp (eget w C i 0
                                    + Rsum nv (fun k => eget w W i k * eget w V k j))))%R).
    intros j a' Hj. apply wp_bind. unfold emap_get.
    destruct (peek_in_map w3 WV (j * e_rows WV + i)) as [x Hx];
      [eapply emap_ok_mono; [apply Hst3 | exact HWV] | simpl; nia |].
    eapply wp_load; [exact Hx |]. apply wp_ret. split; [reflexivity |].
    rewrite <- (Hwv i j Hi Hj). unfold eget. rewrite Hx. reflexivity. }
  intros wv_term w4 [-> ->]. cbv beta.
  (* the Gaussian groups *)
  eapply wp_mono.
  { apply (wp_sum_loop w3 (m_num_visible_groups (rbm w)) _
             (fun k =>
                match lookupZ (m_visible_group_types (rbm w)) k,
                      lookupZ (m_visible_state_offsets (rbm w)) k,
                      lookupZ (m_visible_group_sizes (rbm w)) k with
                | Some RBMVUT_GAUSSIAN, Some offset, Some size =>
                    (1 / 2 * Rsum size (fun i =>
                               Rsum bs (fun j => eget w V (i + offset) j ^ 2))
                     / IZR bs)%R
                | _, _, _ => 0%R
                end)).
    intros k a Hk.
    destruct (registry_group _ k Hreg Hk) as (off & size & t & Hoff & Hsz & Ht & ? & ? & ?).
    rewrite Ht, Hoff, Hsz.
    apply wp_bind. eapply wp_at; [exact Ht |].
    destruct t; cbn [is_gaussian]; try (apply wp_ret; split; [reflexivity | ring]).
    apply wp_bind. eapply wp_at; [exact Hoff |].
    apply wp_bind. eapply wp_at; [exact Hsz |].
    eapply wp_mono.
    { apply (wp_sum_loop w3 size _
               (fun i => Rsum bs (fun j =>
                  (1 / 2 * eget w V (i + off) j ^ 2 / IZR bs))%R)).
      intros i a1 Hi.
      apply (wp_sum_loop w3 bs _
               (fun j => (1 / 2 * eget w V (i + off) j ^ 2 / IZR bs))%R).
      intros j a2 Hj. apply wp_bind. unfold mat_get. rewrite Hvp, Hvrows.
      destruct (peek_in_map w3 V (j * nv + (i + off))) as [x Hx];
        [eapply emap_ok_mono; [apply Hst3 | exact HV] | simpl; fold nv in H1; nia |].
      eapply wp_load; [exact Hx |]. apply wp_ret. split; [reflexivity |].
      rewrite <- (eget_frame P w w3 V (i + off) j vb vo)
        by (try apply Hst3; try exact HV; try reflexivity; try exact Hoffv;
            simpl; fold nv in H1; lia).
      unfold eget. cbn [e_ptr e_rows V EMatrix] in *. rewrite Hx. reflexivity. }
    intros a' w' [-> ->]. split; [reflexivity |]. f_equal.
    rewrite (Rsum_ext size _
               (fun i => (1 / 2 * Rsum bs (fun j => eget w V (i + off) j ^ 2) / IZR bs)%R)).
    - rewrite Rsum_div, Rsum_scal. reflexivity.
    - intros i Hi. rewrite Rsum_div. unfold Rdiv. rewrite Rsum_scal. reflexivity. }
  intros x w' [-> ->]. split; [| exact Hst3].
  rewrite Hbv. simpl. unfold Rdiv. ring.
Qed.

Lemma eget_with_buffer w rows cols (m : EMap) i j b o :
  e_ptr m = Ptr b o -> (b < length (heap w))%nat ->
  eget (with_buffer w rows cols) m i j = eget w m i j.
Proof.
  intros Hp Hb. unfold eget, peek, with_buffer. rewrite Hp. simpl.
  rewrite lookup_app_l by exact Hb. reflexivity.
Qed.

(** Allocating the buffer does not change the formula. *)
Lemma free_energy_formula_with_buffer w (visible : SGMatrix) rows cols :
  params_ok w -> mat_ok w visible ->
  free_energy_formula (with_buffer w rows cols) visible = free_energy_formula w visible.
Proof.
  intros Hpar Hvis. destruct Hpar as (_ & _ & _ & _ & Hpok).
  destruct (block_of_ok _ _ Hvis) as (vb & vo & Hvp & Hvb).
  destruct (emap_ok_inv _ _ Hpok) as (pb & po & pbuf & Hpp & Hpb & _).
  apply lookup_lt_Some in Hpb. simpl in Hpp.
  assert (forall i j, entry (with_buffer w rows cols) visible i j = entry w visible i j)
    as Hv.
  { intros i j. apply (eget_with_buffer _ _ _ _ _ _ vb vo); [exact Hvp | exact Hvb]. }
  assert (forall i k, weights_at (with_buffer w rows cols) i k = weights_at w i k) as Hw.
  { intros i k. unfold weights_at. cbn [with_buffer rbm].
    apply (eget_with_buffer _ _ _ _ _ _ pb (po + m_num_visible (rbm w)));
      [simpl; rewrite Hpp; reflexivity | exact Hpb]. }
  assert (forall i, visible_bias_at (with_buffer w rows cols) i = visible_bias_at w i)
    as Hb.
  { intros i. unfold visible_bias_at. cbn [with_buffer rbm].
    apply (eget_with_buffer _ _ _ _ _ _ pb po); [simpl; rewrite Hpp; reflexivity | exact Hpb]. }
  assert (forall i, hidden_bias_at (with_buffer w rows cols) i = hidden_bias_at w i) as Hc.
  { intros i. unfold hidden_bias_at. cbn [with_buffer rbm].
    eapply (eget_with_buffer _ _ _ _ _ _ pb); [simpl; rewrite Hpp; reflexivity | exact Hpb]. }
  unfold free_energy_formula. cbn [with_buffer rbm]. f_equal; [f_equal; f_equal; f_equal |].
  - apply Rsum_ext. intros i _. rewrite Hb. f_equal. apply Rsum_ext. intros j _. apply Hv.
  - apply Rsum_ext. intros i _. apply Rsum_ext. intros j _. rewrite Hc. do 4 f_equal.
    apply Rsum_ext. intros k _. rewrite Hw, Hv. reflexivity.
  - apply Rsum_ext. intros k _. unfold gaussian_term. cbn [with_buffer rbm].
    destruct (lookupZ (m_visible_group_types (rbm w)) k) as [[| |] |]; try reflexivity.
    destruct (lookupZ (m_visible_state_offsets (rbm w)) k) as [off |]; try reflexivity.
    destruct (lookupZ (m_visible_group_sizes (rbm w)) k) as [size |]; try reflexivity.
    do 2 f_equal. apply Rsum_ext. intros i _. apply Rsum_ext. intros j _. rewrite Hv.
    reflexivity.
Qed.


End FreeEnergy.


(** * The softmax of a visible group (C5) *)




Section Softmax.

Context {G : Type} {RE : RandomEngine G R}.

#[local] Open Scope M_scope.

#[local] Abbreviation RBM := (RBM R G).
#[local] Abbreviation World := (World R G).
#[local] Abbreviation M := (M R G).

Implicit Types (w : World) (r : RBM) (P : footprint).

Lemma entry_peek w (m : SGMatrix) i j :
  entry w m i j = default 0%R (peek w (matrix m) (j * num_rows m + i)).
Proof. reflexivity. Qed.


(** Two groups of the registry do not overlap. *)
Lemma groups_disjoint r n k on sn ok sk :
  registry_ok r -> n <> k ->
  lookupZ (m_visible_state_offsets r) n = Some on ->
  lookupZ (m_visible_group_sizes r) n = Some sn ->
  lookupZ (m_visible_state_offsets r) k = Some ok ->
  lookupZ (m_visible_group_sizes r) k = Some sk ->
  on + sn <= ok \/ ok + sk <= on.
Proof.
  intros (_ & _ & Hoffs & Hpos & _) Hne Hon Hsn Hok Hsk. unfold lookupZ in *.
  destruct (Z.leb_spec 0 n); [| discriminate]. destruct (Z.leb_spec 0 k); [| discriminate].
  rewrite Hoffs in Hon, Hok.
  destruct (Z_lt_ge_dec n k).
  - left. eapply (running_sums_disjoint _ Hpos 0 (Z.to_nat n) (Z.to_nat k)); eauto. lia.
  - right. eapply (running_sums_disjoint _ Hpos 0 (Z.to_nat k) (Z.to_nat n)); eauto. lia.
Qed.

(** [mean_visible_group] on another group leaves the entries of group
    [(off, size)] as they are. *)
Lemma mean_visible_group_other w (result : SGMatrix) n k off size b o :
  registry_ok (rbm w) -> softmax_ok (rbm w) ->
  0 <= n < m_num_visible_groups (rbm w) -> n <> k ->
  lookupZ (m_visible_state_offsets (rbm w)) k = Some off ->
  lookupZ (m_visible_group_sizes (rbm w)) k = Some size ->
  mat_ok w result -> num_rows result = m_num_visible (rbm w) ->
  m_batch_size (rbm w) <= num_cols result ->
  matrix result = Ptr b o ->
  wp (mean_visible_group result n)
    (fun _ w' =>
       step (blocks [b]) w w'
       /\ forall i j, 0 <= i < size -> 0 <= j < m_batch_size (rbm w) ->
            entry w' result (i + off) j = entry w result (i + off) j) w.
Proof.
  intros Hreg Hsoft Hn Hne Hoff Hsize Hres Hrows Hcols Hptr.
  destruct (registry_group _ n Hreg Hn) as (on & sn & tn & Hon & Hsn & Htn & ? & ? & ?).
  destruct (emap_ok_inv _ _ Hres) as (b' & o' & buf & Hp' & Hbuf & _ & _ & Ho & Hlen).
  simpl in Hp', Hlen. rewrite Hptr in Hp'. inversion Hp'; subst b' o'. clear Hp'.
  assert (0 <= k < m_num_visible_groups (rbm w)) as Hk.
  { destruct Hreg as (Hg & _). unfold lookupZ in Hsize.
    destruct (Z.leb_spec 0 k); [| discriminate]. apply lookup_lt_Some in Hsize. lia. }
  destruct (registry_group _ k Hreg Hk) as (ok & sk & tk & Hok & Hsk & _ & ? & ? & ?).
  rewrite Hoff in Hok. rewrite Hsize in Hsk. inversion Hok; inversion Hsk; subst ok sk.
  pose proof (groups_disjoint _ n k on sn off size Hreg Hne Hon Hsn Hoff Hsize) as Hdis.
  set (P := group_footprint b o (num_rows result) on sn (m_batch_size (rbm w))).
  eapply (mean_visible_group_step P w w result n b o);
    [apply step_refl | exact Hreg | exact Hsoft | exact Hn | exact Hres | exact Hrows
    | exact Hcols | exact Hptr | |].
  - intros on' sn' Hon' Hsn'. rewrite Hon in Hon'. rewrite Hsn in Hsn'.
    inversion Hon'; inversion Hsn'; subst on' sn'.
    intros i j Hi Hj. split; [reflexivity |]. exists i, j. auto.
  - intros w' Hst. split.
    + eapply step_weaken; [| exact Hst]. intros b' m [-> _]. left. reflexivity.
    + intros i j Hi Hj. rewrite !entry_peek, Hptr. f_equal.
      apply (peek_frame P); [apply Hst | |].
      * rewrite <- Hptr. apply (peek_in_map w (mat_map result)); [exact Hres | simpl; nia].
      * intros [_ (i' & j' & Hi' & Hj' & Heq)].
        assert (j * num_rows result + (i + off) = j' * num_rows result + (i' + on)) as Heq'
          by nia.
        destruct (cell_index_inj (num_rows result) (i + off) j (i' + on) j');
          [lia | lia | lia |]. lia.
Qed.



End Softmax.


(** ** The maximum that is subtracted *)


(** * Guards, construction and initialization *)

Section Guards.

Context {F : Type} {AF : Arith F} {LF : Libm F} {G : Type} {RE : RandomEngine G F}.

#[local] Open Scope M_scope.

#[local] Abbreviation RBM := (RBM F G).
#[local] Abbreviation World := (World F G).
#[local] Abbreviation M := (M F G).

Implicit Types (w : World) (r : RBM) (P : footprint).

(** X1. [train] checks its argument before it touches anything: a null
    pointer, features that are not dense [float64_t] features, and dense
    features whose number of rows differs from [m_num_visible] each raise
    the fatal error of their [require], with the row count and
    [m_num_visible] as the arguments of the last message, and leave the
    machine and the store as they were; in particular [gd_mini_batch_size]
    has not been replaced yet. *)
Theorem train_rejects_features w (features : Features) :
  match features with
  | DenseFeatures inputs => num_rows inputs <> m_num_visible (rbm w)
  | _ => True
  end ->
  train features w
  = match features with
    | NullFeatures => Fatal "Invalid (NULL) feature pointer" [] w
    | OtherFeatures =>
        Fatal "Input features must be of type DenseFeatures<float64_t>." [] w
    | DenseFeatures inputs =>
        Fatal "Number of features ({}) must match the RBM's number of visible units ({})"
          [num_rows inputs; m_num_visible (rbm w)] w
    end.
Proof.
  intros Hbad. destruct features as [| | inputs]; try reflexivity.
  unfold train, bind, require, get_rbm.
  destruct (Z.eqb_spec (num_rows inputs) (m_num_visible (rbm w))); [contradiction |].
  reflexivity.
Qed.

(** X2. A group index at or above [m_num_visible_groups] stops
    [sample_group], [sample_with_evidence] and [sample_group_with_evidence]
    at their [require], in the state the call was made in: nothing is
    resized, drawn or copied. The second argument of the message is
    [m_num_visible], the number of visible units, not the number of
    groups. *)
Theorem group_index_upper_bound w V E (evidence : SGMatrix) num_gibbs_steps batch_size :
  m_num_visible_groups (rbm w) <= V ->
  sample_group V num_gibbs_steps batch_size w
  = Fatal out_of_bounds [V; m_num_visible (rbm w)] w
  /\ sample_with_evidence V evidence num_gibbs_steps w
     = Fatal out_of_bounds [V; m_num_visible (rbm w)] w
  /\ sample_group_with_evidence V E evidence num_gibbs_steps w
     = Fatal out_of_bounds [V; m_num_visible (rbm w)] w
  /\ (E < m_num_visible_groups (rbm w) ->
      sample_group_with_evidence E V evidence num_gibbs_steps w
      = Fatal out_of_bounds [V; m_num_visible (rbm w)] w).
Proof. intros HV. apply group_index_too_large. exact HV. Qed.

(** A block that a step does not write is the block it was. *)
Lemma heap_le_block P w w' b :
  heap_le P w w' -> (forall n, ~ P b n) -> is_Some (heap w !! b) ->
  heap w' !! b = heap w !! b.
Proof.
  intros Hle Hout [buf Hbuf]. destruct (Hle b buf Hbuf) as (buf' & Hbuf' & Hlen & Hsame).
  rewrite Hbuf, Hbuf'. f_equal. apply list_eq. intros n. apply Hsame, Hout.
Qed.

End Guards.

Section Construction.

Context {F : Type} {AF : Arith F} {G : Type} {RE : RandomEngine G F}.

#[local] Open Scope M_scope.

#[local] Abbreviation RBM := (RBM F G).
#[local] Abbreviation World := (World F G).
#[local] Abbreviation M := (M F G).

Implicit Types (w : World) (r : RBM) (P : footprint).

Lemma normal_prng_after_S mu sigma n g :
  normal_prng_after mu sigma (S n) g
  = snd (normal_real mu sigma (normal_prng_after mu sigma n g)).
Proof.
  revert g. induction n as [| n IH]; intros g; [reflexivity |].
  change (normal_prng_after mu sigma (S (S n)) g)
    with (normal_prng_after mu sigma (S n) (snd (normal_real mu sigma g))).
  rewrite IH. reflexivity.
Qed.

(** The types are registered in the order of the calls. *)
Lemma add_visible_group_types num_units unit_type w w' :
  add_visible_group num_units unit_type w = Ok tt w' ->
  m_visible_group_types (rbm w') = m_visible_group_types (rbm w) ++ [unit_type]
  /\ heap w' = heap w /\ m_num_hidden (rbm w') = m_num_hidden (rbm w).
Proof.
  intros Hrun.
  unfold add_visible_group, add32, bind, assume, get_rbm, modify_rbm, ret, at_ in Hrun.
  simpl in Hrun.
  destruct (in_int32 (m_num_visible_groups (rbm w) + 1)); [| discriminate].
  simpl in Hrun.
  destruct (in_int32 (m_num_visible (rbm w) + num_units)); [| discriminate].
  simpl in Hrun.
  destruct (Z.of_nat (length (m_visible_state_offsets (rbm w))) =? 0).
  - inversion Hrun; subst w'. repeat split.
  - destruct (lookupZ (m_visible_state_offsets (rbm w)) _); [| discriminate].
    destruct (lookupZ (m_visible_group_sizes (rbm w) ++ [num_units]) _); [| discriminate].
    destruct (in_int32 _); [| discriminate].
    simpl in Hrun. inversion Hrun; subst w'. repeat split.
Qed.

Lemma add_visible_groups_types calls :
  forall w w',
  add_visible_groups calls w = Ok tt w' ->
  m_visible_group_types (rbm w') = m_visible_group_types (rbm w) ++ map snd calls
  /\ heap w' = heap w /\ m_num_hidden (rbm w') = m_num_hidden (rbm w).
Proof.
  induction calls as [| [n t] rest IH]; intros w w' Hrun.
  - inversion Hrun; subst w'. rewrite app_nil_r. repeat split.
  - simpl in Hrun. unfold bind in Hrun.
    destruct (add_visible_group n t w) as [[] w1 | |] eqn:H1; try discriminate.
    destruct (add_visible_group_types _ _ _ _ H1) as (Ht1 & Hh1 & Hn1).
    destruct (IH _ _ Hrun) as (Ht & Hh & Hn).
    rewrite Ht, Ht1, Hh, Hh1, Hn, Hn1, <- app_assoc. repeat split.
Qed.

(** X3. A machine that the constructor and a sequence of
    [add_visible_group] calls with non-negative sizes built has the sizes
    and the types of the calls in their order, and its groups occupy rows of
    the visible state that lie in [0, m_num_visible) and do not overlap:
    it satisfies [registry_ok], which the statements about inference and
    sampling assume. *)
Theorem add_visible_group_ranges (calls : list (Z * ERBMVisibleUnitType))
    (num_hidden : Z) (g : G) (h : list (list F)) (w' : World) :
  add_visible_groups calls (RBM_hidden num_hidden g h) = Ok tt w' ->
  Forall (fun c => 0 <= fst c) calls ->
  registry_ok (rbm w')
  /\ m_visible_group_sizes (rbm w') = map fst calls
  /\ m_visible_group_types (rbm w') = map snd calls
  /\ m_num_hidden (rbm w') = num_hidden
  /\ heap w' = h
  /\ forall k k' o s o' s',
       lookupZ (m_visible_state_offsets (rbm w')) k = Some o ->
       lookupZ (m_visible_group_sizes (rbm w')) k = Some s ->
       lookupZ (m_visible_state_offsets (rbm w')) k' = Some o' ->
       lookupZ (m_visible_group_sizes (rbm w')) k' = Some s' ->
       0 <= o /\ o + s <= m_num_visible (rbm w')
       /\ (k <> k' -> o + s <= o' \/ o' + s' <= o).
Proof.
  intros Hrun Hpos.
  destruct (add_visible_groups_inv calls (RBM_hidden num_hidden g h) w'
              (registry_inv_init num_hidden g) Hrun)
    as ((Hn & Ht & Ho & Hv) & Hsizes).
  destruct (add_visible_groups_types calls _ _ Hrun) as (Htypes & Hheap & Hhid).
  simpl in Hsizes, Htypes, Hheap, Hhid.
  assert (registry_ok (rbm w')) as Hreg.
  { repeat split; try assumption. rewrite Hsizes. apply Forall_map. exact Hpos. }
  split; [exact Hreg |]. repeat split; try assumption.
  - pose proof Hreg as (_ & _ & Hoffs & Hp & Hsum).
    unfold lookupZ in H, H0. destruct (0 <=? k); [| discriminate].
    rewrite Hoffs in H.
    destruct (running_sums_bounds _ Hp 0 _ _ _ H H0) as (? & ? & ?). lia.
  - pose proof Hreg as (_ & _ & Hoffs & Hp & Hsum).
    unfold lookupZ in H, H0. destruct (0 <=? k); [| discriminate].
    rewrite Hoffs in H.
    destruct (running_sums_bounds _ Hp 0 _ _ _ H H0) as (? & ? & ?). lia.
  - intros Hne. unfold lookupZ in *.
    destruct (Z.leb_spec 0 k); [| discriminate].
    destruct (Z.leb_spec 0 k'); [| discriminate].
    pose proof Hreg as (_ & _ & Hoffs & Hp & _). rewrite Hoffs in H, H1.
    destruct (Z_lt_ge_dec k k').
    + left. eapply (running_sums_disjoint _ Hp 0 (Z.to_nat k) (Z.to_nat k')); eauto. lia.
    + right. eapply (running_sums_disjoint _ Hp 0 (Z.to_nat k') (Z.to_nat k)); eauto. lia.
Qed.

Lemma wp_draw_normal mu sigma w (Q : F -> World -> Prop) :
  Q (fst (normal_real mu sigma (m_prng (rbm w))))
    (mkWorld (set_m_prng (snd (normal_real mu sigma (m_prng (rbm w)))) (rbm w)) (heap w)) ->
  wp (draw_normal mu sigma) Q w.
Proof.
  intros HQ. unfold wp, draw_normal.
  destruct (normal_real mu sigma (m_prng (rbm w))). exact HQ.
Qed.

(** X4. On a machine with non-negative unit counts whose parameter count
    [m_num_visible + m_num_hidden + m_num_visible*m_num_hidden] fits
    [int32_t], [initialize_neural_network(sigma)] sets [m_num_params] to
    that count, puts the parameters in new storage of that length, and
    fills entry [k] with draw number [k] of the normal distribution with
    mean 0 and deviation [sigma]; the other fields and the blocks that
    existed are untouched. The result satisfies [params_ok], which the
    statements about inference and training assume. *)
Theorem initialize_neural_network_spec w (sigma : F) :
  0 <= m_num_visible (rbm w) -> 0 <= m_num_hidden (rbm w) ->
  m_num_visible (rbm w) + m_num_hidden (rbm w)
  + m_num_visible (rbm w) * m_num_hidden (rbm w) <= int32_max ->
  let n := m_num_visible (rbm w) + m_num_hidden (rbm w)
           + m_num_visible (rbm w) * m_num_hidden (rbm w) in
  exists w',
    initialize_neural_network sigma w = Ok tt w'
    /\ rbm w'
       = set_m_prng (normal_prng_after f0 sigma (Z.to_nat n) (m_prng (rbm w)))
           (set_m_params (mkSGVector (Ptr (length (heap w)) 0) n)
              (set_m_num_params n (rbm w)))
    /\ params_ok w'
    /\ (forall b, (b < length (heap w))%nat -> heap w' !! b = heap w !! b)
    /\ forall k, 0 <= k < n ->
         peek w' (Ptr (length (heap w)) 0) k
         = Some (normal_draw_at f0 sigma (Z.to_nat k) (m_prng (rbm w))).
Proof.
  intros Hnv Hnh Hfit n.
  set (nv := m_num_visible (rbm w)) in *. set (nh := m_num_hidden (rbm w)) in *.
  assert (0 <= nv * nh) as Hprod by nia.
  assert (forall z, 0 <= z <= n -> in_int32 z = true) as Hin.
  { intros z Hz. unfold in_int32, int32_min, int32_max in *.
    destruct (Z.leb_spec (- 2 ^ 31) z), (Z.leb_spec z (2 ^ 31 - 1)); try reflexivity; lia. }
  set (r1 := set_m_params (mkSGVector (Ptr (length (heap w)) 0) n)
               (set_m_num_params n (rbm w))).
  set (w1 := mkWorld r1 (heap w ++ [replicate (Z.to_nat n) (of_int 0)])).
  set (p := Ptr (length (heap w)) 0).
  assert (emap_ok w1 (EVector p n) = true) as Hok.
  { eapply (emap_ok_intro w1 _ (length (heap w)) 0 (replicate (Z.to_nat n) (of_int 0)));
      simpl; try reflexivity; try lia.
    - rewrite lookup_app_r by lia. rewrite Nat.sub_diag. reflexivity.
    - rewrite length_replicate. lia. }
  assert (wp (initialize_neural_network sigma)
            (fun _ w' =>
               rbm w' = set_m_prng (normal_prng_after f0 sigma (Z.to_nat n) (m_prng (rbm w))) r1
               /\ heap_le (blocks [length (heap w)]) w1 w'
               /\ forall k, 0 <= k < n ->
                    peek w' p k
                    = Some (normal_draw_at f0 sigma (Z.to_nat k) (m_prng (rbm w)))) w) as Hwp.
  { unfold initialize_neural_network, mul32, add32, SGVector_new, new_block.
    apply wp_bind, wp_get_rbm. fold nv nh.
    apply wp_bind, wp_bind. apply wp_assume; [apply Hin; lia |]. apply wp_ret.
    apply wp_bind, wp_bind. apply wp_assume; [apply Hin; lia |]. apply wp_ret.
    apply wp_bind, wp_bind. apply wp_assume; [apply Hin; unfold n; lia |]. apply wp_ret.
    fold n. apply wp_bind, wp_modify_rbm.
    apply wp_bind, wp_bind. unfold wp at 1. cbn [heap rbm].
    destruct (Z.leb_spec 0 n); [| unfold n in *; lia].
    apply wp_ret. apply wp_bind, wp_modify_rbm. cbn [heap rbm]. fold r1 w1 p.
    apply (wp_for (fun k w' =>
             rbm w' = set_m_prng (normal_prng_after f0 sigma (Z.to_nat k) (m_prng (rbm w))) r1
             /\ heap_le (blocks [length (heap w)]) w1 w'
             /\ forall k', 0 <= k' < k ->
                  peek w' p k'
                  = Some (normal_draw_at f0 sigma (Z.to_nat k') (m_prng (rbm w)))));
      [unfold n in *; lia | | |].
    - split; [reflexivity |]. split; [apply heap_le_refl |]. intros k' Hk'. lia.
    - intros k w' Hk (Hr & Hle & Hc). apply wp_bind, wp_draw_normal.
      set (w2 := mkWorld _ (heap w')).
      assert (heap_le (blocks [length (heap w)]) w1 w2) as Hle2.
      { eapply heap_le_trans; [exact Hle |]. apply heap_le_same_heap. reflexivity. }
      destruct (peek_in_map w2 (EVector p n) k) as [x Hx];
        [eapply emap_ok_mono; [exact Hle2 | exact Hok] | simpl; lia |].
      change (peek w2 p k = Some x) in Hx. unfold vec_set. cbn [vector].
      eapply wp_store; [exact Hx |].
      split; [| split].
      + rewrite rbm_poke. unfold w2. cbn [rbm]. rewrite Hr. cbn [set_m_prng m_prng].
        replace (Z.to_nat (k + 1)) with (S (Z.to_nat k)) by lia.
        rewrite normal_prng_after_S. reflexivity.
      + eapply heap_le_trans; [exact Hle2 |]. apply heap_le_poke. left. reflexivity.
      + intros k' Hk'. destruct (decide (k' = k)) as [-> | Hne].
        * rewrite (peek_poke_eq _ _ _ _ _ _ Hx). rewrite Hr. reflexivity.
        * unfold p. rewrite peek_poke_ne by (try lia; right; lia). fold p.
          rewrite (peek_same_heap w' w2) by reflexivity. apply Hc. lia.
    - intros w' H'. exact H'. }
  apply wp_ok in Hwp as ([] & w' & Hrun & Hr & Hle & Hc).
  exists w'. split; [exact Hrun |]. split; [exact Hr |].
  assert (heap_le (blocks [length (heap w)]) w w') as Hle0.
  { eapply heap_le_trans; [| exact Hle]. apply heap_le_alloc. }
  split; [| split; [| exact Hc]].
  - assert (m_params (rbm w') = mkSGVector p n) as Hp' by (rewrite Hr; reflexivity).
    assert (m_num_visible (rbm w') = nv) as Hv' by (rewrite Hr; reflexivity).
    assert (m_num_hidden (rbm w') = nh) as Hh' by (rewrite Hr; reflexivity).
    assert (m_num_params (rbm w') = n) as Hn' by (rewrite Hr; reflexivity).
    unfold params_ok. cbv zeta. rewrite Hp', Hv', Hh', Hn'. cbn [vlen].
    repeat split; try lia.
    unfold vec_ok, vec_map. cbn [vector vlen].
    eapply emap_ok_mono; [exact Hle | exact Hok].
  - intros b Hb. apply (heap_le_block (blocks [length (heap w)])); [exact Hle0 | |].
    + intros m [Heq | []]. lia.
    + apply lookup_lt_is_Some_2. exact Hb.
Qed.

End Construction.

(** X1 on [with_evidence], whose single visible unit does not match
    features of two rows. *)
Lemma train_rejects_features_witness :
  train (DenseFeatures tall_evidence) with_evidence
  = Fatal "Number of features ({}) must match the RBM's number of visible units ({})"
      [2; 1] with_evidence.
Proof.
  apply (train_rejects_features with_evidence (DenseFeatures tall_evidence)).
  simpl. lia.
Defined.

(** X2 on [with_evidence], which has one group: index 1 is refused. *)
Lemma group_index_upper_bound_witness :
  sample_group 1 3 2 with_evidence = Fatal out_of_bounds [1; 1] with_evidence.
Proof.
  assert (m_num_visible_groups (rbm with_evidence) <= 1) as H by (simpl; lia).
  exact (proj1 (group_index_upper_bound with_evidence 1 0 flat_evidence 3 2 H)).
Defined.

(** X3 on the three groups of 3, 2 and 4 units: the Softmax group takes rows
    3 and 4. *)
Lemma add_visible_group_ranges_witness :
  registry_ok (rbm three_groups)
  /\ m_visible_group_types (rbm three_groups)
     = [RBMVUT_BINARY; RBMVUT_SOFTMAX; RBMVUT_GAUSSIAN].
Proof.
  destruct (add_visible_group_ranges _ _ _ _ _ three_groups_run) as (Hreg & _ & Ht & _).
  - repeat constructor; simpl; lia.
  - split; [exact Hreg | exact Ht].
Defined.

(** X4 on [uninitialized]: five parameters, the five draws in their
    order. *)
Lemma initialize_neural_network_spec_witness :
  exists w',
    initialize_neural_network (of_int 1) uninitialized = Ok tt w'
    /\ m_num_params (rbm w') = 5
    /\ m_params (rbm w') = mkSGVector (Ptr 0 0) 5
    /\ peek w' (Ptr 0 0) 2 = Some (fdiv (of_int 3) (of_int 4)).
Proof.
  destruct (initialize_neural_network_spec uninitialized (of_int 1))
    as (w' & Hrun & Hr & _ & _ & Hc).
  - simpl. lia.
  - simpl. lia.
  - unfold int32_max. simpl. lia.
  - exists w'. split; [exact Hrun |]. rewrite Hr. split; [reflexivity |].
    split; [reflexivity |]. apply (Hc 2). simpl. lia.
Defined.

(** * The values that inference and sampling leave *)

Section Entrywise.

Context {F : Type} {AF : Arith F} {LF : Libm F} {G : Type} {RE : RandomEngine G F}.

#[local] Open Scope M_scope.

#[local] Abbreviation RBM := (RBM F G).
#[local] Abbreviation World := (World F G).
#[local] Abbreviation M := (M F G).

Implicit Types (w : World) (r : RBM) (P : footprint).


(** The loops over the rows [off, off + size) and the columns [0, batch)
    of a matrix that replace every entry by its image under [f]. *)
Lemma wp_group_map P w0 w (result : SGMatrix) b o off size batch (f : F -> F) :
  step P w0 w -> mat_ok w result -> matrix result = Ptr b o ->
  0 <= off -> 0 <= size -> off + size <= num_rows result ->
  0 <= batch -> batch <= num_cols result ->
  group_cells P b o (num_rows result) off size batch ->
  wp (for_ 0 size (fun i =>
        for_ 0 batch (fun j =>
          x <- mat_get result (i + off) j ;; mat_set result (i + off) j (f x))))
    (fun _ w' =>
       step P w0 w' /\ rbm w' = rbm w
       /\ forall i j, 0 <= i < size -> 0 <= j < batch ->
            peek w' (Ptr b o) (j * num_rows result + (i + off))
            = option_map f (peek w (Ptr b o) (j * num_rows result + (i + off)))) w.
Proof.
  intros Hst Hres Hptr Hoff Hsize Hrows Hbatch Hcols HP.
  destruct (emap_ok_inv _ _ Hres) as (b' & o' & buf & Hp' & Hbuf & _ & _ & Ho & Hlen).
  simpl in Hp', Hlen. rewrite Hptr in Hp'. inversion Hp'; subst b' o'. clear Hp'.
  set (rows := num_rows result) in *.
  set (cell := fun i j => j * rows + (i + off)).
  assert (forall i j, 0 <= i < size -> 0 <= j < batch ->
            is_Some (peek w (Ptr b o) (cell i j))) as Hin.
  { intros i j Hi Hj. rewrite <- Hptr.
    apply (peek_in_map w (mat_map result)); [exact Hres |]. simpl. fold rows.
    unfold cell. nia. }
  set (value := fun (i j i' j' : Z) =>
         if (i' <? i) || ((i' =? i) && (j' <? j))
         then option_map f (peek w (Ptr b o) (cell i' j'))
         else peek w (Ptr b o) (cell i' j')).
  unfold mat_get, mat_set. rewrite Hptr. fold rows.
  apply (wp_for (fun i w' =>
           step P w0 w' /\ rbm w' = rbm w
           /\ forall i' j', 0 <= i' < size -> 0 <= j' < batch ->
                peek w' (Ptr b o) (cell i' j') = value i 0 i' j'));
    [exact Hsize | | |].
  - split; [exact Hst |]. split; [reflexivity |]. intros i' j' Hi' Hj'. unfold value.
    destruct (Z.ltb_spec i' 0); [lia |]. destruct (Z.ltb_spec j' 0); [lia |].
    rewrite andb_false_r. reflexivity.
  - intros i w1 Hi (Hst1 & Hr1 & Hc1).
    apply (wp_for (fun j w' =>
             step P w0 w' /\ rbm w' = rbm w
             /\ forall i' j', 0 <= i' < size -> 0 <= j' < batch ->
                  peek w' (Ptr b o) (cell i' j') = value i j i' j'));
      [exact Hbatch | | |].
    + split; [exact Hst1 |]. split; [exact Hr1 | exact Hc1].
    + intros j w2 Hj (Hst2 & Hr2 & Hc2).
      destruct (Hin i j Hi Hj) as [x Hx].
      assert (peek w2 (Ptr b o) (cell i j) = Some x) as Hx'.
      { rewrite Hc2 by assumption. unfold value.
        destruct (Z.ltb_spec i i); [lia |]. destruct (Z.ltb_spec j j); [lia |].
        rewrite andb_false_r. exact Hx. }
      apply wp_bind. eapply wp_load; [exact Hx' |]. eapply wp_store; [exact Hx' |].
      split; [| split].
      * eapply step_trans; [exact Hst2 |]. apply step_poke. apply HP; assumption.
      * rewrite rbm_poke. exact Hr2.
      * intros i' j' Hi' Hj'. destruct (decide (i' = i /\ j' = j)) as [[-> ->] | Hne].
        -- rewrite (peek_poke_eq _ _ _ _ _ _ Hx'). unfold value.
           destruct (Z.ltb_spec i i); [lia |]. rewrite Z.eqb_refl.
           destruct (Z.ltb_spec j (j + 1)); [| lia]. cbn [orb andb]. rewrite Hx.
           reflexivity.
        -- rewrite peek_poke_ne.
           ++ rewrite Hc2 by assumption. unfold value.
              destruct (Z.ltb_spec i' i); [reflexivity |]. cbn [orb].
              destruct (Z.eqb_spec i' i); [| reflexivity]. cbn [andb].
              destruct (Z.ltb_spec j' j), (Z.ltb_spec j' (j + 1)); try reflexivity; lia.
           ++ unfold cell. nia.
           ++ right. intros Heq. apply Hne. unfold cell in Heq.
              destruct (cell_index_inj rows (i + off) j (i' + off) j');
                [lia | lia | lia |]. lia.
    + intros w2 (Hst2 & Hr2 & Hc2). split; [exact Hst2 |]. split; [exact Hr2 |].
      intros i' j' Hi' Hj'. rewrite Hc2 by assumption. unfold value.
      destruct (Z.ltb_spec i' i), (Z.ltb_spec i' (i + 1)), (Z.eqb_spec i' i),
        (Z.eqb_spec i' (i + 1)), (Z.ltb_spec j' batch), (Z.ltb_spec j' 0);
        cbn [orb andb]; try reflexivity; lia.
  - intros w' (Hst' & Hr & Hc). split; [exact Hst' |]. split; [exact Hr |].
    intros i j Hi Hj. fold (cell i j). rewrite Hc by assumption. unfold value.
    destruct (Z.ltb_spec i size); [reflexivity | lia].
Qed.


(** Two groups of the registry do not overlap, whatever the scalars. *)
Lemma registry_disjoint r n k on sn ok sk :
  registry_ok r -> n <> k ->
  lookupZ (m_visible_state_offsets r) n = Some on ->
  lookupZ (m_visible_group_sizes r) n = Some sn ->
  lookupZ (m_visible_state_offsets r) k = Some ok ->
  lookupZ (m_visible_group_sizes r) k = Some sk ->
  on + sn <= ok \/ ok + sk <= on.
Proof.
  intros (_ & _ & Hoffs & Hpos & _) Hne Hon Hsn Hok Hsk. unfold lookupZ in *.
  destruct (Z.leb_spec 0 n); [| discriminate]. destruct (Z.leb_spec 0 k); [| discriminate].
  rewrite Hoffs in Hon, Hok.
  destruct (Z_lt_ge_dec n k).
  - left. eapply (running_sums_disjoint _ Hpos 0 (Z.to_nat n) (Z.to_nat k)); eauto. lia.
  - right. eapply (running_sums_disjoint _ Hpos 0 (Z.to_nat k) (Z.to_nat n)); eauto. lia.
Qed.

(** [sample_visible(index, mean, result)] has no branch for a Gaussian
    group. *)
Lemma sample_visible_index_gaussian w k (mean result : SGMatrix) off :
  lookupZ (m_visible_group_types (rbm w)) k = Some RBMVUT_GAUSSIAN ->
  lookupZ (m_visible_state_offsets (rbm w)) k = Some off ->
  sample_visible_index k mean result w = Ok tt w.
Proof.
  intros Ht Hoff. unfold sample_visible_index, bind, get_rbm, at_.
  rewrite Hoff, Ht. reflexivity.
Qed.

(** X6. [sample_visible(mean, result)] draws the units of the Binary and
    the Softmax groups only: the rows of a Gaussian group are never
    written. Called in place on the visible state, as [sample] and
    [contrastive_divergence] call it, it leaves the Gaussian units at their
    means; called with another [result], it leaves their rows in [result]
    as they were. *)
Theorem sample_visible_skips_gaussian w (mean result : SGMatrix) :
  registry_ok (rbm w) -> mat_ok w mean -> mat_ok w result ->
  num_rows mean = num_rows result ->
  num_rows result = m_num_visible (rbm w) ->
  m_batch_size (rbm w) <= num_cols result ->
  m_batch_size (rbm w) <= num_cols mean ->
  exists w',
    sample_visible mean result w = Ok tt w'
    /\ (forall b buf, b <> block (matrix result) -> heap w !! b = Some buf ->
          heap w' !! b = Some buf)
    /\ forall k off size,
         lookupZ (m_visible_group_types (rbm w)) k = Some RBMVUT_GAUSSIAN ->
         lookupZ (m_visible_state_offsets (rbm w)) k = Some off ->
         lookupZ (m_visible_group_sizes (rbm w)) k = Some size ->
         forall i j, 0 <= i < size -> 0 <= j < num_cols result ->
           peek w' (matrix result) (j * num_rows result + (i + off))
           = peek w (matrix result) (j * num_rows result + (i + off)).
Proof.
  intros Hreg Hmean Hres Hrows Hnv Hcols Hmcols.
  destruct (mat_block _ _ Hres) as [ro Hrp]. set (rb := block (matrix result)) in *.
  destruct (emap_ok_inv _ _ Hres) as (b' & o' & buf & Hp' & Hbuf & Hr0 & Hc0 & Ho & Hl).
  simpl in Hp', Hl, Hr0, Hc0. rewrite Hrp in Hp'. inversion Hp'; subst b' o'. clear Hp'.
  set (rows := num_rows result) in *.
  set (P := sampled_cells (rbm w) rb ro rows (m_batch_size (rbm w))).
  assert (wp (sample_visible mean result) (fun _ w' => step P w w') w) as Hwp.
  { unfold sample_visible. apply wp_bind, wp_get_rbm.
    destruct (Z_le_gt_dec 0 (m_num_visible_groups (rbm w))) as [Hg | Hg].
    - apply (wp_for (fun _ w' => step P w w')); [exact Hg | apply step_refl | | auto].
      intros k w1 Hk Hst1.
      destruct (registry_group _ k Hreg Hk) as (off & size & t & Hoff & Hsize & Ht & ? & ? & ?).
      destruct (is_gaussian t) eqn:Hgauss.
      + destruct t; try discriminate.
        unfold wp. rewrite (sample_visible_index_gaussian w1 k mean result off).
        * exact Hst1.
        * destruct Hst1 as [Hs _]. stable_rw Hs. exact Ht.
        * destruct Hst1 as [Hs _]. stable_rw Hs. exact Hoff.
      + eapply (sample_visible_index_step P w w1 mean result k rb ro); eauto.
        intros off' size' Hoff' Hsize' i j Hi Hj.
        split; [reflexivity |]. exists k, t, off', size', i, j. auto 10.
    - unfold wp, for_. rewrite fold_for_empty by lia. apply step_refl. }
  apply wp_ok in Hwp as ([] & w' & Hrun & Hst).
  exists w'. split; [exact Hrun |]. split.
  - intros b buf0 Hb Hbuf0. rewrite <- Hbuf0.
    apply (heap_le_block P); [apply Hst | | eauto].
    intros n [Heq _]. congruence.
  - intros k off size Ht Hoff Hsize i j Hi Hj. rewrite Hrp.
    assert (0 <= k < m_num_visible_groups (rbm w)) as Hk.
    { destruct Hreg as (Hgr & _). apply lookupZ_bound in Hsize. lia. }
    destruct (registry_group _ k Hreg Hk) as (ok & sk & tk & Hok & Hsk & _ & ? & ? & ?).
    rewrite Hoff in Hok. rewrite Hsize in Hsk. inversion Hok; inversion Hsk; subst ok sk.
    apply (peek_frame P); [apply Hst | |].
    + rewrite <- Hrp. apply (peek_in_map w (mat_map result)); [exact Hres |].
      simpl. fold rows. nia.
    + intros [_ (k' & t' & off' & size' & i' & j' & Ht' & Hng & Hoff' & Hsize' & Hi' & Hj' & Heq)].
      assert (k <> k') as Hne.
      { intros ->. rewrite Ht in Ht'. inversion Ht'; subst t'. discriminate. }
      assert (0 <= k' < m_num_visible_groups (rbm w)) as Hk'.
      { destruct Hreg as (Hgr & _). apply lookupZ_bound in Hsize'. lia. }
      destruct (registry_group _ k' Hreg Hk')
        as (ok' & sk' & tk' & Hok' & Hsk' & _ & ? & ? & ?).
      assert (ok' = off') by congruence. assert (sk' = size') by congruence.
      subst ok' sk'.
      pose proof (registry_disjoint _ k k' off size off' size' Hreg Hne Hoff Hsize Hoff' Hsize')
        as Hdis.
      assert (j * rows + (i + off) = j' * rows + (i' + off')) as Heq' by (unfold rows in *; nia).
      destruct (cell_index_inj rows (i + off) j (i' + off') j');
        [unfold rows in *; lia | unfold rows in *; lia | exact Heq' |]. lia.
Qed.

End Entrywise.

Lemma logistic_range x : (0 < logistic x < 1)%R.
Proof.
  unfold logistic, Rdiv. rewrite Rmult_1_l. pose proof (exp_pos (- x)) as He. split.
  - apply Rinv_0_lt_compat. lra.
  - apply Rmult_lt_reg_r with (1 + exp (- x))%R; [lra |]. rewrite Rinv_l by lra. lra.
Qed.

Section InferenceValues.

Context {G : Type} {RE : RandomEngine G R}.

#[local] Open Scope M_scope.

#[local] Abbreviation RBM := (RBM R G).
#[local] Abbreviation World := (World R G).
#[local] Abbreviation M := (M R G).

Implicit Types (w : World) (r : RBM) (P : footprint).

Lemma sigmoid_logistic x : sigmoid x = logistic x.
Proof.
  unfold sigmoid, logistic, f1, fm1. simpl. f_equal. f_equal. f_equal. ring.
Qed.


(** [mean_visible_group] on a Binary or a Gaussian group. *)
Lemma mean_visible_group_plain w (result : SGMatrix) k t off size b o :
  registry_ok (rbm w) ->
  lookupZ (m_visible_group_types (rbm w)) k = Some t -> is_softmax t = false ->
  lookupZ (m_visible_state_offsets (rbm w)) k = Some off ->
  lookupZ (m_visible_group_sizes (rbm w)) k = Some size ->
  mat_ok w result -> num_rows result = m_num_visible (rbm w) ->
  0 <= m_batch_size (rbm w) <= num_cols result ->
  matrix result = Ptr b o ->
  wp (mean_visible_group result k)
    (fun _ w' =>
       step (blocks [b]) w w'
       /\ forall i j, 0 <= i < size -> 0 <= j < m_batch_size (rbm w) ->
            entry w' result (i + off) j
            = if is_binary t then logistic (entry w result (i + off) j)
              else entry w result (i + off) j) w.
Proof.
  intros Hreg Ht Hns Hoff Hsize Hres Hrows Hbs Hptr.
  assert (0 <= k < m_num_visible_groups (rbm w)) as Hk.
  { destruct Hreg as (Hg & _). apply lookupZ_bound in Hsize. lia. }
  destruct (registry_group _ k Hreg Hk) as (ok & sk & tk & Hok & Hsk & _ & ? & ? & ?).
  assert (ok = off) by congruence. assert (sk = size) by congruence. subst ok sk.
  unfold mean_visible_group. apply wp_bind, wp_get_rbm.
  apply wp_bind. eapply wp_at; [exact Hoff |].
  apply wp_bind. eapply wp_at; [exact Ht |].
  rewrite Hns. destruct (is_binary t) eqn:Hb.
  - apply wp_bind. apply wp_bind. eapply wp_at; [exact Hsize |].
    eapply wp_mono.
    { apply (wp_group_map (blocks [b]) w w result b o off size (m_batch_size (rbm w))
               sigmoid); try assumption; try lia; [apply step_refl |].
      intros i j Hi Hj. left. reflexivity. }
    intros [] w' (Hst & Hr & Hc). apply wp_ret. split; [exact Hst |].
    intros i j Hi Hj. rewrite !entry_peek, Hptr. rewrite Hc by assumption.
    destruct (peek_in_map w (mat_map result) (j * num_rows result + (i + off)) Hres)
      as [x Hx]; [simpl; nia |].
    change (peek w (matrix result) (j * num_rows result + (i + off)) = Some x) in Hx.
    rewrite Hptr in Hx. rewrite Hx. apply sigmoid_logistic.
  - apply wp_bind, wp_ret, wp_ret. split; [apply step_refl |]. reflexivity.
Qed.

(** X8. In exact arithmetic, on a well-formed machine with [result]
    stored apart from the parameters and from [hidden]: after
    [mean_visible(hidden, result)] an entry of a Binary group is the
    logistic function of the unit's linear activation
    [(weights^T * hidden + visible_bias)(i, j)], a number strictly between
    0 and 1, and an entry of a Gaussian group is the linear activation
    itself. *)
Theorem mean_visible_binary_gaussian w (hidden result : SGMatrix) k t off size :
  params_ok w -> registry_ok (rbm w) -> softmax_ok (rbm w) ->
  mat_ok w hidden -> num_rows hidden = m_num_hidden (rbm w) ->
  mat_ok w result -> num_rows result = m_num_visible (rbm w) ->
  num_cols result = num_cols hidden ->
  0 <= m_batch_size (rbm w) <= num_cols result ->
  block (matrix result) <> block (vector (m_params (rbm w))) ->
  block (matrix result) <> block (matrix hidden) ->
  lookupZ (m_visible_group_types (rbm w)) k = Some t -> t <> RBMVUT_SOFTMAX ->
  lookupZ (m_visible_state_offsets (rbm w)) k = Some off ->
  lookupZ (m_visible_group_sizes (rbm w)) k = Some size ->
  exists w',
    mean_visible hidden result w = Ok tt w'
    /\ forall i j, 0 <= i < size -> 0 <= j < m_batch_size (rbm w) ->
         match t with
         | RBMVUT_BINARY =>
             entry w' result (i + off) j = logistic (activation w hidden (i + off) j)
             /\ (0 < entry w' result (i + off) j < 1)%R
         | _ => entry w' result (i + off) j = activation w hidden (i + off) j
         end.
Proof.
  intros Hpar Hreg Hsoft Hhid Hhrows Hres Hrrows Hcols Hbs Hrpn Hrhn Ht Hnsoft Hoff Hsize.
  pose proof Hpar as (_ & _ & _ & _ & Hpok).
  destruct (vec_block _ _ Hpok) as [po Hpp]. destruct (mat_block _ _ Hhid) as [ho Hhp].
  destruct (mat_block _ _ Hres) as [ro Hrp].
  set (pb := block (vector (m_params (rbm w)))) in *.
  set (hb := block (matrix hidden)) in *. set (rb := block (matrix result)) in *.
  assert (0 <= k < m_num_visible_groups (rbm w)) as Hk.
  { destruct Hreg as (Hg & _). apply lookupZ_bound in Hsize. lia. }
  destruct (registry_group _ k Hreg Hk) as (ok & sk & tk & Hok & Hsk & _ & Hoff0 & Hsz0 & Hfit).
  assert (ok = off) by congruence. assert (sk = size) by congruence. subst ok sk.
  assert (is_softmax t = false) as Hns by (destruct t; try reflexivity; contradiction).
  set (P := blocks [rb]).
  assert (forall n, ~ P pb n) as Hoffp.
  { intros n Hin. unfold P, blocks in Hin. simpl in Hin. intuition congruence. }
  assert (forall n, ~ P hb n) as Hoffh.
  { intros n Hin. unfold P, blocks in Hin. simpl in Hin. intuition congruence. }
  set (value := fun i j =>
         if is_binary t then logistic (activation w hidden (i + off) j)
         else activation w hidden (i + off) j).
  assert (wp (mean_visible hidden result)
            (fun _ w' => forall i j, 0 <= i < size -> 0 <= j < m_batch_size (rbm w) ->
                           entry w' result (i + off) j = value i j) w) as Hwp.
  { unfold mean_visible. apply wp_bind, wp_get_rbm.
    unfold get_weights, get_visible_bias.
    cbn [vlen SGVector_empty Z.eqb vector matrix].
    rewrite Hpp, Hhp, Hrp. cbn [ptr_add].
    set (nv := m_num_visible (rbm w)) in *. set (nh := m_num_hidden (rbm w)) in *.
    rewrite Hhrows, Hrrows.
    set (EH := EMatrix (Ptr hb ho) nh (num_cols hidden)).
    set (EV := EMatrix (Ptr rb ro) nv (num_cols result)).
    set (EW := EMatrix (Ptr pb (po + nv)) nh nv).
    set (EB := EVector (Ptr pb po) nv).
    assert (emap_ok w EH = true) as HH.
    { unfold mat_ok, mat_map in Hhid. rewrite Hhp, Hhrows in Hhid. exact Hhid. }
    assert (emap_ok w EV = true) as HV.
    { unfold mat_ok, mat_map in Hres. rewrite Hrp, Hrrows in Hres. exact Hres. }
    assert (emap_ok w EW = true) as HW.
    { pose proof (weights_ok w Hpar) as Hw. rewrite Hpp in Hw. exact Hw. }
    assert (emap_ok w EB = true) as HB.
    { pose proof (visible_bias_ok w Hpar) as Hb. rewrite Hpp in Hb. exact Hb. }
    apply wp_bind.
    eapply (wp_eigen_assign_step P w w); [apply step_refl | | | reflexivity
                                          | intros; left; reflexivity |].
    { simpl. apply Z.eqb_refl. }
    { repeat constructor; assumption. }
    set (w1 := write_map w EV _). intros Hst1. apply wp_bind.
    eapply (wp_eigen_assign_step P w); [exact Hst1 | | | reflexivity
                                        | intros; left; reflexivity |].
    { simpl. rewrite Hcols, !Z.eqb_refl. reflexivity. }
    { repeat constructor; assumption. }
    set (w2 := write_map w1 EV _). intros Hst2.
    assert (forall i j, 0 <= i < nv -> 0 <= j < num_cols result ->
              entry w2 result i j = activation w hidden i j) as Hact.
    { intros i j Hi Hj. rewrite entry_peek, Hrp, Hrrows.
      change (default 0%R (peek w2 (Ptr rb ro) (j * nv + i))) with (eget w2 EV i j).
      unfold w2.
      rewrite eget_write_map
        by (try (eapply emap_ok_mono; [apply Hst1 | exact HV]); simpl; lia).
      unfold w1 at 1. rewrite eget_write_map by (try exact HV; simpl; lia).
      unfold activation, visible_bias_at, weights_at, get_visible_bias, get_weights,
        vec_map, mat_map.
      cbn [vlen SGVector_empty Z.eqb vector matrix num_rows num_cols].
      rewrite Hpp. cbn [ptr_add]. fold nv nh EB EW. simpl. f_equal.
      unfold e_tmul. rewrite fsum_Rsum. apply Rsum_ext. intros h Hh. simpl in Hh.
      rewrite (eget_frame P w w1 EW h i pb (po + nv))
        by (try apply Hst1; try exact HW; try reflexivity; try exact Hoffp; simpl; lia).
      rewrite (eget_frame P w w1 EH h j hb ho)
        by (try apply Hst1; try exact HH; try reflexivity; try exact Hoffh; simpl; lia).
      simpl. f_equal. rewrite entry_peek, Hhp, Hhrows. reflexivity. }
    assert (rbm w2 = rbm w) as Hr2 by (unfold w2, w1; rewrite !rbm_write_map; reflexivity).
    clearbody w2. clear w1 Hst1.
    (* the groups *)
    destruct (Z_le_gt_dec 0 (m_num_visible_groups (rbm w))) as [Hg | Hg]; [| lia].
    apply (wp_for (fun n w' =>
             step P w w'
             /\ forall i j, 0 <= i < size -> 0 <= j < m_batch_size (rbm w) ->
                  entry w' result (i + off) j
                  = if n <=? k then entry w2 result (i + off) j else value i j));
      [lia | | |].
    - split; [exact Hst2 |]. intros i j Hi Hj.
      destruct (Z.leb_spec 0 k); [reflexivity | lia].
    - intros n w' Hn (Hst & Hc).
      assert (registry_ok (rbm w')) as Hreg' by (eapply registry_ok_step; eauto).
      assert (softmax_ok (rbm w')) as Hsoft' by (eapply softmax_ok_step; eauto).
      assert (mat_ok w' result) as Hres' by (eapply emap_ok_mono; [apply Hst | exact Hres]).
      pose proof (stable_fields _ _ (proj1 Hst)) as Hf.
      destruct (decide (n = k)) as [-> | Hne].
      + eapply wp_mono;
          [apply (mean_visible_group_plain w' result k t off size rb ro); auto |].
        * destruct Hst as [Hs _]. stable_rw Hs. exact Ht.
        * destruct Hst as [Hs _]. stable_rw Hs. exact Hoff.
        * destruct Hst as [Hs _]. stable_rw Hs. exact Hsize.
        * destruct Hst as [Hs _]. stable_rw Hs. exact Hrrows.
        * destruct Hst as [Hs _]. stable_rw Hs. exact Hbs.
        * intros [] w'' (Hst' & Hc'). split; [eapply step_trans; eauto |].
          intros i j Hi Hj. destruct (Z.leb_spec (k + 1) k); [lia |].
          rewrite Hc' by (destruct Hst as [Hs _]; stable_rw Hs; assumption).
          unfold value. rewrite Hc by assumption.
          destruct (Z.leb_spec k k); [| lia].
          rewrite Hact by (fold nv in Hfit; lia). reflexivity.
      + eapply wp_mono;
          [apply (mean_visible_group_other w' result n k off size rb ro); auto |].
        * destruct Hst as [Hs _]. stable_rw Hs. exact Hn.
        * destruct Hst as [Hs _]. stable_rw Hs. exact Hoff.
        * destruct Hst as [Hs _]. stable_rw Hs. exact Hsize.
        * destruct Hst as [Hs _]. stable_rw Hs. exact Hrrows.
        * destruct Hst as [Hs _]. stable_rw Hs. lia.
        * intros [] w'' (Hst' & Hc'). split; [eapply step_trans; eauto |].
          intros i j Hi Hj.
          rewrite Hc' by (destruct Hst as [Hs _]; stable_rw Hs; assumption).
          rewrite Hc by assumption.
          destruct (Z.leb_spec n k), (Z.leb_spec (n + 1) k); try reflexivity; lia.
    - intros w' (Hst & Hc) i j Hi Hj. rewrite Hc by assumption.
      destruct (Z.leb_spec (m_num_visible_groups (rbm w)) k); [lia | reflexivity]. }
  apply wp_ok in Hwp as ([] & w' & Hrun & Hc). exists w'. split; [exact Hrun |].
  intros i j Hi Hj. specialize (Hc i j Hi Hj). unfold value in Hc.
  destruct t; simpl in Hc.
  - split; [exact Hc |]. rewrite Hc. apply logistic_range.
  - exact Hc.
  - contradiction.
Qed.

End InferenceValues.

(** The machine [training] is well formed. *)
Lemma training_params : params_ok training.
Proof. unfold params_ok. simpl. repeat split; lia. Qed.

Lemma training_state : state_ok training.
Proof. unfold state_ok. simpl. repeat split; lia. Qed.

Lemma training_registry : registry_ok (rbm training).
Proof. unfold registry_ok. simpl. repeat split; auto. repeat constructor. lia. Qed.

Lemma training_softmax : softmax_ok (rbm training).
Proof.
  intros k s Ht _. unfold lookupZ in Ht. simpl in Ht.
  destruct (0 <=? k); [| discriminate].
  destruct (Z.to_nat k) as [| [| n]]; discriminate.
Qed.


(** X6 on [gaussian_machine], sampling its visible state in place: the
    Gaussian unit keeps its value. *)
Lemma sample_visible_skips_gaussian_witness :
  exists w',
    sample_visible (mkSGMatrix (Ptr 2 0) 1 1) (mkSGMatrix (Ptr 2 0) 1 1) gaussian_machine
    = Ok tt w'
    /\ peek w' (Ptr 2 0) 0 = Some 0%R.
Proof.
  destruct (sample_visible_skips_gaussian gaussian_machine (mkSGMatrix (Ptr 2 0) 1 1)
              (mkSGMatrix (Ptr 2 0) 1 1)) as (w' & Hrun & _ & Hc).
  - unfold registry_ok. simpl. repeat split; auto. repeat constructor. lia.
  - reflexivity.
  - reflexivity.
  - reflexivity.
  - reflexivity.
  - simpl. lia.
  - simpl. lia.
  - exists w'. split; [exact Hrun |].
    exact (Hc 0 0 1 eq_refl eq_refl eq_refl 0 0 ltac:(lia) ltac:(simpl; lia)).
Defined.


(** X8 on [training], whose group is Binary: the mean of the visible unit
    for the hidden value 0 is the logistic function of 0. *)
Lemma mean_visible_binary_gaussian_witness :
  exists w',
    mean_visible (mkSGMatrix (Ptr 1 0) 1 1) (mkSGMatrix (Ptr 2 0) 1 1) training = Ok tt w'
    /\ entry w' (mkSGMatrix (Ptr 2 0) 1 1) 0 0 = logistic 0.
Proof.
  destruct (mean_visible_binary_gaussian training (mkSGMatrix (Ptr 1 0) 1 1)
              (mkSGMatrix (Ptr 2 0) 1 1) 0 RBMVUT_BINARY 0 1) as (w' & Hrun & Hc).
  - exact training_params.
  - exact training_registry.
  - exact training_softmax.
  - reflexivity.
  - reflexivity.
  - reflexivity.
  - reflexivity.
  - reflexivity.
  - simpl. lia.
  - simpl. lia.
  - simpl. lia.
  - reflexivity.
  - discriminate.
  - reflexivity.
  - reflexivity.
  - exists w'. split; [exact Hrun |].
    destruct (Hc 0 0) as [Hv _]; [lia | simpl; lia |].
    change (entry w' (mkSGMatrix (Ptr 2 0) 1 1) 0 0
            = logistic (activation training (mkSGMatrix (Ptr 1 0) 1 1) 0 0)) in Hv.
    rewrite Hv. f_equal.
    unfold activation, visible_bias_at, weights_at, entry, Rsum, eget. simpl. ring.
Defined.

(** * What the gradient and the energy computations write *)

Section Frames.

Context {F : Type} {AF : Arith F} {LF : Libm F} {G : Type} {RE : RandomEngine G F}.

#[local] Open Scope M_scope.

#[local] Abbreviation RBM := (RBM F G).
#[local] Abbreviation World := (World F G).
#[local] Abbreviation M := (M F G).

Implicit Types (w : World) (r : RBM) (P : footprint).

Lemma kr_ret {A : Type} (a : A) : keeps_rbm (ret a : M A).
Proof. intros w a' w' H. inversion H. reflexivity. Qed.

Lemma kr_bind {A B : Type} (c : M A) (k : A -> M B) :
  keeps_rbm c -> (forall a, keeps_rbm (k a)) -> keeps_rbm (bind c k).
Proof.
  intros Hc Hk w b w' H. unfold bind in H.
  destruct (c w) as [a w1 | |] eqn:Hcw; try discriminate.
  rewrite (Hk a _ _ _ H). exact (Hc _ _ _ Hcw).
Qed.

Lemma kr_get_rbm : keeps_rbm (get_rbm : M RBM).
Proof. intros w a w' H. inversion H. reflexivity. Qed.

Lemma kr_assume cond : keeps_rbm (assume cond : M unit).
Proof. intros w a w' H. unfold assume in H. destruct cond; inversion H. reflexivity. Qed.

Lemma kr_load p i : keeps_rbm (load p i : M F).
Proof.
  intros w a w' H. unfold load in H. destruct (peek w p i); inversion H. reflexivity.
Qed.

Lemma kr_store p i v : keeps_rbm (store p i v : M unit).
Proof.
  intros w a w' H. unfold store in H. destruct (peek w p i); inversion H.
  apply rbm_poke.
Qed.

Lemma kr_at {A : Type} (l : list A) i : keeps_rbm (at_ l i : M A).
Proof.
  intros w a w' H. unfold at_ in H. destruct (lookupZ l i); inversion H. reflexivity.
Qed.

Lemma kr_eigen_assign srcs conform dst rhs :
  keeps_rbm (eigen_assign srcs conform dst rhs : M unit).
Proof.
  intros w a w' H. unfold eigen_assign in H.
  destruct (conform && forallb (emap_ok w) (dst :: srcs)); inversion H.
  apply rbm_write_map.
Qed.

Lemma kr_eigen_eval srcs rhs : keeps_rbm (eigen_eval srcs rhs : M F).
Proof.
  intros w a w' H. unfold eigen_eval in H.
  destruct (forallb (emap_ok w) srcs); inversion H. reflexivity.
Qed.

Lemma kr_SGMatrix_new nrows ncols : keeps_rbm (SGMatrix_new nrows ncols : M SGMatrix).
Proof.
  unfold SGMatrix_new. apply kr_bind; [apply kr_assume |]. intros _.
  apply kr_bind; [| intros p; apply kr_ret].
  intros w a w' H. unfold new_block in H.
  destruct (0 <=? nrows * ncols); inversion H. reflexivity.
Qed.

Lemma kr_iter_for {A : Type} (body : Z -> A -> M A) n :
  (forall i a, keeps_rbm (body i a)) -> forall i a, keeps_rbm (iter_for n i body a).
Proof.
  intros Hbody. induction n as [| n IH]; intros i a; simpl.
  - apply kr_ret.
  - apply kr_bind; [apply Hbody | intros a'; apply IH].
Qed.

Lemma kr_fold_for {A : Type} lo hi (body : Z -> A -> M A) a :
  (forall i a, keeps_rbm (body i a)) -> keeps_rbm (fold_for lo hi body a).
Proof. intros Hbody. unfold fold_for. apply kr_iter_for. exact Hbody. Qed.

Lemma kr_for lo hi (body : Z -> M unit) :
  (forall i, keeps_rbm (body i)) -> keeps_rbm (for_ lo hi body).
Proof. intros Hbody. unfold for_. apply kr_fold_for. intros i _. apply Hbody. Qed.

Lemma kr_if {A : Type} (cond : bool) (c1 c2 : M A) :
  keeps_rbm c1 -> keeps_rbm c2 -> keeps_rbm (if cond then c1 else c2).
Proof. destruct cond; auto. Qed.

(** Decomposes a goal [keeps_rbm c] along the structure of [c]. *)
Ltac kr_step :=
  first
    [ apply kr_ret | apply kr_get_rbm | apply kr_assume
    | apply kr_load | apply kr_store | apply kr_at
    | apply kr_eigen_assign | apply kr_eigen_eval | apply kr_SGMatrix_new
    | apply kr_bind; [| intro]
    | apply kr_for; intro
    | apply kr_fold_for; intros ? ?
    | apply kr_if ].

Ltac kr_auto := repeat kr_step.

(** [free_energy] once the batch size is settled. *)
Lemma free_energy_keeps_rbm w (visible buffer : SGMatrix) x w' :
  m_batch_size (rbm w) = num_cols visible ->
  free_energy visible buffer w = Ok x w' -> rbm w' = rbm w.
Proof.
  intros Hbs Hrun. unfold free_energy in Hrun.
  rewrite (bind_ok _ _ _ _ _ (set_batch_size_same w _ Hbs)) in Hrun.
  revert Hrun.
  match goal with |- ?c w = _ -> _ => assert (keeps_rbm c) as Hk end.
  { unfold emap_get, mat_get. kr_auto. }
  apply Hk.
Qed.

(** X9. When the column count of its input is the batch size,
    [free_energy] is a pure query: it returns normally, leaves every field
    of the machine as it was, the random engine included, and writes to its
    buffer only; with the buffer argument left empty nothing that existed
    is written at all. *)
Theorem free_energy_reads_only w (visible buffer : SGMatrix) :
  params_ok w -> registry_ok (rbm w) -> 0 < m_num_hidden (rbm w) ->
  mat_ok w visible -> num_rows visible = m_num_visible (rbm w) ->
  num_cols visible = m_batch_size (rbm w) ->
  buffer_fits w buffer (m_num_hidden (rbm w)) (m_batch_size (rbm w)) ->
  exists x w',
    free_energy visible buffer w = Ok x w'
    /\ rbm w' = rbm w
    /\ forall b buf, num_rows buffer = 0 \/ b <> block (matrix buffer) ->
         heap w !! b = Some buf -> heap w' !! b = Some buf.
Proof.
  intros Hpar Hreg Hnh Hvis Hvrows Hvcols Hfit.
  destruct (emap_ok_inv _ _ Hvis) as (vb & vo & vbuf & _ & _ & _ & Hbs & _).
  simpl in Hbs. rewrite Hvcols in Hbs.
  destruct Hfit as [Hz | (Hbuf & Hbrows & Hbcols)].
  - set (w2 := with_buffer w (m_num_hidden (rbm w)) (m_batch_size (rbm w))).
    set (buffer' := new_buffer w (m_num_hidden (rbm w)) (m_batch_size (rbm w))).
    assert (wp (free_energy visible buffer')
              (fun _ w' => step (blocks [length (heap w)]) w2 w') w2) as Hwp.
    { eapply (free_energy_step (blocks [length (heap w)]) w2 w2 visible buffer'
                (length (heap w)) 0);
        [apply step_refl | apply params_ok_with_buffer; exact Hpar | exact Hreg | exact Hnh
        | eapply emap_ok_mono; [apply with_buffer_le | exact Hvis] | exact Hvrows
        | exact Hvcols | apply new_buffer_ok; lia | reflexivity | reflexivity
        | reflexivity | intros; left; reflexivity | auto]. }
    apply wp_ok in Hwp as (x & w' & Hrun & Hst). exists x, w'.
    rewrite free_energy_alloc by (auto; lia). fold w2 buffer'.
    split; [exact Hrun |]. split.
    + apply (free_energy_keeps_rbm w2 visible buffer' x w'); [| exact Hrun].
      symmetry. exact Hvcols.
    + intros b buf _ Hb. rewrite <- Hb.
      assert (heap_le (blocks [length (heap w)]) w w') as Hle.
      { eapply heap_le_trans; [| apply Hst]. apply heap_le_alloc. }
      apply (heap_le_block (blocks [length (heap w)])); [exact Hle | | eauto].
      intros n [Heq | []]. apply lookup_lt_Some in Hb. lia.
  - destruct (mat_block _ _ Hbuf) as [bo Hbp].
    assert (wp (free_energy visible buffer)
              (fun _ w' => step (blocks [block (matrix buffer)]) w w') w) as Hwp.
    { eapply (free_energy_step (blocks [block (matrix buffer)]) w w visible buffer _ bo);
        eauto; [apply step_refl | intros; left; reflexivity]. }
    apply wp_ok in Hwp as (x & w' & Hrun & Hst). exists x, w'.
    split; [exact Hrun |]. split.
    + apply (free_energy_keeps_rbm w visible buffer x w'); [| exact Hrun].
      symmetry. exact Hvcols.
    + intros b buf [Hz | Hne] Hb; [lia |]. rewrite <- Hb.
      apply (heap_le_block (blocks [block (matrix buffer)])); [apply Hst | | eauto].
      intros n [Heq | []]. congruence.
Qed.

(** X10. On a well-formed machine whose batch state has the size of the
    input, [contrastive_divergence] returns normally and writes to the
    hidden state, the visible state and the gradient vector only: with the
    gradients stored apart from them, the parameters and the input are as
    they were, and so are all fields of the machine but the random
    engine. *)
Theorem contrastive_divergence_frame w (visible_batch : SGMatrix) (gradients : SGVector) :
  params_ok w -> state_ok w -> registry_ok (rbm w) -> softmax_ok (rbm w) ->
  0 < m_num_hidden (rbm w) ->
  mat_ok w visible_batch -> num_rows visible_batch = m_num_visible (rbm w) ->
  num_cols visible_batch = m_batch_size (rbm w) ->
  layout_ok w gradients ->
  exists w',
    contrastive_divergence visible_batch gradients w = Ok tt w'
    /\ rbm w' = set_m_prng (m_prng (rbm w')) (rbm w)
    /\ forall b buf,
         b <> block (matrix (hidden_state (rbm w))) ->
         b <> block (matrix (visible_state (rbm w))) ->
         b <> block (vector gradients) ->
         heap w !! b = Some buf -> heap w' !! b = Some buf.
Proof.
  intros Hpar Hstate Hreg Hsoft Hnh Hvb Hvbrows Hvbcols Hlay.
  pose proof Hstate as (_ & Hhok & _ & _ & Hvok & _).
  destruct (mat_block _ _ Hhok) as [ho Hhp]. destruct (mat_block _ _ Hvok) as [vo Hvp].
  destruct (vec_block _ _ (proj1 Hlay)) as [go Hgp].
  set (hb := block (matrix (hidden_state (rbm w)))) in *.
  set (vb := block (matrix (visible_state (rbm w)))) in *.
  set (gb := block (vector gradients)) in *.
  set (P := blocks [hb; vb; gb]).
  assert (wp (contrastive_divergence visible_batch gradients) (fun _ w' => step P w w') w)
    as Hwp.
  { eapply (contrastive_divergence_step P w w); eauto; [apply step_refl |].
    exists hb, ho, vb, vo, gb, go. repeat split; try assumption.
    - intros d _. left. reflexivity.
    - intros d _. right. left. reflexivity.
    - intros d _. right. right. left. reflexivity. }
  apply wp_ok in Hwp as ([] & w' & Hrun & Hs & Hle). exists w'.
  split; [exact Hrun |]. split; [exact Hs |].
  intros b buf Hb1 Hb2 Hb3 Hb. rewrite <- Hb.
  apply (heap_le_block P); [exact Hle | | eauto].
  intros n Hin. unfold P, blocks in Hin. simpl in Hin. intuition congruence.
Qed.

End Frames.

(** X9 on [gaussian_machine] with no buffer: the query leaves the machine
    and its four blocks as they were. *)
Lemma free_energy_reads_only_witness :
  exists x w',
    free_energy gaussian_input SGMatrix_empty gaussian_machine = Ok x w'
    /\ rbm w' = rbm gaussian_machine
    /\ heap w' !! 2%nat = Some [0%R].
Proof.
  destruct (free_energy_reads_only gaussian_machine gaussian_input SGMatrix_empty)
    as (x & w' & Hrun & Hr & Hh).
  - unfold params_ok. simpl. repeat split; lia.
  - unfold registry_ok. simpl. repeat split; auto. repeat constructor. lia.
  - simpl. lia.
  - reflexivity.
  - reflexivity.
  - reflexivity.
  - left. reflexivity.
  - exists x, w'. split; [exact Hrun |]. split; [exact Hr |].
    apply Hh; [left; reflexivity | reflexivity].
Defined.

(** X10 on [training] with the first training column and the gradient
    vector of [training_frame]: the parameters in block 0 are as they
    were. *)
Lemma contrastive_divergence_frame_witness :
  exists w',
    contrastive_divergence (mkSGMatrix (Ptr 3 0) 1 1) (mkSGVector (Ptr 4 0) 3) training
    = Ok tt w'
    /\ heap w' !! 0%nat = Some [0%R; 1%R; 0%R].
Proof.
  destruct (contrastive_divergence_frame training (mkSGMatrix (Ptr 3 0) 1 1)
              (mkSGVector (Ptr 4 0) 3)) as (w' & Hrun & _ & Hh).
  - exact training_params.
  - exact training_state.
  - exact training_registry.
  - exact training_softmax.
  - simpl. lia.
  - reflexivity.
  - reflexivity.
  - reflexivity.
  - unfold layout_ok. split; reflexivity.
  - exists w'. split; [exact Hrun |].
    apply Hh; simpl; try lia. reflexivity.
Defined.

Section Regions.

Context {F : Type} {AF : Arith F} {G : Type} {RE : RandomEngine G F}.

#[local] Abbreviation World := (World F G).

Implicit Types (w : World) (m dst : EMap).

(** A coefficient of a map that lies apart from the map just assigned. *)
Lemma eget_write_map_other w dst m (f : Z -> Z -> F) i j b o b' o' :
  emap_ok w dst = true -> e_ptr dst = Ptr b o ->
  emap_ok w m = true -> e_ptr m = Ptr b' o' ->
  0 <= i < e_rows m -> 0 <= j < e_cols m ->
  b <> b' \/ o' + e_rows m * e_cols m <= o \/ o + e_rows dst * e_cols dst <= o' ->
  eget (write_map w dst f) m i j = eget w m i j.
Proof.
  intros Hd Hpd Hm Hpm Hi Hj Hapart.
  destruct (emap_ok_inv _ _ Hd) as (b1 & o1 & buf1 & Hp1 & _ & _ & _ & Ho1 & _).
  rewrite Hpd in Hp1. inversion Hp1; subst b1 o1. clear Hp1.
  destruct (emap_ok_inv _ _ Hm) as (b2 & o2 & buf2 & Hp2 & _ & _ & _ & Ho2 & _).
  rewrite Hpm in Hp2. inversion Hp2; subst b2 o2. clear Hp2.
  set (P := fun (b'' : nat) (n : nat) =>
              b'' = b /\ o <= Z.of_nat n < o + e_rows dst * e_cols dst).
  assert (step P w (write_map w dst f)) as Hst.
  { apply (step_write_map P w dst f b o Hpd); [| exact Ho1].
    intros d Hd'. split; [reflexivity | lia]. }
  unfold eget. rewrite Hpm. f_equal. apply (peek_frame P); [apply Hst | |].
  - rewrite <- Hpm. apply peek_in_map; [exact Hm | nia].
  - intros [-> Hin]. destruct Hapart as [Hne | Hapart]; [congruence | nia].
Qed.

End Regions.

Section GradientValues.

Context {G : Type} {RE : RandomEngine G R}.

#[local] Open Scope M_scope.

#[local] Abbreviation RBM := (RBM R G).
#[local] Abbreviation World := (World R G).
#[local] Abbreviation M := (M R G).

Implicit Types (w : World) (r : RBM) (P : footprint).

Lemma Rsum_opp n (f : Z -> R) : Rsum n (fun i => (- f i)%R) = (- Rsum n f)%R.
Proof.
  rewrite (Rsum_ext n _ (fun i => (-1 * f i)%R)) by (intros; ring).
  rewrite Rsum_scal. ring.
Qed.

(** X11. In exact arithmetic, with the batch size that of the input, the
    hidden means supplied and the gradient vector stored apart from both
    matrices: in the positive phase [free_energy_gradients] overwrites the
    three views of the gradient vector with minus the batch averages of
    [hidden_mean(i,j) * visible(k,j)], of [visible(k,j)] and of
    [hidden_mean(i,j)], whatever the vector held; in the negative phase it
    adds these averages to what the vector holds. It draws nothing and
    writes to the gradient vector only. *)
Theorem free_energy_gradients_value w (visible : SGMatrix) (gradients : SGVector)
    (positive_phase : bool) (hidden_mean : SGMatrix) :
  params_ok w -> 0 < m_num_hidden (rbm w) ->
  mat_ok w visible -> num_rows visible = m_num_visible (rbm w) ->
  num_cols visible = m_batch_size (rbm w) ->
  mat_ok w hidden_mean -> num_rows hidden_mean = m_num_hidden (rbm w) ->
  num_cols hidden_mean = m_batch_size (rbm w) ->
  layout_ok w gradients ->
  block (vector gradients) <> block (matrix visible) ->
  block (vector gradients) <> block (matrix hidden_mean) ->
  exists w',
    free_energy_gradients visible gradients positive_phase hidden_mean w = Ok tt w'
    /\ rbm w' = rbm w
    /\ (forall b buf, b <> block (vector gradients) -> heap w !! b = Some buf ->
          heap w' !! b = Some buf)
    /\ (forall i k, 0 <= i < m_num_hidden (rbm w) -> 0 <= k < m_num_visible (rbm w) ->
          weights_of w' gradients i k
          = if positive_phase then (- pair_average w hidden_mean visible i k)%R
            else (weights_of w gradients i k + pair_average w hidden_mean visible i k)%R)
    /\ (forall k, 0 <= k < m_num_visible (rbm w) ->
          visible_bias_of w' gradients k
          = if positive_phase then (- row_average w visible k)%R
            else (visible_bias_of w gradients k + row_average w visible k)%R)
    /\ (forall i, 0 <= i < m_num_hidden (rbm w) ->
          hidden_bias_of w' gradients i
          = if positive_phase then (- row_average w hidden_mean i)%R
            else (hidden_bias_of w gradients i + row_average w hidden_mean i)%R).
Proof.
  intros Hpar Hnh Hvis Hvrows Hvcols Hhm Hhrows Hhcols [Hgok Hglen] Hgv Hgh.
  pose proof Hpar as (Hnv & _ & Hlen & _ & _).
  destruct (vec_block _ _ Hgok) as [go Hgp]. destruct (mat_block _ _ Hvis) as [vo Hvp].
  destruct (mat_block _ _ Hhm) as [ho Hhp].
  set (gb := block (vector gradients)) in *. set (vb := block (matrix visible)) in *.
  set (hb := block (matrix hidden_mean)) in *.
  set (nv := m_num_visible (rbm w)) in *. set (nh := m_num_hidden (rbm w)) in *.
  set (bs := m_batch_size (rbm w)) in *.
  assert (vlen gradients <> 0) as Hnz by (rewrite Hglen, Hlen; nia).
  set (WG := EMatrix (Ptr gb (go + nv)) nh nv).
  set (BG := EVector (Ptr gb go) nv).
  set (CG := EVector (Ptr gb (go + (nv + nv * nh))) nh).
  set (PH := EMatrix (Ptr hb ho) nh bs).
  set (V := EMatrix (Ptr vb vo) nv bs).
  assert (emap_ok w WG = true) as HWG.
  { apply (emap_ok_sub w (vector gradients) (vlen gradients) nv nh nv) in Hgok;
      [rewrite Hgp in Hgok; exact Hgok | lia | lia | lia | rewrite Hglen, Hlen; lia]. }
  assert (emap_ok w BG = true) as HBG.
  { apply (emap_ok_sub w (vector gradients) (vlen gradients) 0 nv 1) in Hgok;
      [rewrite Hgp in Hgok; simpl in Hgok; rewrite Z.add_0_r in Hgok; exact Hgok
      | lia | lia | lia | rewrite Hglen, Hlen; nia]. }
  assert (emap_ok w CG = true) as HCG.
  { apply (emap_ok_sub w (vector gradients) (vlen gradients) (nv + nv * nh) nh 1) in Hgok;
      [rewrite Hgp in Hgok; exact Hgok | nia | lia | lia | rewrite Hglen, Hlen; lia]. }
  assert (emap_ok w PH = true) as HPH.
  { unfold mat_ok, mat_map in Hhm. rewrite Hhp, Hhrows, Hhcols in Hhm. exact Hhm. }
  assert (emap_ok w V = true) as HV.
  { unfold mat_ok, mat_map in Hvis. rewrite Hvp, Hvrows, Hvcols in Hvis. exact Hvis. }
  assert (0 <= bs) as Hbs.
  { destruct (emap_ok_inv _ _ HV) as (? & ? & ? & _ & _ & _ & Hc & _). exact Hc. }
  assert (forall w', rbm w' = rbm w ->
            weights_of w' gradients = eget w' WG
            /\ visible_bias_of w' gradients = (fun k => eget w' BG k 0)
            /\ hidden_bias_of w' gradients = (fun i => eget w' CG i 0)
            /\ entry w' visible = eget w' V /\ entry w' hidden_mean = eget w' PH)
    as Hviews.
  { intros w' Hr. unfold weights_of, visible_bias_of, hidden_bias_of, entry, get_weights,
      get_visible_bias, get_hidden_bias, mat_map, vec_map. rewrite Hr.
    destruct (Z.eqb_spec (vlen gradients) 0) as [Hz | _]; [contradiction |].
    cbn [matrix vector num_rows num_cols vlen]. rewrite Hgp, Hvp, Hhp, Hvrows, Hvcols,
      Hhrows, Hhcols. cbn [ptr_add]. fold nv nh bs. repeat split. }
  set (P := blocks [gb]).
  assert (forall w1, heap_le P w w1 -> forall i j, 0 <= i < nh -> 0 <= j < bs ->
            eget w1 PH i j = eget w PH i j) as HframeH.
  { intros w1 Hle i j Hi Hj. apply (eget_frame P w w1 PH i j hb ho); auto.
    intros n [Heq | []]. congruence. }
  assert (forall w1, heap_le P w w1 -> forall i j, 0 <= i < nv -> 0 <= j < bs ->
            eget w1 V i j = eget w V i j) as HframeV.
  { intros w1 Hle i j Hi Hj. apply (eget_frame P w w1 V i j vb vo); auto.
    intros n [Heq | []]. congruence. }
  destruct (Hviews w eq_refl) as (HeW & HeB & HeC & HeV & HeH).
  assert (wp (free_energy_gradients visible gradients positive_phase hidden_mean)
            (fun _ w' =>
               rbm w' = rbm w /\ heap_le P w w'
               /\ (forall i k, 0 <= i < nh -> 0 <= k < nv ->
                     eget w' WG i k
                     = if positive_phase
                       then (- pair_average w hidden_mean visible i k)%R
                       else (eget w WG i k + pair_average w hidden_mean visible i k)%R)
               /\ (forall k, 0 <= k < nv ->
                     eget w' BG k 0
                     = if positive_phase then (- row_average w visible k)%R
                       else (eget w BG k 0 + row_average w visible k)%R)
               /\ (forall i, 0 <= i < nh ->
                     eget w' CG i 0
                     = if positive_phase then (- row_average w hidden_mean i)%R
                       else (eget w CG i 0 + row_average w hidden_mean i)%R)) w) as Hwp.
  { unfold free_energy_gradients. apply wp_bind.
    apply wp_set_batch_size_same; [auto |].
    apply wp_bind, wp_get_rbm. apply wp_bind.
    destruct (Z.eqb_spec (num_rows hidden_mean) 0) as [Hz | _]; [lia |].
    apply wp_ret.
    unfold get_weights, get_visible_bias, get_hidden_bias.
    destruct (Z.eqb_spec (vlen gradients) 0) as [Hz | _]; [contradiction |].
    cbn [matrix vector]. rewrite Hgp, Hvp, Hhp, Hvrows, Hvcols. cbn [ptr_add].
    fold nv nh bs WG BG CG PH V.
    assert (forall d, 0 <= d < nh * nv -> P gb (Z.to_nat (go + nv + d))) as HfW
      by (intros; left; reflexivity).
    assert (forall d, 0 <= d < nv * 1 -> P gb (Z.to_nat (go + d))) as HfB
      by (intros; left; reflexivity).
    assert (forall d, 0 <= d < nh * 1 -> P gb (Z.to_nat (go + (nv + nv * nh) + d))) as HfC
      by (intros; left; reflexivity).
    assert (((bs =? bs) && (nh =? nh) && (nv =? nv)) = true) as Hc1
      by (rewrite !Z.eqb_refl; reflexivity).
    destruct positive_phase.
    - apply wp_bind.
      eapply (wp_eigen_assign_step P w w); [apply step_refl | exact Hc1 | | reflexivity
                                            | exact HfW |].
      { repeat constructor; assumption. }
      set (w1 := write_map w WG _). intros Hst1. apply wp_bind.
      eapply (wp_eigen_assign_step P w w1); [exact Hst1 | apply Z.eqb_refl | | reflexivity
                                             | exact HfB |].
      { repeat constructor; assumption. }
      set (w2 := write_map w1 BG _). intros Hst2.
      eapply (wp_eigen_assign_step P w w2); [exact Hst2 | apply Z.eqb_refl | | reflexivity
                                             | exact HfC |].
      { repeat constructor; assumption. }
      set (w3 := write_map w2 CG _). intros Hst3.
      assert (emap_ok w1 WG = true) as HWG1 by (eapply emap_ok_mono; [apply Hst1 | auto]).
      assert (emap_ok w1 BG = true) as HBG1 by (eapply emap_ok_mono; [apply Hst1 | auto]).
      assert (emap_ok w2 WG = true) as HWG2 by (eapply emap_ok_mono; [apply Hst2 | auto]).
      assert (emap_ok w2 BG = true) as HBG2 by (eapply emap_ok_mono; [apply Hst2 | auto]).
      assert (emap_ok w2 CG = true) as HCG2 by (eapply emap_ok_mono; [apply Hst2 | auto]).
      split; [unfold w3, w2, w1; rewrite !rbm_write_map; reflexivity |].
      split; [apply Hst3 |]. split; [| split].
      + intros i k Hi Hk. unfold w3.
        rewrite (eget_write_map_other w2 CG WG _ i k gb (go + (nv + nv * nh)) gb (go + nv))
          by (auto; simpl; try lia; right; left; simpl; nia).
        unfold w2.
        rewrite (eget_write_map_other w1 BG WG _ i k gb go gb (go + nv))
          by (auto; simpl; try lia; right; right; simpl; nia).
        unfold w1. rewrite eget_write_map by (auto; simpl; lia).
        unfold pair_average. rewrite HeH, HeV. fold bs. cbn [e_cols PH EMatrix].
        rewrite fsum_Rsum. simpl.
        rewrite (Rsum_ext bs _ (fun j => (- (eget w PH i j * eget w V k j))%R))
          by (intros; ring).
        rewrite Rsum_opp. unfold Rdiv. ring.
      + intros k Hk. unfold w3.
        rewrite (eget_write_map_other w2 CG BG _ k 0 gb (go + (nv + nv * nh)) gb go)
          by (auto; simpl; try lia; right; left; simpl; nia).
        unfold w2. rewrite eget_write_map by (auto; simpl; lia).
        unfold row_average, e_rowsum. rewrite HeV. fold bs. cbn [e_cols V EMatrix].
        rewrite fsum_Rsum. simpl. unfold Rdiv, fm1. simpl.
        rewrite (Rsum_ext bs _ (fun j => eget w V k j))
          by (intros j Hj; apply HframeV; [apply Hst1 | lia | lia]).
        ring.
      + intros i Hi. unfold w3. rewrite eget_write_map by (auto; simpl; lia).
        unfold row_average, e_rowsum. rewrite HeH. fold bs. cbn [e_cols PH EMatrix].
        rewrite fsum_Rsum. simpl. unfold Rdiv, fm1. simpl.
        rewrite (Rsum_ext bs _ (fun j => eget w PH i j))
          by (intros j Hj; apply HframeH; [apply Hst2 | lia | lia]).
        ring.
    - apply wp_bind.
      eapply (wp_eigen_assign_step P w w); [apply step_refl | exact Hc1 | | reflexivity
                                            | exact HfW |].
      { repeat constructor; assumption. }
      set (w1 := write_map w WG _). intros Hst1. apply wp_bind.
      eapply (wp_eigen_assign_step P w w1); [exact Hst1 | apply Z.eqb_refl | | reflexivity
                                             | exact HfB |].
      { repeat constructor; assumption. }
      set (w2 := write_map w1 BG _). intros Hst2.
      eapply (wp_eigen_assign_step P w w2); [exact Hst2 | apply Z.eqb_refl | | reflexivity
                                             | exact HfC |].
      { repeat constructor; assumption. }
      set (w3 := write_map w2 CG _). intros Hst3.
      assert (emap_ok w1 WG = true) as HWG1 by (eapply emap_ok_mono; [apply Hst1 | auto]).
      assert (emap_ok w1 BG = true) as HBG1 by (eapply emap_ok_mono; [apply Hst1 | auto]).
      assert (emap_ok w1 CG = true) as HCG1 by (eapply emap_ok_mono; [apply Hst1 | auto]).
      assert (emap_ok w2 WG = true) as HWG2 by (eapply emap_ok_mono; [apply Hst2 | auto]).
      assert (emap_ok w2 BG = true) as HBG2 by (eapply emap_ok_mono; [apply Hst2 | auto]).
      assert (emap_ok w2 CG = true) as HCG2 by (eapply emap_ok_mono; [apply Hst2 | auto]).
      split; [unfold w3, w2, w1; rewrite !rbm_write_map; reflexivity |].
      split; [apply Hst3 |]. split; [| split].
      + intros i k Hi Hk. unfold w3.
        rewrite (eget_write_map_other w2 CG WG _ i k gb (go + (nv + nv * nh)) gb (go + nv))
          by (auto; simpl; try lia; right; left; simpl; nia).
        unfold w2.
        rewrite (eget_write_map_other w1 BG WG _ i k gb go gb (go + nv))
          by (auto; simpl; try lia; right; right; simpl; nia).
        unfold w1. rewrite eget_write_map by (auto; simpl; lia).
        unfold pair_average, e_mult. rewrite HeH, HeV. fold bs. cbn [e_cols PH EMatrix].
        rewrite fsum_Rsum. reflexivity.
      + intros k Hk. unfold w3.
        rewrite (eget_write_map_other w2 CG BG _ k 0 gb (go + (nv + nv * nh)) gb go)
          by (auto; simpl; try lia; right; left; simpl; nia).
        unfold w2. rewrite eget_write_map by (auto; simpl; lia).
        unfold row_average, e_rowsum. rewrite HeV. fold bs. cbn [e_cols V EMatrix].
        rewrite fsum_Rsum. simpl. f_equal.
        * unfold w1.
          rewrite (eget_write_map_other w WG BG _ k 0 gb (go + nv) gb go)
            by (auto; simpl; try lia; right; left; simpl; lia).
          reflexivity.
        * f_equal. apply Rsum_ext. intros j Hj. apply HframeV; [apply Hst1 | lia | lia].
      + intros i Hi. unfold w3. rewrite eget_write_map by (auto; simpl; lia).
        unfold row_average, e_rowsum. rewrite HeH. fold bs. cbn [e_cols PH EMatrix].
        rewrite fsum_Rsum. simpl. f_equal.
        * unfold w2.
          rewrite (eget_write_map_other w1 BG CG _ i 0 gb go gb (go + (nv + nv * nh)))
            by (auto; simpl; try lia; right; right; simpl; nia).
          unfold w1.
          rewrite (eget_write_map_other w WG CG _ i 0 gb (go + nv) gb (go + (nv + nv * nh)))
            by (auto; simpl; try lia; right; right; simpl; nia).
          reflexivity.
        * f_equal. apply Rsum_ext. intros j Hj. apply HframeH; [apply Hst2 | lia | lia]. }
  apply wp_ok in Hwp as ([] & w' & Hrun & Hr & Hle & HcW & HcB & HcC).
  destruct (Hviews w' Hr) as (HeW' & HeB' & HeC' & _).
  exists w'. split; [exact Hrun |]. split; [exact Hr |]. split; [| split; [| split]].
  - intros b buf Hb Hbuf. rewrite <- Hbuf.
    apply (heap_le_block P); [exact Hle | | eauto]. intros n [Heq | []]. congruence.
  - intros i k Hi Hk. rewrite HeW', HeW. apply HcW; assumption.
  - intros k Hk. rewrite HeB', HeB. apply HcB; assumption.
  - intros i Hi. rewrite HeC', HeC. apply HcC; assumption.
Qed.

End GradientValues.

Section ErrorValues.

Context {G : Type} {RE : RandomEngine G R}.

#[local] Open Scope M_scope.

#[local] Abbreviation RBM := (RBM R G).
#[local] Abbreviation World := (World R G).
#[local] Abbreviation M := (M R G).

Implicit Types (w : World) (r : RBM) (P : footprint).




End ErrorValues.

Section Flips.

Context {F : Type} {AF : Arith F} {LF : Libm F} {G : Type} {RE : RandomEngine G F}.

#[local] Open Scope M_scope.

#[local] Abbreviation RBM := (RBM F G).
#[local] Abbreviation World := (World F G).
#[local] Abbreviation M := (M F G).

Implicit Types (w : World) (r : RBM) (P : footprint).

(** One pass of the flipping loop of [pseudo_likelihood]: the selected
    entry of every column is replaced by one minus itself, the others are
    left alone. *)
Lemma flip_indices_value w (visible : SGMatrix) indices batch b o :
  mat_ok w visible -> 0 <= batch <= num_cols visible ->
  Z.of_nat (length indices) = batch ->
  Forall (fun x => 0 <= x <= num_rows visible - 1) indices ->
  matrix visible = Ptr b o ->
  wp (flip_indices visible indices batch)
    (fun _ w' =>
       step (blocks [b]) w w' /\ rbm w' = rbm w
       /\ forall i j, 0 <= i < num_rows visible -> 0 <= j < batch ->
            peek w' (Ptr b o) (j * num_rows visible + i)
            = option_map (fun x => if flipped indices i j then fsub f1 x else x)
                (peek w (Ptr b o) (j * num_rows visible + i))) w.
Proof.
  intros Hvis Hbatch Hlen Hall Hptr.
  destruct (emap_ok_inv _ _ Hvis) as (b' & o' & buf & Hp' & Hbuf & _ & _ & Ho & Hl).
  simpl in Hp', Hl. rewrite Hptr in Hp'. inversion Hp'; subst b' o'. clear Hp'.
  set (rows := num_rows visible) in *.
  assert (forall i j, 0 <= i < rows -> 0 <= j < batch ->
            is_Some (peek w (Ptr b o) (j * rows + i))) as Hin.
  { intros i j Hi Hj. rewrite <- Hptr.
    apply (peek_in_map w (mat_map visible)); [exact Hvis |]. simpl. fold rows. nia. }
  unfold flip_indices, mat_get, mat_set. rewrite Hptr. fold rows.
  apply (wp_for (fun k w' =>
           step (blocks [b]) w w' /\ rbm w' = rbm w
           /\ forall i j, 0 <= i < rows -> 0 <= j < batch ->
                peek w' (Ptr b o) (j * rows + i)
                = option_map (fun x => if (j <? k) && flipped indices i j
                                       then fsub f1 x else x)
                    (peek w (Ptr b o) (j * rows + i)))); [lia | | |].
  - split; [apply step_refl |]. split; [reflexivity |]. intros i j Hi Hj.
    destruct (Z.ltb_spec j 0); [lia |]. cbn [andb].
    destruct (peek w (Ptr b o) (j * rows + i)); reflexivity.
  - intros k w1 Hk (Hst1 & Hr1 & Hc1).
    destruct (lookupZ_Some indices k) as [i0 Hi0]; [lia |].
    assert (0 <= i0 <= rows - 1) as Hrange.
    { unfold lookupZ in Hi0. destruct (0 <=? k); [| discriminate].
      rewrite Forall_lookup in Hall. exact (Hall _ _ Hi0). }
    destruct (Hin i0 k) as [x Hx]; [lia | lia |].
    assert (peek w1 (Ptr b o) (k * rows + i0) = Some x) as Hx1.
    { rewrite Hc1 by lia. destruct (Z.ltb_spec k k); [lia |]. cbn [andb].
      rewrite Hx. reflexivity. }
    apply wp_bind. eapply wp_at; [exact Hi0 |].
    apply wp_bind. eapply wp_load; [exact Hx1 |]. eapply wp_store; [exact Hx1 |].
    split; [| split].
    + eapply step_trans; [exact Hst1 |]. apply step_poke. left. reflexivity.
    + rewrite rbm_poke. exact Hr1.
    + intros i j Hi Hj. destruct (decide (i = i0 /\ j = k)) as [[-> ->] | Hne].
      * rewrite (peek_poke_eq _ _ _ _ _ _ Hx1). rewrite Hx.
        destruct (Z.ltb_spec k (k + 1)); [| lia]. unfold flipped. rewrite Hi0.
        rewrite Z.eqb_refl. reflexivity.
      * rewrite peek_poke_ne.
        -- rewrite Hc1 by assumption.
           assert ((j <? k + 1) && flipped indices i j = (j <? k) && flipped indices i j)
             as ->; [| reflexivity].
           destruct (Z.ltb_spec j k), (Z.ltb_spec j (k + 1)); try reflexivity; try lia.
           assert (j = k) by lia. subst j. unfold flipped. rewrite Hi0. cbn [andb].
           destruct (Z.eqb_spec i i0); [| reflexivity]. exfalso. apply Hne. auto.
        -- nia.
        -- right. intros Heq. apply Hne.
           destruct (cell_index_inj rows i0 k i j); [lia | lia | lia |]. auto.
  - intros w' (Hst & Hr & Hc). split; [exact Hst |]. split; [exact Hr |].
    intros i j Hi Hj. rewrite Hc by assumption.
    destruct (Z.ltb_spec j batch); [reflexivity | lia].
Qed.

(** The indices that [random::fill_array] draws lie in their range, and
    drawing them writes nothing. *)
Lemma fill_array_int_range `{!RandomEngineSpec G F} n a b :
  a <= b ->
  forall w,
  wp (fill_array_int n a b)
    (fun l w' =>
       length l = n /\ Forall (fun x => a <= x <= b) l
       /\ heap w' = heap w /\ rbm_stable w w') w.
Proof.
  intros Hab. induction n as [| n IH]; intros w; simpl.
  - apply wp_ret. repeat split; [constructor | apply rbm_stable_refl].
  - apply wp_bind. unfold wp at 1, draw_int.
    pose proof (uniform_int_range a b (m_prng (rbm w)) Hab) as Hrange.
    destruct (uniform_int a b (m_prng (rbm w))) as [x g].
    apply wp_bind. eapply wp_mono; [apply IH |].
    intros l w' (Hlen & Hall & Hh & Hs). apply wp_ret.
    split; [simpl; lia |]. split; [constructor; [exact Hrange | exact Hall] |].
    split; [exact Hh |].
    eapply rbm_stable_trans; [apply rbm_stable_prng | exact Hs].
Qed.

End Flips.

Section PseudoLikelihood.

Context {G : Type} {RE : RandomEngine G R} {RES : RandomEngineSpec G R}.

#[local] Open Scope M_scope.

#[local] Abbreviation RBM := (RBM R G).
#[local] Abbreviation World := (World R G).
#[local] Abbreviation M := (M R G).

Implicit Types (w : World) (r : RBM) (P : footprint).

(** The formula reads the store and the fields other than the engine. *)
Lemma free_energy_formula_same w w1 (visible : SGMatrix) :
  heap w1 = heap w -> rbm_stable w w1 ->
  free_energy_formula w1 visible = free_energy_formula w visible.
Proof.
  intros Hh Hs. destruct w as [r h], w1 as [r1 h1]. simpl in Hh. subst h1.
  unfold rbm_stable in Hs. simpl in Hs. rewrite Hs. generalize (m_prng r1). intros g.
  destruct r. reflexivity.
Qed.

Lemma likelihood_of_negative num_visible e1 e2 :
  0 < num_visible -> (likelihood_of num_visible e1 e2 < 0)%R.
Proof.
  intros Hnv. unfold likelihood_of.
  assert (0 < IZR num_visible)%R as Hpos by (apply IZR_lt; exact Hnv).
  pose proof (exp_pos (e1 - e2)) as He.
  assert (0 < 1 / (1 + exp (e1 - e2)) < 1)%R as [Hlo Hhi].
  { unfold Rdiv. rewrite Rmult_1_l. split.
    - apply Rinv_0_lt_compat. lra.
    - apply Rmult_lt_reg_r with (1 + exp (e1 - e2))%R; [lra |].
      rewrite Rinv_l by lra. lra. }
  pose proof (ln_increasing _ _ Hlo Hhi) as Hln. rewrite ln_1 in Hln.
  rewrite <- (Rmult_0_r (IZR num_visible)). apply Rmult_lt_compat_l; assumption.
Qed.

(** [pseudo_likelihood] with a buffer of its own. *)
Lemma pseudo_likelihood_run w (visible buffer : SGMatrix) :
  params_ok w -> registry_ok (rbm w) -> all_binary (rbm w) ->
  0 < m_num_hidden (rbm w) -> 0 < m_num_visible (rbm w) ->
  mat_ok w visible -> num_rows visible = m_num_visible (rbm w) ->
  num_cols visible = m_batch_size (rbm w) ->
  mat_ok w buffer -> num_rows buffer = m_num_hidden (rbm w) ->
  num_cols buffer = m_batch_size (rbm w) ->
  block (matrix buffer) <> block (vector (m_params (rbm w))) ->
  block (matrix buffer) <> block (matrix visible) ->
  block (matrix visible) <> block (vector (m_params (rbm w))) ->
  wp (pseudo_likelihood visible buffer)
    (fun x w' =>
       exists indices wf,
         Z.of_nat (length indices) = m_batch_size (rbm w)
         /\ Forall (fun i => 0 <= i <= m_num_visible (rbm w) - 1) indices
         /\ step (blocks [block (matrix buffer); block (matrix visible)]) w wf
         /\ (forall i j, 0 <= i < m_num_visible (rbm w) -> 0 <= j < m_batch_size (rbm w) ->
               entry wf visible i j
               = if flipped indices i j then (1 - entry w visible i j)%R
                 else entry w visible i j)
         /\ x = likelihood_of (m_num_visible (rbm w))
                  (free_energy_formula w visible) (free_energy_formula wf visible)
         /\ step (blocks [block (matrix buffer); block (matrix visible)]) w w'
         /\ forall i j, 0 <= i < m_num_visible (rbm w) -> 0 <= j < m_batch_size (rbm w) ->
              entry w' visible i j = entry w visible i j) w.
Proof.
  intros Hpar Hreg Hbin Hnh Hnv Hvis Hvrows Hvcols Hbuf Hbrows Hbcols Hbp Hbv Hvpn.
  pose proof Hpar as (_ & _ & _ & _ & Hpok).
  destruct (vec_block _ _ Hpok) as [po Hpp]. destruct (mat_block _ _ Hvis) as [vo Hvp].
  destruct (mat_block _ _ Hbuf) as [bo Hbp'].
  set (pb := block (vector (m_params (rbm w)))) in *.
  set (vb := block (matrix visible)) in *. set (bb := block (matrix buffer)) in *.
  destruct (emap_ok_inv _ _ Hvis) as (vb' & vo' & vbuf & _ & _ & _ & Hbs & _).
  simpl in Hbs. rewrite Hvcols in Hbs.
  set (nv := m_num_visible (rbm w)) in *. set (bs := m_batch_size (rbm w)) in *.
  set (P := blocks [bb; vb]).
  assert (forall w1, step P w w1 -> forall i j, 0 <= i < nv -> 0 <= j < bs ->
            is_Some (peek w1 (Ptr vb vo) (j * nv + i))) as Hin.
  { intros w1 Hst1 i j Hi Hj. rewrite <- Hvp, <- Hvrows.
    apply (peek_in_map w1 (mat_map visible));
      [eapply emap_ok_mono; [apply Hst1 | exact Hvis] | simpl; rewrite Hvrows, Hvcols; nia]. }
  assert (forall w1 w2, step P w w1 -> step (blocks [bb]) w1 w2 ->
            forall i j, 0 <= i < nv -> 0 <= j < bs ->
            peek w2 (Ptr vb vo) (j * nv + i) = peek w1 (Ptr vb vo) (j * nv + i)) as Hkeep.
  { intros w1 w2 Hst1 Hst2 i j Hi Hj. apply (peek_frame (blocks [bb])); [apply Hst2 | |].
    - apply Hin; assumption.
    - intros [Heq | []]. congruence. }
  assert (forall w1, step P w w1 ->
            params_ok w1 /\ registry_ok (rbm w1) /\ 0 < m_num_hidden (rbm w1)
            /\ mat_ok w1 visible /\ num_rows visible = m_num_visible (rbm w1)
            /\ num_cols visible = m_batch_size (rbm w1)
            /\ mat_ok w1 buffer /\ num_rows buffer = m_num_hidden (rbm w1)
            /\ num_cols buffer = m_batch_size (rbm w1)
            /\ vector (m_params (rbm w1)) = Ptr pb po) as Hready.
  { intros w1 Hst1. pose proof (stable_fields _ _ (proj1 Hst1)) as Hf.
    split; [eapply params_ok_step; eauto |].
    split; [eapply registry_ok_step; eauto |].
    destruct Hst1 as [Hs Hle]. stable_rw Hs.
    repeat split; auto; eapply emap_ok_mono; eauto. }
  unfold pseudo_likelihood. apply wp_bind, wp_get_rbm.
  apply wp_bind. unfold wp at 1. rewrite (binary_check_passes w Hreg Hbin).
  apply wp_bind. apply wp_set_batch_size_same; [auto |].
  apply wp_bind, wp_get_rbm. apply wp_bind.
  destruct (Z.eqb_spec (num_rows buffer) 0) as [Hz | _]; [lia |].
  apply wp_ret. apply wp_bind, wp_assume; [apply Z.leb_le; exact Hbs |].
  apply wp_bind. eapply wp_mono; [apply (fill_array_int_range _ 0 (nv - 1)); lia |].
  intros indices w2 (Hlen & Hall & Hh2 & Hs2). cbv beta.
  assert (step P w w2) as Hst2 by (split; [exact Hs2 | apply heap_le_same_heap; exact Hh2]).
  destruct (Hready w2 Hst2) as (Hpar2 & Hreg2 & Hnh2 & Hvis2 & Hvr2 & Hvc2 & Hbuf2 & Hbr2
                                 & Hbc2 & Hpp2).
  apply wp_bind. eapply wp_mono.
  { apply (free_energy_value_buffer w2 visible buffer pb po vb vo bb bo); auto. }
  intros e1 w3 [-> Hst23]. cbv beta.
  assert (step P w w3) as Hst3.
  { eapply step_trans; [exact Hst2 |]. eapply step_weaken; [| exact Hst23].
    intros b n [Heq | []]. left. exact Heq. }
  destruct (Hready w3 Hst3) as (_ & _ & _ & Hvis3 & _).
  apply wp_bind. eapply wp_mono.
  { apply (flip_indices_value w3 visible indices bs vb vo); auto; try lia.
    rewrite Hvrows. exact Hall. }
  intros [] w4 (Hst34 & Hr4 & Hc4). cbv beta. rewrite Hvrows in Hc4. fold nv in Hc4.
  assert (step P w w4) as Hst4.
  { eapply step_trans; [exact Hst3 |]. eapply step_weaken; [| exact Hst34].
    intros b n [Heq | []]. right. left. exact Heq. }
  destruct (Hready w4 Hst4) as (Hpar4 & Hreg4 & Hnh4 & Hvis4 & Hvr4 & Hvc4 & Hbuf4 & Hbr4
                                 & Hbc4 & Hpp4).
  apply wp_bind. eapply wp_mono.
  { apply (free_energy_value_buffer w4 visible buffer pb po vb vo bb bo); auto. }
  intros e2 w5 [-> Hst45]. cbv beta.
  assert (step P w w5) as Hst5.
  { eapply step_trans; [exact Hst4 |]. eapply step_weaken; [| exact Hst45].
    intros b n [Heq | []]. left. exact Heq. }
  destruct (Hready w5 Hst5) as (_ & _ & _ & Hvis5 & _).
  apply wp_bind. eapply wp_mono.
  { apply (flip_indices_value w5 visible indices bs vb vo); auto; try lia.
    rewrite Hvrows. exact Hall. }
  intros [] w6 (Hst56 & Hr6 & Hc6). cbv beta. rewrite Hvrows in Hc6. fold nv in Hc6.
  assert (step P w w6) as Hst6.
  { eapply step_trans; [exact Hst5 |]. eapply step_weaken; [| exact Hst56].
    intros b n [Heq | []]. right. left. exact Heq. }
  apply wp_ret. exists indices, w4.
  assert (forall i j, 0 <= i < nv -> 0 <= j < bs ->
            exists x, peek w (Ptr vb vo) (j * nv + i) = Some x
                      /\ peek w3 (Ptr vb vo) (j * nv + i) = Some x) as Hw3.
  { intros i j Hi Hj. destruct (Hin w (step_refl P w) i j Hi Hj) as [x Hx]. exists x.
    split; [exact Hx |]. rewrite (Hkeep w2 w3 Hst2 Hst23 i j Hi Hj).
    rewrite (peek_same_heap w w2) by exact Hh2. exact Hx. }
  assert (forall i j, 0 <= i < nv -> 0 <= j < bs ->
            entry w4 visible i j
            = if flipped indices i j then (1 - entry w visible i j)%R
              else entry w visible i j) as Hflip.
  { intros i j Hi Hj. rewrite !entry_peek, Hvp, Hvrows. fold nv.
    destruct (Hw3 i j Hi Hj) as (x & Hx & Hx3).
    rewrite Hc4, Hx3, Hx by assumption. simpl.
    destruct (flipped indices i j); reflexivity. }
  split; [lia |]. split; [exact Hall |]. split; [exact Hst4 |]. split; [exact Hflip |].
  split; [| split; [exact Hst6 |]].
  - unfold likelihood_of. fold nv. simpl.
    rewrite (free_energy_formula_same w w2 visible Hh2 Hs2). reflexivity.
  - intros i j Hi Hj. rewrite !entry_peek, Hvp, Hvrows. fold nv.
    destruct (Hw3 i j Hi Hj) as (x & Hx & Hx3).
    rewrite Hc6 by assumption. rewrite (Hkeep w4 w5 Hst4 Hst45 i j Hi Hj).
    rewrite Hc4, Hx3, Hx by assumption. simpl.
    destruct (flipped indices i j); [| reflexivity]. unfold f1. simpl. ring.
Qed.

(** [pseudo_likelihood] with the buffer it is given, or with the one it
    allocates. *)
Lemma pseudo_likelihood_outcome w (visible buffer : SGMatrix) :
  params_ok w -> registry_ok (rbm w) -> all_binary (rbm w) ->
  0 < m_num_hidden (rbm w) -> 0 < m_num_visible (rbm w) ->
  mat_ok w visible -> num_rows visible = m_num_visible (rbm w) ->
  num_cols visible = m_batch_size (rbm w) ->
  buffer_fits w buffer (m_num_hidden (rbm w)) (m_batch_size (rbm w)) ->
  block (matrix visible) <> block (vector (m_params (rbm w))) ->
  (num_rows buffer <> 0 ->
   block (matrix buffer) <> block (vector (m_params (rbm w)))
   /\ block (matrix buffer) <> block (matrix visible)) ->
  exists x w' indices wf,
    pseudo_likelihood visible buffer w = Ok x w'
    /\ Z.of_nat (length indices) = m_batch_size (rbm w)
    /\ Forall (fun i => 0 <= i <= m_num_visible (rbm w) - 1) indices
    /\ (forall w1, w1 = wf \/ w1 = w' ->
          rbm w1 = set_m_prng (m_prng (rbm w1)) (rbm w)
          /\ forall b buf,
               b <> block (matrix visible) ->
               num_rows buffer = 0 \/ b <> block (matrix buffer) ->
               heap w !! b = Some buf -> heap w1 !! b = Some buf)
    /\ (forall i j, 0 <= i < m_num_visible (rbm w) -> 0 <= j < m_batch_size (rbm w) ->
          entry wf visible i j
          = if flipped indices i j then (1 - entry w visible i j)%R
            else entry w visible i j)
    /\ x = likelihood_of (m_num_visible (rbm w))
             (free_energy_formula w visible) (free_energy_formula wf visible)
    /\ forall i j, 0 <= i < m_num_visible (rbm w) -> 0 <= j < m_batch_size (rbm w) ->
         entry w' visible i j = entry w visible i j.
Proof.
  intros Hpar Hreg Hbin Hnh Hnv Hvis Hvrows Hvcols Hfit Hvp Hapart.
  destruct (emap_ok_inv _ _ Hvis) as (vb' & vo' & vbuf & _ & _ & _ & Hbs & _).
  simpl in Hbs. rewrite Hvcols in Hbs.
  destruct Hfit as [Hz | (Hbuf & Hbrows & Hbcols)].
  - rewrite pseudo_likelihood_alloc by (auto; lia).
    set (w2 := with_buffer w (m_num_hidden (rbm w)) (m_batch_size (rbm w))).
    set (buffer' := new_buffer w (m_num_hidden (rbm w)) (m_batch_size (rbm w))).
    destruct (block_of_ok _ _ Hvis) as (vb & vo & Hvptr & Hvlt).
    pose proof Hpar as (_ & _ & _ & _ & Hpok).
    destruct (emap_ok_inv _ _ Hpok) as (pb & po & pbuf & Hpp & Hpb & _).
    apply lookup_lt_Some in Hpb. simpl in Hpp.
    pose proof (pseudo_likelihood_run w2 visible buffer') as Hwp.
    apply wp_ok in Hwp as (x & w' & Hrun & indices & wf & Hlen & Hall & Hstf & Hflip & Hx
                            & Hst' & Hback);
      [| apply params_ok_with_buffer; exact Hpar | exact Hreg | exact Hbin | exact Hnh
       | exact Hnv | eapply emap_ok_mono; [apply with_buffer_le | exact Hvis] | exact Hvrows
       | exact Hvcols | apply new_buffer_ok; lia | reflexivity | reflexivity
       | unfold w2, buffer'; cbn [with_buffer rbm new_buffer matrix block]; rewrite Hpp;
         cbn [block]; lia
       | unfold buffer'; rewrite Hvptr; cbn [new_buffer matrix block]; lia
       | exact Hvp].
    assert (forall i j, 0 <= i < m_num_visible (rbm w) -> 0 <= j < m_batch_size (rbm w) ->
              entry w2 visible i j = entry w visible i j) as Hsame.
    { intros i j Hi Hj. apply (eget_with_buffer _ _ _ _ _ _ vb vo); [exact Hvptr | exact Hvlt]. }
    exists x, w', indices, wf. split; [exact Hrun |]. split; [exact Hlen |].
    split; [exact Hall |]. split; [| split; [| split]].
    + assert (forall w1, step (blocks [block (matrix buffer'); block (matrix visible)]) w2 w1 ->
                rbm w1 = set_m_prng (m_prng (rbm w1)) (rbm w)
                /\ forall b buf, b <> block (matrix visible) ->
                     num_rows buffer = 0 \/ b <> block (matrix buffer) ->
                     heap w !! b = Some buf -> heap w1 !! b = Some buf) as Hframe.
      { intros w1 [Hs Hle]. split; [exact Hs |]. intros b buf Hb _ Hbuf. rewrite <- Hbuf.
        assert (heap_le (blocks [block (matrix buffer'); block (matrix visible)]) w w1)
          as Hle1 by (eapply heap_le_trans; [apply heap_le_alloc | exact Hle]).
        eapply heap_le_block; [exact Hle1 | | eauto].
        intros n Hin. unfold blocks in Hin. simpl in Hin. apply lookup_lt_Some in Hbuf.
        destruct Hin as [Heq | [Heq | []]]; [lia | congruence]. }
      intros w1 [-> | ->]; apply Hframe; assumption.
    + intros i j Hi Hj. rewrite (Hflip i j Hi Hj), Hsame by assumption. reflexivity.
    + rewrite Hx. f_equal. apply free_energy_formula_with_buffer; assumption.
    + intros i j Hi Hj. rewrite (Hback i j Hi Hj). apply Hsame; assumption.
  - assert (num_rows buffer <> 0) as Hnz by lia. destruct (Hapart Hnz) as [Hbp Hbv].
    pose proof (pseudo_likelihood_run w visible buffer) as Hwp.
    apply wp_ok in Hwp as (x & w' & Hrun & indices & wf & Hlen & Hall & Hstf & Hflip & Hx
                            & Hst' & Hback); auto.
    exists x, w', indices, wf. split; [exact Hrun |]. split; [exact Hlen |].
    split; [exact Hall |]. split; [| split; [exact Hflip | split; [exact Hx | exact Hback]]].
    assert (forall w1, step (blocks [block (matrix buffer); block (matrix visible)]) w w1 ->
              rbm w1 = set_m_prng (m_prng (rbm w1)) (rbm w)
              /\ forall b buf, b <> block (matrix visible) ->
                   num_rows buffer = 0 \/ b <> block (matrix buffer) ->
                   heap w !! b = Some buf -> heap w1 !! b = Some buf) as Hframe.
    { intros w1 [Hs Hle]. split; [exact Hs |]. intros b buf Hb [Hz | Hb'] Hbuf0; [lia |].
      rewrite <- Hbuf0. eapply heap_le_block; [exact Hle | | eauto].
      intros n Hin. unfold blocks in Hin. simpl in Hin. intuition congruence. }
    intros w1 [-> | ->]; apply Hframe; assumption.
Qed.

(** X13. In exact arithmetic, on a well-formed machine of Binary groups
    whose batch size is that of the input, with the input and the buffer
    stored apart from the parameters and from each other:
    [pseudo_likelihood] returns a negative number and, having flipped one
    entry per column of its input twice, leaves every entry of the input as
    it found it; it writes to the input and the buffer only, and of the
    machine only the random engine changes. *)
Theorem pseudo_likelihood_restores_input w (visible buffer : SGMatrix) :
  params_ok w -> registry_ok (rbm w) -> all_binary (rbm w) ->
  0 < m_num_hidden (rbm w) -> 0 < m_num_visible (rbm w) ->
  mat_ok w visible -> num_rows visible = m_num_visible (rbm w) ->
  num_cols visible = m_batch_size (rbm w) ->
  buffer_fits w buffer (m_num_hidden (rbm w)) (m_batch_size (rbm w)) ->
  block (matrix visible) <> block (vector (m_params (rbm w))) ->
  (num_rows buffer <> 0 ->
   block (matrix buffer) <> block (vector (m_params (rbm w)))
   /\ block (matrix buffer) <> block (matrix visible)) ->
  exists x w',
    pseudo_likelihood visible buffer w = Ok x w'
    /\ (x < 0)%R
    /\ rbm w' = set_m_prng (m_prng (rbm w')) (rbm w)
    /\ (forall i j, 0 <= i < m_num_visible (rbm w) -> 0 <= j < m_batch_size (rbm w) ->
          entry w' visible i j = entry w visible i j)
    /\ forall b buf,
         b <> block (matrix visible) ->
         num_rows buffer = 0 \/ b <> block (matrix buffer) ->
         heap w !! b = Some buf -> heap w' !! b = Some buf.
Proof.
  intros Hpar Hreg Hbin Hnh Hnv Hvis Hvrows Hvcols Hfit Hvp Hapart.
  destruct (pseudo_likelihood_outcome w visible buffer)
    as (x & w' & indices & wf & Hrun & _ & _ & Hframe & _ & Hx & Hback); auto.
  destruct (Hframe w' (or_intror eq_refl)) as [Hr Hh].
  exists x, w'. split; [exact Hrun |].
  split; [rewrite Hx; apply likelihood_of_negative; exact Hnv |].
  split; [exact Hr |]. split; [exact Hback | exact Hh].
Qed.

(** X14. Under the same conditions the number that [pseudo_likelihood]
    returns is [m_num_visible * log(1 / (1 + exp(F(v) - F(v'))))], where
    [F] is the free energy, [v] the input and [v'] the input with entry
    [(indices[j], j)] of every column [j] replaced by one minus itself, for
    row indices drawn from [0, m_num_visible - 1], one per column. *)
Theorem pseudo_likelihood_value w (visible buffer : SGMatrix) :
  params_ok w -> registry_ok (rbm w) -> all_binary (rbm w) ->
  0 < m_num_hidden (rbm w) -> 0 < m_num_visible (rbm w) ->
  mat_ok w visible -> num_rows visible = m_num_visible (rbm w) ->
  num_cols visible = m_batch_size (rbm w) ->
  buffer_fits w buffer (m_num_hidden (rbm w)) (m_batch_size (rbm w)) ->
  block (matrix visible) <> block (vector (m_params (rbm w))) ->
  (num_rows buffer <> 0 ->
   block (matrix buffer) <> block (vector (m_params (rbm w)))
   /\ block (matrix buffer) <> block (matrix visible)) ->
  exists x w' indices wf,
    pseudo_likelihood visible buffer w = Ok x w'
    /\ Z.of_nat (length indices) = m_batch_size (rbm w)
    /\ Forall (fun i => 0 <= i <= m_num_visible (rbm w) - 1) indices
    /\ rbm wf = set_m_prng (m_prng (rbm wf)) (rbm w)
    /\ (forall b buf,
          b <> block (matrix visible) ->
          num_rows buffer = 0 \/ b <> block (matrix buffer) ->
          heap w !! b = Some buf -> heap wf !! b = Some buf)
    /\ (forall i j, 0 <= i < m_num_visible (rbm w) -> 0 <= j < m_batch_size (rbm w) ->
          entry wf visible i j
          = if flipped indices i j then (1 - entry w visible i j)%R
            else entry w visible i j)
    /\ x = (IZR (m_num_visible (rbm w))
            * ln (1 / (1 + exp (free_energy_formula w visible
                                - free_energy_formula wf visible))))%R.
Proof.
  intros Hpar Hreg Hbin Hnh Hnv Hvis Hvrows Hvcols Hfit Hvp Hapart.
  destruct (pseudo_likelihood_outcome w visible buffer)
    as (x & w' & indices & wf & Hrun & Hlen & Hall & Hframe & Hflip & Hx & _); auto.
  destruct (Hframe wf (or_introl eq_refl)) as [Hr Hh].
  exists x, w', indices, wf. split; [exact Hrun |]. split; [exact Hlen |].
  split; [exact Hall |]. split; [exact Hr |]. split; [exact Hh |].
  split; [exact Hflip | exact Hx].
Qed.

End PseudoLikelihood.

(** X11 on [training], in the positive phase, with the training column 1,
    the hidden mean 0 and the gradient vector of [training_frame]: the
    gradient of the visible bias becomes -1. *)
Lemma free_energy_gradients_value_witness :
  exists w',
    free_energy_gradients (mkSGMatrix (Ptr 3 0) 1 1) (mkSGVector (Ptr 4 0) 3) true
      (mkSGMatrix (Ptr 1 0) 1 1) training = Ok tt w'
    /\ visible_bias_of w' (mkSGVector (Ptr 4 0) 3) 0 = (-1)%R.
Proof.
  destruct (free_energy_gradients_value training (mkSGMatrix (Ptr 3 0) 1 1)
              (mkSGVector (Ptr 4 0) 3) true (mkSGMatrix (Ptr 1 0) 1 1))
    as (w' & Hrun & _ & _ & _ & Hb & _).
  - exact training_params.
  - simpl. lia.
  - reflexivity.
  - reflexivity.
  - reflexivity.
  - reflexivity.
  - reflexivity.
  - reflexivity.
  - unfold layout_ok. split; reflexivity.
  - simpl. lia.
  - simpl. lia.
  - exists w'. split; [exact Hrun |]. rewrite Hb by (simpl; lia).
    unfold row_average, entry, Rsum, eget. simpl. field.
Defined.


Lemma training_binary : all_binary (rbm training).
Proof. repeat constructor. Qed.

(** X13 on [training] with its first training column and no buffer: the
    value is negative and the column still holds 1. *)
Lemma pseudo_likelihood_restores_input_witness :
  exists x w',
    pseudo_likelihood (mkSGMatrix (Ptr 3 0) 1 1) SGMatrix_empty training = Ok x w'
    /\ (x < 0)%R
    /\ entry w' (mkSGMatrix (Ptr 3 0) 1 1) 0 0 = 1%R.
Proof.
  destruct (pseudo_likelihood_restores_input training (mkSGMatrix (Ptr 3 0) 1 1)
              SGMatrix_empty) as (x & w' & Hrun & Hneg & _ & Hback & _).
  - exact training_params.
  - exact training_registry.
  - exact training_binary.
  - simpl. lia.
  - simpl. lia.
  - reflexivity.
  - reflexivity.
  - reflexivity.
  - left. reflexivity.
  - simpl. lia.
  - simpl. intros H. contradiction.
  - exists x, w'. split; [exact Hrun |]. split; [exact Hneg |].
    rewrite Hback by (simpl; lia). reflexivity.
Defined.

(** X14 on [training] with its first training column and the buffer of
    [training_frame]: one index is drawn, and it is 0. *)
Lemma pseudo_likelihood_value_witness :
  exists x w' indices (wf : World R (Tape R)),
    pseudo_likelihood (mkSGMatrix (Ptr 3 0) 1 1) (mkSGMatrix (Ptr 6 0) 1 1) training
    = Ok x w'
    /\ indices = [0]
    /\ x = (1 * ln (1 / (1 + exp (free_energy_formula training (mkSGMatrix (Ptr 3 0) 1 1)
                                   - free_energy_formula wf (mkSGMatrix (Ptr 3 0) 1 1)))))%R.
Proof.
  destruct (pseudo_likelihood_value training (mkSGMatrix (Ptr 3 0) 1 1)
              (mkSGMatrix (Ptr 6 0) 1 1))
    as (x & w' & indices & wf & Hrun & Hlen & Hall & _ & _ & _ & Hx).
  - exact training_params.
  - exact training_registry.
  - exact training_binary.
  - simpl. lia.
  - simpl. lia.
  - reflexivity.
  - reflexivity.
  - reflexivity.
  - right. repeat split.
  - simpl. lia.
  - simpl. intros _. split; lia.
  - exists x, w', indices, wf. split; [exact Hrun |]. split; [| exact Hx].
    destruct indices as [| i [| i' rest]]; simpl in Hlen; try lia.
    inversion Hall as [| ? ? Hi _]. simpl in Hi. f_equal. lia.
Defined.

(** * Sampling a group *)

Section SampleGroup.

Context {F : Type} {AF : Arith F} {LF : Libm F} {G : Type} {RE : RandomEngine G F}.

#[local] Open Scope M_scope.

#[local] Abbreviation RBM := (RBM F G).
#[local] Abbreviation World := (World F G).
#[local] Abbreviation M := (M F G).

Implicit Types (w : World) (r : RBM) (P : footprint).

(** [sample] on a machine whose batch state already has the size asked
    for runs its Gibbs steps on the two state matrices. *)
Lemma sample_same w num_gibbs_steps :
  params_ok w -> state_ok w -> registry_ok (rbm w) -> softmax_ok (rbm w) ->
  wp (sample num_gibbs_steps (m_batch_size (rbm w)))
    (fun _ w' =>
       step (blocks [block (matrix (hidden_state (rbm w)));
                     block (matrix (visible_state (rbm w)))]) w w') w.
Proof.
  intros Hpar Hstate Hreg Hsoft.
  pose proof Hstate as (Hbs & Hhok & Hhrows & Hhcols & Hvok & Hvrows & Hvcols).
  destruct (mat_block _ _ Hhok) as [ho Hhp]. destruct (mat_block _ _ Hvok) as [vo Hvp].
  set (hb := block (matrix (hidden_state (rbm w)))) in *.
  set (vb := block (matrix (visible_state (rbm w)))) in *.
  set (P := blocks [hb; vb]).
  assert (forall d, P hb d) as HPh by (intros d; left; reflexivity).
  assert (forall d, P vb d) as HPv by (intros d; right; left; reflexivity).
  unfold sample. apply wp_bind, wp_set_batch_size_same; [reflexivity |].
  apply wp_bind, wp_get_rbm.
  apply (wp_for_inv (fun w' => step P w w')); [apply step_refl |].
  intros n w2 Hn Hst2.
  apply wp_bind. eapply mean_hidden_step; eauto; try congruence. intros w3 Hst3.
  apply wp_bind. eapply sample_hidden_step; eauto; try lia. intros w4 Hst4.
  apply wp_bind. eapply mean_visible_step; eauto; try congruence; try lia.
  intros w5 Hst5.
  destruct (n <? num_gibbs_steps - 1); [| apply wp_ret; exact Hst5].
  eapply sample_visible_step; eauto; try congruence; try lia.
Qed.

Lemma sample_group_resized w w1 V num_gibbs_steps batch_size :
  set_batch_size batch_size w = Ok tt w1 ->
  m_batch_size (rbm w1) = batch_size ->
  m_num_visible_groups (rbm w1) = m_num_visible_groups (rbm w) ->
  V < m_num_visible_groups (rbm w) ->
  sample_group V num_gibbs_steps batch_size w
  = sample_group V num_gibbs_steps batch_size w1.
Proof.
  intros Hrun Hbs Hgroups HV. unfold sample_group.
  rewrite !bind_get_rbm. cbv beta. rewrite Hgroups.
  destruct (Z.ltb_spec V (m_num_visible_groups (rbm w))); [| lia].
  rewrite !bind_require_true. unfold sample.
  unfold bind at 1 3. rewrite (bind_set_batch_size_resized batch_size _ w w1 Hrun Hbs).
  reflexivity.
Qed.

(** [sample_group] on a machine whose batch state already has the size
    asked for. *)
Lemma sample_group_same w V num_gibbs_steps off size :
  params_ok w -> state_ok w -> registry_ok (rbm w) -> softmax_ok (rbm w) ->
  0 <= V < m_num_visible_groups (rbm w) ->
  lookupZ (m_visible_state_offsets (rbm w)) V = Some off ->
  lookupZ (m_visible_group_sizes (rbm w)) V = Some size ->
  wp (sample_group V num_gibbs_steps (m_batch_size (rbm w)))
    (fun result w' =>
       exists w1,
         step (blocks [block (matrix (hidden_state (rbm w)));
                       block (matrix (visible_state (rbm w)))]) w w1
         /\ result = mkSGMatrix (Ptr (length (heap w1)) 0) size (m_batch_size (rbm w))
         /\ rbm_stable w1 w' /\ heap_le no_cell w1 w'
         /\ forall i j, 0 <= i < size -> 0 <= j < m_batch_size (rbm w) ->
              is_Some (peek w' (matrix result) (j * size + i))
              /\ peek w' (matrix result) (j * size + i)
                 = peek w' (matrix (visible_state (rbm w)))
                     (j * m_num_visible (rbm w) + (i + off))) w.
Proof.
  intros Hpar Hstate Hreg Hsoft HV Hoff Hsz.
  destruct (registry_group _ V Hreg HV) as (off' & size' & t & Hoff' & Hsz' & _ & ? & ? & ?).
  assert (off' = off) as -> by congruence. assert (size' = size) as -> by congruence.
  pose proof Hstate as (Hbs & Hhok & Hhrows & Hhcols & Hvok & Hvrows & Hvcols).
  destruct (mat_block _ _ Hvok) as [vo Hvp].
  unfold sample_group. apply wp_bind, wp_get_rbm.
  apply wp_bind, wp_require; [apply Z.ltb_lt; lia |].
  apply wp_bind. eapply wp_mono; [apply sample_same; assumption |].
  cbv beta. intros [] w1 Hst1.
  pose proof (stable_fields _ _ (proj1 Hst1)) as Hf.
  assert (mat_ok w1 (visible_state (rbm w))) as Hvok1
    by (eapply emap_ok_mono; [apply Hst1 | exact Hvok]).
  eapply wp_mono.
  { apply (copy_group_spec w1 V off size (block (matrix (visible_state (rbm w)))) vo);
      destruct Hst1 as [Hs _]; stable_rw Hs; auto. }
  cbv beta. intros result w' (Hres & Hs' & Hle' & Hc).
  destruct Hst1 as [Hs1 Hle1]. stable_rw Hs1.
  exists w1. split; [split; assumption |]. split; [exact Hres |].
  split; [exact Hs' |]. split; [exact Hle' |].
  intros i j Hi Hj. rewrite Hres. cbn [matrix].
  assert (is_Some (peek w1 (Ptr (block (matrix (visible_state (rbm w)))) vo)
                     (j * m_num_visible (rbm w) + (i + off)))) as Hin.
  { rewrite <- Hvp. apply (peek_in_map w1 (mat_map (visible_state (rbm w))));
      [exact Hvok1 | simpl; rewrite Hvrows, Hvcols; nia]. }
  rewrite Hc by assumption. split; [exact Hin |].
  rewrite Hvp. symmetry. apply (peek_frame no_cell); [exact Hle' | exact Hin | intros []].
Qed.

(** X15. For a valid group index [V] on a well-formed machine,
    [sample_group(V, num_gibbs_steps, batch_size)] returns a matrix with
    one row per unit of the group and [batch_size] columns, in storage that
    did not exist before the call, holding the rows of group [V] of the
    visible state as sampling left it; the visible state itself is not
    handed out. *)
Theorem sample_group_returns_rows w V num_gibbs_steps batch_size off size :
  params_ok w -> registry_ok (rbm w) -> softmax_ok_at (rbm w) batch_size ->
  0 <= batch_size -> 0 <= V < m_num_visible_groups (rbm w) ->
  lookupZ (m_visible_state_offsets (rbm w)) V = Some off ->
  lookupZ (m_visible_group_sizes (rbm w)) V = Some size ->
  (m_batch_size (rbm w) = batch_size -> state_ok w) ->
  exists result w',
    sample_group V num_gibbs_steps batch_size w = Ok result w'
    /\ num_rows result = size /\ num_cols result = batch_size
    /\ m_batch_size (rbm w') = batch_size
    /\ heap w !! block (matrix result) = None
    /\ block (matrix result) <> block (matrix (visible_state (rbm w')))
    /\ forall i j, 0 <= i < size -> 0 <= j < batch_size ->
         is_Some (peek w' (matrix result) (j * size + i))
         /\ peek w' (matrix result) (j * size + i)
            = peek w' (matrix (visible_state (rbm w')))
                (j * m_num_visible (rbm w) + (i + off)).
Proof.
  intros Hpar Hreg Hsoft Hb HV Hoff Hsz Hsame.
  assert (forall w0, params_ok w0 -> state_ok w0 -> registry_ok (rbm w0) ->
            softmax_ok (rbm w0) -> m_batch_size (rbm w0) = batch_size ->
            m_num_visible (rbm w0) = m_num_visible (rbm w) ->
            m_num_visible_groups (rbm w0) = m_num_visible_groups (rbm w) ->
            lookupZ (m_visible_state_offsets (rbm w0)) V = Some off ->
            lookupZ (m_visible_group_sizes (rbm w0)) V = Some size ->
            heap_le no_cell w w0 ->
            exists result w',
              sample_group V num_gibbs_steps batch_size w0 = Ok result w'
              /\ num_rows result = size /\ num_cols result = batch_size
              /\ m_batch_size (rbm w') = batch_size
              /\ heap w !! block (matrix result) = None
              /\ block (matrix result) <> block (matrix (visible_state (rbm w')))
              /\ forall i j, 0 <= i < size -> 0 <= j < batch_size ->
                   is_Some (peek w' (matrix result) (j * size + i))
                   /\ peek w' (matrix result) (j * size + i)
                      = peek w' (matrix (visible_state (rbm w')))
                          (j * m_num_visible (rbm w) + (i + off))) as Hcore.
  { intros w0 Hpar0 Hstate0 Hreg0 Hsoft0 Hbs0 Hnv0 Hg0 Hoff0 Hsz0 Hle0.
    pose proof (sample_group_same w0 V num_gibbs_steps off size Hpar0 Hstate0 Hreg0 Hsoft0)
      as Hwp.
    rewrite Hbs0 in Hwp.
    apply wp_ok in Hwp as (result & w' & Hrun & w1 & Hst1 & Hres & Hs' & Hle' & Hc);
      [| lia | exact Hoff0 | exact Hsz0].
    pose proof Hstate0 as (_ & _ & _ & _ & Hvok & _).
    destruct (block_of_ok _ _ Hvok) as (vb & vo & Hvp & Hvlt).
    assert (visible_state (rbm w') = visible_state (rbm w0)) as Hvs.
    { pose proof (stable_fields _ _ Hs') as Hf'. pose proof (stable_fields _ _ (proj1 Hst1)) as Hf1.
      destruct Hf' as (_ & _ & _ & _ & _ & _ & _ & _ & _ & _ & _ & _ & _ & _ & _ & _ & _ & _
                        & _ & _ & _ & _ & ->).
      destruct Hf1 as (_ & _ & _ & _ & _ & _ & _ & _ & _ & _ & _ & _ & _ & _ & _ & _ & _ & _
                        & _ & _ & _ & _ & ->). reflexivity. }
    assert (m_batch_size (rbm w') = batch_size) as Hbs'.
    { pose proof (stable_fields _ _ Hs') as Hf'.
      pose proof (stable_fields _ _ (proj1 Hst1)) as Hf1.
      destruct Hf' as (_ & _ & _ & _ & _ & _ & _ & _ & _ & _ & _ & _ & _ & _ & _ & _ & _ & _
                        & _ & -> & _).
      destruct Hf1 as (_ & _ & _ & _ & _ & _ & _ & _ & _ & _ & _ & _ & _ & _ & _ & _ & _ & _
                        & _ & -> & _). exact Hbs0. }
    assert (length (heap w) <= length (heap w1))%nat as Hlen.
    { destruct (le_lt_dec (length (heap w)) (length (heap w1))) as [Hle | Hlt]; [exact Hle |].
      exfalso. destruct (lookup_lt_is_Some_2 (heap w) (length (heap w1)) Hlt) as [buf Hbuf].
      destruct (Hle0 _ _ Hbuf) as (buf0 & Hbuf0 & _).
      destruct (proj2 Hst1 _ _ Hbuf0) as (buf1 & Hbuf1 & _).
      apply lookup_lt_Some in Hbuf1. lia. }
    assert (length (heap w0) <= length (heap w1))%nat as Hlen0.
    { destruct (le_lt_dec (length (heap w0)) (length (heap w1))) as [Hle | Hlt]; [exact Hle |].
      exfalso. destruct (lookup_lt_is_Some_2 (heap w0) (length (heap w1)) Hlt) as [buf Hbuf].
      destruct (proj2 Hst1 _ _ Hbuf) as (buf1 & Hbuf1 & _).
      apply lookup_lt_Some in Hbuf1. lia. }
    exists result, w'. split; [exact Hrun |]. rewrite Hres. cbn [num_rows num_cols matrix block].
    split; [reflexivity |]. split; [reflexivity |]. split; [exact Hbs' |].
    split; [apply lookup_ge_None_2; lia |]. split.
    - rewrite Hvs, Hvp. cbn [block]. lia.
    - intros i j Hi Hj. rewrite Hres in Hc. cbn [matrix] in Hc.
      rewrite Hvs, <- Hnv0. apply Hc; assumption. }
  destruct (Z.eq_dec (m_batch_size (rbm w)) batch_size) as [Heq | Hne].
  - apply Hcore; auto.
    + unfold softmax_ok. rewrite Heq. exact Hsoft.
    + apply heap_le_refl.
  - destruct (set_batch_size_ready w batch_size Hpar Hreg Hne Hb)
      as (w1 & g & Hrun1 & Hr & Hpar1 & Hstate1 & Hreg1 & Hle & _).
    assert (m_batch_size (rbm w1) = batch_size) as Hbs1 by (fresh_rw Hr; reflexivity).
    assert (m_num_visible_groups (rbm w1) = m_num_visible_groups (rbm w)) as Hg1
      by (fresh_rw Hr; reflexivity).
    rewrite (sample_group_resized w w1) by (assumption || lia).
    apply Hcore; auto.
    + unfold softmax_ok. fresh_rw Hr. exact Hsoft.
    + fresh_rw Hr. reflexivity.
    + fresh_rw Hr. exact Hoff.
    + fresh_rw Hr. exact Hsz.
Qed.

End SampleGroup.

(** X15 on [with_evidence], whose batch is resized to two columns: the
    result is a one by two matrix in storage that did not exist. *)
Lemma sample_group_returns_rows_witness :
  exists result w',
    sample_group 0 3 2 with_evidence = Ok result w'
    /\ num_rows result = 1 /\ num_cols result = 2
    /\ heap with_evidence !! block (matrix result) = None.
Proof.
  destruct (sample_group_returns_rows with_evidence 0 3 2 0 1)
    as (result & w' & Hrun & Hrows & Hcols & _ & Hnew & _).
  - exact with_evidence_params.
  - exact with_evidence_registry.
  - apply with_evidence_softmax.
  - lia.
  - simpl. lia.
  - reflexivity.
  - reflexivity.
  - simpl. discriminate.
  - exists result, w'. repeat split; assumption.
Defined.

(** * Training runs to its end *)

Section TrainRuns.

Context {F : Type} {AF : Arith F} {LF : Libm F} {G : Type} {RE : RandomEngine G F}.
Context {RES : RandomEngineSpec G F}.

#[local] Open Scope M_scope.

#[local] Abbreviation RBM := (RBM F G).
#[local] Abbreviation World := (World F G).
#[local] Abbreviation M := (M F G).

Implicit Types (w : World) (r : RBM) (P : footprint) (fr : TrainFrame).





Lemma rbm_eta r :
  set_m_prng (m_prng r)
    (set_visible_state (visible_state r)
       (set_hidden_state (hidden_state r) (set_m_batch_size (m_batch_size r) r))) = r.
Proof. destruct r. reflexivity. Qed.




(** [set_batch_size] on a machine whose batch state, if it has the size
    asked for, is allocated: the state is kept, or it is new storage. *)
Lemma set_batch_size_sized w mb :
  params_ok w -> registry_ok (rbm w) -> 0 <= mb ->
  (m_batch_size (rbm w) = mb -> state_ok w) ->
  exists w1 g h v,
    set_batch_size mb w = Ok tt w1
    /\ rbm w1
       = set_m_prng g
           (set_visible_state v (set_hidden_state h (set_m_batch_size mb (rbm w))))
    /\ params_ok w1 /\ state_ok w1 /\ registry_ok (rbm w1)
    /\ heap_le no_cell w w1
    /\ ((m_batch_size (rbm w) = mb
         /\ h = hidden_state (rbm w) /\ v = visible_state (rbm w))
        \/ (m_batch_size (rbm w) <> mb
            /\ heap w !! block (matrix h) = None /\ heap w !! block (matrix v) = None)).
Proof.
  intros Hpar Hreg Hmb Hsame.
  destruct (Z.eq_dec (m_batch_size (rbm w)) mb) as [Heq | Hne].
  - exists w, (m_prng (rbm w)), (hidden_state (rbm w)), (visible_state (rbm w)).
    split; [apply set_batch_size_same; exact Heq |].
    split; [rewrite <- Heq; symmetry; apply rbm_eta |].
    split; [exact Hpar |]. split; [exact (Hsame Heq) |]. split; [exact Hreg |].
    split; [intros b buf Hb; exists buf; auto |]. left. auto.
  - destruct (set_batch_size_ready w mb Hpar Hreg Hne Hmb)
      as (w1 & g & Hrun & Hr & Hpar1 & Hstate1 & Hreg1 & Hle & _).
    exists w1, g,
      (mkSGMatrix (Ptr (length (heap w)) 0) (m_num_hidden (rbm w)) mb),
      (mkSGMatrix (Ptr (S (length (heap w))) 0) (m_num_visible (rbm w)) mb).
    split; [exact Hrun |]. split; [exact Hr |]. split; [exact Hpar1 |].
    split; [exact Hstate1 |]. split; [exact Hreg1 |]. split; [exact Hle |].
    right. cbn [matrix block]. split; [exact Hne |].
    split; apply lookup_ge_None; lia.
Qed.



Lemma bind_ret {A B : Type} (a : A) (k : A -> M B) w : bind (ret a) k w = k a w.
Proof. reflexivity. Qed.



(** A loop whose body fails in round [k] fails. *)
Lemma iter_for_undefined {A : Type} n1 n2 : forall i (body : Z -> A -> M A) a w,
  wp (iter_for n1 i body a)
    (fun a' w' => body (i + Z.of_nat n1) a' w' = Undefined) w ->
  iter_for (n1 + S n2) i body a w = Undefined.
Proof.
  induction n1 as [| n1 IH]; intros i body a w Hwp.
  - cbn [iter_for Nat.add] in *. unfold wp, ret in Hwp. rewrite Z.add_0_r in Hwp.
    unfold bind. rewrite Hwp. reflexivity.
  - cbn [iter_for Nat.add] in *. unfold wp, bind in *.
    destruct (body i a w) as [a' w' | |]; try contradiction.
    apply IH. unfold wp.
    replace (i + 1 + Z.of_nat n1) with (i + Z.of_nat (S n1)) by lia. exact Hwp.
Qed.

Lemma for_undefined lo k hi (body : Z -> M unit) w :
  lo <= k < hi ->
  wp (for_ lo k body) (fun _ w' => body k w' = Undefined) w ->
  for_ lo hi body w = Undefined.
Proof.
  intros Hk Hwp. unfold for_, fold_for in *.
  replace (Z.to_nat (hi - lo))
    with (Z.to_nat (k - lo) + S (Z.to_nat (hi - k - 1)))%nat by lia.
  apply iter_for_undefined. eapply wp_mono; [exact Hwp |].
  intros [] w' H. cbv beta.
  replace (lo + Z.of_nat (Z.to_nat (k - lo))) with k by lia. exact H.
Qed.

Lemma bind_undefined {A B : Type} (c : M A) (k : A -> M B) w :
  c w = Undefined -> bind c k w = Undefined.
Proof. intros H. unfold bind. rewrite H. reflexivity. Qed.

(** X17. [train] does not compare the mini-batch size with the number of
    training vectors. When [gd_mini_batch_size] is larger, and the inputs
    end where their storage ends, the copy of the first mini-batch into the
    visible state (lines 122-124) reads [inputs(0, training_set_size)],
    past the end of the inputs. *)
Theorem train_mini_batch_too_large w inputs :
  params_ok w -> registry_ok (rbm w) -> 0 < m_num_visible (rbm w) ->
  mat_ok w inputs -> num_rows inputs = m_num_visible (rbm w) ->
  peek w (matrix inputs) (num_rows inputs * num_cols inputs) = None ->
  num_cols inputs < gd_mini_batch_size (rbm w) ->
  (m_batch_size (rbm w) = gd_mini_batch_size (rbm w) -> state_ok w) ->
  train (DenseFeatures inputs) w = Undefined.
Proof.
  intros Hpar Hreg Hnv Hin Hrows Hend Hmb Hsame.
  destruct (emap_ok_inv _ _ Hin) as (ib & io & ibuf & Hip & Hib & Hr0 & Hc0 & Hio & Hilen).
  simpl in Hip, Hr0, Hc0, Hilen.
  assert (Z.of_nat (length ibuf) <= io + num_rows inputs * num_cols inputs) as Hfull.
  { unfold peek in Hend. rewrite Hip, Hib in Hend. unfold lookupZ in Hend.
    destruct (Z.leb_spec 0 (io + num_rows inputs * num_cols inputs)); [| nia].
    apply lookup_ge_None in Hend. lia. }
  destruct (set_batch_size_sized w (gd_mini_batch_size (rbm w)) Hpar Hreg ltac:(lia)
              Hsame)
    as (w1 & g & h & v & Hrun1 & Hr1 & Hpar1 & Hstate1 & Hreg1 & Hle1 & _).
  assert (m_num_visible (rbm w1) = m_num_visible (rbm w)
          /\ m_batch_size (rbm w1) = gd_mini_batch_size (rbm w))
    as (Fnv & Fbs) by (rewrite Hr1; simpl; repeat split; auto).
  pose proof Hstate1 as (_ & _ & _ & _ & Hvok1 & Hvrows1 & Hvcols1).
  destruct (block_of_ok w1 _ Hvok1) as (vb & vo & Hvp & Hvb).
  unfold train. cbv iota. rewrite bind_require_true. cbv beta.
  rewrite bind_get_rbm. cbv beta.
  rewrite Hrows, Z.eqb_refl, bind_require_true. cbv beta.
  destruct (Z.eqb_spec (gd_mini_batch_size (rbm w)) 0); [lia |].
  rewrite bind_ret, bind_get_rbm. cbv beta. rewrite (bind_ok _ _ _ _ _ Hrun1).
  rewrite bind_get_rbm. cbv beta.
  apply bind_undefined.
  apply (for_undefined 0 0 _); [lia |].
  match goal with |- wp (for_ 0 0 ?b) ?Q ?w0 => change (Q tt w0) end. cbv beta.
  apply (for_undefined 0 (num_cols inputs) _); [lia |].
  eapply wp_mono;
    [apply (wp_for_inv (fun w' => step (blocks [vb]) w1 w')); [apply step_refl |];
     intros j w2 Hj Hst2; apply wp_bind; unfold mat_get, mat_set;
     eapply (wp_load_step _ w1 w2 (mat_map inputs));
       [exact Hst2 | eapply emap_ok_mono; [exact Hle1 | exact Hin] | reflexivity
       | simpl; nia |];
     intros x _;
     eapply (wp_store_step (blocks [vb]) w1 w2 (mat_map (visible_state (rbm w1))) _
               vb vo);
       [exact Hst2 | exact Hvok1 | reflexivity | exact Hvp | simpl; nia
       | left; reflexivity | auto] |].
  intros [] w2 Hst2. cbv beta in *. apply bind_undefined. unfold mat_get, load.
  destruct (Hle1 _ _ Hib) as (ibuf1 & Hib1 & Hlen1 & _).
  destruct (proj2 Hst2 _ _ Hib1) as (ibuf2 & Hib2 & Hlen2 & _).
  unfold peek. rewrite Hip, Hib2. unfold lookupZ.
  destruct (Z.leb_spec 0 (io + (num_cols inputs * num_rows inputs + 0)));
    [| reflexivity].
  rewrite (proj2 (lookup_ge_None _ _)) by lia. reflexivity.
Qed.

End TrainRuns.


(** X17 on [training] with a mini-batch size of 3 and the two input columns
    of block 3. *)
Lemma train_mini_batch_too_large_witness :
  train (DenseFeatures (mkSGMatrix (Ptr 3 0) 1 2))
    (mkWorld (set_gd_mini_batch_size 3 (rbm training)) (heap training))
  = Undefined.
Proof.
  apply train_mini_batch_too_large.
  - exact training_params.
  - exact training_registry.
  - simpl. lia.
  - reflexivity.
  - reflexivity.
  - reflexivity.
  - simpl. lia.
  - simpl. intros H. discriminate H.
Defined.
